(** * easy_bootloader: frame codec, flash stream writer, flag region and
      boot decision, embedded from the C sources.

    Sources embedded here:
    - [easy_bootloader_compoents/src/easy_bootloader.c]  (the portable core,
      module [Core]);
    - [stm32f4_example/.../Compoents/easy_bootloader.c]  (the same core with
      the three-state machine and the finish frame, module [Stm32]);
    - [easy_bootloader_app.c] (application command engine, module [App]);
    - [boot_config.h] of the CH32V307 bootloader project ([ch32v307_config]).

    Conventions.  C unsigned integers are [Z] with the wrap-around written
    out ([u8], [u16], [u32]).  A byte buffer together with its length field
    ([rx_cache]/[rx_cache_len], [stream_cache]/[stream_cache_len]) is the list
    of its valid bytes, the length field being [length] of that list.  The
    porting layer ([boot_port_*]) is the environment: every call that acts on
    the flash, on the protocol UART or on the control flow (jump, reset)
    appends an event to a trace, and flash operations draw their hardware
    status from an oracle, so that failing erases and writes can be
    exercised.  The diagnostic lines ([BOOT_LOG], which is [boot_port_log]
    when BOOT_CONFIG_ENABLE_LOG is set, as it is in the shipped headers) go
    to the log sink and are not embedded: the trace says nothing about them,
    and no statement below counts them. *)

From Stdlib Require Import ZArith List Bool Lia.
From Stdlib Require Import Strings.Byte.
Import ListNotations.
Local Open Scope Z_scope.

Set Implicit Arguments.

(** ** Machine integers and bytes *)

Definition u8 (x : Z) : Z := x mod 2 ^ 8.
Definition u16 (x : Z) : Z := x mod 2 ^ 16.
Definition u32 (x : Z) : Z := x mod 2 ^ 32.

Definition b2z (b : byte) : Z := Z.of_N (Byte.to_N b).

(** [(uint8_t) x] *)
Definition z2b (x : Z) : byte :=
  match Byte.of_N (Z.to_N (u8 x)) with
  | Some b => b
  | None => x00
  end.

(** [buf[i]] for a buffer held as a list; reads past the valid bytes do not
    happen in the code below (each is guarded by a length test) and yield 0
    here. *)
Definition byte_at (buf : list byte) (i : Z) : Z :=
  b2z (nth (Z.to_nat i) buf x00).

Definition len (buf : list byte) : Z := Z.of_nat (length buf).

(** The four bytes [buf[0..3]] built by [bootloader_write_flag_region]:
    least significant byte first. *)
Definition le32 (x : Z) : list byte :=
  [ z2b (Z.land x 255);
    z2b (Z.land (Z.shiftr x 8) 255);
    z2b (Z.land (Z.shiftr x 16) 255);
    z2b (Z.land (Z.shiftr x 24) 255) ].

(** [*(volatile uint32_t * )addr] and [boot_port_flash_read(addr, &word, 4)]
    on the little-endian targets: four bytes of flash as one 32-bit word. *)
Definition read_u32 (flash : Z -> byte) (addr : Z) : Z :=
  Z.lor (Z.lor (Z.lor (b2z (flash addr))
                      (Z.shiftl (b2z (flash (addr + 1))) 8))
               (Z.shiftl (b2z (flash (addr + 2))) 16))
        (Z.shiftl (b2z (flash (addr + 3))) 24).

(** ** boot_config.h *)

Inductive boot_arch : Type :=
| BOOT_ARCH_ARM_CORTEX_M
| BOOT_ARCH_RISCV.

Record boot_config : Type := {
  BOOT_ARCH : boot_arch;
  BOOT_APP_START_ADDR : Z;
  BOOT_APP_MAX_SIZE : Z;
  BOOT_FLAG_REGION_ADDR : Z;
  BOOT_FLAG_REGION_SIZE : Z;
  BOOT_FLAG_ERASED : Z;
  BOOT_SRAM_START_ADDR : Z;
  BOOT_SRAM_END_ADDR : Z;
  BOOT_HAS_CCM : bool;
  BOOT_CCM_START_ADDR : Z;
  BOOT_CCM_END_ADDR : Z;
  BOOT_PACKET_MAX_SIZE : Z
}.

Definition BOOT_FLAG_BOOTLOADER : Z := 1.
Definition BOOT_FLAG_APP : Z := 2.

Definition BOOT_FLAG_OFFSET : Z := 0x00.
Definition BOOT_VERSION_OFFSET : Z := 0x04.
Definition BOOT_DATE_OFFSET : Z := 0x08.

Section Config.

Variable cfg : boot_config.

Definition BOOT_APP_END_ADDR : Z :=
  u32 (BOOT_APP_START_ADDR cfg + BOOT_APP_MAX_SIZE cfg - 1).
Definition BOOT_FLAG_ADDR : Z := u32 (BOOT_FLAG_REGION_ADDR cfg + BOOT_FLAG_OFFSET).
Definition BOOT_VERSION_ADDR : Z := u32 (BOOT_FLAG_REGION_ADDR cfg + BOOT_VERSION_OFFSET).
Definition BOOT_DATE_ADDR : Z := u32 (BOOT_FLAG_REGION_ADDR cfg + BOOT_DATE_OFFSET).

Definition BOOT_FRAME_FIXED_SIZE : Z := 11.
Definition BOOT_PAYLOAD_MAX_SIZE : Z :=
  u32 (BOOT_PACKET_MAX_SIZE cfg - BOOT_FRAME_FIXED_SIZE).

End Config.

(** The configuration of the CH32V307 bootloader project. *)
Definition ch32v307_config : boot_config := {|
  BOOT_ARCH := BOOT_ARCH_RISCV;
  BOOT_APP_START_ADDR := 0x00006000;
  BOOT_APP_MAX_SIZE := 0x00039800;
  BOOT_FLAG_REGION_ADDR := 0x0003F800;
  BOOT_FLAG_REGION_SIZE := 0x00000800;
  BOOT_FLAG_ERASED := 0xE339E339;
  BOOT_SRAM_START_ADDR := 0x20000000;
  BOOT_SRAM_END_ADDR := 0x2000FFFF;
  BOOT_HAS_CCM := false;
  BOOT_CCM_START_ADDR := 0;
  BOOT_CCM_END_ADDR := 0;
  BOOT_PACKET_MAX_SIZE := 1024
|}.

(** A configuration is a set of 32-bit constants. *)
Definition config_in_range (cfg : boot_config) : Prop :=
  0 <= BOOT_APP_START_ADDR cfg < 2 ^ 32 /\
  0 <= BOOT_APP_MAX_SIZE cfg < 2 ^ 32 /\
  0 <= BOOT_FLAG_REGION_ADDR cfg < 2 ^ 32 /\
  0 <= BOOT_FLAG_ERASED cfg < 2 ^ 32 /\
  0 <= BOOT_SRAM_END_ADDR cfg < 2 ^ 32 /\
  0 <= BOOT_CCM_END_ADDR cfg < 2 ^ 32 /\
  11 <= BOOT_PACKET_MAX_SIZE cfg < 2 ^ 16.

(** ** boot_port.h: the porting layer as an environment *)

Inductive boot_port_status_t : Type :=
| BOOT_PORT_OK
| BOOT_PORT_ERROR
| BOOT_PORT_TIMEOUT.

Definition status_ok (s : boot_port_status_t) : bool :=
  match s with BOOT_PORT_OK => true | _ => false end.

Inductive event : Type :=
| EvErase (addr size : Z)              (* boot_port_flash_erase, completed *)
| EvEraseFailed (addr size : Z)        (* boot_port_flash_erase, error *)
| EvProgramWord (addr : Z) (w : list byte)   (* one word programmed *)
| EvProgramFailed (addr : Z)           (* programming a word failed *)
| EvWriteRejected (addr size : Z)      (* boot_port_flash_write refused the call *)
| EvUartWrite (data : list byte)       (* boot_port_uart_write *)
| EvJump (addr : Z)                    (* boot_port_jump_to_app *)
| EvReset.                             (* boot_port_system_reset *)

Record world : Type := {
  flash : Z -> byte;          (* contents seen by reads at start-up *)
  oracle : list bool;         (* status of the next flash operations *)
  uart_rx : list byte;        (* bytes waiting in the receive ring buffer *)
  trace : list event          (* port calls so far, oldest first *)
}.

Definition emit (e : event) (w : world) : world :=
  {| flash := flash w; oracle := oracle w; uart_rx := uart_rx w;
     trace := trace w ++ [e] |}.

(** The status of one hardware flash operation: the head of the oracle, and
    success once the oracle is used up. *)
Definition draw (w : world) : bool * world :=
  match oracle w with
  | [] => (true, w)
  | ok :: rest =>
      (ok, {| flash := flash w; oracle := rest; uart_rx := uart_rx w;
              trace := trace w |})
  end.

(** [boot_port_flash_erase]: the region is erased or the driver reports an
    error. *)
Definition boot_port_flash_erase (addr size : Z) (w : world)
  : boot_port_status_t * world :=
  let (ok, w1) := draw w in
  if ok then (BOOT_PORT_OK, emit (EvErase addr size) w1)
  else (BOOT_PORT_ERROR, emit (EvEraseFailed addr size) w1).

(** The programming loop of [boot_port_flash_write]: one word per four bytes,
    stopping at the first word the hardware refuses. *)
Fixpoint program_words (addr : Z) (data : list byte) (w : world)
  : boot_port_status_t * world :=
  match data with
  | b0 :: b1 :: b2 :: b3 :: rest =>
      let (ok, w1) := draw w in
      if ok then
        program_words (u32 (addr + 4)) rest
                      (emit (EvProgramWord addr [b0; b1; b2; b3]) w1)
      else (BOOT_PORT_ERROR, emit (EvProgramFailed addr) w1)
  | _ => (BOOT_PORT_OK, w)
  end.

(** [boot_port_flash_write] (boot_port_ch32v307.c): refuses an address or a
    length that is not a multiple of 4, then programs word by word.  The
    refusal is recorded, so that a trace without [EvWriteRejected] is one in
    which every call met the contract of boot_port.h (address 4-byte aligned,
    length a multiple of 4).  The STM32F407 port runs the same loop without
    the guard; the two agree on every call that meets the contract. *)
Definition boot_port_flash_write (addr : Z) (data : list byte) (w : world)
  : boot_port_status_t * world :=
  if negb (addr mod 4 =? 0) || negb (len data mod 4 =? 0)
  then (BOOT_PORT_ERROR, emit (EvWriteRejected addr (len data)) w)
  else program_words addr data w.

Definition boot_port_uart_write (data : list byte) (w : world) : world :=
  emit (EvUartWrite data) w.

(** [boot_port_uart_read(buf, max_len)]: at most [max_len] bytes leave the
    ring buffer. *)
Definition boot_port_uart_read (max_len : Z) (w : world) : list byte * world :=
  let n := Z.to_nat max_len in
  (firstn n (uart_rx w),
   {| flash := flash w; oracle := oracle w; uart_rx := skipn n (uart_rx w);
      trace := trace w |}).

(** Bytes arriving on the serial line between two polls. *)
Definition uart_arrive (bytes : list byte) (w : world) : world :=
  {| flash := flash w; oracle := oracle w; uart_rx := uart_rx w ++ bytes;
     trace := trace w |}.

Definition g_boot_ack : list byte := [x55; xaa; xff; xfe; x55; x55].

(** ** Engine monad: context, environment, and calls that do not return *)

Section Machine.

Variable ctx_t : Type.

(** A call either returns a value, or control leaves the engine for good
    ([boot_port_system_reset], [boot_port_jump_to_app]). *)
Inductive outcome (A : Type) : Type :=
| Returns (a : A) (c : ctx_t) (w : world)
| Leaves (c : ctx_t) (w : world).

Definition M (A : Type) : Type := ctx_t -> world -> outcome A.

Definition ret {A : Type} (a : A) : M A := fun c w => Returns a c w.

Definition bind {A B : Type} (m : M A) (k : A -> M B) : M B :=
  fun c w =>
    match m c w with
    | Returns a c1 w1 => k a c1 w1
    | Leaves _ c1 w1 => Leaves B c1 w1
    end.

Definition get : M ctx_t := fun c w => Returns c c w.
Definition modify (f : ctx_t -> ctx_t) : M unit := fun c w => Returns tt (f c) w.

(** A port call that returns: it acts on the environment only. *)
Definition port {A : Type} (f : world -> A * world) : M A :=
  fun c w => let (a, w1) := f w in Returns a c w1.

Definition port_ (f : world -> world) : M unit :=
  fun c w => Returns tt c (f w).

Definition boot_port_system_reset {A : Type} : M A :=
  fun c w => Leaves A c (emit EvReset w).

Definition boot_port_jump_to_app {A : Type} (app_addr : Z) : M A :=
  fun c w => Leaves A c (emit (EvJump app_addr) w).

Definition world_of {A : Type} (o : outcome A) : world :=
  match o with Returns _ _ w => w | Leaves _ _ w => w end.

Definition ctx_of {A : Type} (o : outcome A) : ctx_t :=
  match o with Returns _ c _ => c | Leaves _ c _ => c end.

Definition value_of {A : Type} (o : outcome A) : option A :=
  match o with Returns a _ _ => Some a | Leaves _ _ _ => None end.

End Machine.

Arguments Leaves {ctx_t A} c w.
Arguments ret {ctx_t A} a _ _.
Arguments get {ctx_t} _ _.
Arguments boot_port_system_reset {ctx_t A} _ _.
Arguments boot_port_jump_to_app {ctx_t A} app_addr _ _.

Declare Scope engine_scope.
Delimit Scope engine_scope with engine.
Notation "x <- m ;; k" := (bind m (fun x => k))
  (at level 61, m at next level, right associativity) : engine_scope.
Notation "m ;;; k" := (bind m (fun _ => k))
  (at level 61, right associativity) : engine_scope.

(** ** The bootloader context [g_boot_ctx] *)

Inductive boot_state_t : Type :=
| BOOT_STATE_IDLE
| BOOT_STATE_RECEIVING
| BOOT_STATE_WAIT_FINISH.

(** [bootloader_context_t].  [state] exists in the STM32F4 example only; the
    portable core has no such field and its functions never touch it. *)
Record bootloader_context_t : Type := {
  rx_cache : list byte;        (* rx_cache[0 .. rx_cache_len) *)
  payload_buf : list byte;     (* the whole payload buffer *)
  current_addr : Z;
  stream_cache : list byte;    (* stream_cache[0 .. stream_cache_len) *)
  boot_flag : Z;
  app_version : Z;
  update_date : Z;
  state : boot_state_t;
  download_active : bool;
  initialized : bool
}.

Definition rx_cache_len (c : bootloader_context_t) : Z := len (rx_cache c).
Definition stream_cache_len (c : bootloader_context_t) : Z := len (stream_cache c).

Definition set_rx_cache (v : list byte) (c : bootloader_context_t) :=
  {| rx_cache := v; payload_buf := payload_buf c; current_addr := current_addr c;
     stream_cache := stream_cache c; boot_flag := boot_flag c;
     app_version := app_version c; update_date := update_date c;
     state := state c; download_active := download_active c;
     initialized := initialized c |}.

Definition set_payload_buf (v : list byte) (c : bootloader_context_t) :=
  {| rx_cache := rx_cache c; payload_buf := v; current_addr := current_addr c;
     stream_cache := stream_cache c; boot_flag := boot_flag c;
     app_version := app_version c; update_date := update_date c;
     state := state c; download_active := download_active c;
     initialized := initialized c |}.

Definition set_current_addr (v : Z) (c : bootloader_context_t) :=
  {| rx_cache := rx_cache c; payload_buf := payload_buf c; current_addr := v;
     stream_cache := stream_cache c; boot_flag := boot_flag c;
     app_version := app_version c; update_date := update_date c;
     state := state c; download_active := download_active c;
     initialized := initialized c |}.

Definition set_stream_cache (v : list byte) (c : bootloader_context_t) :=
  {| rx_cache := rx_cache c; payload_buf := payload_buf c;
     current_addr := current_addr c;
     stream_cache := v; boot_flag := boot_flag c;
     app_version := app_version c; update_date := update_date c;
     state := state c; download_active := download_active c;
     initialized := initialized c |}.

Definition set_flag_region (f v d : Z) (c : bootloader_context_t) :=
  {| rx_cache := rx_cache c; payload_buf := payload_buf c;
     current_addr := current_addr c;
     stream_cache := stream_cache c; boot_flag := f;
     app_version := v; update_date := d;
     state := state c; download_active := download_active c;
     initialized := initialized c |}.

Definition set_state (v : boot_state_t) (c : bootloader_context_t) :=
  {| rx_cache := rx_cache c; payload_buf := payload_buf c;
     current_addr := current_addr c;
     stream_cache := stream_cache c; boot_flag := boot_flag c;
     app_version := app_version c; update_date := update_date c;
     state := v; download_active := download_active c;
     initialized := initialized c |}.

Definition set_download_active (v : bool) (c : bootloader_context_t) :=
  {| rx_cache := rx_cache c; payload_buf := payload_buf c;
     current_addr := current_addr c;
     stream_cache := stream_cache c; boot_flag := boot_flag c;
     app_version := app_version c; update_date := update_date c;
     state := state c; download_active := v;
     initialized := initialized c |}.

Definition set_initialized (v : bool) (c : bootloader_context_t) :=
  {| rx_cache := rx_cache c; payload_buf := payload_buf c;
     current_addr := current_addr c;
     stream_cache := stream_cache c; boot_flag := boot_flag c;
     app_version := app_version c; update_date := update_date c;
     state := state c; download_active := download_active c;
     initialized := v |}.

Definition BM := M bootloader_context_t.

Local Open Scope engine_scope.

(** ** Functions shared verbatim by the portable core and the STM32F4 example *)

Section Shared.

Variable cfg : boot_config.

(** [bootloader_read_flag_region]: three 4-byte flash reads. *)
Definition bootloader_read_flag_region : BM unit :=
  fun c w =>
    Returns tt
      (set_flag_region (read_u32 (flash w) (BOOT_FLAG_ADDR cfg))
                       (read_u32 (flash w) (BOOT_VERSION_ADDR cfg))
                       (read_u32 (flash w) (BOOT_DATE_ADDR cfg)) c)
      w.

(** The Cortex-M branch of [bootloader_check_app_valid]. *)
Definition check_app_valid_cortex_m (app_word0 app_word1 : Z) : bool :=
  let app_stack := app_word0 in
  let app_reset := app_word1 in
  let stack_valid :=
    (BOOT_SRAM_START_ADDR cfg <=? app_stack) && (app_stack <=? BOOT_SRAM_END_ADDR cfg) in
  let stack_valid :=
    if BOOT_HAS_CCM cfg then
      if negb stack_valid then
        (BOOT_CCM_START_ADDR cfg <=? app_stack) && (app_stack <=? BOOT_CCM_END_ADDR cfg)
      else stack_valid
    else stack_valid in
  if negb stack_valid then false
  else if (app_reset <? BOOT_APP_START_ADDR cfg) || (app_reset >? BOOT_APP_END_ADDR cfg)
  then false
  else if Z.land app_reset 1 =? 0 then false
  else if (app_stack =? BOOT_FLAG_ERASED cfg) || (app_reset =? BOOT_FLAG_ERASED cfg)
  then false
  else true.

(** The RISC-V branch of [bootloader_check_app_valid]. *)
Definition check_app_valid_riscv (app_word0 app_word1 : Z) : bool :=
  let app_first_word := app_word0 in
  let app_entry := app_word1 in
  if (app_entry <? BOOT_APP_START_ADDR cfg) || (app_entry >? BOOT_APP_END_ADDR cfg)
  then false
  else if negb (Z.land app_entry 1 =? 0) then false
  else if (app_first_word =? BOOT_FLAG_ERASED cfg) || (app_entry =? BOOT_FLAG_ERASED cfg)
  then false
  else true.

(** [bootloader_check_app_valid]: the [#if] on [BOOT_ARCH] as a match. *)
Definition bootloader_check_app_valid (w : world) : bool :=
  let app_word0 := read_u32 (flash w) (BOOT_APP_START_ADDR cfg) in
  let app_word1 := read_u32 (flash w) (u32 (BOOT_APP_START_ADDR cfg + 4)) in
  match BOOT_ARCH cfg with
  | BOOT_ARCH_ARM_CORTEX_M => check_app_valid_cortex_m app_word0 app_word1
  | BOOT_ARCH_RISCV => check_app_valid_riscv app_word0 app_word1
  end.

(** [easy_bootloader_init], parameterised by the [bootloader_reset_context]
    of the variant (the two sources differ only there). *)
Definition easy_bootloader_init_with (reset_context : BM unit) : BM unit :=
  reset_context ;;;
  bootloader_read_flag_region ;;;
  c <- get ;;
  should_jump <-
    (if boot_flag c =? BOOT_FLAG_BOOTLOADER then ret false
     else
       valid <- port (fun w => (bootloader_check_app_valid w, w)) ;;
       if valid then
         if boot_flag c =? BOOT_FLAG_APP then ret true
         else if boot_flag c =? BOOT_FLAG_ERASED cfg then ret false
         else ret false
       else ret false) ;;
  (if should_jump then boot_port_jump_to_app (BOOT_APP_START_ADDR cfg)
   else ret tt) ;;;
  modify (set_initialized true).

(** [bootloader_poll_uart]: one non-blocking read into the free part of
    [rx_cache]. *)
Definition bootloader_poll_uart : BM unit :=
  c <- get ;;
  let space := u32 (BOOT_PACKET_MAX_SIZE cfg - rx_cache_len c) in
  if space =? 0 then ret tt
  else
    received <- port (boot_port_uart_read space) ;;
    if 0 <? len received
    then modify (set_rx_cache (rx_cache c ++ received))
    else ret tt.

(** [bootloader_consume_cache]. *)
Definition bootloader_consume_cache (count : Z) (c : bootloader_context_t)
  : bootloader_context_t :=
  if count >=? rx_cache_len c then set_rx_cache [] c
  else set_rx_cache (skipn (Z.to_nat count) (rx_cache c)) c.

(** The checksum loop [for (idx = from; idx < to; idx++) calc_crc += rx_cache[idx]]
    on a [uint16_t] accumulator; [n] is the number of iterations. *)
Fixpoint checksum_loop (cache : list byte) (idx : Z) (n : nat) (calc_crc : Z) : Z :=
  match n with
  | O => calc_crc
  | S n' => checksum_loop cache (idx + 1) n' (u16 (calc_crc + byte_at cache idx))
  end.

(** What one turn of the [while] loop of [bootloader_try_extract_frame]
    decides. *)
Inductive scan_step : Type :=
| SkipBytes (count : Z)               (* bootloader_consume_cache(count); continue *)
| Incomplete                          (* return false *)
| Accept (remain packet_len frame_size : Z).  (* copy out, consume, return true *)

Definition frame_candidate (cache : list byte) : scan_step :=
  if negb (byte_at cache 0 =? 0x55) || negb (byte_at cache 1 =? 0xAA) then SkipBytes 1
  else
    let remain := Z.lor (Z.lor (Z.shiftl (byte_at cache 2) 16)
                               (Z.shiftl (byte_at cache 3) 8))
                        (byte_at cache 4) in
    let packet_len := u16 (Z.lor (Z.shiftl (byte_at cache 5) 8) (byte_at cache 6)) in
    if packet_len >? BOOT_PAYLOAD_MAX_SIZE cfg then SkipBytes 2
    else
      let frame_size := u32 (BOOT_FRAME_FIXED_SIZE + packet_len) in
      if len cache <? frame_size then Incomplete
      else
        let checksum_pos := u32 (7 + packet_len) in
        let tail_pos := u32 (checksum_pos + 2) in
        if u32 (tail_pos + 1) >=? frame_size then SkipBytes 2
        else
          let received_crc :=
            u16 (Z.lor (Z.shiftl (byte_at cache checksum_pos) 8)
                       (byte_at cache (checksum_pos + 1))) in
          let calc_crc := checksum_loop cache 5 (Z.to_nat (checksum_pos - 5)) 0 in
          if negb (calc_crc =? received_crc)
             || negb (byte_at cache tail_pos =? 0x55)
             || negb (byte_at cache (tail_pos + 1) =? 0x55)
          then SkipBytes 2
          else Accept remain packet_len frame_size.

(** The [while] loop of [bootloader_try_extract_frame].  Every turn that
    continues removes at least one byte, so [fuel = length rx_cache] turns are
    enough; [None] is running out of fuel (never reached, see
    [extract_loop_total]). *)
Fixpoint extract_loop (fuel : nat) (c : bootloader_context_t)
  : option (option (Z * Z) * bootloader_context_t) :=
  if rx_cache_len c <? BOOT_FRAME_FIXED_SIZE then Some (None, c)
  else
    match fuel with
    | O => None
    | S fuel' =>
        match frame_candidate (rx_cache c) with
        | SkipBytes count => extract_loop fuel' (bootloader_consume_cache count c)
        | Incomplete => Some (None, c)
        | Accept remain packet_len frame_size =>
            let c1 :=
              if 0 <? packet_len then
                set_payload_buf
                  (firstn (Z.to_nat packet_len) (skipn 7 (rx_cache c))
                   ++ skipn (Z.to_nat packet_len) (payload_buf c)) c
              else c in
            Some (Some (remain, packet_len),
                  bootloader_consume_cache (u16 frame_size) c1)
        end
    end.

(** [bootloader_try_extract_frame]: [Some (remaining, payload_len)] is
    [true] with the two output parameters set. *)
Definition bootloader_try_extract_frame (c : bootloader_context_t)
  : option (Z * Z) * bootloader_context_t :=
  match extract_loop (length (rx_cache c)) c with
  | Some r => r
  | None => (None, c)
  end.

(** [bootloader_write_flag_region]: erase the flag region, then the three
    words, stopping at the first failure. *)
Definition bootloader_write_flag_region (flag version date : Z)
  : BM boot_port_status_t :=
  status <- port (boot_port_flash_erase (BOOT_FLAG_REGION_ADDR cfg)
                                        (BOOT_FLAG_REGION_SIZE cfg)) ;;
  if negb (status_ok status) then ret status
  else
    status <- port (boot_port_flash_write (BOOT_FLAG_ADDR cfg) (le32 flag)) ;;
    if negb (status_ok status) then ret status
    else
      status <- port (boot_port_flash_write (BOOT_VERSION_ADDR cfg) (le32 version)) ;;
      if negb (status_ok status) then ret status
      else port (boot_port_flash_write (BOOT_DATE_ADDR cfg) (le32 date)).

(** [bootloader_prepare_download]. *)
Definition bootloader_prepare_download : BM boot_port_status_t :=
  c <- get ;;
  if download_active c then ret BOOT_PORT_OK
  else
    status <- port (boot_port_flash_erase (BOOT_APP_START_ADDR cfg)
                                          (BOOT_APP_MAX_SIZE cfg)) ;;
    if negb (status_ok status) then ret status
    else
      modify (fun c => set_download_active true
                         (set_stream_cache []
                            (set_current_addr (BOOT_APP_START_ADDR cfg) c))) ;;;
      ret BOOT_PORT_OK.

(** The top-up loop of [bootloader_stream_write]:
    [while (stream_cache_len < 4 && offset < len)
       stream_cache[stream_cache_len++] = data[offset++];]
    returns the carry and the bytes of [data] from [offset] on. *)
Fixpoint top_up (cache data : list byte) : list byte * list byte :=
  match data with
  | [] => (cache, [])
  | b :: rest =>
      if len cache <? 4 then top_up (cache ++ [b]) rest
      else (cache, data)
  end.

(** First block of [bootloader_stream_write]:
    [if (stream_cache_len > 0) { top up; write the carry once it is full }].
    Returns the status and the bytes of [data] not yet consumed
    ([&data[offset]], [len - offset]). *)
Definition stream_write_carry (data : list byte)
  : BM (boot_port_status_t * list byte) :=
  c <- get ;;
  if 0 <? stream_cache_len c then
    let (cache, rest) := top_up (stream_cache c) data in
    modify (set_stream_cache cache) ;;;
    if len cache =? 4 then
      status <- port (boot_port_flash_write (current_addr c) cache) ;;
      if negb (status_ok status) then ret (status, rest)
      else
        modify (fun c => set_stream_cache []
                           (set_current_addr (u32 (current_addr c + 4)) c)) ;;;
        ret (BOOT_PORT_OK, rest)
    else ret (BOOT_PORT_OK, rest)
  else ret (BOOT_PORT_OK, data).

(** Second block: the largest multiple of 4 bytes goes to flash in one call,
    what is left becomes the carry. *)
Definition stream_write_aligned (rest : list byte) : BM boot_port_status_t :=
  let remaining := len rest in
  let aligned := Z.land remaining 0xFFFFFFFC in
  r <- (if 0 <? aligned then
          c <- get ;;
          status <- port (boot_port_flash_write (current_addr c)
                            (firstn (Z.to_nat aligned) rest)) ;;
          if negb (status_ok status) then ret (status, rest)
          else
            modify (fun c => set_current_addr (u32 (current_addr c + aligned)) c) ;;;
            ret (BOOT_PORT_OK, skipn (Z.to_nat aligned) rest)
        else ret (BOOT_PORT_OK, rest)) ;;
  let (status, rest) := r in
  if negb (status_ok status) then ret status
  else
    (if 0 <? len rest then modify (set_stream_cache rest) else ret tt) ;;;
    ret BOOT_PORT_OK.

(** [bootloader_stream_write(data, len)]; the pointer and its length are the
    list [data] ([len] is a [uint32_t], so [len data < 2^32]). *)
Definition bootloader_stream_write (data : list byte) : BM boot_port_status_t :=
  if len data =? 0 then ret BOOT_PORT_OK
  else
    r <- stream_write_carry data ;;
    let (status, rest) := r in
    if negb (status_ok status) then ret status
    else stream_write_aligned rest.

(** [bootloader_stream_flush]: pad the carry with 0xFF and write it. *)
Definition bootloader_stream_flush : BM boot_port_status_t :=
  c <- get ;;
  if stream_cache_len c =? 0 then ret BOOT_PORT_OK
  else
    let padded :=
      firstn 4 (stream_cache c
                ++ repeat xff (Z.to_nat (4 - stream_cache_len c))) in
    status <- port (boot_port_flash_write (current_addr c) padded) ;;
    (if status_ok status then
       modify (fun c => set_stream_cache []
                          (set_current_addr (u32 (current_addr c + 4)) c))
     else ret tt) ;;;
    ret status.

(** The range check of [bootloader_handle_payload]: [true] is "flash range
    overflow". *)
Definition flash_range_overflow (c : bootloader_context_t) (payload_len : Z) : bool :=
  let future_bytes := u32 (stream_cache_len c + payload_len) in
  let worst_case := Z.land (u32 (future_bytes + 3)) 0xFFFFFFFC in
  u32 (current_addr c + worst_case)
  >? u32 (BOOT_APP_START_ADDR cfg + BOOT_APP_MAX_SIZE cfg).

End Shared.

(** ** The portable core: easy_bootloader_compoents/src/easy_bootloader.c *)

Module Core.
Section WithConfig.

Variable cfg : boot_config.

(** [memset(&g_boot_ctx, 0, sizeof g_boot_ctx); current_addr = BOOT_APP_START_ADDR]. *)
Definition bootloader_reset_context : BM unit :=
  modify (fun _ =>
    {| rx_cache := []; 
       payload_buf := repeat x00 (Z.to_nat (BOOT_PAYLOAD_MAX_SIZE cfg));
       current_addr := BOOT_APP_START_ADDR cfg;
       stream_cache := [];
       boot_flag := 0; app_version := 0; update_date := 0;
       state := BOOT_STATE_IDLE;
       download_active := false;
       initialized := false |}).

Definition easy_bootloader_init : BM unit :=
  easy_bootloader_init_with cfg bootloader_reset_context.

(** [bootloader_handle_payload]: the last frame ([remaining == 0]) flushes,
    writes the flag region, acknowledges and resets.  Its [BOOT_LOG] lines,
    and those of [bootloader_prepare_download], are not embedded. *)
Definition bootloader_handle_payload (remaining payload_len : Z)
  : BM boot_port_status_t :=
  status <- bootloader_prepare_download cfg ;;
  if negb (status_ok status) then ret status
  else
    c <- get ;;
    if flash_range_overflow cfg c payload_len then ret BOOT_PORT_ERROR
    else
      status <- bootloader_stream_write
                  (firstn (Z.to_nat payload_len) (payload_buf c)) ;;
      if negb (status_ok status) then ret status
      else if remaining =? 0 then
        status <- bootloader_stream_flush ;;
        if status_ok status then
          modify (set_download_active false) ;;;
          c <- get ;;
          status <- bootloader_write_flag_region cfg BOOT_FLAG_APP
                      (app_version c) (update_date c) ;;
          if status_ok status then
            port_ (boot_port_uart_write g_boot_ack) ;;;
            boot_port_system_reset
          else ret status
        else ret status
      else
        port_ (boot_port_uart_write g_boot_ack) ;;;
        ret status.

(** The [while] loop of [easy_bootloader_run]; each extracted frame removes
    at least 11 bytes from [rx_cache], which bounds the number of turns. *)
Fixpoint run_loop (fuel : nat) (c : bootloader_context_t) (w : world)
  : option (outcome bootloader_context_t unit) :=
  match bootloader_try_extract_frame cfg c with
  | (None, c1) => Some (Returns tt c1 w)
  | (Some (remaining, payload_len), c1) =>
      match fuel with
      | O => None
      | S fuel' =>
          match bootloader_handle_payload remaining payload_len c1 w with
          | Returns status c2 w2 =>
              if negb (status_ok status) then Some (Returns tt c2 w2)
              else run_loop fuel' c2 w2
          | Leaves c2 w2 => Some (Leaves c2 w2)
          end
      end
  end.

Definition easy_bootloader_run : BM unit :=
  fun c w =>
    if negb (initialized c) then Returns tt c w
    else
      match bootloader_poll_uart cfg c w with
      | Returns _ c1 w1 =>
          match run_loop (length (rx_cache c1)) c1 w1 with
          | Some o => o
          | None => Returns tt c1 w1
          end
      | Leaves c1 w1 => Leaves c1 w1
      end.

End WithConfig.
End Core.

(** ** The STM32F4 example: state machine and finish frame *)

Module Stm32.
Section WithConfig.

Variable cfg : boot_config.

Definition BOOT_FINISH_FRAME_LEN : Z := 14.

(** [bootloader_reset_context]: as in the core, but [initialized] is kept and
    [state] is set to idle. *)
Definition bootloader_reset_context : BM unit :=
  modify (fun c =>
    {| rx_cache := []; 
       payload_buf := repeat x00 (Z.to_nat (BOOT_PAYLOAD_MAX_SIZE cfg));
       current_addr := BOOT_APP_START_ADDR cfg;
       stream_cache := [];
       boot_flag := 0; app_version := 0; update_date := 0;
       state := BOOT_STATE_IDLE;
       download_active := false;
       initialized := initialized c |}).

Definition easy_bootloader_init : BM unit :=
  easy_bootloader_init_with cfg bootloader_reset_context.

(** [bootloader_handle_payload]: the last frame flushes and moves to
    WAIT_FINISH; every accepted frame is acknowledged.  Its [BOOT_LOG] lines
    (one of them on the "flash range overflow" path) are not embedded. *)
Definition bootloader_handle_payload (remaining payload_len : Z)
  : BM boot_port_status_t :=
  status <- bootloader_prepare_download cfg ;;
  if negb (status_ok status) then ret status
  else
    modify (set_state BOOT_STATE_RECEIVING) ;;;
    c <- get ;;
    if flash_range_overflow cfg c payload_len then ret BOOT_PORT_ERROR
    else
      status <- bootloader_stream_write
                  (firstn (Z.to_nat payload_len) (payload_buf c)) ;;
      if negb (status_ok status) then ret status
      else
        status <- (if remaining =? 0 then
                     status <- bootloader_stream_flush ;;
                     (if status_ok status then
                        modify (fun c => set_state BOOT_STATE_WAIT_FINISH
                                           (set_download_active false c))
                      else ret tt) ;;;
                     ret status
                   else ret status) ;;
        (if status_ok status then port_ (boot_port_uart_write g_boot_ack)
         else ret tt) ;;;
        ret status.

(** One turn of the [while] loop of [bootloader_try_extract_finish_frame]. *)
Definition finish_candidate (cache : list byte) : scan_step :=
  if negb (byte_at cache 0 =? 0x55) || negb (byte_at cache 1 =? 0xAA) then SkipBytes 1
  else if (byte_at cache 10 =? 0xFF) && (byte_at cache 11 =? 0xFD)
          && (byte_at cache 12 =? 0x55) && (byte_at cache 13 =? 0x55)
  then
    let version := Z.lor (Z.lor (Z.lor (Z.shiftl (byte_at cache 2) 24)
                                       (Z.shiftl (byte_at cache 3) 16))
                                (Z.shiftl (byte_at cache 4) 8))
                         (byte_at cache 5) in
    let date := Z.lor (Z.lor (Z.lor (Z.shiftl (byte_at cache 6) 24)
                                    (Z.shiftl (byte_at cache 7) 16))
                             (Z.shiftl (byte_at cache 8) 8))
                      (byte_at cache 9) in
    Accept version date BOOT_FINISH_FRAME_LEN
  else SkipBytes 2.

Fixpoint finish_loop (fuel : nat) (c : bootloader_context_t)
  : option (option (Z * Z) * bootloader_context_t) :=
  if rx_cache_len c <? BOOT_FINISH_FRAME_LEN then Some (None, c)
  else
    match fuel with
    | O => None
    | S fuel' =>
        match finish_candidate (rx_cache c) with
        | SkipBytes count => finish_loop fuel' (bootloader_consume_cache count c)
        | Incomplete => Some (None, c)
        | Accept version date frame_len =>
            Some (Some (version, date), bootloader_consume_cache frame_len c)
        end
    end.

(** [bootloader_try_extract_finish_frame]: [Some (version, date)] is [true]. *)
Definition bootloader_try_extract_finish_frame (c : bootloader_context_t)
  : option (Z * Z) * bootloader_context_t :=
  match finish_loop (length (rx_cache c)) c with
  | Some r => r
  | None => (None, c)
  end.

(** [bootloader_handle_finish_frame].  Its [BOOT_LOG] lines, written between
    the flag update, the Ack and the reset, are not embedded. *)
Definition bootloader_handle_finish_frame (version date : Z)
  : BM boot_port_status_t :=
  c <- get ;;
  match state c with
  | BOOT_STATE_WAIT_FINISH =>
      status <- bootloader_write_flag_region cfg BOOT_FLAG_APP version date ;;
      if negb (status_ok status) then ret status
      else
        port_ (boot_port_uart_write g_boot_ack) ;;;
        boot_port_system_reset
  | _ => ret BOOT_PORT_ERROR
  end.

Fixpoint run_loop (fuel : nat) (c : bootloader_context_t) (w : world)
  : option (outcome bootloader_context_t unit) :=
  match bootloader_try_extract_frame cfg c with
  | (None, c1) => Some (Returns tt c1 w)
  | (Some (remaining, payload_len), c1) =>
      match fuel with
      | O => None
      | S fuel' =>
          match bootloader_handle_payload remaining payload_len c1 w with
          | Returns status c2 w2 =>
              if negb (status_ok status)
              then Some (bootloader_reset_context c2 w2)
              else run_loop fuel' c2 w2
          | Leaves c2 w2 => Some (Leaves c2 w2)
          end
      end
  end.

Definition easy_bootloader_run : BM unit :=
  fun c w =>
    if negb (initialized c) then Returns tt c w
    else
      match bootloader_poll_uart cfg c w with
      | Returns _ c1 w1 =>
          match state c1 with
          | BOOT_STATE_WAIT_FINISH =>
              match bootloader_try_extract_finish_frame c1 with
              | (Some (version, date), c2) =>
                  (status <- bootloader_handle_finish_frame version date ;;
                   if negb (status_ok status) then bootloader_reset_context
                   else ret tt) c2 w1
              | (None, c2) => Returns tt c2 w1
              end
          | _ =>
              match run_loop (length (rx_cache c1)) c1 w1 with
              | Some o => o
              | None => Returns tt c1 w1
              end
          end
      | Leaves c1 w1 => Leaves c1 w1
      end.

End WithConfig.
End Stm32.

(** ** The application command engine: easy_bootloader_app.c *)

Module App.

(** boot_config_app.h *)
Record boot_config_app : Type := {
  BOOT_APP_FLAG_REGION_ADDR : Z;
  BOOT_APP_FLAG_REGION_SIZE : Z
}.

Definition ch32v307_config_app : boot_config_app := {|
  BOOT_APP_FLAG_REGION_ADDR := 0x0003F800;
  BOOT_APP_FLAG_REGION_SIZE := 0x00000800
|}.

Inductive boot_port_app_status_t : Type :=
| BOOT_PORT_APP_OK
| BOOT_PORT_APP_ERROR.

Definition app_status_ok (s : boot_port_app_status_t) : bool :=
  match s with BOOT_PORT_APP_OK => true | BOOT_PORT_APP_ERROR => false end.

Definition app_status (s : boot_port_status_t) : boot_port_app_status_t :=
  if status_ok s then BOOT_PORT_APP_OK else BOOT_PORT_APP_ERROR.

(** The application's port has the same flash driver as the bootloader's. *)
Definition boot_port_app_flash_erase (addr size : Z) (w : world)
  : boot_port_app_status_t * world :=
  let (s, w1) := boot_port_flash_erase addr size w in (app_status s, w1).

Definition boot_port_app_flash_write (addr : Z) (data : list byte) (w : world)
  : boot_port_app_status_t * world :=
  let (s, w1) := boot_port_flash_write addr data w in (app_status s, w1).

Definition boot_port_app_uart_write (data : list byte) (w : world) : world :=
  emit (EvUartWrite data) w.

(** [bootloader_app_context_t] *)
Record bootloader_app_context_t : Type := {
  rx_cache : list byte;
  boot_flag : Z;
  app_version : Z;
  update_date : Z;
  initialized : bool
}.

Definition AM := M bootloader_app_context_t.

Section WithConfig.

Variable cfg : boot_config_app.

Definition BOOT_APP_FLAG_ADDR : Z := u32 (BOOT_APP_FLAG_REGION_ADDR cfg + 0x00).
Definition BOOT_APP_VERSION_ADDR : Z := u32 (BOOT_APP_FLAG_REGION_ADDR cfg + 0x04).
Definition BOOT_APP_DATE_ADDR : Z := u32 (BOOT_APP_FLAG_REGION_ADDR cfg + 0x08).

(** [app_write_flag_region].  The source ends with the date word written,
    its status tested, and the same write issued again as the return value. *)
Definition app_write_flag_region (flag version date : Z)
  : AM boot_port_app_status_t :=
  status <- port (boot_port_app_flash_erase (BOOT_APP_FLAG_REGION_ADDR cfg)
                                            (BOOT_APP_FLAG_REGION_SIZE cfg)) ;;
  if negb (app_status_ok status) then ret status
  else
    status <- port (boot_port_app_flash_write BOOT_APP_FLAG_ADDR (le32 flag)) ;;
    if negb (app_status_ok status) then ret status
    else
      status <- port (boot_port_app_flash_write BOOT_APP_VERSION_ADDR (le32 version)) ;;
      if negb (app_status_ok status) then ret status
      else
        status <- port (boot_port_app_flash_write BOOT_APP_DATE_ADDR (le32 date)) ;;
        if negb (app_status_ok status) then ret status
        else port (boot_port_app_flash_write BOOT_APP_DATE_ADDR (le32 date)).

(** [app_handle_start_flash]. *)
Definition app_handle_start_flash (new_version new_date : Z) : AM unit :=
  c <- get ;;
  if new_version =? app_version c then ret tt
  else
    port_ (boot_port_app_uart_write g_boot_ack) ;;;
    status <- app_write_flag_region BOOT_FLAG_BOOTLOADER new_version new_date ;;
    if negb (app_status_ok status) then ret tt
    else boot_port_system_reset.

End WithConfig.

(** Command frames of the application side:
    55 AA FF DD 55 55 (query version), 55 AA FF CC 55 55 (query date),
    55 AA ver[4] date[4] FF EE 55 55 (start flash). *)
Definition CMD_QUERY_VERSION_LEN : Z := 6.
Definition CMD_QUERY_DATE_LEN : Z := 6.
Definition CMD_START_FLASH_LEN : Z := 14.

(** [sizeof(g_app_ctx.rx_cache)]: twice the longest command. *)
Definition APP_RX_CACHE_SIZE : Z := CMD_START_FLASH_LEN * 2.

(** [bl_app_cmd_t]; the start-flash command carries the two output
    parameters [*version] and [*date] of [app_check_dataframe], which the
    source sets for that command only. *)
Inductive bl_app_cmd_t : Type :=
| BL_APP_CMD_NONE
| BL_APP_CMD_QUERY_VERSION
| BL_APP_CMD_QUERY_DATE
| BL_APP_CMD_START_FLASH (version date : Z).

Definition app_rx_cache_len (c : bootloader_app_context_t) : Z := len (rx_cache c).

Definition app_set_rx_cache (v : list byte) (c : bootloader_app_context_t) :=
  {| rx_cache := v; boot_flag := boot_flag c; app_version := app_version c;
     update_date := update_date c; initialized := initialized c |}.

(** The application's port reads the same receive ring buffer. *)
Definition boot_port_app_uart_read (max_len : Z) (w : world) : list byte * world :=
  boot_port_uart_read max_len w.

(** [app_reset_context]: [memset(&g_app_ctx, 0, sizeof g_app_ctx)]. *)
Definition app_reset_context : AM unit :=
  modify (fun _ =>
    {| rx_cache := []; boot_flag := 0; app_version := 0; update_date := 0;
       initialized := false |}).

(** [app_poll_uart]. *)
Definition app_poll_uart : AM unit :=
  c <- get ;;
  let space := u32 (APP_RX_CACHE_SIZE - app_rx_cache_len c) in
  if space =? 0 then ret tt
  else
    received <- port (boot_port_app_uart_read space) ;;
    if 0 <? len received
    then modify (app_set_rx_cache (rx_cache c ++ received))
    else ret tt.

(** [app_consume_cache]. *)
Definition app_consume_cache (count : Z) (c : bootloader_app_context_t)
  : bootloader_app_context_t :=
  if count >=? app_rx_cache_len c then app_set_rx_cache [] c
  else app_set_rx_cache (skipn (Z.to_nat count) (rx_cache c)) c.

(** What one turn of the [while] loop of [app_check_dataframe] decides. *)
Inductive app_scan_step : Type :=
| AppSkip (count : Z)                          (* app_consume_cache(count), next turn *)
| AppCommand (cmd : bl_app_cmd_t) (count : Z). (* app_consume_cache(count); return cmd *)

Definition app_candidate (cache : list byte) : app_scan_step :=
  if negb (byte_at cache 0 =? 0x55) || negb (byte_at cache 1 =? 0xAA) then AppSkip 1
  else if (len cache >=? CMD_QUERY_VERSION_LEN)
          && ((byte_at cache 2 =? 0xFF) && (byte_at cache 3 =? 0xDD)
              && (byte_at cache 4 =? 0x55) && (byte_at cache 5 =? 0x55))
  then AppCommand BL_APP_CMD_QUERY_VERSION CMD_QUERY_VERSION_LEN
  else if (len cache >=? CMD_QUERY_DATE_LEN)
          && ((byte_at cache 2 =? 0xFF) && (byte_at cache 3 =? 0xCC)
              && (byte_at cache 4 =? 0x55) && (byte_at cache 5 =? 0x55))
  then AppCommand BL_APP_CMD_QUERY_DATE CMD_QUERY_DATE_LEN
  else if (len cache >=? CMD_START_FLASH_LEN)
          && ((byte_at cache 10 =? 0xFF) && (byte_at cache 11 =? 0xEE)
              && (byte_at cache 12 =? 0x55) && (byte_at cache 13 =? 0x55))
  then
    let version := Z.lor (Z.lor (Z.lor (Z.shiftl (byte_at cache 2) 24)
                                       (Z.shiftl (byte_at cache 3) 16))
                                (Z.shiftl (byte_at cache 4) 8))
                         (byte_at cache 5) in
    let date := Z.lor (Z.lor (Z.lor (Z.shiftl (byte_at cache 6) 24)
                                    (Z.shiftl (byte_at cache 7) 16))
                             (Z.shiftl (byte_at cache 8) 8))
                      (byte_at cache 9) in
    AppCommand (BL_APP_CMD_START_FLASH version date) CMD_START_FLASH_LEN
  else AppSkip 2.

(** The [while] loop of [app_check_dataframe]; every turn that continues
    removes at least one byte, so [length rx_cache] turns are enough ([None]
    is running out of fuel). *)
Fixpoint app_check_loop (fuel : nat) (c : bootloader_app_context_t)
  : option (bl_app_cmd_t * bootloader_app_context_t) :=
  if app_rx_cache_len c <? CMD_QUERY_VERSION_LEN then Some (BL_APP_CMD_NONE, c)
  else
    match fuel with
    | O => None
    | S fuel' =>
        match app_candidate (rx_cache c) with
        | AppSkip count => app_check_loop fuel' (app_consume_cache count c)
        | AppCommand cmd count => Some (cmd, app_consume_cache count c)
        end
    end.

(** [app_check_dataframe]. *)
Definition app_check_dataframe (c : bootloader_app_context_t)
  : bl_app_cmd_t * bootloader_app_context_t :=
  match app_check_loop (length (rx_cache c)) c with
  | Some r => r
  | None => (BL_APP_CMD_NONE, c)
  end.

(** [app_send_string]: the bytes of the string up to its terminator. *)
Definition app_send_string (str : list byte) : AM unit :=
  port_ (boot_port_app_uart_write str).

(** The digit loop of [app_uint_to_str]:
    [while (value > 0) { temp[i++] = '0' + (value % 10); value /= 10; }];
    [temp] is the part of the buffer written so far.  A turn at least halves
    [value], so [log2 value + 1] turns are enough. *)
Fixpoint uint_digits_loop (fuel : nat) (value : Z) (temp : list byte) : list byte :=
  match fuel with
  | O => temp
  | S fuel' =>
      if 0 <? value
      then uint_digits_loop fuel' (value / 10) (temp ++ [z2b (0x30 + value mod 10)])
      else temp
  end.

(** [app_uint_to_str(value, buf, width)]: the characters left in [buf] before
    the terminator.  [temp] holds 12 characters and [buf] is the caller's;
    the lengths are bounded in [app_uint_to_str_length]. *)
Definition app_uint_to_str (value : Z) (width : Z) : list byte :=
  let temp :=
    if value =? 0 then [x30]
    else uint_digits_loop (S (Z.to_nat (Z.log2 value))) value [] in
  let temp := temp ++ repeat x30 (Z.to_nat (width - len temp)) in
  rev temp.

(** "version:", "-" and "\r\n". *)
Definition str_version : list byte := [x76; x65; x72; x73; x69; x6f; x6e; x3a].
Definition str_dash : list byte := [x2d].
Definition str_crlf : list byte := [x0d; x0a].

(** [app_handle_query_version]: [strcpy], two [strcat], one send. *)
Definition app_handle_query_version : AM unit :=
  c <- get ;;
  let num_str := app_uint_to_str (app_version c) 1 in
  let buf := str_version ++ num_str ++ str_crlf in
  app_send_string buf.

(** [app_handle_query_date]: year, month and day are the bit fields
    [date >> 16], [(date >> 8) & 0xFF] and [date & 0xFF], each printed in
    decimal. *)
Definition app_handle_query_date : AM unit :=
  c <- get ;;
  let date := update_date c in
  let year := Z.land (Z.shiftr date 16) 0xFFFF in
  let month := Z.land (Z.shiftr date 8) 0xFF in
  let day := Z.land date 0xFF in
  let buf := app_uint_to_str year 4 ++ str_dash
             ++ app_uint_to_str month 2 ++ str_dash
             ++ app_uint_to_str day 2 ++ str_crlf in
  app_send_string buf.

Section Commands.

Variable cfg : boot_config_app.

(** [app_read_flag_region]: three 4-byte flash reads. *)
Definition app_read_flag_region : AM unit :=
  fun c w =>
    Returns tt
      {| rx_cache := rx_cache c;
         boot_flag := read_u32 (flash w) (BOOT_APP_FLAG_ADDR cfg);
         app_version := read_u32 (flash w) (BOOT_APP_VERSION_ADDR cfg);
         update_date := read_u32 (flash w) (BOOT_APP_DATE_ADDR cfg);
         initialized := initialized c |}
      w.

(** [easy_bootloader_app_init]. *)
Definition easy_bootloader_app_init : AM unit :=
  app_reset_context ;;;
  app_read_flag_region ;;;
  modify (fun c =>
    {| rx_cache := rx_cache c; boot_flag := boot_flag c;
       app_version := app_version c; update_date := update_date c;
       initialized := true |}).

(** [easy_bootloader_app_run]: one poll, at most one command. *)
Definition easy_bootloader_app_run : AM unit :=
  fun c w =>
    if negb (initialized c) then Returns tt c w
    else
      (app_poll_uart ;;;
       cmd <- (fun c w => let (cmd, c1) := app_check_dataframe c in
                          Returns cmd c1 w) ;;
       match cmd with
       | BL_APP_CMD_QUERY_VERSION => app_handle_query_version
       | BL_APP_CMD_QUERY_DATE => app_handle_query_date
       | BL_APP_CMD_START_FLASH new_version new_date =>
           app_handle_start_flash cfg new_version new_date
       | BL_APP_CMD_NONE => ret tt
       end) c w.

End Commands.

End App.

(** ** The STM32F407 port: sector table and erase

    [boot_port_flash_erase] of the bootloader port and
    [boot_port_app_flash_erase] of the application port are the same code
    over the same table.  One call of [HAL_FLASHEx_Erase] erases one sector;
    it is recorded as the erase of the address range of that sector.
    [HAL_FLASH_Unlock] and [HAL_FLASH_Lock] leave no event. *)

Module Stm32f407Port.

Record flash_sector_t : Type := {
  start_addr : Z;
  size : Z;
  sector_id : Z        (* FLASH_SECTOR_n, the HAL's number of the sector *)
}.

Definition flash_sectors : list flash_sector_t :=
  [ {| start_addr := 0x08000000; size := 0x4000;  sector_id := 0 |};
    {| start_addr := 0x08004000; size := 0x4000;  sector_id := 1 |};
    {| start_addr := 0x08008000; size := 0x4000;  sector_id := 2 |};
    {| start_addr := 0x0800C000; size := 0x4000;  sector_id := 3 |};
    {| start_addr := 0x08010000; size := 0x10000; sector_id := 4 |};
    {| start_addr := 0x08020000; size := 0x20000; sector_id := 5 |};
    {| start_addr := 0x08040000; size := 0x20000; sector_id := 6 |};
    {| start_addr := 0x08060000; size := 0x20000; sector_id := 7 |};
    {| start_addr := 0x08080000; size := 0x20000; sector_id := 8 |};
    {| start_addr := 0x080A0000; size := 0x20000; sector_id := 9 |};
    {| start_addr := 0x080C0000; size := 0x20000; sector_id := 10 |};
    {| start_addr := 0x080E0000; size := 0x20000; sector_id := 11 |} ].

Definition FLASH_SECTOR_COUNT : Z := Z.of_nat (length flash_sectors).

(** The loop of [get_sector_index] from index [i] on, over the entries not
    yet visited. *)
Fixpoint sector_scan (sectors : list flash_sector_t) (i : Z) (addr : Z) : Z :=
  match sectors with
  | [] => -1
  | s :: rest =>
      if (addr >=? start_addr s) && (addr <? u32 (start_addr s + size s))
      then i
      else sector_scan rest (i + 1) addr
  end.

(** [get_sector_index]: the index of the sector holding [addr], or -1. *)
Definition get_sector_index (addr : Z) : Z := sector_scan flash_sectors 0 addr.

(** [flash_sectors[i]]. *)
Definition sector_at (i : Z) : flash_sector_t :=
  nth (Z.to_nat i) flash_sectors {| start_addr := 0; size := 0; sector_id := 0 |}.

(** The loop [for (i = start_sector; i <= end_sector; i++)] with [n] turns
    to go: one sector erase per turn, stopping at the first failure. *)
Fixpoint erase_sectors (i : Z) (n : nat) (w : world) : boot_port_status_t * world :=
  match n with
  | O => (BOOT_PORT_OK, w)
  | S n' =>
      let s := sector_at i in
      let (ok, w1) := draw w in
      if ok then erase_sectors (i + 1) n' (emit (EvErase (start_addr s) (size s)) w1)
      else (BOOT_PORT_ERROR, emit (EvEraseFailed (start_addr s) (size s)) w1)
  end.

(** [boot_port_flash_erase(addr, size)] of the STM32F407 port. *)
Definition boot_port_flash_erase (addr sz : Z) (w : world)
  : boot_port_status_t * world :=
  let end_addr := u32 (addr + sz) in
  let start_sector := get_sector_index addr in
  let end_sector := get_sector_index (u32 (end_addr - 1)) in
  if (start_sector <? 0) || (end_sector <? 0) then (BOOT_PORT_ERROR, w)
  else erase_sectors start_sector (Z.to_nat (end_sector - start_sector + 1)) w.

End Stm32f407Port.

(** ** The CH32V307 port: erase by pages and 32 KB blocks

    [boot_port_flash_erase] of boot_port_ch32v307.c.  [FLASH_ErasePage_Fast]
    and [FLASH_EraseBlock_32K_Fast] return no status; a call is recorded as
    the erase of the 256 bytes or of the 32 KB at its address.  [FLASH_BASE]
    comes from the vendor's header and is a parameter here. *)

Module Ch32v307Port.
Section WithFlashBase.

Variable FLASH_BASE : Z.

(** boot_config.h of the CH32V307 bootloader project. *)
Definition BOOT_BOOTLOADER_START_ADDR : Z := 0x00000000.

Definition FLASH_HW_ADDR (addr : Z) : Z :=
  u32 (u32 (addr - BOOT_BOOTLOADER_START_ADDR) + FLASH_BASE).

Definition page_size : Z := 256.
Definition block_size : Z := 32 * 1024.

(** [while ((addr_now < phys_end) && ((addr_now & (block_size - 1U)) != 0U))]:
    pages up to the next 32 KB boundary.  The three loops return the value of
    [addr_now] they end with; [None] is running out of fuel. *)
Fixpoint erase_pages_to_block (fuel : nat) (addr_now phys_end : Z) (w : world)
  : option (Z * world) :=
  if (addr_now <? phys_end) && negb (Z.land addr_now (block_size - 1) =? 0) then
    match fuel with
    | O => None
    | S fuel' =>
        erase_pages_to_block fuel' (u32 (addr_now + page_size)) phys_end
                             (emit (EvErase addr_now page_size) w)
    end
  else Some (addr_now, w).

(** [while ((phys_end - addr_now) >= block_size)]: whole blocks. *)
Fixpoint erase_blocks (fuel : nat) (addr_now phys_end : Z) (w : world)
  : option (Z * world) :=
  if u32 (phys_end - addr_now) >=? block_size then
    match fuel with
    | O => None
    | S fuel' =>
        erase_blocks fuel' (u32 (addr_now + block_size)) phys_end
                     (emit (EvErase addr_now block_size) w)
    end
  else Some (addr_now, w).

(** [while (addr_now < phys_end)]: the pages that are left. *)
Fixpoint erase_pages_to_end (fuel : nat) (addr_now phys_end : Z) (w : world)
  : option (Z * world) :=
  if addr_now <? phys_end then
    match fuel with
    | O => None
    | S fuel' =>
        erase_pages_to_end fuel' (u32 (addr_now + page_size)) phys_end
                           (emit (EvErase addr_now page_size) w)
    end
  else Some (addr_now, w).

(** [boot_port_flash_erase(addr, size)].  A turn of any of the loops erases
    at least one page towards [phys_end], so [size / 256] turns are enough
    for each when the physical start is a page boundary
    ([ch32v307_erase_tiles_range]). *)
Definition boot_port_flash_erase (addr size : Z) (w : world)
  : option (boot_port_status_t * world) :=
  if negb (addr mod 256 =? 0) || negb (size mod 256 =? 0)
  then Some (BOOT_PORT_ERROR, w)
  else
    let phys_start := FLASH_HW_ADDR addr in
    let phys_end := u32 (phys_start + size) in
    let fuel := Z.to_nat (size / 256) in
    match erase_pages_to_block fuel phys_start phys_end w with
    | None => None
    | Some (addr_now, w1) =>
        match erase_blocks fuel addr_now phys_end w1 with
        | None => None
        | Some (addr_now, w2) =>
            match erase_pages_to_end fuel addr_now phys_end w2 with
            | None => None
            | Some (_, w3) => Some (BOOT_PORT_OK, w3)
            end
        end
    end.

End WithFlashBase.
End Ch32v307Port.

(** ** The CH32V307 application port: erase by pages, write by words

    [boot_port_app_flash_erase] and [boot_port_app_flash_write] of the
    application's port.  [FLASH_ErasePage] and [FLASH_ProgramWord] return a
    status; a completed call is recorded as the erase of the 256 bytes at its
    address, or as the word programmed, held as the four bytes the
    little-endian target stores for it.  [FLASH_Unlock], [FLASH_ClearFlag]
    and [FLASH_Lock] leave no event.  The buffer [data] is held as a list of
    [len] bytes, so [data == NULL] does not arise. *)

Module Ch32v307AppPort.

Definition FLASH_BASE_ADDR : Z := 0x08000000.

Definition FLASH_PHYS_ADDR (addr : Z) : Z := u32 (addr + FLASH_BASE_ADDR).

(** [for (addr_now = phys_addr; addr_now < phys_addr + size; addr_now += 256U)],
    from [addr_now] on; [None] is running out of fuel. *)
Fixpoint erase_pages (fuel : nat) (addr_now phys_end : Z) (w : world)
  : option (App.boot_port_app_status_t * world) :=
  if addr_now <? phys_end then
    match fuel with
    | O => None
    | S fuel' =>
        let (ok, w1) := draw w in
        if ok then
          erase_pages fuel' (u32 (addr_now + 256)) phys_end
                      (emit (EvErase addr_now 256) w1)
        else Some (App.BOOT_PORT_APP_ERROR, emit (EvEraseFailed addr_now 256) w1)
    end
  else Some (App.BOOT_PORT_APP_OK, w).

(** [boot_port_app_flash_erase(addr, size)]. *)
Definition boot_port_app_flash_erase (addr size : Z) (w : world)
  : option (App.boot_port_app_status_t * world) :=
  if negb (addr mod 256 =? 0) || negb (size mod 256 =? 0)
  then Some (App.BOOT_PORT_APP_ERROR, w)
  else
    let phys_addr := FLASH_PHYS_ADDR addr in
    erase_pages (Z.to_nat (size / 256)) phys_addr (u32 (phys_addr + size)) w.

(** The word built from [data[0..3]]. *)
Definition word_of (data : list byte) : Z :=
  Z.lor (Z.lor (Z.lor (Z.shiftl (byte_at data 3) 24)
                      (Z.shiftl (byte_at data 2) 16))
               (Z.shiftl (byte_at data 1) 8))
        (byte_at data 0).

(** [for (addr_now = phys_addr; addr_now < phys_addr + len;
         addr_now += 4U, data += 4U)], from [addr_now] on. *)
Fixpoint program_loop (fuel : nat) (addr_now phys_end : Z) (data : list byte)
         (w : world) : option (App.boot_port_app_status_t * world) :=
  if addr_now <? phys_end then
    match fuel with
    | O => None
    | S fuel' =>
        let word := word_of data in
        let (ok, w1) := draw w in
        if ok then
          program_loop fuel' (u32 (addr_now + 4)) phys_end (skipn 4 data)
                       (emit (EvProgramWord addr_now (le32 word)) w1)
        else Some (App.BOOT_PORT_APP_ERROR, emit (EvProgramFailed addr_now) w1)
    end
  else Some (App.BOOT_PORT_APP_OK, w).

(** [boot_port_app_flash_write(addr, data, len)]. *)
Definition boot_port_app_flash_write (addr : Z) (data : list byte) (w : world)
  : option (App.boot_port_app_status_t * world) :=
  if negb (addr mod 4 =? 0) || negb (len data mod 4 =? 0)
  then Some (App.BOOT_PORT_APP_ERROR, w)
  else
    let phys_addr := FLASH_PHYS_ADDR addr in
    program_loop (Z.to_nat (len data / 4)) phys_addr (u32 (phys_addr + len data))
                 data w.

End Ch32v307AppPort.

(** ** Vocabulary of the statements *)

(** Every flash operation still to come succeeds. *)
Definition all_ok (w : world) : Prop := forallb (fun b => b) (oracle w) = true.

(** The events a port call added to the trace [t0]. *)
Definition events_since (t0 : list event) (w : world) : list event :=
  skipn (length t0) (trace w).

(** The words programmed in a trace, oldest first: address and four bytes. *)
Fixpoint programmed (t : list event) : list (Z * list byte) :=
  match t with
  | [] => []
  | EvProgramWord addr w :: t' => (addr, w) :: programmed t'
  | _ :: t' => programmed t'
  end.

(** The acknowledgements sent in a trace. *)
Fixpoint acks (t : list event) : nat :=
  match t with
  | [] => O
  | EvUartWrite d :: t' =>
      if list_eq_dec Byte.byte_eq_dec d g_boot_ack then S (acks t') else acks t'
  | _ :: t' => acks t'
  end.

(** [data] cut into words programmed at consecutive addresses from [addr]. *)
Fixpoint word_events (addr : Z) (data : list byte) : list event :=
  match data with
  | b0 :: b1 :: b2 :: b3 :: rest =>
      EvProgramWord addr [b0; b1; b2; b3] :: word_events (addr + 4) rest
  | _ => []
  end.

(** A transfer through the Flash Stream Writer: [bootloader_stream_write] for
    each chunk in order, stopping at the first error, then
    [bootloader_stream_flush]. *)
Fixpoint stream_chunks (chunks : list (list byte)) : BM boot_port_status_t :=
  match chunks with
  | [] => bootloader_stream_flush
  | data :: rest =>
      status <- bootloader_stream_write data ;;
      if negb (status_ok status) then ret status else stream_chunks rest
  end.

(** Number of 4-byte words needed for [L] bytes. *)
Definition ceil4 (L : Z) : Z := (L + 3) / 4.

(** The writer invariant: cursor a whole number of words past the start of
    the application region, carry buffer not full. *)
Definition writer_inv (cfg : boot_config) (c : bootloader_context_t) : Prop :=
  u32 (current_addr c - BOOT_APP_START_ADDR cfg) mod 4 = 0 /\
  stream_cache_len c <= 3.

(** What holds of the writer in every state it can be in: cursor a whole
    number of words past the start of the application region, carry within
    its four-byte buffer.  [writer_inv] is the case of a carry that is not
    full. *)
Definition writer_bounds (cfg : boot_config) (c : bootloader_context_t) : Prop :=
  u32 (current_addr c - BOOT_APP_START_ADDR cfg) mod 4 = 0 /\
  stream_cache_len c <= 4.

(** A call of the writer, and a run of calls made one after the other
    whatever each of them returns. *)
Inductive writer_call : Type :=
| WriterWrite (data : list byte)     (* bootloader_stream_write(data, len) *)
| WriterFlush.                       (* bootloader_stream_flush() *)

Definition writer_call_ok (k : writer_call) : Prop :=
  match k with
  | WriterWrite data => len data < 2 ^ 32      (* [len] is a [uint32_t] *)
  | WriterFlush => True
  end.

Fixpoint writer_calls (calls : list writer_call) : BM unit :=
  match calls with
  | [] => ret tt
  | WriterWrite data :: rest =>
      status <- bootloader_stream_write data ;; writer_calls rest
  | WriterFlush :: rest =>
      status <- bootloader_stream_flush ;; writer_calls rest
  end.

(** Wire format of a data frame, as [bootloader_try_extract_frame] reads it:
    55 AA, remaining (3 bytes, big endian), length (2 bytes, big endian),
    payload, checksum (2 bytes, big endian), 55 55. *)
Definition be16 (x : Z) : list byte := [z2b (Z.shiftr x 8); z2b x].
Definition be24 (x : Z) : list byte :=
  [z2b (Z.shiftr x 16); z2b (Z.shiftr x 8); z2b x].
Definition be32 (x : Z) : list byte :=
  [z2b (Z.shiftr x 24); z2b (Z.shiftr x 16); z2b (Z.shiftr x 8); z2b x].

(** 16-bit wrapping sum of a run of bytes. *)
Definition sum16 (bytes : list byte) : Z :=
  fold_left (fun acc b => u16 (acc + b2z b)) bytes 0.

(** A data frame carrying the checksum field [crc]. *)
Definition data_frame_with (remaining : Z) (payload : list byte) (crc : Z)
  : list byte :=
  [x55; xaa] ++ be24 remaining ++ be16 (len payload) ++ payload
  ++ be16 crc ++ [x55; x55].

(** The checksum the codec verifies: length field and payload. *)
Definition codec_checksum (payload : list byte) : Z :=
  sum16 (be16 (len payload) ++ payload).

(** The checksum in the words of the specification: every byte from the
    remaining field through the end of the payload. *)
Definition spec_checksum (remaining : Z) (payload : list byte) : Z :=
  sum16 (be24 remaining ++ be16 (len payload) ++ payload).

Definition encode_data_frame (remaining : Z) (payload : list byte) : list byte :=
  data_frame_with remaining payload (codec_checksum payload).

(** Wire format of the finish frame: 55 AA ver[4] date[4] FF FD 55 55. *)
Definition encode_finish_frame (version date : Z) : list byte :=
  [x55; xaa] ++ be32 version ++ be32 date ++ [xff; xfd; x55; x55].



(** Lists of whole words. *)
Inductive whole_words : list byte -> Prop :=
| ww_nil : whole_words []
| ww_word b0 b1 b2 b3 rest :
    whole_words rest -> whole_words (b0 :: b1 :: b2 :: b3 :: rest).

(** Events of the flash driver. *)
Definition flash_event (e : event) : Prop :=
  match e with
  | EvErase _ _ | EvEraseFailed _ _ | EvProgramWord _ _ | EvProgramFailed _
  | EvWriteRejected _ _ => True
  | EvUartWrite _ | EvJump _ | EvReset => False
  end.

(** [w1] is [w] after some calls to the flash driver and nothing else. *)
Definition flash_only (w w1 : world) : Prop :=
  exists evs, trace w1 = trace w ++ evs /\ Forall flash_event evs.

(** Sample inputs. *)

(** A flash that reads 0xFF everywhere and never fails, nothing received. *)
Definition blank_world : world :=
  {| flash := fun _ => xff; oracle := []; uart_rx := []; trace := [] |}.

(** [g_boot_ctx] before [easy_bootloader_init] (zero-initialised data). *)
Definition power_on_context (cfg : boot_config) : bootloader_context_t :=
  {| rx_cache := [];
     payload_buf := repeat x00 (Z.to_nat (BOOT_PAYLOAD_MAX_SIZE cfg));
     current_addr := 0; stream_cache := [];
     boot_flag := 0; app_version := 0; update_date := 0;
     state := BOOT_STATE_IDLE; download_active := false; initialized := false |}.

(** A Cortex-M layout used as a sample input: application from sector 4 and
    flag region in sector 11 as in the sector table of the STM32F407 port,
    128 KB SRAM, 64 KB CCM, erased flash reading 0xFFFFFFFF. *)
Definition cortex_m_sample_config : boot_config := {|
  BOOT_ARCH := BOOT_ARCH_ARM_CORTEX_M;
  BOOT_APP_START_ADDR := 0x08010000;
  BOOT_APP_MAX_SIZE := 0x000D0000;
  BOOT_FLAG_REGION_ADDR := 0x080E0000;
  BOOT_FLAG_REGION_SIZE := 0x00020000;
  BOOT_FLAG_ERASED := 0xFFFFFFFF;
  BOOT_SRAM_START_ADDR := 0x20000000;
  BOOT_SRAM_END_ADDR := 0x2001FFFF;
  BOOT_HAS_CCM := true;
  BOOT_CCM_START_ADDR := 0x10000000;
  BOOT_CCM_END_ADDR := 0x1000FFFF;
  BOOT_PACKET_MAX_SIZE := 1024
|}.

(** A flash event that respects the driver contract: no rejected call, and
    every programmed word is four bytes at a 4-byte-aligned address. *)
Definition in_contract (e : event) : Prop :=
  match e with
  | EvWriteRejected _ _ => False
  | EvProgramWord addr w => addr mod 4 = 0 /\ length w = 4%nat
  | _ => True
  end.

(** [w1] is [w] after port calls that all respected the driver contract. *)
Definition within_contract (w w1 : world) : Prop :=
  exists evs, trace w1 = trace w ++ evs /\ Forall in_contract evs.

(** Fields of the candidate frame at the head of a cache, as
    [bootloader_try_extract_frame] reads them. *)
Definition header_ok (cache : list byte) : bool :=
  (byte_at cache 0 =? 0x55) && (byte_at cache 1 =? 0xAA).
Definition remaining_field (cache : list byte) : Z :=
  Z.lor (Z.lor (Z.shiftl (byte_at cache 2) 16) (Z.shiftl (byte_at cache 3) 8))
        (byte_at cache 4).
Definition declared_len (cache : list byte) : Z :=
  u16 (Z.lor (Z.shiftl (byte_at cache 5) 8) (byte_at cache 6)).
Definition crc_field (cache : list byte) : Z :=
  let checksum_pos := 7 + declared_len cache in
  u16 (Z.lor (Z.shiftl (byte_at cache checksum_pos) 8)
             (byte_at cache (checksum_pos + 1))).
Definition tail_ok (cache : list byte) : bool :=
  let tail_pos := 9 + declared_len cache in
  (byte_at cache tail_pos =? 0x55) && (byte_at cache (tail_pos + 1) =? 0x55).

(** The bytes of the candidate from the length field through the end of the
    payload (offsets 5 .. 7+len-1), and from the remaining field through the
    end of the payload (offsets 2 .. 7+len-1). *)
Definition bytes_from_length (cache : list byte) : list byte :=
  firstn (Z.to_nat (2 + declared_len cache)) (skipn 5 cache).
Definition bytes_from_remaining (cache : list byte) : list byte :=
  firstn (Z.to_nat (5 + declared_len cache)) (skipn 2 cache).

(** The seven bytes before the payload and the four after it. *)
Definition frame_head (remaining payload_len : Z) : list byte :=
  [x55; xaa] ++ be24 remaining ++ be16 payload_len.
Definition frame_tail (crc : Z) : list byte := be16 crc ++ [x55; x55].

(** The two frames of the streaming scenario. *)
Definition frame_5_AA : list byte :=
  encode_data_frame 5 [xaa; xaa; xaa; xaa; xaa].
Definition frame_0_BB : list byte :=
  encode_data_frame 0 [xbb; xbb; xbb].

(** ** Vocabulary of the further properties *)

(** Wire format of the start-flash command: 55 AA ver[4] date[4] FF EE 55 55. *)
Definition encode_start_flash (version date : Z) : list byte :=
  [x55; xaa] ++ be32 version ++ be32 date ++ [xff; xee; x55; x55].

Definition cmd_query_version : list byte := [x55; xaa; xff; xdd; x55; x55].
Definition cmd_query_date : list byte := [x55; xaa; xff; xcc; x55; x55].

(** The number a string of decimal digits denotes. *)
Definition decimal_value (s : list byte) : Z :=
  fold_left (fun acc b => acc * 10 + (b2z b - 0x30)) s 0.

Definition is_digit (b : byte) : Prop := 0x30 <= b2z b <= 0x39.

(** The configuration of the STM32F407 bootloader project (its
    boot_config.h). *)
Definition stm32f407_config : boot_config := {|
  BOOT_ARCH := BOOT_ARCH_ARM_CORTEX_M;
  BOOT_APP_START_ADDR := 0x08010000;
  BOOT_APP_MAX_SIZE := 0x000D0000;
  BOOT_FLAG_REGION_ADDR := 0x080E0000;
  BOOT_FLAG_REGION_SIZE := 0x00020000;
  BOOT_FLAG_ERASED := 0xFFFFFFFF;
  BOOT_SRAM_START_ADDR := 0x20000000;
  BOOT_SRAM_END_ADDR := 0x20030000;
  BOOT_HAS_CCM := true;
  BOOT_CCM_START_ADDR := 0x10000000;
  BOOT_CCM_END_ADDR := 0x10010000;
  BOOT_PACKET_MAX_SIZE := 1013
|}.

(** The events of a complete flag region update. *)
Definition flag_region_events (cfg : boot_config) (flag version date : Z)
  : list event :=
  [ EvErase (BOOT_FLAG_REGION_ADDR cfg) (BOOT_FLAG_REGION_SIZE cfg);
    EvProgramWord (BOOT_FLAG_ADDR cfg) (le32 flag);
    EvProgramWord (BOOT_VERSION_ADDR cfg) (le32 version);
    EvProgramWord (BOOT_DATE_ADDR cfg) (le32 date) ].

(** The state machine waiting for the finish frame, nothing cached. *)
Definition waiting_context (cfg : boot_config) (cursor : Z) : bootloader_context_t :=
  {| rx_cache := [];
     payload_buf := repeat x00 (Z.to_nat (BOOT_PAYLOAD_MAX_SIZE cfg));
     current_addr := cursor; stream_cache := [];
     boot_flag := 1; app_version := 0; update_date := 0;
     state := BOOT_STATE_WAIT_FINISH; download_active := false;
     initialized := true |}.

(** A word programming event inside [lo, hi): the word, or the refusal of
    the hardware to program it, at a 4-byte-aligned address. *)
Definition in_span (lo hi : Z) (e : event) : Prop :=
  match e with
  | EvProgramWord a wd =>
      lo <= a /\ a + 4 <= hi /\ a mod 4 = 0 /\ length wd = 4%nat
  | EvProgramFailed a => lo <= a /\ a + 4 <= hi /\ a mod 4 = 0
  | _ => False
  end.

(** Layout assumptions met by the two example configurations: aligned
    regions, and address arithmetic on the application region that does not
    wrap around 2^32. *)
Definition layout_ok (cfg : boot_config) : Prop :=
  0 <= BOOT_APP_START_ADDR cfg /\ BOOT_APP_START_ADDR cfg mod 4 = 0
  /\ 0 <= BOOT_APP_MAX_SIZE cfg
  /\ BOOT_APP_START_ADDR cfg + BOOT_APP_MAX_SIZE cfg + 2 ^ 17 <= 2 ^ 32
  /\ 11 <= BOOT_PACKET_MAX_SIZE cfg < 2 ^ 16
  /\ BOOT_FLAG_REGION_ADDR cfg mod 4 = 0.

(** The first address past the application region. *)
Definition app_region_end (cfg : boot_config) : Z :=
  BOOT_APP_START_ADDR cfg + BOOT_APP_MAX_SIZE cfg.

(** What holds of the engine context between two runs: the two buffers are
    within their arrays, the carry is not full, and the cursor is a word
    boundary inside the application region. *)
Definition engine_inv (cfg : boot_config) (c : bootloader_context_t) : Prop :=
  rx_cache_len c <= BOOT_PACKET_MAX_SIZE cfg
  /\ len (payload_buf c) = BOOT_PAYLOAD_MAX_SIZE cfg
  /\ stream_cache_len c <= 3
  /\ BOOT_APP_START_ADDR cfg <= current_addr c <= app_region_end cfg
  /\ current_addr c mod 4 = 0.

(** The port events the engine may cause while it runs: erasing the
    application region or the flag region, programming a word inside the
    application region or one of the three flag words, sending the Ack, and
    resetting. *)
Definition engine_event (cfg : boot_config) (e : event) : Prop :=
  match e with
  | EvErase a s | EvEraseFailed a s =>
      (a = BOOT_APP_START_ADDR cfg /\ s = BOOT_APP_MAX_SIZE cfg)
      \/ (a = BOOT_FLAG_REGION_ADDR cfg /\ s = BOOT_FLAG_REGION_SIZE cfg)
  | EvProgramWord a _ | EvProgramFailed a =>
      (BOOT_APP_START_ADDR cfg <= a /\ a + 4 <= app_region_end cfg)
      \/ a = BOOT_FLAG_ADDR cfg \/ a = BOOT_VERSION_ADDR cfg
      \/ a = BOOT_DATE_ADDR cfg
  | EvWriteRejected _ _ => False
  | EvUartWrite d => d = g_boot_ack
  | EvJump _ => False
  | EvReset => True
  end.

(** The outcome of a run or of a part of it: what it added to the trace is
    allowed, and the context it leaves satisfies the invariant. *)
Definition safe_outcome (cfg : boot_config) (w : world)
           (o : outcome bootloader_context_t unit) : Prop :=
  exists evs,
    trace (world_of o) = trace w ++ evs
    /\ Forall (engine_event cfg) evs
    /\ engine_inv cfg (ctx_of o).

(** Only the cursor and the carry differ. *)
Definition writer_frame (c c' : bootloader_context_t) : Prop :=
  c' = set_stream_cache (stream_cache c') (set_current_addr (current_addr c') c).

(** The main loop around the STM32F4 engine: bytes arrive on the serial line,
    then [easy_bootloader_run] is called, once per element of [chunks], until
    a call does not return. *)
Fixpoint stm32_session (cfg : boot_config) (chunks : list (list byte))
         (c : bootloader_context_t) (w : world)
  : outcome bootloader_context_t unit :=
  match chunks with
  | [] => Returns tt c w
  | chunk :: rest =>
      match Stm32.easy_bootloader_run cfg c (uart_arrive chunk w) with
      | Returns _ c1 w1 => stm32_session cfg rest c1 w1
      | Leaves c1 w1 => Leaves c1 w1
      end
  end.

(** An engine operation that leaves the receive ring buffer alone. *)
Definition keeps_rx {A : Type} (m : BM A) : Prop :=
  forall c w, uart_rx (world_of (m c w)) = uart_rx w.

(** The 0xFF bytes that fill the last word of [l]. *)
Definition pad_ff (l : list byte) : list byte :=
  repeat xff (Z.to_nat ((4 - len l mod 4) mod 4)).

(** Events of a download in progress: programmed words and Acks. *)
Definition word_or_ack (e : event) : Prop :=
  match e with
  | EvProgramWord _ _ => True
  | EvUartWrite d => d = g_boot_ack
  | _ => False
  end.

(** The context a data frame is written from: as it is while a download is
    active, and otherwise with [download_active] set, the cursor at the start
    of the application region and the carry empty, as a successful
    [bootloader_prepare_download] leaves it. *)
Definition prepared (cfg : boot_config) (c : bootloader_context_t)
  : bootloader_context_t :=
  if download_active c then c
  else set_download_active true
         (set_stream_cache [] (set_current_addr (BOOT_APP_START_ADDR cfg) c)).

(** The erase a data frame starts with when no download is active. *)
Definition erase_part (cfg : boot_config) (c : bootloader_context_t) : list event :=
  if download_active c then []
  else [EvErase (BOOT_APP_START_ADDR cfg) (BOOT_APP_MAX_SIZE cfg)].

(** Does a sector share a byte with the range [addr, addr + sz)? *)
Definition sector_overlaps (addr sz : Z) (s : Stm32f407Port.flash_sector_t) : bool :=
  (Stm32f407Port.start_addr s <? addr + sz)
  && (addr <? Stm32f407Port.start_addr s + Stm32f407Port.size s).

(** The erase of a whole sector. *)
Definition sector_erase (s : Stm32f407Port.flash_sector_t) : event :=
  EvErase (Stm32f407Port.start_addr s) (Stm32f407Port.size s).

(** Erase calls that tile the range from [lo] to [hi]: each starts where the
    one before ended, each erases one 256-byte page, or one 32 KB block at a
    32 KB boundary, and the last one ends at [hi]. *)
Fixpoint tiles (lo : Z) (evs : list event) (hi : Z) : Prop :=
  match evs with
  | [] => lo = hi
  | EvErase a n :: rest =>
      a = lo /\ (n = 256 \/ (n = 32768 /\ a mod 32768 = 0))
      /\ tiles (lo + n) rest hi
  | _ => False
  end.

(** The erases of [n] consecutive 256-byte pages from [lo] on. *)
Definition page_erases (lo : Z) (n : nat) : list event :=
  map (fun k => EvErase (lo + 256 * Z.of_nat k) 256) (seq 0 n).

(** The main loop around the portable core: bytes arrive, then
    [easy_bootloader_run] is called, once per element of [chunks], until a
    call does not return. *)
Fixpoint core_session (cfg : boot_config) (chunks : list (list byte))
         (c : bootloader_context_t) (w : world)
  : outcome bootloader_context_t unit :=
  match chunks with
  | [] => Returns tt c w
  | chunk :: rest =>
      match Core.easy_bootloader_run cfg c (uart_arrive chunk w) with
      | Returns _ c1 w1 => core_session cfg rest c1 w1
      | Leaves c1 w1 => Leaves c1 w1
      end
  end.

(** What holds of the core's context between two runs: as [engine_inv], but
    the carry may fill its four bytes, as it does when the word it completes
    could not be programmed. *)
Definition core_inv (cfg : boot_config) (c : bootloader_context_t) : Prop :=
  rx_cache_len c <= BOOT_PACKET_MAX_SIZE cfg
  /\ len (payload_buf c) = BOOT_PAYLOAD_MAX_SIZE cfg
  /\ stream_cache_len c <= 4
  /\ BOOT_APP_START_ADDR cfg <= current_addr c <= app_region_end cfg
  /\ current_addr c mod 4 = 0.

(** The outcome of a part of a run of the core: what it added to the trace
    is allowed, and the context it leaves satisfies [core_inv]. *)
Definition core_safe_outcome (cfg : boot_config) (A : Type) (w : world)
           (o : outcome bootloader_context_t A) : Prop :=
  exists evs,
    trace (world_of o) = trace w ++ evs
    /\ Forall (engine_event cfg) evs
    /\ core_inv cfg (ctx_of o).

(** The outcome of handling one frame from the context [c]: safe, and the
    receive cache is as it was. *)
Definition core_frame_outcome (cfg : boot_config) (A : Type) (w : world)
           (c : bootloader_context_t) (o : outcome bootloader_context_t A) : Prop :=
  core_safe_outcome cfg w o /\ rx_cache (ctx_of o) = rx_cache c.

(** * Proofs *)

(** ** Bytes and machine integers *)

Lemma b2z_range (b : byte) : 0 <= b2z b < 256.
Proof.
  unfold b2z. pose proof (Byte.to_N_bounded b) as H.
  split; [apply N2Z.is_nonneg | lia].
Qed.

Lemma b2z_z2b (x : Z) : b2z (z2b x) = x mod 256.
Proof.
  unfold z2b, b2z, u8. change (2 ^ 8) with 256.
  pose proof (Z.mod_pos_bound x 256 ltac:(lia)) as Hr.
  destruct (Byte.of_N (Z.to_N (x mod 256))) as [b|] eqn:E.
  - apply Byte.to_of_N in E. rewrite E. rewrite Z2N.id; lia.
  - apply Byte.of_N_None_iff in E. lia.
Qed.

Lemma z2b_b2z (b : byte) : z2b (b2z b) = b.
Proof.
  unfold z2b, b2z, u8. change (2 ^ 8) with 256.
  pose proof (Byte.to_N_bounded b) as H.
  rewrite Z.mod_small by lia. rewrite N2Z.id.
  now rewrite Byte.of_to_N.
Qed.

Lemma len_nonneg (l : list byte) : 0 <= len l.
Proof. unfold len; lia. Qed.

Lemma len_app (l1 l2 : list byte) : len (l1 ++ l2) = len l1 + len l2.
Proof. unfold len. rewrite length_app. lia. Qed.

Lemma len_nil : len [] = 0.
Proof. reflexivity. Qed.

Lemma len_cons (b : byte) (l : list byte) : len (b :: l) = 1 + len l.
Proof. unfold len. cbn [length]. lia. Qed.

Lemma u32_mod4 (x : Z) : u32 x mod 4 = x mod 4.
Proof.
  unfold u32. change (2 ^ 32) with (4 * 2 ^ 30).
  rewrite Z.rem_mul_r by lia.
  rewrite (Z.mul_comm 4), Z.mod_add by lia.
  apply Z.mod_mod; lia.
Qed.

Lemma u32_small (x : Z) : 0 <= x < 2 ^ 32 -> u32 x = x.
Proof. intros. unfold u32. apply Z.mod_small; assumption. Qed.

Lemma u32_range (x : Z) : 0 <= u32 x < 2 ^ 32.
Proof. unfold u32. apply Z.mod_pos_bound. lia. Qed.

(** ** The environment *)

Lemma all_ok_emit (e : event) (w : world) : all_ok w -> all_ok (emit e w).
Proof. exact (fun H => H). Qed.

Lemma draw_all_ok (w : world) :
  all_ok w ->
  exists w1, draw w = (true, w1) /\ all_ok w1 /\ trace w1 = trace w
             /\ uart_rx w1 = uart_rx w /\ flash w1 = flash w.
Proof.
  unfold all_ok, draw. intros H.
  destruct (oracle w) as [|b rest] eqn:E.
  - exists w. rewrite E. auto.
  - cbn in H. apply andb_prop in H as [Hb Hr]. subst b.
    eexists; split; [reflexivity|]. cbn. auto.
Qed.

Lemma erase_all_ok (addr size : Z) (w : world) :
  all_ok w ->
  exists w1, boot_port_flash_erase addr size w = (BOOT_PORT_OK, w1)
             /\ all_ok w1 /\ trace w1 = trace w ++ [EvErase addr size]
             /\ uart_rx w1 = uart_rx w /\ flash w1 = flash w.
Proof.
  intros H. unfold boot_port_flash_erase.
  destruct (draw_all_ok H) as (w1 & -> & Hok & Ht & Hu & Hf).
  eexists; split; [reflexivity|]. cbn. rewrite Ht. auto.
Qed.

Lemma whole_words_of_length (n : nat) (l : list byte) :
  length l = (4 * n)%nat -> whole_words l.
Proof.
  revert l. induction n as [|n IH]; intros l Hl.
  - destruct l; [constructor | discriminate].
  - destruct l as [|b0 [|b1 [|b2 [|b3 rest]]]]; cbn in Hl; try lia.
    constructor. apply IH. lia.
Qed.

Lemma whole_words_len (l : list byte) : len l mod 4 = 0 -> whole_words l.
Proof.
  intros H. apply (whole_words_of_length (Z.to_nat (len l / 4))).
  unfold len in *. 
  pose proof (Z.div_mod (Z.of_nat (length l)) 4 ltac:(lia)). lia.
Qed.

Lemma whole_words_mod (l : list byte) : whole_words l -> len l mod 4 = 0.
Proof.
  induction 1 as [|b0 b1 b2 b3 rest _ IH]; [reflexivity|].
  rewrite !len_cons.
  replace (1 + (1 + (1 + (1 + len rest)))) with (len rest + 1 * 4) by lia.
  rewrite Z.mod_add by lia. exact IH.
Qed.

Lemma program_words_all_ok (data : list byte) :
  whole_words data ->
  forall addr w,
    all_ok w -> 0 <= addr -> addr + len data <= 2 ^ 32 ->
    exists w1, program_words addr data w = (BOOT_PORT_OK, w1)
               /\ all_ok w1 /\ trace w1 = trace w ++ word_events addr data
               /\ uart_rx w1 = uart_rx w /\ flash w1 = flash w.
Proof.
  induction 1 as [|b0 b1 b2 b3 rest Hr IH]; intros addr w Hok Ha Hb.
  - exists w. cbn. rewrite app_nil_r. auto.
  - cbn [program_words word_events].
    destruct (draw_all_ok Hok) as (w1 & -> & Hok1 & Ht & Hu & Hf).
    rewrite !len_cons in Hb.
    destruct rest as [|r0 rest'].
    + eexists. split; [reflexivity|]. cbn. rewrite Ht. auto.
    + pose proof (len_nonneg rest') as Hn. rewrite len_cons in Hb.
      rewrite u32_small by lia.
      destruct (IH (addr + 4) (emit (EvProgramWord addr [b0; b1; b2; b3]) w1))
        as (w2 & E & Hok2 & Ht2 & Hu2 & Hf2);
        [apply all_ok_emit; assumption | lia | rewrite len_cons; lia |].
      exists w2. split; [exact E|]. repeat split; try assumption.
      * rewrite Ht2. cbn [emit trace]. rewrite Ht, <- app_assoc. reflexivity.
      * rewrite Hu2. cbn. assumption.
      * rewrite Hf2. cbn. assumption.
Qed.

Lemma flash_write_all_ok (addr : Z) (data : list byte) (w : world) :
  all_ok w -> addr mod 4 = 0 -> len data mod 4 = 0 ->
  0 <= addr -> addr + len data <= 2 ^ 32 ->
  exists w1, boot_port_flash_write addr data w = (BOOT_PORT_OK, w1)
             /\ all_ok w1 /\ trace w1 = trace w ++ word_events addr data
             /\ uart_rx w1 = uart_rx w /\ flash w1 = flash w.
Proof.
  intros Hok Ha Hl H0 Hb. unfold boot_port_flash_write.
  rewrite Ha, Hl. cbn.
  apply program_words_all_ok; auto using whole_words_len.
Qed.

(** Every port call only appends to the trace. *)
Lemma draw_trace (w : world) : trace (snd (draw w)) = trace w.
Proof. unfold draw. destruct (oracle w); reflexivity. Qed.

Lemma aligned_room (a : Z) : 0 <= a < 2 ^ 32 -> a mod 4 = 0 -> a + 4 <= 2 ^ 32.
Proof.
  intros Hr Hm. pose proof (Z.div_mod a 4 ltac:(lia)) as E. rewrite Hm in E.
  change (2 ^ 32) with (4 * 1073741824) in *. lia.
Qed.

Lemma word_write_all_ok (addr x : Z) (w : world) :
  all_ok w -> addr mod 4 = 0 ->
  exists w1, boot_port_flash_write (u32 addr) (le32 x) w = (BOOT_PORT_OK, w1)
             /\ all_ok w1
             /\ trace w1 = trace w ++ [EvProgramWord (u32 addr) (le32 x)]
             /\ uart_rx w1 = uart_rx w /\ flash w1 = flash w.
Proof.
  intros Hok Ha.
  pose proof (u32_range addr) as Hr.
  assert (Hm : u32 addr mod 4 = 0) by (rewrite u32_mod4; exact Ha).
  pose proof (aligned_room Hr Hm) as Hroom.
  destruct (@flash_write_all_ok (u32 addr) (le32 x) w Hok Hm eq_refl)
    as (w1 & E & H); [lia | exact Hroom |].
  exists w1. split; [exact E | exact H].
Qed.

(** ** Flag Region Manager *)

Lemma offsets_aligned (r : Z) :
  r mod 4 = 0 -> (r + 0) mod 4 = 0 /\ (r + 4) mod 4 = 0 /\ (r + 8) mod 4 = 0.
Proof.
  intros H. repeat split.
  - rewrite Z.add_0_r. exact H.
  - change 4 with (1 * 4) at 1. rewrite Z.mod_add by lia. exact H.
  - change 8 with (2 * 4). rewrite Z.mod_add by lia. exact H.
Qed.

Section FlagRegion.

Variable cfg : boot_config.
Hypothesis region_aligned : BOOT_FLAG_REGION_ADDR cfg mod 4 = 0.

Lemma flag_addrs_aligned :
  (BOOT_FLAG_REGION_ADDR cfg + BOOT_FLAG_OFFSET) mod 4 = 0 /\
  (BOOT_FLAG_REGION_ADDR cfg + BOOT_VERSION_OFFSET) mod 4 = 0 /\
  (BOOT_FLAG_REGION_ADDR cfg + BOOT_DATE_OFFSET) mod 4 = 0.
Proof. exact (offsets_aligned _ region_aligned). Qed.

(** With a healthy flash the bootloader's update is one erase and the three
    words flag, version, date. *)
Lemma bootloader_write_flag_region_all_ok
      (flag version date : Z) (c : bootloader_context_t) (w : world) :
  all_ok w ->
  exists w1,
    bootloader_write_flag_region cfg flag version date c w
    = Returns BOOT_PORT_OK c w1
    /\ all_ok w1
    /\ trace w1 = trace w ++
         [ EvErase (BOOT_FLAG_REGION_ADDR cfg) (BOOT_FLAG_REGION_SIZE cfg);
           EvProgramWord (BOOT_FLAG_ADDR cfg) (le32 flag);
           EvProgramWord (BOOT_VERSION_ADDR cfg) (le32 version);
           EvProgramWord (BOOT_DATE_ADDR cfg) (le32 date) ]
    /\ uart_rx w1 = uart_rx w /\ flash w1 = flash w.
Proof.
  intros Hok.
  destruct flag_addrs_aligned as (Hf & Hv & Hd).
  unfold bootloader_write_flag_region, bind, port, ret,
    BOOT_FLAG_ADDR, BOOT_VERSION_ADDR, BOOT_DATE_ADDR.
  destruct (erase_all_ok (BOOT_FLAG_REGION_ADDR cfg) (BOOT_FLAG_REGION_SIZE cfg) Hok)
    as (w1 & -> & Hok1 & Ht1 & Hu1 & Hfl1). cbn [status_ok negb].
  destruct (word_write_all_ok _ flag Hok1 Hf) as (w2 & -> & Hok2 & Ht2 & Hu2 & Hfl2).
  cbn [status_ok negb].
  destruct (word_write_all_ok _ version Hok2 Hv) as (w3 & -> & Hok3 & Ht3 & Hu3 & Hfl3).
  cbn [status_ok negb].
  destruct (word_write_all_ok _ date Hok3 Hd) as (w4 & -> & Hok4 & Ht4 & Hu4 & Hfl4).
  exists w4. split; [reflexivity|]. repeat split; try assumption.
  - rewrite Ht4, Ht3, Ht2, Ht1, <- !app_assoc. reflexivity.
  - congruence.
  - congruence.
Qed.

End FlagRegion.

(** ** Shape of what the flash driver adds to the trace *)

Lemma draw_shape (w : world) :
  trace (snd (draw w)) = trace w /\ uart_rx (snd (draw w)) = uart_rx w
  /\ flash (snd (draw w)) = flash w.
Proof. unfold draw. destruct (oracle w); cbn; auto. Qed.

Lemma erase_shape (addr size : Z) (w : world) :
  exists evs, trace (snd (boot_port_flash_erase addr size w)) = trace w ++ evs
              /\ Forall flash_event evs.
Proof.
  unfold boot_port_flash_erase.
  pose proof (draw_shape w) as (Ht & _). destruct (draw w) as [ok w1]. cbn in Ht.
  destruct ok; cbn; rewrite Ht; eexists; split; try reflexivity;
    repeat constructor.
Qed.

Lemma program_words_shape (data : list byte) :
  forall addr w,
  exists evs, trace (snd (program_words addr data w)) = trace w ++ evs
              /\ Forall flash_event evs.
Proof.
  remember (length data) as n eqn:Hn.
  assert (Hle : (length data <= n)%nat) by lia. clear Hn.
  revert data Hle. induction n as [|n IH]; intros data Hle addr w;
  (destruct data as [|b0 [|b1 [|b2 [|b3 rest]]]];
    try (exists []; cbn; rewrite app_nil_r; split; [reflexivity | constructor])).
  - cbn in Hle. lia.
  - cbn [program_words].
    pose proof (draw_shape w) as (Ht & _). destruct (draw w) as [ok w1]. cbn in Ht.
    destruct ok.
    + destruct (IH rest ltac:(cbn in Hle; lia) (u32 (addr + 4))
                   (emit (EvProgramWord addr [b0; b1; b2; b3]) w1)) as (evs & E & F).
      exists (EvProgramWord addr [b0; b1; b2; b3] :: evs). split.
      * rewrite E. cbn. rewrite Ht, <- app_assoc. reflexivity.
      * constructor; [exact I | exact F].
    + exists [EvProgramFailed addr]. cbn. rewrite Ht. split;
        [reflexivity | repeat constructor].
Qed.

Lemma write_shape (addr : Z) (data : list byte) (w : world) :
  exists evs, trace (snd (boot_port_flash_write addr data w)) = trace w ++ evs
              /\ Forall flash_event evs.
Proof.
  unfold boot_port_flash_write.
  destruct (negb (addr mod 4 =? 0) || negb (len data mod 4 =? 0)).
  - eexists. cbn. split; [reflexivity | repeat constructor].
  - apply program_words_shape.
Qed.

Lemma flash_only_refl (w : world) : flash_only w w.
Proof. exists []. rewrite app_nil_r. split; [reflexivity | constructor]. Qed.

Lemma flash_only_trans (w1 w2 w3 : world) :
  flash_only w1 w2 -> flash_only w2 w3 -> flash_only w1 w3.
Proof.
  intros (e1 & E1 & F1) (e2 & E2 & F2). exists (e1 ++ e2). split.
  - rewrite E2, E1, app_assoc. reflexivity.
  - apply Forall_app. split; assumption.
Qed.

Lemma erase_flash_only (addr size : Z) (w : world) :
  flash_only w (snd (boot_port_flash_erase addr size w)).
Proof. apply erase_shape. Qed.

Lemma write_flash_only (addr : Z) (data : list byte) (w : world) :
  flash_only w (snd (boot_port_flash_write addr data w)).
Proof. apply write_shape. Qed.

Lemma flash_only_no_reset (w w1 : world) :
  flash_only w w1 -> ~ In EvReset (events_since (trace w) w1).
Proof.
  intros (evs & E & F) Hin. unfold events_since in Hin.
  rewrite E, skipn_app, skipn_all, Nat.sub_diag in Hin. cbn in Hin.
  rewrite Forall_forall in F. exact (F _ Hin).
Qed.

(** ** Application side: flag region update and StartFlash *)

Section AppProofs.

Import App.
Variable cfg : boot_config_app.

Lemma app_erase_flash_only (addr size : Z) (w : world) :
  flash_only w (snd (boot_port_app_flash_erase addr size w)).
Proof.
  unfold boot_port_app_flash_erase.
  pose proof (erase_flash_only addr size w) as H.
  destruct (boot_port_flash_erase addr size w). exact H.
Qed.

Lemma app_write_flash_only (addr : Z) (data : list byte) (w : world) :
  flash_only w (snd (boot_port_app_flash_write addr data w)).
Proof.
  unfold boot_port_app_flash_write.
  pose proof (write_flash_only addr data w) as H.
  destruct (boot_port_flash_write addr data w). exact H.
Qed.

(** [app_write_flag_region] always returns, leaves the context alone and
    only drives the flash. *)
Lemma app_write_flag_region_returns
      (flag version date : Z) (c : bootloader_app_context_t) (w : world) :
  exists s w1,
    app_write_flag_region cfg flag version date c w = Returns s c w1
    /\ flash_only w w1.
Proof.
  unfold app_write_flag_region, bind, port, ret.
  pose proof (app_erase_flash_only (BOOT_APP_FLAG_REGION_ADDR cfg)
                                   (BOOT_APP_FLAG_REGION_SIZE cfg) w) as H1.
  destruct (boot_port_app_flash_erase _ _ w) as [s1 w1]. cbn [snd] in H1.
  destruct (app_status_ok s1); cbn [negb]; [|eauto].
  pose proof (app_write_flash_only (BOOT_APP_FLAG_ADDR cfg) (le32 flag) w1) as H2.
  destruct (boot_port_app_flash_write _ _ w1) as [s2 w2]. cbn [snd] in H2.
  pose proof (flash_only_trans H1 H2) as H12.
  destruct (app_status_ok s2); cbn [negb]; [|eauto].
  pose proof (app_write_flash_only (BOOT_APP_VERSION_ADDR cfg) (le32 version) w2) as H3.
  destruct (boot_port_app_flash_write _ _ w2) as [s3 w3]. cbn [snd] in H3.
  pose proof (flash_only_trans H12 H3) as H13.
  destruct (app_status_ok s3); cbn [negb]; [|eauto].
  pose proof (app_write_flash_only (BOOT_APP_DATE_ADDR cfg) (le32 date) w3) as H4.
  destruct (boot_port_app_flash_write _ _ w3) as [s4 w4]. cbn [snd] in H4.
  pose proof (flash_only_trans H13 H4) as H14.
  destruct (app_status_ok s4); cbn [negb]; [|eauto].
  pose proof (app_write_flash_only (BOOT_APP_DATE_ADDR cfg) (le32 date) w4) as H5.
  destruct (boot_port_app_flash_write _ _ w4) as [s5 w5]. cbn [snd] in H5.
  pose proof (flash_only_trans H14 H5) as H15.
  eauto.
Qed.



End AppProofs.

(** ** C9: StartFlash in the application command engine *)



(** ** C8: the two flag region writers side by side *)

(** C8 (evaluated on the code).  The same update, flag = 1, version = 6,
    date = 0x20251215, on a healthy flash with the CH32V307 layout: the
    bootloader's [bootloader_write_flag_region] erases once and programs the
    three words flag, version, date; the application's
    [app_write_flag_region] erases once and programs four words, the date
    word twice. *)
Theorem flag_region_update_words :
  trace (world_of (bootloader_write_flag_region ch32v307_config 1 6 0x20251215
                     (power_on_context ch32v307_config) blank_world))
  = [ EvErase 0x3F800 0x800;
      EvProgramWord 0x3F800 [x01; x00; x00; x00];
      EvProgramWord 0x3F804 [x06; x00; x00; x00];
      EvProgramWord 0x3F808 [x15; x12; x25; x20] ]
  /\
  trace (world_of (App.app_write_flag_region App.ch32v307_config_app 1 6 0x20251215
                     {| App.rx_cache := []; App.boot_flag := 2;
                        App.app_version := 5; App.update_date := 0x20250101;
                        App.initialized := true |} blank_world))
  = [ EvErase 0x3F800 0x800;
      EvProgramWord 0x3F800 [x01; x00; x00; x00];
      EvProgramWord 0x3F804 [x06; x00; x00; x00];
      EvProgramWord 0x3F808 [x15; x12; x25; x20];
      EvProgramWord 0x3F808 [x15; x12; x25; x20] ].
Proof. split; vm_compute; reflexivity. Qed.

(** ** C1: the boot decision *)

Section BootDecision.

Variable cfg : boot_config.

Lemma init_with_outcome (reset_context : BM unit)
      (c c0 : bootloader_context_t) (w : world) :
  reset_context c w = Returns tt c0 w ->
  let flag := read_u32 (flash w) (BOOT_FLAG_ADDR cfg) in
  let c1 := set_flag_region flag (read_u32 (flash w) (BOOT_VERSION_ADDR cfg))
                            (read_u32 (flash w) (BOOT_DATE_ADDR cfg)) c0 in
  easy_bootloader_init_with cfg reset_context c w
  = if (flag =? BOOT_FLAG_APP) && bootloader_check_app_valid cfg w
    then Leaves c1 (emit (EvJump (BOOT_APP_START_ADDR cfg)) w)
    else Returns tt (set_initialized true c1) w.
Proof.
  intros Hr flag c1.
  unfold easy_bootloader_init_with, bind. rewrite Hr.
  unfold bootloader_read_flag_region, get, port, ret, modify,
    boot_port_jump_to_app.
  cbn [boot_flag set_flag_region]. fold flag. fold c1.
  destruct (Z.eqb_spec flag BOOT_FLAG_BOOTLOADER) as [E1|N1].
  - assert (E2 : (flag =? BOOT_FLAG_APP) = false)
      by (rewrite E1; reflexivity).
    rewrite E2. reflexivity.
  - destruct (bootloader_check_app_valid cfg w).
    + rewrite andb_true_r.
      destruct (flag =? BOOT_FLAG_APP); [reflexivity|].
      destruct (flag =? BOOT_FLAG_ERASED cfg); reflexivity.
    + rewrite andb_false_r. reflexivity.
Qed.

Lemma read_u32_erased (f : Z -> byte) (a : Z) :
  (forall i, 0 <= i < 4 -> f (a + i) = xff) -> read_u32 f a = 0xFFFFFFFF.
Proof.
  intros H. unfold read_u32.
  rewrite <- (Z.add_0_r a) at 1.
  rewrite !H by lia. reflexivity.
Qed.

Lemma check_riscv_erased (w0 : Z) : check_app_valid_riscv cfg w0 0xFFFFFFFF = false.
Proof.
  unfold check_app_valid_riscv.
  destruct ((0xFFFFFFFF <? BOOT_APP_START_ADDR cfg)
            || (0xFFFFFFFF >? BOOT_APP_END_ADDR cfg)); reflexivity.
Qed.

Lemma check_cortex_m_erased :
  BOOT_APP_END_ADDR cfg < 0xFFFFFFFF \/ BOOT_FLAG_ERASED cfg = 0xFFFFFFFF ->
  check_app_valid_cortex_m cfg 0xFFFFFFFF 0xFFFFFFFF = false.
Proof.
  intros H. unfold check_app_valid_cortex_m.
  match goal with |- (if negb ?sv then _ else _) = _ => destruct sv end;
    [|reflexivity].
  cbn [negb].
  destruct H as [H|H].
  - assert (E : (0xFFFFFFFF >? BOOT_APP_END_ADDR cfg) = true)
      by (apply Z.gtb_lt; exact H).
    rewrite E, orb_true_r. reflexivity.
  - destruct ((0xFFFFFFFF <? BOOT_APP_START_ADDR cfg)
              || (0xFFFFFFFF >? BOOT_APP_END_ADDR cfg)); [reflexivity|].
    change (Z.land 0xFFFFFFFF 1 =? 0) with false. cbv iota.
    rewrite H. reflexivity.
Qed.

Lemma check_app_valid_erased (w : world) :
  0 <= BOOT_APP_START_ADDR cfg -> BOOT_APP_START_ADDR cfg + 8 <= 2 ^ 32 ->
  (forall i, 0 <= i < 8 -> flash w (BOOT_APP_START_ADDR cfg + i) = xff) ->
  (BOOT_ARCH cfg = BOOT_ARCH_ARM_CORTEX_M ->
   BOOT_APP_END_ADDR cfg < 0xFFFFFFFF \/ BOOT_FLAG_ERASED cfg = 0xFFFFFFFF) ->
  bootloader_check_app_valid cfg w = false.
Proof.
  intros H0 H8 Hff Harm. unfold bootloader_check_app_valid.
  rewrite u32_small by lia.
  rewrite (read_u32_erased (flash w) (BOOT_APP_START_ADDR cfg))
    by (intros; apply Hff; lia).
  rewrite (read_u32_erased (flash w) (BOOT_APP_START_ADDR cfg + 4)).
  - destruct (BOOT_ARCH cfg).
    + apply check_cortex_m_erased. apply Harm. reflexivity.
    + apply check_riscv_erased.
  - intros i Hi. rewrite <- Z.add_assoc. apply Hff. lia.
Qed.

End BootDecision.

(** C1.  [easy_bootloader_init] calls [boot_port_jump_to_app] exactly when
    the persisted flag is BOOT_FLAG_APP and [bootloader_check_app_valid]
    passes; in every other case (flag BOOTLOADER, erased, unknown, or an
    invalid image) it returns with the environment untouched, so without a
    jump, and with [initialized] set.  An application region whose first
    eight bytes are 0xFF is invalid under both architecture variants (for
    Cortex-M: in a layout whose application region ends below 0xFFFFFFFF or
    whose erased pattern is 0xFFFFFFFF), so no jump happens whatever the
    flag. *)
Theorem init_jumps_iff_flag_app_and_valid
        (cfg : boot_config) (c : bootloader_context_t) (w : world) :
  let flag := read_u32 (flash w) (BOOT_FLAG_ADDR cfg) in
  let valid := bootloader_check_app_valid cfg w in
  let jump := EvJump (BOOT_APP_START_ADDR cfg) in
  ((exists c', Core.easy_bootloader_init cfg c w = Leaves c' (emit jump w))
   <-> flag = BOOT_FLAG_APP /\ valid = true)
  /\
  (~ (flag = BOOT_FLAG_APP /\ valid = true) ->
   exists c', Core.easy_bootloader_init cfg c w = Returns tt c' w
              /\ initialized c' = true /\ boot_flag c' = flag)
  /\
  (0 <= BOOT_APP_START_ADDR cfg -> BOOT_APP_START_ADDR cfg + 8 <= 2 ^ 32 ->
   (forall i, 0 <= i < 8 -> flash w (BOOT_APP_START_ADDR cfg + i) = xff) ->
   (BOOT_ARCH cfg = BOOT_ARCH_ARM_CORTEX_M ->
    BOOT_APP_END_ADDR cfg < 0xFFFFFFFF \/ BOOT_FLAG_ERASED cfg = 0xFFFFFFFF) ->
   valid = false
   /\ exists c', Core.easy_bootloader_init cfg c w = Returns tt c' w).
Proof.
  intros flag valid jump.
  pose proof (@init_with_outcome cfg (Core.bootloader_reset_context cfg) c _ w
                eq_refl) as E.
  cbv zeta in E. fold flag in E. fold valid in E.
  fold (Core.easy_bootloader_init cfg) in E.
  assert (Hdec : (flag =? BOOT_FLAG_APP) && valid = true
                 <-> flag = BOOT_FLAG_APP /\ valid = true).
  { rewrite andb_true_iff, Z.eqb_eq. reflexivity. }
  split; [|split].
  - rewrite <- Hdec. split.
    + intros (c' & H). rewrite H in E.
      destruct ((flag =? BOOT_FLAG_APP) && valid); [reflexivity | discriminate].
    + intros H. rewrite H in E. eexists. exact E.
  - intros N. rewrite <- Hdec in N.
    destruct ((flag =? BOOT_FLAG_APP) && valid); [contradiction N; reflexivity|].
    eexists. split; [exact E|]. split; reflexivity.
  - intros H0 H8 Hff Harm.
    assert (Hv : valid = false) by (apply check_app_valid_erased; assumption).
    split; [exact Hv|].
    rewrite Hv, andb_false_r in E. eexists. exact E.
Qed.

(** C1 at two erased devices: the CH32V307 layout (RISC-V) and a Cortex-M
    layout, flash reading 0xFF everywhere, hence flag = 0xFFFFFFFF. *)
Lemma init_jumps_iff_flag_app_and_valid_witness :
  (bootloader_check_app_valid ch32v307_config blank_world = false
   /\ exists c', Core.easy_bootloader_init ch32v307_config
                   (power_on_context ch32v307_config) blank_world
                 = Returns tt c' blank_world)
  /\
  (bootloader_check_app_valid cortex_m_sample_config blank_world = false
   /\ exists c', Core.easy_bootloader_init cortex_m_sample_config
                   (power_on_context cortex_m_sample_config) blank_world
                 = Returns tt c' blank_world).
Proof.
  split.
  - apply (init_jumps_iff_flag_app_and_valid ch32v307_config
             (power_on_context ch32v307_config) blank_world).
    + cbn; lia.
    + cbn; lia.
    + intros; reflexivity.
    + intros H; discriminate H.
  - apply (init_jumps_iff_flag_app_and_valid cortex_m_sample_config
             (power_on_context cortex_m_sample_config) blank_world).
    + cbn; lia.
    + cbn; lia.
    + intros; reflexivity.
    + intros _. left. vm_compute. reflexivity.
Defined.

(** ** Flash Stream Writer *)

Lemma land_mask (x : Z) : 0 <= x < 2 ^ 32 -> Z.land x 0xFFFFFFFC = 4 * (x / 4).
Proof.
  intros Hx. apply Z.bits_inj'. intros n Hn.
  rewrite Z.land_spec.
  change 4 with (2 ^ 2) at 1 2. rewrite <- Z.shiftr_div_pow2 by lia.
  rewrite Z.mul_comm, <- Z.shiftl_mul_pow2 by lia.
  destruct (Z.ltb_spec n 2) as [L|G].
  - rewrite Z.shiftl_spec_low by lia.
    assert (E : n = 0 \/ n = 1) by lia. destruct E; subst n;
      rewrite andb_false_r; reflexivity.
  - rewrite Z.shiftl_spec_high, Z.shiftr_spec by lia.
    replace (n - 2 + 2) with n by lia.
    destruct (Z.ltb_spec n 32) as [L32|G32].
    + replace (Z.testbit 0xFFFFFFFC n) with true; [apply andb_true_r|].
      symmetry.
      change 0xFFFFFFFC with (Z.shiftl (Z.ones 30) 2).
      rewrite Z.shiftl_spec_high by lia. apply Z.ones_spec_low. lia.
    + assert (Ex : Z.testbit x n = false).
      { destruct (Z.eq_dec x 0) as [->|Nz]; [apply Z.bits_0|].
        apply Z.bits_above_log2; [lia|].
        apply Z.log2_lt_pow2; [lia|].
        apply Z.lt_le_trans with (2 ^ 32); [lia|].
        apply Z.pow_le_mono_r; lia. }
      rewrite Ex. reflexivity.
Qed.

Lemma top_up_spec (data cache : list byte) :
  len cache <= 4 ->
  let n := Z.to_nat (Z.min (4 - len cache) (len data)) in
  top_up cache data = (cache ++ firstn n data, skipn n data).
Proof.
  revert cache. induction data as [|b rest IH]; intros cache Hc n.
  - subst n. cbn [top_up]. rewrite firstn_nil, skipn_nil, app_nil_r. reflexivity.
  - cbn [top_up]. destruct (Z.ltb_spec (len cache) 4) as [L|G].
    + rewrite IH by (rewrite len_app, len_cons, len_nil; lia).
      subst n. rewrite len_app, !len_cons, len_nil.
      pose proof (len_nonneg rest). pose proof (len_nonneg cache).
      replace (Z.to_nat (Z.min (4 - len cache) (1 + len rest)))
        with (S (Z.to_nat (Z.min (4 - (len cache + (1 + 0))) (len rest)))) by lia.
      cbn [firstn skipn]. rewrite <- app_assoc. reflexivity.
    + subst n. pose proof (len_nonneg (b :: rest)).
      replace (Z.to_nat (Z.min (4 - len cache) (len (b :: rest)))) with O by lia.
      cbn. rewrite app_nil_r. reflexivity.
Qed.

Lemma len_firstn (n : nat) (l : list byte) :
  len (firstn n l) = Z.min (Z.of_nat n) (len l).
Proof. unfold len. rewrite length_firstn. lia. Qed.

Lemma len_skipn (n : nat) (l : list byte) :
  len (skipn n l) = Z.max 0 (len l - Z.of_nat n).
Proof. unfold len. rewrite length_skipn. lia. Qed.

Lemma len_repeat (b : byte) (n : nat) : len (repeat b n) = Z.of_nat n.
Proof. unfold len. rewrite repeat_length. reflexivity. Qed.

Lemma word_events_short (a : Z) (l : list byte) : len l < 4 -> word_events a l = [].
Proof.
  intros H. destruct l as [|b0 [|b1 [|b2 [|b3 rest]]]]; try reflexivity.
  rewrite !len_cons in H. pose proof (len_nonneg rest). lia.
Qed.

Lemma word_events_app (x : list byte) :
  whole_words x ->
  forall a y, word_events a (x ++ y) = word_events a x ++ word_events (a + len x) y.
Proof.
  induction 1 as [|b0 b1 b2 b3 rest _ IH]; intros a y.
  - cbn [app word_events]. rewrite len_nil, Z.add_0_r. reflexivity.
  - cbn [app word_events]. rewrite IH, !len_cons. 
    replace (a + 4 + len rest) with (a + (1 + (1 + (1 + (1 + len rest))))) by lia.
    reflexivity.
Qed.

Lemma firstn_skipn_len (n : Z) (l : list byte) :
  0 <= n <= len l ->
  len (firstn (Z.to_nat n) l) = n /\ len (skipn (Z.to_nat n) l) = len l - n.
Proof. intros H. rewrite len_firstn, len_skipn. lia. Qed.

(** Cutting after the last whole word loses no word. *)
Lemma word_events_whole_prefix (a : Z) (l : list byte) :
  word_events a (firstn (Z.to_nat (4 * (len l / 4))) l) = word_events a l.
Proof.
  pose proof (len_nonneg l) as Hn.
  pose proof (Z.div_mod (len l) 4 ltac:(lia)) as Hd.
  pose proof (Z.mod_pos_bound (len l) 4 ltac:(lia)) as Hm.
  set (k := 4 * (len l / 4)) in *.
  assert (Hk : 0 <= k <= len l) by lia.
  destruct (firstn_skipn_len l Hk) as (Hf & Hs).
  rewrite <- (firstn_skipn (Z.to_nat k) l) at 2.
  rewrite word_events_app.
  - rewrite (@word_events_short _ (skipn (Z.to_nat k) l)) by lia.
    rewrite app_nil_r. reflexivity.
  - apply whole_words_len. rewrite Hf. unfold k.
    rewrite Z.mul_comm. apply Z.mod_mul. lia.
Qed.

Lemma word_events_length (l : list byte) :
  whole_words l -> forall a, Z.of_nat (length (word_events a l)) = len l / 4.
Proof.
  induction 1 as [|b0 b1 b2 b3 rest _ IH]; intros a; [reflexivity|].
  cbn [word_events length]. rewrite Nat2Z.inj_succ, IH, !len_cons.
  replace (1 + (1 + (1 + (1 + len rest)))) with (len rest + 1 * 4) by lia.
  rewrite Z.div_add by lia. lia.
Qed.

Lemma programmed_app (t1 t2 : list event) :
  programmed (t1 ++ t2) = programmed t1 ++ programmed t2.
Proof.
  induction t1 as [|e t1 IH]; [reflexivity|].
  destruct e; cbn [app programmed]; rewrite IH; reflexivity.
Qed.

(** The words of [word_events]: consecutive addresses, and their bytes put
    end to end are the data. *)
Lemma programmed_word_events (l : list byte) :
  whole_words l ->
  forall a,
    concat (map snd (programmed (word_events a l))) = l
    /\ map fst (programmed (word_events a l))
       = map (fun i => a + 4 * Z.of_nat i) (seq 0 (length (word_events a l)))
    /\ Forall (fun aw => length (snd aw) = 4%nat) (programmed (word_events a l)).
Proof.
  induction 1 as [|b0 b1 b2 b3 rest _ IH]; intros a.
  - cbn. auto.
  - cbn [word_events programmed map concat snd fst length seq].
    destruct (IH (a + 4)) as (E1 & E2 & E3). repeat split.
    + rewrite E1. reflexivity.
    + rewrite E2. f_equal; [lia|].
      rewrite <- seq_shift, map_map. apply map_ext. intros i. lia.
    + constructor; [reflexivity | exact E3].
Qed.

Lemma div4_facts (x : Z) :
  0 <= x -> 0 <= 4 * (x / 4) <= x /\ x - 4 * (x / 4) = x mod 4 /\ 0 <= x mod 4 < 4.
Proof.
  intros H. pose proof (Z.div_mod x 4 ltac:(lia)).
  pose proof (Z.mod_pos_bound x 4 ltac:(lia)). lia.
Qed.

Lemma stream_write_aligned_all_ok (rest : list byte)
      (c : bootloader_context_t) (w : world) :
  all_ok w ->
  current_addr c mod 4 = 0 -> 0 <= current_addr c ->
  current_addr c + len rest < 2 ^ 32 ->
  exists c' w',
    stream_write_aligned rest c w = Returns BOOT_PORT_OK c' w'
    /\ all_ok w'
    /\ current_addr c' = current_addr c + 4 * (len rest / 4)
    /\ stream_cache c'
       = (if 0 <? len rest mod 4
          then skipn (Z.to_nat (4 * (len rest / 4))) rest
          else stream_cache c)
    /\ trace w' = trace w ++ word_events (current_addr c) rest.
Proof.
  intros Hok Ha H0 Hroom.
  pose proof (len_nonneg rest) as Hn.
  destruct (div4_facts Hn) as (Hk & Hr & Hm).
  unfold stream_write_aligned.
  rewrite land_mask by lia.
  set (aligned := 4 * (len rest / 4)) in *.
  destruct (firstn_skipn_len rest Hk) as (Hf & Hs).
  unfold bind, get, port, modify, ret.
  destruct (Z.ltb_spec 0 aligned) as [Lt|Ge].
  - destruct (@flash_write_all_ok (current_addr c)
                (firstn (Z.to_nat aligned) rest) w Hok Ha)
      as (w1 & -> & Hok1 & Ht1 & _).
    { rewrite Hf. unfold aligned. rewrite Z.mul_comm. apply Z.mod_mul. lia. }
    { exact H0. }
    { rewrite Hf. lia. }
    cbn [status_ok negb]. rewrite Hs, Hr.
    rewrite u32_small by lia.
    destruct (Z.ltb_spec 0 (len rest mod 4)); eexists; eexists;
      (split; [reflexivity|]); cbn [current_addr stream_cache set_stream_cache
                                     set_current_addr];
      repeat split; try assumption;
      rewrite Ht1; unfold aligned; rewrite word_events_whole_prefix; reflexivity.
  - cbn [status_ok negb].
    assert (Ez : aligned = 0) by lia.
    assert (Er : len rest mod 4 = len rest) by lia.
    rewrite Er, Ez. cbn [Z.to_nat skipn].
    destruct (Z.ltb_spec 0 (len rest)); eexists; eexists;
      (split; [reflexivity|]); cbn [current_addr stream_cache set_stream_cache];
      repeat split; try assumption; try lia;
      rewrite word_events_short by lia; rewrite app_nil_r; reflexivity.
Qed.

Lemma stream_write_all_ok (data : list byte)
      (c : bootloader_context_t) (w : world) :
  all_ok w ->
  stream_cache_len c <= 3 ->
  current_addr c mod 4 = 0 -> 0 <= current_addr c ->
  current_addr c + stream_cache_len c + len data < 2 ^ 32 ->
  let total := stream_cache c ++ data in
  exists c' w',
    bootloader_stream_write data c w = Returns BOOT_PORT_OK c' w'
    /\ all_ok w'
    /\ current_addr c' = current_addr c + 4 * (len total / 4)
    /\ stream_cache c' = skipn (Z.to_nat (4 * (len total / 4))) total
    /\ trace w' = trace w ++ word_events (current_addr c) total.
Proof.
  intros Hok Hc Ha H0 Hroom total.
  pose proof (len_nonneg data) as Hnd.
  pose proof (len_nonneg (stream_cache c)) as Hnc.
  unfold stream_cache_len in *.
  unfold bootloader_stream_write.
  destruct (Z.eqb_spec (len data) 0) as [Ez|Nz].
  - (* nothing to write *)
    assert (data = []) as -> by (destruct data; [reflexivity | rewrite len_cons in Ez; pose proof (len_nonneg data); lia]).
    subst total. rewrite app_nil_r.
    assert (Ek : len (stream_cache c) / 4 = 0) by (apply Z.div_small; lia).
    rewrite Ek. exists c, w. cbn [Z.to_nat skipn Z.mul].
    repeat split; try assumption; try lia.
    rewrite word_events_short by lia. rewrite app_nil_r. reflexivity.
  - unfold bind at 1. unfold stream_write_carry, bind, get.
    fold (stream_cache_len c). unfold stream_cache_len.
    destruct (Z.ltb_spec 0 (len (stream_cache c))) as [Lt|Ge].
    + (* a carry is pending *)
      rewrite top_up_spec by lia.
      set (n := Z.to_nat (Z.min (4 - len (stream_cache c)) (len data))).
      set (cache := stream_cache c ++ firstn n data).
      assert (Hlc : len cache = Z.min 4 (len (stream_cache c) + len data)).
      { unfold cache, n. rewrite len_app, len_firstn. lia. }
      assert (Etot : total = cache ++ skipn n data).
      { unfold total, cache. rewrite <- app_assoc, firstn_skipn. reflexivity. }
      assert (Hlr : len (skipn n data)
                    = len (stream_cache c) + len data - len cache).
      { rewrite len_skipn. unfold n. lia. }
      unfold modify, port, ret.
      destruct (Z.eqb_spec (len cache) 4) as [E4|N4].
      * destruct (@flash_write_all_ok (current_addr c) cache w Hok Ha)
          as (w1 & E1 & Hok1 & Ht1 & _);
          [rewrite E4; reflexivity | exact H0 | lia |].
        cbn [current_addr set_stream_cache]. rewrite E1.
        cbn [status_ok negb current_addr set_stream_cache set_current_addr].
        rewrite u32_small by lia.
        match goal with
        | |- context [stream_write_aligned ?r ?c1 ?w1] =>
            destruct (@stream_write_aligned_all_ok r c1 w1 Hok1)
              as (c2 & w2 & E2 & Hok2 & Ha2 & Hs2 & Ht2)
        end.
        { cbn [current_addr set_stream_cache set_current_addr].
          replace (current_addr c + 4) with (current_addr c + 1 * 4) by lia.
          rewrite Z.mod_add by lia. exact Ha. }
        { cbn [current_addr set_stream_cache set_current_addr]. lia. }
        { cbn [current_addr set_stream_cache set_current_addr]. lia. }
        cbn [current_addr stream_cache set_stream_cache set_current_addr]
          in Ha2, Hs2, Ht2.
        exists c2, w2. split; [exact E2|]. split; [exact Hok2|].
        assert (Elen : len total = len (skipn n data) + 1 * 4).
        { rewrite Etot, len_app. lia. }
        rewrite Elen, Z.div_add by lia.
        pose proof (len_nonneg (skipn n data)) as Hns.
        destruct (div4_facts Hns) as (Hk & Hr & Hm).
        repeat split.
        -- rewrite Ha2. lia.
        -- rewrite Hs2, Etot.
           replace (Z.to_nat (4 * (len (skipn n data) / 4 + 1)))
             with (length cache + Z.to_nat (4 * (len (skipn n data) / 4)))%nat
             by (unfold len in E4; lia).
           rewrite skipn_app. rewrite (@skipn_all2 _ _ cache) by lia.
           replace (length cache + Z.to_nat (4 * (len (skipn n data) / 4))
                    - length cache)%nat
             with (Z.to_nat (4 * (len (skipn n data) / 4))) by lia.
           cbn [app].
           destruct (Z.ltb_spec 0 (len (skipn n data) mod 4)); [reflexivity|].
           symmetry. apply length_zero_iff_nil.
           rewrite length_skipn. unfold len in *. lia.
        -- rewrite Ht2, Ht1, Etot, <- app_assoc. f_equal.
           rewrite word_events_app by (apply whole_words_len; rewrite E4; reflexivity).
           rewrite E4. reflexivity.
      * (* the carry is still short: everything went into it *)
        assert (Hshort : len (stream_cache c) + len data < 4) by lia.
        assert (Erest : skipn n data = []).
        { apply length_zero_iff_nil. unfold len in *. lia. }
        rewrite Erest. cbn [status_ok negb].
        unfold stream_write_aligned, bind, ret, modify. cbn.
        rewrite Erest, app_nil_r in Etot.
        assert (Ek : len total / 4 = 0)
          by (apply Z.div_small; rewrite Etot; lia).
        rewrite Ek. cbn [Z.mul Z.to_nat skipn].
        eexists; eexists. split; [reflexivity|].
        cbn [current_addr stream_cache set_stream_cache].
        repeat split; try assumption; try lia; [congruence|].
        rewrite word_events_short by (rewrite Etot; lia).
        rewrite app_nil_r. reflexivity.
    + (* no carry *)
      assert (Ec : stream_cache c = [])
        by (apply length_zero_iff_nil; unfold len in *; lia).
      unfold ret. cbn [status_ok negb].
      destruct (@stream_write_aligned_all_ok data c w Hok Ha H0)
        as (c2 & w2 & E2 & Hok2 & Ha2 & Hs2 & Ht2); [lia|].
      subst total. rewrite Ec in *. cbn [app].
      exists c2, w2. repeat split; try assumption.
      rewrite Hs2.
      destruct (Z.ltb_spec 0 (len data mod 4)); [reflexivity|].
      symmetry. apply length_zero_iff_nil. rewrite length_skipn.
      destruct (div4_facts Hnd) as (Hk & Hr & Hm). unfold len in *. lia.
Qed.

Lemma ceil4_bounds (n : Z) : 0 <= n -> n <= 4 * ceil4 n <= n + 3.
Proof.
  intros H. unfold ceil4.
  pose proof (Z.div_mod (n + 3) 4 ltac:(lia)).
  pose proof (Z.mod_pos_bound (n + 3) 4 ltac:(lia)). lia.
Qed.

Lemma ceil4_pad (n : Z) : 0 <= n -> n + (4 - n mod 4) mod 4 = 4 * ceil4 n.
Proof.
  intros H. unfold ceil4.
  pose proof (Z.div_mod n 4 ltac:(lia)) as Hd.
  pose proof (Z.mod_pos_bound n 4 ltac:(lia)) as Hm.
  pose proof (Z.div_mod (n + 3) 4 ltac:(lia)) as Hd3.
  pose proof (Z.mod_pos_bound (n + 3) 4 ltac:(lia)) as Hm3.
  assert (C : n mod 4 = 0 \/ n mod 4 = 1 \/ n mod 4 = 2 \/ n mod 4 = 3) by lia.
  destruct C as [C|[C|[C|C]]]; rewrite C in *;
    [ change ((4 - 0) mod 4) with 0 | change ((4 - 1) mod 4) with 3
    | change ((4 - 2) mod 4) with 2 | change ((4 - 3) mod 4) with 1 ]; lia.
Qed.

(** The 0xFF bytes that complete [n] pending bytes to whole words. *)
Lemma pad_facts (n : Z) :
  0 <= n ->
  let p := (4 - n mod 4) mod 4 in
  0 <= p < 4 /\ (n + p) mod 4 = 0 /\ (n mod 4 = 0 -> p = 0)
  /\ (n mod 4 <> 0 -> p = 4 - n mod 4).
Proof.
  intros Hn p. subst p.
  pose proof (Z.mod_pos_bound n 4 ltac:(lia)) as Hm.
  pose proof (Z.div_mod n 4 ltac:(lia)) as Hd.
  assert (C : n mod 4 = 0 \/ n mod 4 = 1 \/ n mod 4 = 2 \/ n mod 4 = 3) by lia.
  destruct C as [C|[C|[C|C]]]; rewrite C in *; cbn;
    (repeat split; try lia;
     [ match goal with
       | |- (n + ?q) mod 4 = 0 =>
           replace (n + q) with ((n / 4 + (if q =? 0 then 0 else 1)) * 4)
             by (cbn; lia);
           apply Z.mod_mul; lia
       end ]).
Qed.

Lemma stream_flush_all_ok (c : bootloader_context_t) (w : world) :
  all_ok w ->
  stream_cache_len c <= 3 ->
  current_addr c mod 4 = 0 -> 0 <= current_addr c ->
  (stream_cache c <> [] -> current_addr c + 4 < 2 ^ 32) ->
  let pad := repeat xff (Z.to_nat ((4 - stream_cache_len c mod 4) mod 4)) in
  exists c' w',
    bootloader_stream_flush c w = Returns BOOT_PORT_OK c' w'
    /\ all_ok w'
    /\ current_addr c' = current_addr c + len (stream_cache c ++ pad)
    /\ stream_cache c' = []
    /\ trace w' = trace w ++ word_events (current_addr c) (stream_cache c ++ pad).
Proof.
  intros Hok Hc Ha H0 Hroom pad.
  pose proof (len_nonneg (stream_cache c)) as Hn.
  unfold stream_cache_len in *.
  unfold bootloader_stream_flush, bind, get, port, modify, ret.
  fold (stream_cache_len c). unfold stream_cache_len.
  destruct (Z.eqb_spec (len (stream_cache c)) 0) as [Ez|Nz].
  - assert (Ec : stream_cache c = [])
      by (apply length_zero_iff_nil; unfold len in *; lia).
    subst pad. rewrite Ez, Ec. cbn. exists c, w.
    rewrite Z.add_0_r, app_nil_r. auto.
  - assert (Em : len (stream_cache c) mod 4 = len (stream_cache c))
      by (apply Z.mod_small; lia).
    assert (Ep : (4 - len (stream_cache c)) mod 4 = 4 - len (stream_cache c))
      by (apply Z.mod_small; lia).
    assert (Hroom' : current_addr c + 4 < 2 ^ 32).
    { apply Hroom. intros Ec. rewrite Ec in Nz. apply Nz. reflexivity. }
    subst pad. rewrite Em, Ep.
    set (padded := stream_cache c ++ repeat xff (Z.to_nat (4 - len (stream_cache c)))).
    assert (Hlp : len padded = 4).
    { unfold padded. rewrite len_app, len_repeat. lia. }
    assert (E4 : firstn 4 padded = padded).
    { apply firstn_all2. unfold len in Hlp. lia. }
    rewrite E4.
    destruct (@flash_write_all_ok (current_addr c) padded w Hok Ha)
      as (w1 & -> & Hok1 & Ht1 & _);
      [rewrite Hlp; reflexivity | exact H0 | lia |].
    cbn [status_ok]. eexists; eexists. split; [reflexivity|].
    cbn [current_addr stream_cache set_stream_cache set_current_addr].
    rewrite u32_small by lia. rewrite Hlp. auto.
Qed.

Lemma stream_chunks_all_ok (chunks : list (list byte)) :
  forall (c : bootloader_context_t) (w : world),
    all_ok w ->
    stream_cache_len c <= 3 ->
    current_addr c mod 4 = 0 -> 0 <= current_addr c ->
    current_addr c + 4 * ceil4 (stream_cache_len c + len (concat chunks)) < 2 ^ 32 ->
    let pending := stream_cache c ++ concat chunks in
    let pad := repeat xff (Z.to_nat ((4 - len pending mod 4) mod 4)) in
    exists c' w',
      stream_chunks chunks c w = Returns BOOT_PORT_OK c' w'
      /\ all_ok w'
      /\ current_addr c' = current_addr c + len (pending ++ pad)
      /\ stream_cache c' = []
      /\ trace w' = trace w ++ word_events (current_addr c) (pending ++ pad).
Proof.
  induction chunks as [|data rest IH]; intros c w Hok Hc Ha H0 Hroom pending pad.
  - cbn [stream_chunks]. subst pending pad. cbn [concat] in *.
    rewrite app_nil_r in *. rewrite len_nil, Z.add_0_r in Hroom.
    apply stream_flush_all_ok; try assumption.
    intros Hne. unfold stream_cache_len in *.
    pose proof (len_nonneg (stream_cache c)) as Hn.
    assert (0 < len (stream_cache c)).
    { destruct (stream_cache c); [contradiction Hne; reflexivity|].
      rewrite len_cons. pose proof (len_nonneg l). lia. }
    pose proof (ceil4_bounds Hn). lia.
  - cbn [stream_chunks concat] in *. rewrite len_app in Hroom.
    pose proof (len_nonneg data) as Hnd.
    pose proof (len_nonneg (concat rest)) as Hnr.
    pose proof (len_nonneg (stream_cache c)) as Hnc.
    unfold stream_cache_len in *.
    assert (Hceil : 0 <= len (stream_cache c) + (len data + len (concat rest)))
      by lia.
    pose proof (ceil4_bounds Hceil) as Hcb.
    destruct (@stream_write_all_ok data c w Hok Hc Ha H0)
      as (c1 & w1 & E1 & Hok1 & Ha1 & Hs1 & Ht1); [unfold stream_cache_len; lia|].
    set (total := stream_cache c ++ data) in *.
    assert (Hnt : 0 <= len total) by apply len_nonneg.
    assert (Elt : len total = len (stream_cache c) + len data)
      by (unfold total; apply len_app).
    destruct (div4_facts Hnt) as (Hk & Hr & Hm).
    set (k := 4 * (len total / 4)) in *.
    destruct (firstn_skipn_len total Hk) as (Hf & Hs).
    unfold bind. rewrite E1. cbn [status_ok negb].
    destruct (IH c1 w1 Hok1) as (c2 & w2 & E2 & Hok2 & Ha2 & Hs2 & Ht2).
    { unfold stream_cache_len. rewrite Hs1, Hs. lia. }
    { rewrite Ha1. unfold k.
      rewrite (Z.mul_comm 4), Z.mod_add by lia. exact Ha. }
    { lia. }
    { unfold stream_cache_len. rewrite Hs1, Hs, Ha1.
      replace (len (stream_cache c) + (len data + len (concat rest)))
        with (len total - k + len (concat rest) + (len total / 4) * 4) in Hroom
        by (unfold k; lia).
      unfold ceil4 in *.
      replace (len total - k + len (concat rest) + len total / 4 * 4 + 3)
        with (len total - k + len (concat rest) + 3 + len total / 4 * 4) in Hroom
        by lia.
      rewrite Z.div_add in Hroom by lia. unfold k in *. lia. }
    cbv zeta in Ha2, Hs2, Ht2.
    exists c2, w2. split; [exact E2|]. split; [exact Hok2|].
    assert (Esplit : pending = firstn (Z.to_nat k) total
                               ++ (stream_cache c1 ++ concat rest)).
    { subst pending. rewrite Hs1. fold k.
      rewrite app_assoc, (app_assoc (firstn _ _)), firstn_skipn. reflexivity. }
    assert (Elen : len pending = len (stream_cache c1 ++ concat rest) + (len total / 4) * 4).
    { rewrite Esplit, len_app, Hf. unfold k. lia. }
    assert (Epad : pad = repeat xff
                     (Z.to_nat ((4 - len (stream_cache c1 ++ concat rest) mod 4) mod 4))).
    { subst pad. rewrite Elen, Z.mod_add by lia. reflexivity. }
    rewrite <- Epad in Ha2, Ht2.
    assert (Eww : whole_words (firstn (Z.to_nat k) total)).
    { apply whole_words_len. rewrite Hf. unfold k.
      rewrite Z.mul_comm. apply Z.mod_mul. lia. }
    assert (Eall : pending ++ pad
                   = firstn (Z.to_nat k) total
                     ++ ((stream_cache c1 ++ concat rest) ++ pad)).
    { rewrite Esplit, <- app_assoc. reflexivity. }
    rewrite Eall. repeat split.
    + rewrite Ha2, Ha1, (len_app (firstn _ _)), Hf. lia.
    + exact Hs2.
    + rewrite Ht2, Ht1, <- app_assoc. f_equal.
      rewrite (word_events_app Eww), Hf, Ha1. f_equal.
      unfold k. apply eq_sym, word_events_whole_prefix.
Qed.

Lemma word_events_programmed (l : list byte) (a : Z) :
  word_events a l
  = map (fun aw => EvProgramWord (fst aw) (snd aw)) (programmed (word_events a l)).
Proof.
  remember (length l) as n eqn:Hn.
  assert (Hle : (length l <= n)%nat) by lia. clear Hn.
  revert l a Hle. induction n as [|n IH]; intros l a Hle;
    destruct l as [|b0 [|b1 [|b2 [|b3 rest]]]]; try reflexivity.
  - cbn in Hle. lia.
  - cbn [word_events programmed map fst snd]. f_equal.
    apply IH. cbn in Hle. lia.
Qed.

Lemma programmed_word_events_length (l : list byte) (a : Z) :
  length (programmed (word_events a l)) = length (word_events a l).
Proof.
  rewrite (word_events_programmed l a) at 2. rewrite length_map. reflexivity.
Qed.

Lemma programmed_aligned (l : list byte) (a : Z) :
  a mod 4 = 0 ->
  Forall (fun aw => fst aw mod 4 = 0) (programmed (word_events a l)).
Proof.
  remember (length l) as n eqn:Hn.
  assert (Hle : (length l <= n)%nat) by lia. clear Hn.
  revert l a Hle. induction n as [|n IH]; intros l a Hle Ha;
    (destruct l as [|b0 [|b1 [|b2 [|b3 rest]]]];
     [constructor | constructor | constructor | constructor | ]).
  { cbn in Hle. lia. }
  cbn [word_events programmed]. constructor; [exact Ha|].
  apply IH; [cbn in Hle; lia|].
  replace (a + 4) with (a + 1 * 4) by lia. rewrite Z.mod_add by lia. exact Ha.
Qed.

Lemma events_since_app (t evs : list event) (w : world) :
  trace w = t ++ evs -> events_since t w = evs.
Proof.
  intros E. unfold events_since. rewrite E, skipn_app, skipn_all, Nat.sub_diag.
  reflexivity.
Qed.

(** C2.  Any sequence of chunks of total length [L], streamed through
    [bootloader_stream_write] chunk by chunk and then
    [bootloader_stream_flush], from a fresh cursor (cursor at the start of the
    application region, empty carry) on a flash that accepts every write:
    the transfer returns OK; the only events are programmed words, exactly
    [ceil4 L] of them, four bytes each, at the consecutive 4-byte-aligned
    addresses from the region start; their bytes put end to end are the
    input followed by 0xFF padding up to the next multiple of 4; the cursor
    has advanced by [4 * ceil4 L] and the carry is empty. *)
Theorem stream_writer_words
        (cfg : boot_config) (chunks : list (list byte))
        (c : bootloader_context_t) (w : world) :
  let L := len (concat chunks) in
  let start := BOOT_APP_START_ADDR cfg in
  all_ok w ->
  current_addr c = start -> stream_cache c = [] ->
  0 <= start -> start mod 4 = 0 -> start + 4 * ceil4 L < 2 ^ 32 ->
  exists c' w',
    stream_chunks chunks c w = Returns BOOT_PORT_OK c' w'
    /\ let ws := programmed (events_since (trace w) w') in
       events_since (trace w) w'
       = map (fun aw => EvProgramWord (fst aw) (snd aw)) ws
       /\ Z.of_nat (length ws) = ceil4 L
       /\ Forall (fun aw => fst aw mod 4 = 0 /\ length (snd aw) = 4%nat) ws
       /\ map fst ws = map (fun i => start + 4 * Z.of_nat i) (seq 0 (length ws))
       /\ firstn (Z.to_nat L) (concat (map snd ws)) = concat chunks
       /\ skipn (Z.to_nat L) (concat (map snd ws))
          = repeat xff (Z.to_nat (4 * ceil4 L - L))
       /\ current_addr c' = start + 4 * ceil4 L
       /\ stream_cache c' = [].
Proof.
  intros L start Hok Hcur Hcache H0 Hal Hroom.
  pose proof (len_nonneg (concat chunks)) as HL. fold L in HL.
  destruct (@stream_chunks_all_ok chunks c w Hok)
    as (c' & w' & E & Hok' & Ha' & Hs' & Ht').
  { unfold stream_cache_len. rewrite Hcache, len_nil. lia. }
  { rewrite Hcur. exact Hal. }
  { rewrite Hcur. exact H0. }
  { unfold stream_cache_len. rewrite Hcur, Hcache, len_nil, Z.add_0_l. exact Hroom. }
  cbv zeta in Ha', Ht'. rewrite Hcache, Hcur in *. cbn [app] in *. fold L in Ha', Ht'.
  set (pad := repeat xff (Z.to_nat ((4 - L mod 4) mod 4))) in *.
  destruct (pad_facts HL) as (Hp & Hpm & _).
  assert (Hlp : len pad = 4 * ceil4 L - L).
  { unfold pad. rewrite len_repeat. pose proof (ceil4_pad HL). lia. }
  assert (Hlen : len (concat chunks ++ pad) = 4 * ceil4 L).
  { rewrite len_app. fold L. lia. }
  assert (Hww : whole_words (concat chunks ++ pad)).
  { apply whole_words_len. rewrite Hlen, Z.mul_comm. apply Z.mod_mul. lia. }
  exists c', w'. split; [exact E|].
  rewrite (@events_since_app _ _ _ Ht'). cbv zeta.
  destruct (programmed_word_events Hww start) as (Ec & Ef & El).
  assert (Hn : Z.of_nat (length (programmed (word_events start (concat chunks ++ pad))))
               = ceil4 L).
  { rewrite programmed_word_events_length.
    rewrite (word_events_length Hww), Hlen, Z.mul_comm. apply Z.div_mul. lia. }
  split; [apply word_events_programmed|].
  split; [exact Hn|].
  split.
  { pose proof (@programmed_aligned (concat chunks ++ pad) start Hal) as Hpa.
    rewrite Forall_forall in *. intros aw Hin. split; auto. }
  split.
  { rewrite Ef, programmed_word_events_length. reflexivity. }
  rewrite Ec.
  assert (ElL : length (concat chunks) = Z.to_nat L) by (unfold L, len; lia).
  split; [|split; [|split]].
  - rewrite <- ElL, firstn_app, firstn_all, Nat.sub_diag. cbn [firstn].
    apply app_nil_r.
  - rewrite <- ElL, skipn_app, skipn_all, Nat.sub_diag. cbn [skipn app].
    unfold pad. f_equal. pose proof (ceil4_pad HL). lia.
  - rewrite Ha', Hlen. reflexivity.
  - exact Hs'.
Qed.

(** C2 on the CH32V307 layout: seven bytes in chunks of five and two give two
    words, the second padded with one 0xFF. *)
Lemma stream_writer_words_witness :
  let cfg := ch32v307_config in
  let chunks := [[x01; x02; x03; x04; x05]; [x06; x07]] in
  let c := ctx_of (Core.bootloader_reset_context cfg (power_on_context cfg)
                     blank_world) in
  let w := blank_world in
  all_ok w /\ current_addr c = BOOT_APP_START_ADDR cfg /\ stream_cache c = []
  /\ 0 <= BOOT_APP_START_ADDR cfg /\ BOOT_APP_START_ADDR cfg mod 4 = 0
  /\ BOOT_APP_START_ADDR cfg + 4 * ceil4 (len (concat chunks)) < 2 ^ 32
  /\ exists c' w',
       stream_chunks chunks c w = Returns BOOT_PORT_OK c' w'
       /\ programmed (events_since (trace w) w')
          = [(0x6000, [x01; x02; x03; x04]); (0x6004, [x05; x06; x07; xff])]
       /\ current_addr c' = 0x6008.
Proof.
  intros cfg chunks c w.
  assert (H1 : all_ok w) by reflexivity.
  assert (H2 : current_addr c = BOOT_APP_START_ADDR cfg) by reflexivity.
  assert (H3 : stream_cache c = []) by reflexivity.
  assert (H4 : 0 <= BOOT_APP_START_ADDR cfg) by (cbn; lia).
  assert (H5 : BOOT_APP_START_ADDR cfg mod 4 = 0) by reflexivity.
  assert (H6 : BOOT_APP_START_ADDR cfg + 4 * ceil4 (len (concat chunks)) < 2 ^ 32)
    by (vm_compute; reflexivity).
  repeat (split; [assumption|]).
  destruct (@stream_writer_words cfg chunks c w H1 H2 H3 H4 H5 H6)
    as (c' & w' & E & _).
  exists c', w'. split; [exact E|].
  vm_compute in E. injection E as <- <-. split; reflexivity.
Defined.

(** ** C10: the writer invariant *)

Lemma within_contract_refl (w : world) : within_contract w w.
Proof. exists []. rewrite app_nil_r. split; [reflexivity | constructor]. Qed.

Lemma within_contract_trans (w1 w2 w3 : world) :
  within_contract w1 w2 -> within_contract w2 w3 -> within_contract w1 w3.
Proof.
  intros (e1 & E1 & F1) (e2 & E2 & F2). exists (e1 ++ e2). split.
  - rewrite E2, E1, app_assoc. reflexivity.
  - apply Forall_app. split; assumption.
Qed.

Lemma program_words_contract (data : list byte) :
  forall addr w,
    addr mod 4 = 0 ->
    within_contract w (snd (program_words addr data w)).
Proof.
  remember (length data) as n eqn:Hn.
  assert (Hle : (length data <= n)%nat) by lia. clear Hn.
  revert data Hle. induction n as [|n IH]; intros data Hle addr w Ha;
    (destruct data as [|b0 [|b1 [|b2 [|b3 rest]]]];
     [apply within_contract_refl | apply within_contract_refl
      | apply within_contract_refl | apply within_contract_refl | ]).
  { cbn in Hle. lia. }
  cbn [program_words].
  pose proof (draw_shape w) as (Ht & _). destruct (draw w) as [ok w1]. cbn in Ht.
  destruct ok.
  - apply within_contract_trans
      with (w2 := emit (EvProgramWord addr [b0; b1; b2; b3]) w1).
    + exists [EvProgramWord addr [b0; b1; b2; b3]]. cbn. rewrite Ht.
      split; [reflexivity|]. repeat constructor. exact Ha.
    + apply IH; [cbn in Hle; lia|].
      rewrite u32_mod4. replace (addr + 4) with (addr + 1 * 4) by lia.
      rewrite Z.mod_add by lia. exact Ha.
  - exists [EvProgramFailed addr]. cbn. rewrite Ht.
    split; [reflexivity | repeat constructor].
Qed.

Lemma flash_write_contract (addr : Z) (data : list byte) (w : world) :
  addr mod 4 = 0 -> len data mod 4 = 0 ->
  within_contract w (snd (boot_port_flash_write addr data w)).
Proof.
  intros Ha Hl. unfold boot_port_flash_write. rewrite Ha, Hl. cbn.
  apply program_words_contract. exact Ha.
Qed.

Lemma step4_mod (a q : Z) : u32 (a + 4 * q) mod 4 = a mod 4.
Proof.
  rewrite u32_mod4, (Z.mul_comm 4). apply Z.mod_add. lia.
Qed.

Lemma stream_write_carry_any (data : list byte)
      (c : bootloader_context_t) (w : world) :
  stream_cache_len c <= 4 ->
  exists s rest c1 w1,
    stream_write_carry data c w = Returns (s, rest) c1 w1
    /\ len rest <= len data
    /\ current_addr c1 mod 4 = current_addr c mod 4
    /\ stream_cache_len c1 <= 4
    /\ (s = BOOT_PORT_OK ->
        stream_cache c1 = [] \/ (rest = [] /\ stream_cache_len c1 <= 3))
    /\ (current_addr c mod 4 = 0 -> within_contract w w1).
Proof.
  intros Hc. unfold stream_cache_len in *.
  pose proof (len_nonneg (stream_cache c)) as Hnc.
  pose proof (len_nonneg data) as Hnd.
  unfold stream_write_carry, bind, get, modify, port, ret.
  fold (stream_cache_len c). unfold stream_cache_len.
  destruct (Z.ltb_spec 0 (len (stream_cache c))) as [Lt|Ge].
  - rewrite top_up_spec by lia.
    set (n := Z.to_nat (Z.min (4 - len (stream_cache c)) (len data))).
    set (cache := stream_cache c ++ firstn n data).
    assert (Hlc : len cache = Z.min 4 (len (stream_cache c) + len data)).
    { unfold cache, n. rewrite len_app, len_firstn. lia. }
    assert (Hlr : len (skipn n data)
                  = len (stream_cache c) + len data - len cache).
    { rewrite len_skipn. unfold n. lia. }
    destruct (Z.eqb_spec (len cache) 4) as [E4|N4].
    + cbn [current_addr set_stream_cache].
      pose proof (fun Ha => @flash_write_contract (current_addr c) cache w Ha
                              ltac:(rewrite E4; reflexivity)) as Hw.
      destruct (boot_port_flash_write (current_addr c) cache w) as [s1 w1].
      cbn [snd] in Hw.
      destruct s1; cbn [status_ok negb];
        do 4 eexists; (split; [reflexivity|]);
        cbn [current_addr stream_cache set_stream_cache set_current_addr];
        (split; [lia|]); (split; [|split; [|split; [|exact Hw]]]);
        try reflexivity; try (intros; discriminate); try (left; reflexivity);
        try (rewrite ?len_nil; lia).
      replace (current_addr c + 4) with (current_addr c + 4 * 1) by lia.
      apply step4_mod.
    + do 4 eexists. split; [reflexivity|].
      cbn [current_addr stream_cache set_stream_cache].
      split; [lia|]. split; [reflexivity|]. split; [lia|]. split.
      * intros _. right. split; [|lia].
        apply length_zero_iff_nil. unfold len in *. lia.
      * intros _. apply within_contract_refl.
  - do 4 eexists. split; [reflexivity|]. split; [lia|]. split; [reflexivity|].
    split; [lia|]. split.
    + intros _. left. apply length_zero_iff_nil. unfold len in *. lia.
    + intros _. apply within_contract_refl.
Qed.

Lemma stream_write_aligned_any (rest : list byte)
      (c : bootloader_context_t) (w : world) :
  len rest < 2 ^ 32 ->
  exists s c2 w2,
    stream_write_aligned rest c w = Returns s c2 w2
    /\ current_addr c2 mod 4 = current_addr c mod 4
    /\ (stream_cache c2 = stream_cache c
        \/ (s = BOOT_PORT_OK /\ stream_cache_len c2 <= 3))
    /\ (current_addr c mod 4 = 0 -> within_contract w w2).
Proof.
  intros Hlt. pose proof (len_nonneg rest) as Hn.
  destruct (div4_facts Hn) as (Hk & Hr & Hm).
  unfold stream_write_aligned. rewrite land_mask by lia.
  set (aligned := 4 * (len rest / 4)) in *.
  destruct (firstn_skipn_len rest Hk) as (Hf & Hs).
  unfold bind, get, port, modify, ret.
  destruct (Z.ltb_spec 0 aligned) as [Lt|Ge].
  - pose proof (fun Ha => @flash_write_contract (current_addr c)
                            (firstn (Z.to_nat aligned) rest) w Ha
                            ltac:(rewrite Hf; unfold aligned;
                                  rewrite Z.mul_comm; apply Z.mod_mul; lia)) as Hw.
    destruct (boot_port_flash_write (current_addr c)
                (firstn (Z.to_nat aligned) rest) w) as [s1 w1].
    cbn [snd] in Hw.
    destruct s1; cbn [status_ok negb]; rewrite ?Hs;
      try (do 3 eexists; split; [reflexivity|]; split; [reflexivity|];
           split; [left; reflexivity | exact Hw]).
    destruct (Z.ltb_spec 0 (len rest - aligned)); do 3 eexists;
      (split; [reflexivity|]);
      cbn [current_addr stream_cache stream_cache_len set_stream_cache
           set_current_addr];
      (split; [apply step4_mod|]); (split; [|exact Hw]).
    + right. split; [reflexivity|].
      unfold stream_cache_len. cbn [stream_cache set_stream_cache].
      rewrite Hs. lia.
    + left. reflexivity.
  - cbn [status_ok negb].
    destruct (Z.ltb_spec 0 (len rest)); do 3 eexists;
      (split; [reflexivity|]);
      cbn [current_addr stream_cache set_stream_cache];
      (split; [reflexivity|]);
      (split; [|intros _; apply within_contract_refl]).
    + right. split; [reflexivity|].
      unfold stream_cache_len. cbn [stream_cache set_stream_cache]. lia.
    + left. reflexivity.
Qed.

(** [bootloader_stream_write] from any state with the carry within its
    buffer, whatever the flash answers. *)
Lemma stream_write_any (data : list byte)
      (c : bootloader_context_t) (w : world) :
  stream_cache_len c <= 4 -> len data < 2 ^ 32 ->
  exists s c' w',
    bootloader_stream_write data c w = Returns s c' w'
    /\ current_addr c' mod 4 = current_addr c mod 4
    /\ stream_cache_len c' <= 4
    /\ (s = BOOT_PORT_OK -> 0 < len data \/ stream_cache_len c <= 3 ->
        stream_cache_len c' <= 3)
    /\ (len data = 0 -> s = BOOT_PORT_OK /\ c' = c /\ w' = w)
    /\ (current_addr c mod 4 = 0 -> within_contract w w').
Proof.
  intros Hc Hlt. unfold bootloader_stream_write.
  pose proof (len_nonneg data) as Hnd.
  destruct (Z.eqb_spec (len data) 0) as [Ez|Nz].
  - exists BOOT_PORT_OK, c, w. split; [reflexivity|].
    split; [reflexivity|]. split; [exact Hc|].
    split; [intros _ [H|H]; [lia | exact H]|].
    split; [auto|]. intros _. apply within_contract_refl.
  - destruct (@stream_write_carry_any data c w Hc)
      as (s1 & rest & c1 & w1 & E1 & Hlr & Ha1 & Hc1 & Hs1 & Hw1).
    unfold bind at 1. rewrite E1.
    destruct (status_ok s1) eqn:Es1; cbn [negb].
    + assert (s1 = BOOT_PORT_OK) as -> by (destruct s1; [reflexivity | discriminate ..]).
      destruct (@stream_write_aligned_any rest c1 w1 ltac:(lia))
        as (s2 & c2 & w2 & E2 & Ha2 & Hs2 & Hw2).
      assert (Hc1' : stream_cache_len c1 <= 3).
      { destruct (Hs1 eq_refl) as [En|[_ Le]]; [|exact Le].
        unfold stream_cache_len. rewrite En. cbn. lia. }
      assert (Hc2 : stream_cache_len c2 <= 3).
      { destruct Hs2 as [Eq|[_ Le]]; [|exact Le].
        unfold stream_cache_len in *. rewrite Eq. exact Hc1'. }
      exists s2, c2, w2. split; [exact E2|]. split; [congruence|].
      split; [lia|]. split; [intros _ _; exact Hc2|].
      split; [intros Hz; contradiction (Nz Hz)|].
      intros Ha. apply within_contract_trans with (w2 := w1);
        [apply Hw1; exact Ha | apply Hw2; rewrite Ha1; exact Ha].
    + exists s1, c1, w1. split; [reflexivity|]. split; [exact Ha1|].
      split; [exact Hc1|].
      split; [intros ->; discriminate Es1|].
      split; [intros Hz; contradiction (Nz Hz) | exact Hw1].
Qed.

Lemma stream_flush_any (c : bootloader_context_t) (w : world) :
  stream_cache_len c <= 4 ->
  exists s c' w',
    bootloader_stream_flush c w = Returns s c' w'
    /\ current_addr c' mod 4 = current_addr c mod 4
    /\ stream_cache_len c' <= 4
    /\ (s = BOOT_PORT_OK -> stream_cache c' = [])
    /\ (current_addr c mod 4 = 0 -> within_contract w w').
Proof.
  intros Hc. unfold stream_cache_len in *.
  pose proof (len_nonneg (stream_cache c)) as Hn.
  unfold bootloader_stream_flush, bind, get, port, modify, ret.
  fold (stream_cache_len c). unfold stream_cache_len.
  destruct (Z.eqb_spec (len (stream_cache c)) 0) as [Ez|Nz].
  - exists BOOT_PORT_OK, c, w. split; [reflexivity|]. split; [reflexivity|].
    split; [exact Hc|].
    split; [|intros _; apply within_contract_refl].
    intros _. apply length_zero_iff_nil. unfold len in *. lia.
  - set (padded := firstn 4 (stream_cache c
                             ++ repeat xff (Z.to_nat (4 - len (stream_cache c))))).
    assert (Hlp : len padded = 4).
    { unfold padded. rewrite len_firstn, len_app, len_repeat. lia. }
    pose proof (fun Ha => @flash_write_contract (current_addr c) padded w Ha
                            ltac:(rewrite Hlp; reflexivity)) as Hw.
    destruct (boot_port_flash_write (current_addr c) padded w) as [s1 w1].
    cbn [snd] in Hw.
    destruct s1; cbn [status_ok]; do 3 eexists; (split; [reflexivity|]);
      cbn [current_addr stream_cache set_stream_cache set_current_addr];
      (split; [|split; [|split; [|exact Hw]]]);
      try reflexivity; try (intros; discriminate);
      try (rewrite ?len_nil; lia).
    replace (current_addr c + 4) with (current_addr c + 4 * 1) by lia.
    apply step4_mod.
Qed.

Lemma cursor_congr (a a' s : Z) :
  a' mod 4 = a mod 4 -> u32 (a' - s) mod 4 = u32 (a - s) mod 4.
Proof.
  intros H. rewrite !u32_mod4, (Zminus_mod a'), (Zminus_mod a), H. reflexivity.
Qed.

Lemma cursor_aligned (a s : Z) :
  s mod 4 = 0 -> u32 (a - s) mod 4 = 0 -> a mod 4 = 0.
Proof.
  intros Hs H. rewrite u32_mod4 in H.
  replace a with ((a - s) + s) by lia.
  rewrite Zplus_mod, H, Hs. reflexivity.
Qed.

Lemma within_contract_events (w w' : world) :
  within_contract w w' -> Forall in_contract (events_since (trace w) w').
Proof.
  intros (evs & E & F). rewrite (@events_since_app _ _ _ E). exact F.
Qed.

(** One call of the writer from a state within [writer_bounds]. *)
Lemma writer_call_any (cfg : boot_config) (k : writer_call)
      (c : bootloader_context_t) (w : world) :
  writer_bounds cfg c -> writer_call_ok k ->
  exists s c' w',
    match k with
    | WriterWrite data => bootloader_stream_write data
    | WriterFlush => bootloader_stream_flush
    end c w = Returns s c' w'
    /\ writer_bounds cfg c'
    /\ (BOOT_APP_START_ADDR cfg mod 4 = 0 -> within_contract w w').
Proof.
  intros (Hcur & Hlen) Hk. destruct k as [data|]; cbn [writer_call_ok] in Hk.
  - destruct (@stream_write_any data c w Hlen Hk)
      as (s & c' & w' & E & Ha & Hc' & _ & _ & Hw).
    exists s, c', w'. split; [exact E|]. split.
    + split; [|exact Hc'].
      rewrite (@cursor_congr _ _ (BOOT_APP_START_ADDR cfg) Ha). exact Hcur.
    + intros Hal. apply Hw. exact (@cursor_aligned _ _ Hal Hcur).
  - destruct (@stream_flush_any c w Hlen) as (s & c' & w' & E & Ha & Hc' & _ & Hw).
    exists s, c', w'. split; [exact E|]. split.
    + split; [|exact Hc'].
      rewrite (@cursor_congr _ _ (BOOT_APP_START_ADDR cfg) Ha). exact Hcur.
    + intros Hal. apply Hw. exact (@cursor_aligned _ _ Hal Hcur).
Qed.

(** Any run of writer calls from a state within [writer_bounds]. *)
Lemma writer_calls_any (cfg : boot_config) (calls : list writer_call) :
  forall (c : bootloader_context_t) (w : world),
    writer_bounds cfg c -> Forall writer_call_ok calls ->
    exists c' w',
      writer_calls calls c w = Returns tt c' w'
      /\ writer_bounds cfg c'
      /\ (BOOT_APP_START_ADDR cfg mod 4 = 0 -> within_contract w w').
Proof.
  induction calls as [|k calls IH]; intros c w Hb Hok.
  - exists c, w. split; [reflexivity|]. split; [exact Hb|].
    intros _. apply within_contract_refl.
  - apply Forall_cons_iff in Hok as (Hk & Hok).
    destruct (@writer_call_any cfg k c w Hb Hk) as (s & c1 & w1 & E1 & Hb1 & Hw1).
    destruct (IH c1 w1 Hb1 Hok) as (c' & w' & E & Hb' & Hw').
    exists c', w'. split.
    + destruct k; cbn [writer_calls]; unfold bind; rewrite E1; exact E.
    + split; [exact Hb'|]. intros Hal.
      apply within_contract_trans with (w2 := w1); auto.
Qed.

(** C10 (as amended).  After [bootloader_reset_context] the cursor is a whole
    number of words past BOOT_APP_START_ADDR and the carry is empty.  From
    every state with the cursor such and the carry within its four bytes
    ([writer_bounds]), every call of [bootloader_stream_write] (with a
    [uint32_t] length) and of [bootloader_stream_flush] returns and leaves
    such a state again, whatever the flash answers and whatever the call
    returns; so these hold after every call of every run of writer calls,
    failed calls included.  With an aligned BOOT_APP_START_ADDR every flash
    write of every such call meets the driver contract: aligned address,
    length a multiple of 4.  The carry is at most 3 after every call that
    returns BOOT_PORT_OK, with one exception: [bootloader_stream_write] with
    [len == 0] returns BOOT_PORT_OK at once and changes nothing, so it leaves
    full a carry that was full, which it can only be after a failed call. *)
Theorem writer_invariant_preserved (cfg : boot_config) :
  (forall c w, writer_inv cfg (ctx_of (Core.bootloader_reset_context cfg c w)))
  /\
  (forall c, writer_inv cfg c -> writer_bounds cfg c)
  /\
  (forall data c w,
     writer_bounds cfg c -> len data < 2 ^ 32 ->
     exists s c' w',
       bootloader_stream_write data c w = Returns s c' w'
       /\ writer_bounds cfg c'
       /\ (s = BOOT_PORT_OK -> 0 < len data \/ stream_cache_len c <= 3 ->
           writer_inv cfg c')
       /\ (len data = 0 -> s = BOOT_PORT_OK /\ c' = c /\ w' = w)
       /\ (BOOT_APP_START_ADDR cfg mod 4 = 0 ->
           Forall in_contract (events_since (trace w) w')))
  /\
  (forall c w,
     writer_bounds cfg c ->
     exists s c' w',
       bootloader_stream_flush c w = Returns s c' w'
       /\ writer_bounds cfg c'
       /\ (s = BOOT_PORT_OK -> writer_inv cfg c' /\ stream_cache c' = [])
       /\ (BOOT_APP_START_ADDR cfg mod 4 = 0 ->
           Forall in_contract (events_since (trace w) w')))
  /\
  (forall calls c w,
     Forall writer_call_ok calls ->
     let c0 := ctx_of (Core.bootloader_reset_context cfg c w) in
     exists c' w',
       writer_calls calls c0 w = Returns tt c' w'
       /\ writer_bounds cfg c'
       /\ (BOOT_APP_START_ADDR cfg mod 4 = 0 ->
           Forall in_contract (events_since (trace w) w'))).
Proof.
  assert (Hreset : forall c w,
             writer_inv cfg (ctx_of (Core.bootloader_reset_context cfg c w))).
  { intros c w. unfold writer_inv, stream_cache_len. cbn.
    rewrite Z.sub_diag. split; [reflexivity | lia]. }
  assert (Hweak : forall c, writer_inv cfg c -> writer_bounds cfg c)
    by (intros c (H1 & H2); split; [exact H1 | lia]).
  split; [exact Hreset|]. split; [exact Hweak|]. split; [|split].
  - intros data c w (Hcur & Hlen) Hlt.
    destruct (@stream_write_any data c w Hlen Hlt)
      as (s & c' & w' & E & Ha & Hc' & Hs & Hz & Hw).
    pose proof (@cursor_congr _ _ (BOOT_APP_START_ADDR cfg) Ha) as Hcc.
    exists s, c', w'. split; [exact E|].
    split; [split; [congruence | exact Hc']|].
    split; [intros Hok Hcase; split; [congruence | exact (Hs Hok Hcase)]|].
    split; [exact Hz|].
    intros Hal. apply within_contract_events, Hw.
    exact (@cursor_aligned _ _ Hal Hcur).
  - intros c w (Hcur & Hlen).
    destruct (@stream_flush_any c w Hlen) as (s & c' & w' & E & Ha & Hc' & Hs & Hw).
    pose proof (@cursor_congr _ _ (BOOT_APP_START_ADDR cfg) Ha) as Hcc.
    exists s, c', w'. split; [exact E|].
    split; [split; [congruence | exact Hc']|].
    split.
    + intros Hok. split; [|exact (Hs Hok)]. split; [congruence|].
      unfold stream_cache_len. rewrite (Hs Hok). cbn. lia.
    + intros Hal. apply within_contract_events, Hw.
      exact (@cursor_aligned _ _ Hal Hcur).
  - intros calls c w Hok c0.
    destruct (@writer_calls_any cfg calls c0 w (Hweak _ (Hreset c w)) Hok)
      as (c' & w' & E & Hb & Hw).
    exists c', w'. split; [exact E|]. split; [exact Hb|].
    intros Hal. apply within_contract_events, Hw, Hal.
Qed.

(** C10 on the CH32V307 layout, on a flash that refuses the first word:
    one byte, three bytes (the word is refused and the carry stays full),
    five bytes (the word is retried, then one more word), a flush. *)
Lemma writer_invariant_preserved_witness :
  let cfg := ch32v307_config in
  let w := {| flash := fun _ => xff; oracle := [false]; uart_rx := [];
              trace := [] |} in
  let c0 := ctx_of (Core.bootloader_reset_context cfg (power_on_context cfg) w) in
  let calls := [ WriterWrite [x01]; WriterWrite [x02; x03; x04];
                 WriterWrite [x05; x06; x07; x08; x09]; WriterFlush ] in
  Forall writer_call_ok calls /\ BOOT_APP_START_ADDR cfg mod 4 = 0
  /\ trace (world_of (writer_calls calls c0 w))
     = [ EvProgramFailed 0x6000; EvProgramWord 0x6000 [x01; x02; x03; x04];
         EvProgramWord 0x6004 [x05; x06; x07; x08];
         EvProgramWord 0x6008 [x09; xff; xff; xff] ]
  /\ exists c' w',
       writer_calls calls c0 w = Returns tt c' w'
       /\ writer_bounds cfg c'
       /\ Forall in_contract (events_since (trace w) w').
Proof.
  intros cfg w c0 calls.
  destruct (writer_invariant_preserved cfg) as (_ & _ & _ & _ & Hrun).
  assert (H1 : Forall writer_call_ok calls) by (repeat constructor; cbn; lia).
  assert (H2 : BOOT_APP_START_ADDR cfg mod 4 = 0) by reflexivity.
  split; [exact H1|]. split; [exact H2|]. split; [vm_compute; reflexivity|].
  destruct (Hrun calls (power_on_context cfg) w H1) as (c' & w' & E & Hb & Hc).
  exists c', w'. split; [exact E|]. split; [exact Hb | exact (Hc H2)].
Defined.

(** C10 as stated fails after a failed write: the carry is topped up to four
    bytes, the flash refuses the word, [bootloader_stream_write] returns an
    error with the carry full, and the next call with an empty chunk returns
    BOOT_PORT_OK with the carry still holding four bytes.  First on the writer
    alone, then through [Core.easy_bootloader_run] with three data frames
    (payloads of 1, 3 and 0 bytes, none the last of the transfer) on a flash
    that erases and then refuses one word: the third frame is acknowledged and
    the carry length is 4. *)
Lemma carry_left_full_after_ok_call :
  let cfg := ch32v307_config in
  let c0 := ctx_of (Core.bootloader_reset_context cfg (power_on_context cfg)
                      blank_world) in
  let w0 := {| flash := fun _ => xff; oracle := [false]; uart_rx := [];
               trace := [] |} in
  let o1 := bootloader_stream_write [x01] c0 w0 in
  let o2 := bootloader_stream_write [x02; x03; x04] (ctx_of o1) (world_of o1) in
  let o3 := bootloader_stream_write [] (ctx_of o2) (world_of o2) in
  (value_of o1 = Some BOOT_PORT_OK /\ value_of o2 = Some BOOT_PORT_ERROR
   /\ value_of o3 = Some BOOT_PORT_OK
   /\ stream_cache_len (ctx_of o3) = 4 /\ ~ writer_inv cfg (ctx_of o3))
  /\
  let b0 := ctx_of (Core.easy_bootloader_init cfg (power_on_context cfg)
                      blank_world) in
  let v0 := {| flash := fun _ => xff; oracle := [true; false]; uart_rx := [];
               trace := [] |} in
  let r1 := Core.easy_bootloader_run cfg b0
              (uart_arrive (encode_data_frame 8 [x01]) v0) in
  let r2 := Core.easy_bootloader_run cfg (ctx_of r1)
              (uart_arrive (encode_data_frame 5 [x02; x03; x04]) (world_of r1)) in
  let r3 := Core.easy_bootloader_run cfg (ctx_of r2)
              (uart_arrive (encode_data_frame 5 []) (world_of r2)) in
  trace (world_of r3)
  = [ EvErase 0x6000 0x39800; EvUartWrite g_boot_ack;
      EvProgramFailed 0x6000; EvUartWrite g_boot_ack ]
  /\ stream_cache (ctx_of r3) = [x01; x02; x03; x04]
  /\ ~ writer_inv cfg (ctx_of r3).
Proof.
  intros cfg c0 w0 o1 o2 o3. split.
  - repeat split; try (vm_compute; reflexivity).
    intros (_ & H). vm_compute in H. apply H. reflexivity.
  - intros b0 v0 r1 r2 r3. repeat split; try (vm_compute; reflexivity).
    intros (_ & H). vm_compute in H. apply H. reflexivity.
Qed.

(** ** Frame codec: bytes and fields *)

Lemma lor_shiftl_add (a b n : Z) :
  0 <= n -> 0 <= b < 2 ^ n -> Z.lor (Z.shiftl a n) b = a * 2 ^ n + b.
Proof.
  intros Hn Hb. rewrite <- Z.shiftl_mul_pow2 by lia.
  assert (Hland : Z.land (Z.shiftl a n) b = 0).
  { apply Z.bits_inj'. intros i Hi. rewrite Z.land_spec, Z.bits_0.
    destruct (Z.ltb_spec i n) as [L|G].
    - rewrite Z.shiftl_spec_low by lia. reflexivity.
    - destruct (Z.eq_dec b 0) as [->|Nz];
        [rewrite Z.bits_0; apply andb_false_r|].
      rewrite (Z.bits_above_log2 b i); [apply andb_false_r | lia |].
      apply Z.log2_lt_pow2; [lia|].
      apply Z.lt_le_trans with (2 ^ n); [lia|].
      apply Z.pow_le_mono_r; lia. }
  rewrite <- Z.lxor_lor by exact Hland.
  symmetry. apply Z.add_nocarry_lxor. exact Hland.
Qed.

Lemma decode16 (hi lo : byte) :
  Z.lor (Z.shiftl (b2z hi) 8) (b2z lo) = b2z hi * 256 + b2z lo.
Proof.
  pose proof (b2z_range lo). rewrite lor_shiftl_add by lia. reflexivity.
Qed.

Lemma decode24 (b2 b3 b4 : byte) :
  Z.lor (Z.lor (Z.shiftl (b2z b2) 16) (Z.shiftl (b2z b3) 8)) (b2z b4)
  = b2z b2 * 65536 + b2z b3 * 256 + b2z b4.
Proof.
  pose proof (b2z_range b2). pose proof (b2z_range b3). pose proof (b2z_range b4).
  replace (Z.shiftl (b2z b2) 16) with (Z.shiftl (Z.shiftl (b2z b2) 8) 8)
    by (rewrite Z.shiftl_shiftl by lia; reflexivity).
  rewrite <- Z.shiftl_lor, decode16.
  rewrite lor_shiftl_add by lia. change (2 ^ 8) with 256. lia.
Qed.

Lemma be16_fields (x : Z) :
  0 <= x < 2 ^ 16 ->
  b2z (z2b (Z.shiftr x 8)) * 256 + b2z (z2b x) = x.
Proof.
  intros Hx. rewrite !b2z_z2b, Z.shiftr_div_pow2 by lia. change (2 ^ 8) with 256.
  pose proof (Z.div_mod x 256 ltac:(lia)).
  pose proof (Z.mod_pos_bound x 256 ltac:(lia)).
  rewrite (Z.mod_small (x / 256)); [lia|].
  split; [apply Z.div_pos; lia | apply Z.div_lt_upper_bound; lia].
Qed.

Lemma be24_fields (x : Z) :
  0 <= x < 2 ^ 24 ->
  b2z (z2b (Z.shiftr x 16)) * 65536 + b2z (z2b (Z.shiftr x 8)) * 256
  + b2z (z2b x) = x.
Proof.
  intros Hx. rewrite !b2z_z2b, !Z.shiftr_div_pow2 by lia.
  change (2 ^ 8) with 256. change (2 ^ 16) with 65536.
  pose proof (Z.div_mod x 256 ltac:(lia)) as H1.
  pose proof (Z.mod_pos_bound x 256 ltac:(lia)) as H2.
  pose proof (Z.div_mod (x / 256) 256 ltac:(lia)) as H3.
  pose proof (Z.mod_pos_bound (x / 256) 256 ltac:(lia)) as H4.
  assert (E : x / 65536 = x / 256 / 256)
    by (rewrite Z.div_div by lia; reflexivity).
  rewrite E.
  rewrite (Z.mod_small (x / 256 / 256)); [lia|].
  split; [apply Z.div_pos; [apply Z.div_pos|]; lia|].
  apply Z.div_lt_upper_bound; [lia|]. apply Z.div_lt_upper_bound; lia.
Qed.

Lemma byte_at_app_r (pre post : list byte) (k : Z) :
  0 <= k -> byte_at (pre ++ post) (len pre + k) = byte_at post k.
Proof.
  intros Hk. unfold byte_at, len.
  replace (Z.to_nat (Z.of_nat (length pre) + k))
    with (length pre + Z.to_nat k)%nat by lia.
  rewrite app_nth2_plus. reflexivity.
Qed.

Lemma byte_at_app_l (pre post : list byte) (k : Z) :
  0 <= k < len pre -> byte_at (pre ++ post) k = byte_at pre k.
Proof.
  intros Hk. unfold byte_at, len in *. rewrite app_nth1 by lia. reflexivity.
Qed.

Lemma byte_at_firstn (n : nat) (l : list byte) (k : Z) :
  0 <= k < Z.of_nat n -> byte_at (firstn n l) k = byte_at l k.
Proof.
  intros Hk. unfold byte_at.
  rewrite <- (firstn_skipn n l) at 2.
  destruct (Nat.le_gt_cases (length l) n) as [Hle|Hgt].
  - rewrite skipn_all2, app_nil_r by exact Hle. reflexivity.
  - rewrite app_nth1; [reflexivity|]. rewrite length_firstn. lia.
Qed.

(** The checksum loop is the 16-bit sum of the bytes it walks over. *)
Lemma checksum_loop_fold (cache : list byte) (n : nat) :
  forall idx acc,
    0 <= idx -> idx + Z.of_nat n <= len cache ->
    checksum_loop cache idx n acc
    = fold_left (fun a b => u16 (a + b2z b))
                (firstn n (skipn (Z.to_nat idx) cache)) acc.
Proof.
  induction n as [|n IH]; intros idx acc H0 Hle; [reflexivity|].
  cbn [checksum_loop].
  rewrite IH by lia.
  assert (Hlt : (Z.to_nat idx < length cache)%nat) by (unfold len in Hle; lia).
  destruct (nth_split cache x00 Hlt) as (l1 & l2 & Ecache & El1).
  assert (Eskip : skipn (Z.to_nat idx) cache
                  = nth (Z.to_nat idx) cache x00 :: l2).
  { rewrite Ecache at 1. rewrite skipn_app, skipn_all2 by lia.
    rewrite El1, Nat.sub_diag. reflexivity. }
  assert (Eskip' : skipn (Z.to_nat (idx + 1)) cache = l2).
  { replace (Z.to_nat (idx + 1)) with (S (Z.to_nat idx)) by lia.
    rewrite Ecache at 1.
    replace (S (Z.to_nat idx)) with (length l1 + 1)%nat by lia.
    rewrite skipn_app, skipn_all2 by lia.
    replace (length l1 + 1 - length l1)%nat with 1%nat by lia. reflexivity. }
  rewrite Eskip, Eskip'. cbn [firstn fold_left]. reflexivity.
Qed.

Section Codec.

Variable cfg : boot_config.

Lemma declared_len_range (cache : list byte) : 0 <= declared_len cache < 2 ^ 16.
Proof. unfold declared_len, u16. apply Z.mod_pos_bound. lia. Qed.

(** What one turn of the scan decides for a complete candidate. *)
Lemma frame_candidate_complete (cache : list byte) :
  header_ok cache = true ->
  declared_len cache <= BOOT_PAYLOAD_MAX_SIZE cfg ->
  11 + declared_len cache <= len cache ->
  frame_candidate cfg cache
  = if (crc_field cache =? sum16 (bytes_from_length cache)) && tail_ok cache
    then Accept (remaining_field cache) (declared_len cache)
                (11 + declared_len cache)
    else SkipBytes 2.
Proof.
  intros Hh Hmax Hfull.
  pose proof (declared_len_range cache) as Hr.
  unfold header_ok in Hh. apply andb_prop in Hh as [Hh0 Hh1].
  unfold frame_candidate. rewrite Hh0, Hh1. cbn [negb orb].
  fold (remaining_field cache). fold (declared_len cache).
  destruct (Z.gtb_spec (declared_len cache) (BOOT_PAYLOAD_MAX_SIZE cfg)); [lia|].
  unfold BOOT_FRAME_FIXED_SIZE.
  rewrite (@u32_small (11 + declared_len cache)) by lia.
  destruct (Z.ltb_spec (len cache) (11 + declared_len cache)); [lia|].
  rewrite (@u32_small (7 + declared_len cache)) by lia.
  rewrite (@u32_small (7 + declared_len cache + 2)) by lia.
  rewrite (@u32_small (7 + declared_len cache + 2 + 1)) by lia.
  destruct (Z.geb_spec (7 + declared_len cache + 2 + 1) (11 + declared_len cache));
    [lia|].
  rewrite checksum_loop_fold by lia.
  replace (Z.to_nat (7 + declared_len cache - 5))
    with (Z.to_nat (2 + declared_len cache)) by lia.
  change (Z.to_nat 5) with 5%nat.
  fold (bytes_from_length cache). fold (sum16 (bytes_from_length cache)).
  unfold crc_field, tail_ok. cbv zeta.
  replace (7 + declared_len cache + 2) with (9 + declared_len cache) by lia.
  rewrite (Z.eqb_sym (sum16 (bytes_from_length cache))).
  destruct (_ =? sum16 (bytes_from_length cache)); cbn [negb orb andb];
    [|reflexivity].
  destruct (byte_at cache (9 + declared_len cache) =? 85); cbn [negb orb andb];
    [|reflexivity].
  destruct (byte_at cache (9 + declared_len cache + 1) =? 85); reflexivity.
Qed.

(** A header followed by an oversized length is skipped by two bytes. *)
Lemma frame_candidate_oversize (cache : list byte) :
  header_ok cache = true ->
  declared_len cache > BOOT_PAYLOAD_MAX_SIZE cfg ->
  frame_candidate cfg cache = SkipBytes 2.
Proof.
  intros Hh Hbig.
  unfold header_ok in Hh. apply andb_prop in Hh as [Hh0 Hh1].
  unfold frame_candidate. rewrite Hh0, Hh1. cbn [negb orb].
  fold (declared_len cache).
  destruct (Z.gtb_spec (declared_len cache) (BOOT_PAYLOAD_MAX_SIZE cfg));
    [reflexivity | lia].
Qed.

(** A candidate that is not fully cached yet stops the scan. *)
Lemma frame_candidate_incomplete (cache : list byte) :
  header_ok cache = true ->
  declared_len cache <= BOOT_PAYLOAD_MAX_SIZE cfg ->
  len cache < 11 + declared_len cache ->
  frame_candidate cfg cache = Incomplete.
Proof.
  intros Hh Hmax Hshort.
  pose proof (declared_len_range cache) as Hr.
  unfold header_ok in Hh. apply andb_prop in Hh as [Hh0 Hh1].
  unfold frame_candidate. rewrite Hh0, Hh1. cbn [negb orb].
  fold (declared_len cache).
  destruct (Z.gtb_spec (declared_len cache) (BOOT_PAYLOAD_MAX_SIZE cfg)); [lia|].
  unfold BOOT_FRAME_FIXED_SIZE.
  rewrite (@u32_small (11 + declared_len cache)) by lia.
  destruct (Z.ltb_spec (len cache) (11 + declared_len cache)); [reflexivity | lia].
Qed.

Lemma frame_candidate_no_header (cache : list byte) :
  header_ok cache = false -> frame_candidate cfg cache = SkipBytes 1.
Proof.
  intros Hh. unfold frame_candidate, header_ok in *.
  destruct (byte_at cache 0 =? 85); cbn in *; [|reflexivity].
  rewrite Hh. reflexivity.
Qed.

(** A turn that continues removes one or two bytes. *)
Lemma frame_candidate_skip (cache : list byte) (count : Z) :
  frame_candidate cfg cache = SkipBytes count -> count = 1 \/ count = 2.
Proof.
  unfold frame_candidate.
  repeat match goal with
         | |- context [if ?b then _ else _] => destruct b
         end; intros H; inversion H; auto.
Qed.

End Codec.

Section CodecLoop.

Variable cfg : boot_config.

Lemma consume_cache_rx (count : Z) (c : bootloader_context_t) :
  0 <= count ->
  bootloader_consume_cache count c
  = set_rx_cache (skipn (Z.to_nat count) (rx_cache c)) c.
Proof.
  intros H. unfold bootloader_consume_cache, rx_cache_len, len.
  destruct (Z.geb_spec count (Z.of_nat (length (rx_cache c)))); [|reflexivity].
  rewrite skipn_all2 by lia. reflexivity.
Qed.

(** Fuel: any amount at least the cache length gives the same result, and
    that result is not "out of fuel". *)
Lemma extract_loop_enough (n : nat) :
  forall (c : bootloader_context_t) (f : nat),
    (length (rx_cache c) <= n)%nat -> (n <= f)%nat ->
    extract_loop cfg f c = extract_loop cfg n c
    /\ extract_loop cfg n c <> None.
Proof.
  induction n as [|n IH]; intros c f Hlen Hf.
  - assert (E : (rx_cache_len c <? BOOT_FRAME_FIXED_SIZE) = true).
    { apply Z.ltb_lt. unfold rx_cache_len, len, BOOT_FRAME_FIXED_SIZE. lia. }
    destruct f; cbn [extract_loop]; rewrite E; split; congruence.
  - destruct f as [|f]; [lia|]. cbn [extract_loop].
    destruct (Z.ltb_spec (rx_cache_len c) BOOT_FRAME_FIXED_SIZE) as [L|G];
      [split; congruence|].
    destruct (frame_candidate cfg (rx_cache c)) as [count| |r pl fs] eqn:Ecand;
      try (split; congruence).
    destruct (frame_candidate_skip _ _ Ecand) as [-> | ->];
      (apply IH; [|lia]);
      rewrite consume_cache_rx by lia; cbn [rx_cache set_rx_cache];
      rewrite length_skipn;
      unfold rx_cache_len, len, BOOT_FRAME_FIXED_SIZE in G; lia.
Qed.

Lemma extract_loop_total (c : bootloader_context_t) :
  extract_loop cfg (length (rx_cache c)) c <> None.
Proof. apply (@extract_loop_enough (length (rx_cache c)) c _ (le_n _) (le_n _)). Qed.

(** The loop of [bootloader_try_extract_frame], one turn at a time. *)
Lemma try_extract_short (c : bootloader_context_t) :
  rx_cache_len c < 11 -> bootloader_try_extract_frame cfg c = (None, c).
Proof.
  intros H. unfold bootloader_try_extract_frame.
  assert (E : (rx_cache_len c <? BOOT_FRAME_FIXED_SIZE) = true)
    by (apply Z.ltb_lt; exact H).
  destruct (length (rx_cache c)); cbn [extract_loop]; rewrite E; reflexivity.
Qed.

Lemma try_extract_turn (c : bootloader_context_t) :
  11 <= rx_cache_len c ->
  bootloader_try_extract_frame cfg c
  = match frame_candidate cfg (rx_cache c) with
    | SkipBytes count =>
        bootloader_try_extract_frame cfg (bootloader_consume_cache count c)
    | Incomplete => (None, c)
    | Accept remain packet_len frame_size =>
        (Some (remain, packet_len),
         bootloader_consume_cache (u16 frame_size)
           (if 0 <? packet_len then
              set_payload_buf
                (firstn (Z.to_nat packet_len) (skipn 7 (rx_cache c))
                 ++ skipn (Z.to_nat packet_len) (payload_buf c)) c
            else c))
    end.
Proof.
  intros H. unfold bootloader_try_extract_frame at 1.
  assert (E : (rx_cache_len c <? BOOT_FRAME_FIXED_SIZE) = false)
    by (apply Z.ltb_ge; exact H).
  destruct (length (rx_cache c)) as [|n] eqn:En.
  { unfold rx_cache_len, len in H. lia. }
  cbn [extract_loop]. rewrite E.
  destruct (frame_candidate cfg (rx_cache c)) as [count| |r pl fs] eqn:Ecand;
    try reflexivity.
  unfold bootloader_try_extract_frame.
  assert (Hn : (length (rx_cache (bootloader_consume_cache count c)) <= n)%nat).
  { destruct (frame_candidate_skip _ _ Ecand) as [-> | ->];
      rewrite consume_cache_rx by lia; cbn [rx_cache set_rx_cache];
      rewrite length_skipn; lia. }
  destruct (@extract_loop_enough
              (length (rx_cache (bootloader_consume_cache count c)))
              (bootloader_consume_cache count c) n (le_n _) Hn)
    as (E2 & _).
  rewrite E2.
  pose proof (extract_loop_total (bootloader_consume_cache count c)) as Hsome.
  destruct (extract_loop cfg
              (length (rx_cache (bootloader_consume_cache count c)))
              (bootloader_consume_cache count c));
    [reflexivity | contradiction Hsome; reflexivity].
Qed.

End CodecLoop.

(** ** C3: what the checksum covers *)

(** C3 (as amended).  For a candidate with a valid header and tail, a
    declared length within BOOT_PAYLOAD_MAX_SIZE and all its bytes cached,
    the scan accepts exactly when the 16-bit checksum field equals the 16-bit
    wrapping sum of the bytes from the length field through the end of the
    payload (offsets 5 to 7+len-1; header, remaining field, checksum and tail
    excluded); on equality [bootloader_try_extract_frame] returns the frame,
    on inequality the candidate is dropped by the two-byte skip. *)
Theorem checksum_covers_length_and_payload
        (cfg : boot_config) (c : bootloader_context_t) :
  let cache := rx_cache c in
  header_ok cache = true ->
  declared_len cache <= BOOT_PAYLOAD_MAX_SIZE cfg ->
  11 + declared_len cache <= len cache ->
  tail_ok cache = true ->
  ((exists r pl fs, frame_candidate cfg cache = Accept r pl fs)
   <-> crc_field cache = sum16 (bytes_from_length cache))
  /\ (crc_field cache = sum16 (bytes_from_length cache) ->
      fst (bootloader_try_extract_frame cfg c)
      = Some (remaining_field cache, declared_len cache))
  /\ (crc_field cache <> sum16 (bytes_from_length cache) ->
      frame_candidate cfg cache = SkipBytes 2).
Proof.
  intros cache Hh Hmax Hfull Htail.
  pose proof (@frame_candidate_complete cfg cache Hh Hmax Hfull) as E.
  rewrite Htail, andb_true_r in E.
  pose proof (declared_len_range cache) as Hr.
  split; [|split].
  - split.
    + intros (r & pl & fs & Ea). rewrite Ea in E.
      destruct (Z.eqb_spec (crc_field cache) (sum16 (bytes_from_length cache)));
        [assumption | discriminate].
    + intros Eq. apply Z.eqb_eq in Eq. rewrite Eq in E. eauto.
  - intros Eq. apply Z.eqb_eq in Eq. rewrite Eq in E.
    rewrite try_extract_turn by (unfold rx_cache_len; fold cache; lia).
    fold cache. rewrite E. reflexivity.
  - intros Ne. apply Z.eqb_neq in Ne. rewrite Ne in E. exact E.
Qed.

(** C3 on the frame remaining = 5, payload AA AA, correctly checksummed. *)
Lemma checksum_covers_length_and_payload_witness :
  let cfg := ch32v307_config in
  let c := set_rx_cache (encode_data_frame 5 [xaa; xaa]) (power_on_context cfg) in
  header_ok (rx_cache c) = true
  /\ declared_len (rx_cache c) <= BOOT_PAYLOAD_MAX_SIZE cfg
  /\ 11 + declared_len (rx_cache c) <= len (rx_cache c)
  /\ tail_ok (rx_cache c) = true
  /\ crc_field (rx_cache c) = sum16 (bytes_from_length (rx_cache c))
  /\ fst (bootloader_try_extract_frame cfg c) = Some (5, 2).
Proof.
  intros cfg c.
  assert (H1 : header_ok (rx_cache c) = true) by reflexivity.
  assert (H2 : declared_len (rx_cache c) <= BOOT_PAYLOAD_MAX_SIZE cfg)
    by (vm_compute; discriminate).
  assert (H3 : 11 + declared_len (rx_cache c) <= len (rx_cache c))
    by (vm_compute; discriminate).
  assert (H4 : tail_ok (rx_cache c) = true) by reflexivity.
  assert (H5 : crc_field (rx_cache c) = sum16 (bytes_from_length (rx_cache c)))
    by reflexivity.
  repeat (split; [assumption|]).
  destruct (@checksum_covers_length_and_payload cfg c H1 H2 H3 H4) as (_ & E & _).
  rewrite (E H5). reflexivity.
Defined.

(** C3 as stated fails: the remaining field is not summed.  The frame
    remaining = 1, empty payload, carrying the sum of the bytes from the
    remaining field on (0x0001) is rejected, and the same frame carrying
    0x0000, which differs from that sum, is accepted. *)
Lemma checksum_excludes_remaining_field :
  let cfg := ch32v307_config in
  let sent := data_frame_with 1 [] (spec_checksum 1 []) in
  let other := data_frame_with 1 [] 0 in
  (crc_field sent = sum16 (bytes_from_remaining sent)
   /\ frame_candidate cfg sent = SkipBytes 2
   /\ fst (bootloader_try_extract_frame cfg
             (set_rx_cache sent (power_on_context cfg))) = None)
  /\
  (crc_field other <> sum16 (bytes_from_remaining other)
   /\ frame_candidate cfg other = Accept 1 0 11
   /\ fst (bootloader_try_extract_frame cfg
             (set_rx_cache other (power_on_context cfg))) = Some (1, 0)).
Proof.
  intros cfg sent other. split; repeat split; try (vm_compute; reflexivity).
  vm_compute. discriminate.
Qed.

(** ** C7: an encoded frame, whole or byte by byte *)

(** Reads at literal offsets of a list with a literal prefix. *)
Ltac literal_bytes :=
  unfold byte_at;
  repeat match goal with
         | |- context [Z.to_nat (Zpos ?q)] =>
             let n := eval compute in (Z.to_nat (Zpos q)) in
             change (Z.to_nat (Zpos q)) with n
         end;
  change (Z.to_nat 0) with 0%nat;
  cbn [nth app].

Lemma data_frame_split (r : Z) (p : list byte) (crc : Z) :
  data_frame_with r p crc = frame_head r (len p) ++ p ++ frame_tail crc.
Proof. reflexivity. Qed.

Lemma len_data_frame (r : Z) (p : list byte) (crc : Z) :
  len (data_frame_with r p crc) = 11 + len p.
Proof.
  rewrite data_frame_split, !len_app.
  change (len (frame_head r (len p))) with 7.
  change (len (frame_tail crc)) with 4. lia.
Qed.

Lemma sum16_range (bytes : list byte) : 0 <= sum16 bytes < 2 ^ 16.
Proof.
  unfold sum16.
  assert (H : forall l acc, 0 <= acc < 2 ^ 16 ->
                0 <= fold_left (fun a b => u16 (a + b2z b)) l acc < 2 ^ 16).
  { induction l as [|b l IH]; intros acc Ha; [exact Ha|].
    cbn [fold_left]. apply IH. unfold u16. apply Z.mod_pos_bound. lia. }
  apply H. lia.
Qed.

Section EncodedFrame.

Variables (r : Z) (p : list byte) (crc : Z).
Hypothesis r_range : 0 <= r < 2 ^ 24.
Hypothesis p_range : len p < 2 ^ 16.
Hypothesis crc_range : 0 <= crc < 2 ^ 16.

Lemma head_byte (k : nat) (i : Z) :
  0 <= i < 7 -> (7 <= k)%nat ->
  byte_at (firstn k (data_frame_with r p crc)) i = byte_at (frame_head r (len p)) i.
Proof.
  intros Hi Hk. rewrite byte_at_firstn by lia.
  rewrite data_frame_split.
  apply byte_at_app_l. change (len (frame_head r (len p))) with 7. exact Hi.
Qed.

Lemma prefix_header_ok (k : nat) : (7 <= k)%nat -> header_ok (firstn k (data_frame_with r p crc)) = true.
Proof.
  intros Hk. unfold header_ok. rewrite !head_byte by lia. reflexivity.
Qed.

Lemma prefix_declared_len (k : nat) :
  (7 <= k)%nat -> declared_len (firstn k (data_frame_with r p crc)) = len p.
Proof.
  intros Hk. unfold declared_len. rewrite !head_byte by lia.
  unfold frame_head, be24, be16. literal_bytes.
  pose proof (len_nonneg p) as Hn.
  rewrite decode16, be16_fields by lia.
  unfold u16. apply Z.mod_small. lia.
Qed.

Lemma prefix_remaining_field (k : nat) :
  (7 <= k)%nat -> remaining_field (firstn k (data_frame_with r p crc)) = r.
Proof.
  intros Hk. unfold remaining_field. rewrite !head_byte by lia.
  unfold frame_head, be24, be16. literal_bytes.
  rewrite decode24, be24_fields by lia. reflexivity.
Qed.

Lemma frame_whole : firstn (length (data_frame_with r p crc)) (data_frame_with r p crc) = (data_frame_with r p crc).
Proof. apply firstn_all. Qed.

Lemma frame_length : (7 <= length (data_frame_with r p crc))%nat.
Proof.
  pose proof (len_data_frame r p crc) as H.
  pose proof (len_nonneg p). unfold len in *. lia.
Qed.

Lemma whole_declared_len : declared_len (data_frame_with r p crc) = len p.
Proof.
  rewrite <- frame_whole. apply prefix_declared_len, frame_length.
Qed.

Lemma whole_header_ok : header_ok (data_frame_with r p crc) = true.
Proof.
  rewrite <- frame_whole. apply prefix_header_ok, frame_length.
Qed.

Lemma whole_remaining_field : remaining_field (data_frame_with r p crc) = r.
Proof.
  rewrite <- frame_whole. apply prefix_remaining_field, frame_length.
Qed.

Lemma tail_byte (i : Z) :
  0 <= i -> byte_at (data_frame_with r p crc) (7 + len p + i) = byte_at (frame_tail crc) i.
Proof.
  intros Hi. rewrite data_frame_split.
  replace (7 + len p + i) with (len (frame_head r (len p)) + (len p + i))
    by (change (len (frame_head r (len p))) with 7; lia).
  rewrite byte_at_app_r by (pose proof (len_nonneg p); lia).
  apply byte_at_app_r. exact Hi.
Qed.

Lemma frame_crc_field : crc_field (data_frame_with r p crc) = crc.
Proof.
  unfold crc_field. cbv zeta. rewrite whole_declared_len.
  replace (7 + len p) with (7 + len p + 0) at 1 by lia.
  rewrite !tail_byte by lia.
  unfold frame_tail, be16. literal_bytes.
  rewrite decode16, be16_fields by lia.
  unfold u16. apply Z.mod_small. lia.
Qed.

Lemma frame_tail_ok : tail_ok (data_frame_with r p crc) = true.
Proof.
  unfold tail_ok. cbv zeta. rewrite whole_declared_len.
  replace (9 + len p) with (7 + len p + 2) by lia.
  replace (7 + len p + 2 + 1) with (7 + len p + 3) by lia.
  rewrite !tail_byte by lia. reflexivity.
Qed.

Lemma frame_bytes_from_length : bytes_from_length (data_frame_with r p crc) = be16 (len p) ++ p.
Proof.
  unfold bytes_from_length. rewrite whole_declared_len.
  rewrite data_frame_split.
  change (skipn 5 (frame_head r (len p) ++ p ++ frame_tail crc))
    with (be16 (len p) ++ p ++ frame_tail crc).
  rewrite app_assoc.
  replace (Z.to_nat (2 + len p)) with (length (be16 (len p) ++ p))
    by (rewrite length_app; unfold len; cbn [be16 length]; lia).
  rewrite firstn_app, firstn_all, Nat.sub_diag. cbn [firstn]. apply app_nil_r.
Qed.

Lemma frame_payload : firstn (Z.to_nat (len p)) (skipn 7 (data_frame_with r p crc)) = p.
Proof.
  rewrite data_frame_split.
  change (skipn 7 (frame_head r (len p) ++ p ++ frame_tail crc))
    with (p ++ frame_tail crc).
  replace (Z.to_nat (len p)) with (length p) by (unfold len; lia).
  rewrite firstn_app, firstn_all, Nat.sub_diag. cbn [firstn]. apply app_nil_r.
Qed.

End EncodedFrame.

Section FeedFrame.

Variable cfg : boot_config.
Hypothesis packet_max_range : 11 <= BOOT_PACKET_MAX_SIZE cfg < 2 ^ 16.

Lemma payload_max_value : BOOT_PAYLOAD_MAX_SIZE cfg = BOOT_PACKET_MAX_SIZE cfg - 11.
Proof. unfold BOOT_PAYLOAD_MAX_SIZE, BOOT_FRAME_FIXED_SIZE. apply u32_small. lia. Qed.

Variables (r : Z) (p : list byte).
Hypothesis r_range : 0 <= r < 2 ^ 24.
Hypothesis p_fits : len p <= BOOT_PAYLOAD_MAX_SIZE cfg.

Lemma p_range : len p < 2 ^ 16.
Proof. rewrite payload_max_value in p_fits. lia. Qed.


(** The complete frame: it is reported with its remaining field and payload
    and leaves the cache empty. *)
Lemma try_extract_whole (c : bootloader_context_t) :
  rx_cache c = encode_data_frame r p ->
  exists c',
    bootloader_try_extract_frame cfg c = (Some (r, len p), c')
    /\ rx_cache c' = []
    /\ firstn (Z.to_nat (len p)) (payload_buf c') = p.
Proof.
  intros Hc. unfold encode_data_frame in Hc.
  pose proof p_range as Hp. pose proof (len_nonneg p) as Hn.
  pose proof (sum16_range (be16 (len p) ++ p)) as Hcrc.
  fold (codec_checksum p) in Hcrc.
  pose proof (len_data_frame r p (codec_checksum p)) as Hlen.
  rewrite try_extract_turn by (unfold rx_cache_len; rewrite Hc, Hlen; lia).
  rewrite Hc, frame_candidate_complete.
  - rewrite (@frame_crc_field r p _ Hp Hcrc),
      (@frame_bytes_from_length r p (codec_checksum p) Hp),
      (@frame_tail_ok r p (codec_checksum p) Hp).
    fold (codec_checksum p). rewrite Z.eqb_refl. cbn [andb].
    rewrite (@whole_declared_len r p (codec_checksum p) Hp),
      (@whole_remaining_field r p (codec_checksum p) r_range).
    eexists. split; [reflexivity|].
    rewrite payload_max_value in p_fits.
    assert (Eu : u16 (11 + len p) = 11 + len p)
      by (unfold u16; apply Z.mod_small; lia).
    rewrite Eu. unfold bootloader_consume_cache.
    destruct (Z.ltb_spec 0 (len p)) as [Lt|Ge].
    + unfold rx_cache_len. cbn [rx_cache set_payload_buf]. rewrite Hc, Hlen.
      destruct (Z.geb_spec (11 + len p) (11 + len p)); [|lia].
      cbn [rx_cache payload_buf set_rx_cache set_payload_buf].
      split; [reflexivity|].
      rewrite frame_payload.
      replace (Z.to_nat (len p)) with (length p) by (unfold len; lia).
      rewrite firstn_app, firstn_all, Nat.sub_diag. cbn [firstn]. apply app_nil_r.
    + unfold rx_cache_len. rewrite Hc, Hlen.
      destruct (Z.geb_spec (11 + len p) (11 + len p)); [|lia].
      cbn [rx_cache payload_buf set_rx_cache].
      split; [reflexivity|].
      assert (p = []) as -> by (apply length_zero_iff_nil; unfold len in *; lia).
      reflexivity.
  - apply whole_header_ok.
  - rewrite (@whole_declared_len r p (codec_checksum p) Hp). exact p_fits.
  - rewrite (@whole_declared_len r p (codec_checksum p) Hp), Hlen. lia.
Qed.

End FeedFrame.

(** ** C6: resynchronisation at offset +2 *)

Section FrameThenRest.

Variable cfg : boot_config.
Hypothesis packet_max_range : 11 <= BOOT_PACKET_MAX_SIZE cfg < 2 ^ 16.
Variables (r : Z) (p rest : list byte).
Hypothesis r_range : 0 <= r < 2 ^ 24.
Hypothesis p_fits : len p <= BOOT_PAYLOAD_MAX_SIZE cfg.

(** An encoded frame at the head of the cache is accepted whatever follows
    it. *)
Lemma frame_candidate_encoded :
  frame_candidate cfg (encode_data_frame r p ++ rest)
  = Accept r (len p) (11 + len p).
Proof.
  pose proof (@p_range cfg packet_max_range p p_fits) as Hp.
  pose proof (len_nonneg p) as Hn. pose proof (len_nonneg rest) as Hnr.
  pose proof (sum16_range (be16 (len p) ++ p)) as Hcrc.
  fold (codec_checksum p) in Hcrc.
  unfold encode_data_frame.
  set (F := data_frame_with r p (codec_checksum p)).
  pose proof (len_data_frame r p (codec_checksum p)) as Hlen. fold F in Hlen.
  assert (Hb : forall i, 0 <= i < 11 + len p ->
                 byte_at (F ++ rest) i = byte_at F i)
    by (intros i Hi; apply byte_at_app_l; lia).
  assert (Edl : declared_len (F ++ rest) = len p).
  { pose proof (@whole_declared_len r p (codec_checksum p) Hp) as H.
    unfold declared_len in *. rewrite !Hb by lia. exact H. }
  assert (Ehd : header_ok (F ++ rest) = true).
  { pose proof (whole_header_ok r p (codec_checksum p)) as H.
    unfold header_ok in *. rewrite !Hb by lia. exact H. }
  assert (Erm : remaining_field (F ++ rest) = r).
  { pose proof (@whole_remaining_field r p (codec_checksum p) r_range) as H.
    unfold remaining_field in *. rewrite !Hb by lia. exact H. }
  assert (Ecrc : crc_field (F ++ rest) = codec_checksum p).
  { pose proof (@frame_crc_field r p (codec_checksum p) Hp Hcrc) as H.
    unfold crc_field in *. cbv zeta in *.
    rewrite (@whole_declared_len r p (codec_checksum p) Hp) in H.
    rewrite Edl, !Hb by lia. exact H. }
  assert (Etl : tail_ok (F ++ rest) = true).
  { pose proof (@frame_tail_ok r p (codec_checksum p) Hp) as H.
    unfold tail_ok in *. cbv zeta in *.
    rewrite (@whole_declared_len r p (codec_checksum p) Hp) in H.
    rewrite Edl, !Hb by lia. exact H. }
  assert (Ebl : bytes_from_length (F ++ rest) = be16 (len p) ++ p).
  { pose proof (@frame_bytes_from_length r p (codec_checksum p) Hp) as H.
    unfold bytes_from_length in *.
    rewrite (@whole_declared_len r p (codec_checksum p) Hp) in H.
    rewrite Edl, skipn_app.
    replace (5 - length F)%nat with 0%nat by (unfold len in Hlen; lia).
    rewrite skipn_O, firstn_app.
    replace (Z.to_nat (2 + len p) - length (skipn 5 F))%nat with 0%nat
      by (rewrite length_skipn; unfold len in *; lia).
    rewrite firstn_O, app_nil_r. exact H. }
  rewrite frame_candidate_complete.
  - rewrite Ecrc, Ebl, Etl, Edl, Erm. fold (codec_checksum p).
    rewrite Z.eqb_refl. reflexivity.
  - exact Ehd.
  - rewrite Edl. exact p_fits.
  - rewrite Edl, len_app, Hlen. lia.
Qed.

(** ... and is extracted: the payload goes to the front of the payload
    buffer and the cache continues with what followed the frame. *)
Lemma try_extract_encoded (c : bootloader_context_t) :
  rx_cache c = encode_data_frame r p ++ rest ->
  bootloader_try_extract_frame cfg c
  = (Some (r, len p),
     set_rx_cache rest
       (if 0 <? len p then
          set_payload_buf (p ++ skipn (Z.to_nat (len p)) (payload_buf c)) c
        else c)).
Proof.
  intros Hc.
  pose proof (@p_range cfg packet_max_range p p_fits) as Hp.
  pose proof (len_nonneg p) as Hn. pose proof (len_nonneg rest) as Hnr.
  pose proof (len_data_frame r p (codec_checksum p)) as Hlen.
  fold (encode_data_frame r p) in Hlen.
  rewrite try_extract_turn
    by (unfold rx_cache_len; rewrite Hc, len_app, Hlen; lia).
  rewrite Hc, frame_candidate_encoded.
  pose proof (@payload_max_value cfg packet_max_range) as Epm.
  assert (Eu : u16 (11 + len p) = 11 + len p)
    by (unfold u16; apply Z.mod_small; lia).
  rewrite Eu. f_equal.
  assert (Epay : firstn (Z.to_nat (len p)) (skipn 7 (encode_data_frame r p ++ rest))
                 = p).
  { pose proof (frame_payload r p (codec_checksum p)) as H.
    fold (encode_data_frame r p) in H.
    rewrite skipn_app.
    replace (7 - length (encode_data_frame r p))%nat with 0%nat
      by (unfold len in Hlen; lia).
    rewrite skipn_O, firstn_app.
    replace (Z.to_nat (len p) - length (skipn 7 (encode_data_frame r p)))%nat
      with 0%nat by (rewrite length_skipn; unfold len in *; lia).
    rewrite firstn_O, app_nil_r. exact H. }
  assert (Eskip : skipn (Z.to_nat (11 + len p)) (encode_data_frame r p ++ rest)
                  = rest).
  { replace (Z.to_nat (11 + len p)) with (length (encode_data_frame r p))
      by (unfold len in *; lia).
    rewrite skipn_app, skipn_all, Nat.sub_diag, skipn_O. reflexivity. }
  rewrite Epay. rewrite consume_cache_rx by lia.
  destruct (0 <? len p); cbn [rx_cache set_payload_buf];
    rewrite Hc, Eskip; destruct c; reflexivity.
Qed.

End FrameThenRest.

(** C6.  With at least a minimum frame cached and 55 AA at the head of the
    cache, a candidate that is invalid (declared length above
    BOOT_PAYLOAD_MAX_SIZE; or, once the whole candidate is cached, a computed
    checksum different from the checksum field or a wrong tail) makes the
    scan call [bootloader_consume_cache(2)]: exactly the two header bytes
    leave the cache and [bootloader_try_extract_frame] goes on from there.
    What it returns is thereby fixed: the result of scanning the cache from
    offset +2; when fewer than 11 bytes are left after the two, no frame and
    a cache that is the old one without its first two bytes, nothing more
    being discarded; and when an encoded frame starts at offset +2, also
    inside the extent of the rejected candidate, that frame, with the cache
    continuing right after it. *)
Theorem resync_skips_two_bytes (cfg : boot_config) (c : bootloader_context_t) :
  11 <= rx_cache_len c ->
  header_ok (rx_cache c) = true ->
  (declared_len (rx_cache c) > BOOT_PAYLOAD_MAX_SIZE cfg
   \/ (declared_len (rx_cache c) <= BOOT_PAYLOAD_MAX_SIZE cfg
       /\ 11 + declared_len (rx_cache c) <= rx_cache_len c
       /\ (crc_field (rx_cache c) <> sum16 (bytes_from_length (rx_cache c))
           \/ tail_ok (rx_cache c) = false))) ->
  frame_candidate cfg (rx_cache c) = SkipBytes 2
  /\ bootloader_consume_cache 2 c = set_rx_cache (skipn 2 (rx_cache c)) c
  /\ bootloader_try_extract_frame cfg c
     = bootloader_try_extract_frame cfg (set_rx_cache (skipn 2 (rx_cache c)) c)
  /\ (rx_cache_len c < 13 ->
      bootloader_try_extract_frame cfg c
      = (None, set_rx_cache (skipn 2 (rx_cache c)) c))
  /\ (forall (r : Z) (p rest : list byte),
        11 <= BOOT_PACKET_MAX_SIZE cfg < 2 ^ 16 ->
        0 <= r < 2 ^ 24 -> len p <= BOOT_PAYLOAD_MAX_SIZE cfg ->
        skipn 2 (rx_cache c) = encode_data_frame r p ++ rest ->
        bootloader_try_extract_frame cfg c
        = (Some (r, len p),
           set_rx_cache rest
             (if 0 <? len p then
                set_payload_buf (p ++ skipn (Z.to_nat (len p)) (payload_buf c)) c
              else c))).
Proof.
  intros Hlen Hh Hbad.
  assert (Hskip : frame_candidate cfg (rx_cache c) = SkipBytes 2).
  { destruct Hbad as [Hbig | (Hmax & Hfull & Hmis)].
    - apply frame_candidate_oversize; assumption.
    - rewrite frame_candidate_complete by assumption.
      destruct Hmis as [Hcrc | Htail].
      + apply Z.eqb_neq in Hcrc. rewrite Hcrc. reflexivity.
      + rewrite Htail, andb_false_r. reflexivity. }
  split; [exact Hskip|].
  assert (Hcons : bootloader_consume_cache 2 c
                  = set_rx_cache (skipn 2 (rx_cache c)) c).
  { rewrite consume_cache_rx by lia. reflexivity. }
  split; [exact Hcons|].
  assert (Hturn : bootloader_try_extract_frame cfg c
                  = bootloader_try_extract_frame cfg
                      (set_rx_cache (skipn 2 (rx_cache c)) c))
    by (rewrite try_extract_turn by exact Hlen; rewrite Hskip, Hcons; reflexivity).
  split; [exact Hturn|]. split.
  - intros Hshort. rewrite Hturn. apply try_extract_short.
    unfold rx_cache_len in *. cbn [rx_cache set_rx_cache].
    rewrite len_skipn. lia.
  - intros r p rest Hpm Hr Hp Hrest. rewrite Hturn.
    rewrite (@try_extract_encoded cfg Hpm r p rest Hr Hp
               (set_rx_cache (skipn 2 (rx_cache c)) c) Hrest).
    f_equal. destruct (0 <? len p); destruct c; reflexivity.
Qed.

(** C6 on a frame whose checksum field is off by one, cut so that the next
    frame starts inside it: the cache is 55 AA followed by a good frame whose
    first bytes read as the remaining and length fields of the candidate at
    offset 0.  The candidate is rejected, two bytes leave the cache and the
    good frame is reported. *)
Lemma resync_skips_two_bytes_witness :
  let cfg := ch32v307_config in
  let good := encode_data_frame 2 [xaa; xbb] in
  let cache := [x55; xaa] ++ good ++ [x01] in
  let c := set_rx_cache cache (power_on_context cfg) in
  11 <= rx_cache_len c /\ header_ok (rx_cache c) = true
  /\ declared_len (rx_cache c) <= BOOT_PAYLOAD_MAX_SIZE cfg
  /\ 11 + declared_len (rx_cache c) <= rx_cache_len c
  /\ crc_field (rx_cache c) <> sum16 (bytes_from_length (rx_cache c))
  /\ frame_candidate cfg (rx_cache c) = SkipBytes 2
  /\ bootloader_try_extract_frame cfg c
     = (Some (2, 2),
        set_rx_cache [x01]
          (set_payload_buf ([xaa; xbb] ++ skipn 2 (payload_buf c)) c)).
Proof.
  intros cfg good cache c.
  assert (H1 : 11 <= rx_cache_len c) by (vm_compute; discriminate).
  assert (H2 : header_ok (rx_cache c) = true) by reflexivity.
  assert (H3 : declared_len (rx_cache c) <= BOOT_PAYLOAD_MAX_SIZE cfg)
    by (vm_compute; discriminate).
  assert (H4 : 11 + declared_len (rx_cache c) <= rx_cache_len c)
    by (vm_compute; discriminate).
  assert (H5 : crc_field (rx_cache c) <> sum16 (bytes_from_length (rx_cache c)))
    by (vm_compute; discriminate).
  split; [exact H1|]. split; [exact H2|]. split; [exact H3|].
  split; [exact H4|]. split; [exact H5|].
  destruct (@resync_skips_two_bytes cfg c H1 H2) as (E1 & _ & _ & _ & E5).
  - right. split; [exact H3|]. split; [exact H4|]. left. exact H5.
  - split; [exact E1|].
    apply (E5 2 [xaa; xbb] [x01]);
      [vm_compute; split; [discriminate | reflexivity]
      | lia | vm_compute; discriminate | reflexivity].
Defined.



(** One poll with [chunk] waiting: the whole chunk moves into the cache when
    it fits. *)
Lemma poll_appends (cfg : boot_config) (chunk : list byte)
      (c : bootloader_context_t) (w : world) :
  BOOT_PACKET_MAX_SIZE cfg < 2 ^ 32 ->
  uart_rx w = [] -> chunk <> [] ->
  rx_cache_len c + len chunk <= BOOT_PACKET_MAX_SIZE cfg ->
  exists w',
    bootloader_poll_uart cfg c (uart_arrive chunk w)
    = Returns tt (set_rx_cache (rx_cache c ++ chunk) c) w'
    /\ uart_rx w' = [] /\ trace w' = trace w.
Proof.
  intros Hmax Hrx Hne Hfit.
  pose proof (len_nonneg chunk) as Hn.
  pose proof (len_nonneg (rx_cache c)) as Hc. fold (rx_cache_len c) in Hc.
  assert (Hpos : 0 < len chunk).
  { destruct chunk; [contradiction Hne; reflexivity|].
    rewrite len_cons. pose proof (len_nonneg chunk). lia. }
  unfold bootloader_poll_uart, bind, get, port, modify, ret.
  rewrite u32_small by lia.
  destruct (Z.eqb_spec (BOOT_PACKET_MAX_SIZE cfg - rx_cache_len c) 0); [lia|].
  unfold boot_port_uart_read, uart_arrive. cbn [uart_rx flash oracle trace].
  rewrite Hrx. cbn [app].
  rewrite firstn_all2, skipn_all2 by (unfold len in *; lia).
  destruct (Z.ltb_spec 0 (len chunk)); [|lia].
  eexists. split; [reflexivity|]. split; reflexivity.
Qed.

Section FeedTheorem.

Variable cfg : boot_config.
Hypothesis packet_max_range : 11 <= BOOT_PACKET_MAX_SIZE cfg < 2 ^ 16.
Variables (r : Z) (p : list byte).
Hypothesis r_range : 0 <= r < 2 ^ 24.
Hypothesis p_fits : len p <= BOOT_PAYLOAD_MAX_SIZE cfg.





End FeedTheorem.



(** ** C5: the two-frame scenario *)

(** C5 (as amended).  On the CH32V307 layout with a healthy flash, from the
    context left by [easy_bootloader_init], the frames
    DataFrame{remaining=5, payload=AA x5} and DataFrame{remaining=0,
    payload=BB x3} arriving one per poll.  In the state-machine engine the
    first frame erases the application region, programs AA AA AA AA at the
    region start and is acknowledged; the second programs AA BB BB BB at
    start+4 and is acknowledged too; the cursor ends 8 bytes past the start,
    exactly two words were programmed, and the engine waits for the finish
    frame.  In the portable core the first frame does the same and the second
    programs AA BB BB BB, then updates the flag region (erase and three
    words), sends an Ack and resets. *)
Theorem two_frame_transfer :
  let cfg := ch32v307_config in
  let ack := EvUartWrite g_boot_ack in
  let first := [ EvErase 0x6000 0x39800;
                 EvProgramWord 0x6000 [xaa; xaa; xaa; xaa]; ack ] in
  (let s0 := Stm32.easy_bootloader_init cfg (power_on_context cfg) blank_world in
   let s1 := Stm32.easy_bootloader_run cfg (ctx_of s0)
               (uart_arrive frame_5_AA (world_of s0)) in
   let s2 := Stm32.easy_bootloader_run cfg (ctx_of s1)
               (uart_arrive frame_0_BB (world_of s1)) in
   trace (world_of s0) = [] /\ current_addr (ctx_of s0) = 0x6000
   /\ stream_cache (ctx_of s0) = []
   /\ trace (world_of s1) = first
   /\ trace (world_of s2)
      = first ++ [ EvProgramWord 0x6004 [xaa; xbb; xbb; xbb]; ack ]
   /\ programmed (trace (world_of s2))
      = [ (0x6000, [xaa; xaa; xaa; xaa]); (0x6004, [xaa; xbb; xbb; xbb]) ]
   /\ current_addr (ctx_of s2) = 0x6000 + 8
   /\ state (ctx_of s2) = BOOT_STATE_WAIT_FINISH
   /\ value_of s2 = Some tt)
  /\
  (let k0 := Core.easy_bootloader_init cfg (power_on_context cfg) blank_world in
   let k1 := Core.easy_bootloader_run cfg (ctx_of k0)
               (uart_arrive frame_5_AA (world_of k0)) in
   let k2 := Core.easy_bootloader_run cfg (ctx_of k1)
               (uart_arrive frame_0_BB (world_of k1)) in
   trace (world_of k0) = [] /\ current_addr (ctx_of k0) = 0x6000
   /\ trace (world_of k1) = first
   /\ trace (world_of k2)
      = first ++ [ EvProgramWord 0x6004 [xaa; xbb; xbb; xbb];
                   EvErase 0x3F800 0x800;
                   EvProgramWord 0x3F800 (le32 BOOT_FLAG_APP);
                   EvProgramWord 0x3F804 (le32 (app_version (ctx_of k0)));
                   EvProgramWord 0x3F808 (le32 (update_date (ctx_of k0)));
                   ack; EvReset ]
   /\ current_addr (ctx_of k2) = 0x6000 + 8
   /\ value_of k2 = None).
Proof. vm_compute. repeat split; reflexivity. Qed.

(** C5 as stated fails on the Ack count: the second frame is acknowledged as
    well, in the state-machine engine and in the portable core. *)
Lemma second_frame_is_acknowledged :
  let cfg := ch32v307_config in
  (let s0 := Stm32.easy_bootloader_init cfg (power_on_context cfg) blank_world in
   let s1 := Stm32.easy_bootloader_run cfg (ctx_of s0)
               (uart_arrive frame_5_AA (world_of s0)) in
   let s2 := Stm32.easy_bootloader_run cfg (ctx_of s1)
               (uart_arrive frame_0_BB (world_of s1)) in
   acks (trace (world_of s1)) = 1%nat
   /\ acks (events_since (trace (world_of s1)) (world_of s2)) = 1%nat
   /\ acks (trace (world_of s2)) <> 1%nat)
  /\
  (let k0 := Core.easy_bootloader_init cfg (power_on_context cfg) blank_world in
   let k1 := Core.easy_bootloader_run cfg (ctx_of k0)
               (uart_arrive frame_5_AA (world_of k0)) in
   let k2 := Core.easy_bootloader_run cfg (ctx_of k1)
               (uart_arrive frame_0_BB (world_of k1)) in
   acks (trace (world_of k1)) = 1%nat
   /\ acks (events_since (trace (world_of k1)) (world_of k2)) = 1%nat
   /\ acks (trace (world_of k2)) <> 1%nat).
Proof. vm_compute. repeat split; try reflexivity; discriminate. Qed.

(** ** C4: a finish frame outside WAIT_FINISH *)

Section FinishOutsideWait.

Variable cfg : boot_config.

Lemma frame_candidate_accept_inv (cache : list byte) (r pl fs : Z) :
  frame_candidate cfg cache = Accept r pl fs ->
  header_ok cache = true
  /\ 11 + declared_len cache <= len cache
  /\ crc_field cache = sum16 (bytes_from_length cache)
  /\ tail_ok cache = true.
Proof.
  intros H.
  destruct (header_ok cache) eqn:Hh;
    [|rewrite (frame_candidate_no_header cfg cache Hh) in H; discriminate].
  destruct (Z.le_gt_cases (declared_len cache) (BOOT_PAYLOAD_MAX_SIZE cfg))
    as [Hmax|Hbig];
    [|rewrite (@frame_candidate_oversize cfg cache Hh ltac:(lia)) in H;
      discriminate].
  destruct (Z.le_gt_cases (11 + declared_len cache) (len cache)) as [Hfull|Hshort];
    [|rewrite (@frame_candidate_incomplete cfg cache Hh Hmax ltac:(lia)) in H;
      discriminate].
  rewrite (@frame_candidate_complete cfg cache Hh Hmax Hfull) in H.
  destruct (Z.eqb_spec (crc_field cache) (sum16 (bytes_from_length cache)));
    [|discriminate].
  destruct (tail_ok cache); [auto | discriminate].
Qed.

(** What a scan can return: without a frame only the cache has changed, to a
    suffix of itself; with a frame, some suffix of the cache was accepted. *)
Lemma extract_loop_inv (fuel : nat) :
  forall (c c' : bootloader_context_t) (res : option (Z * Z)),
    extract_loop cfg fuel c = Some (res, c') ->
    match res with
    | None => exists n, c' = set_rx_cache (skipn n (rx_cache c)) c
    | Some (r, pl) =>
        exists n fs, frame_candidate cfg (skipn n (rx_cache c)) = Accept r pl fs
    end.
Proof.
  induction fuel as [|fuel IH]; intros c c' res H; cbn [extract_loop] in H.
  - destruct (rx_cache_len c <? BOOT_FRAME_FIXED_SIZE); [|discriminate].
    injection H as Hres Hc; subst res c'. exists O. destruct c; reflexivity.
  - destruct (rx_cache_len c <? BOOT_FRAME_FIXED_SIZE).
    { injection H as Hres Hc; subst res c'. exists O. destruct c; reflexivity. }
    destruct (frame_candidate cfg (rx_cache c)) as [count| |r pl fs] eqn:Ecand.
    + assert (Hcount : 0 <= count)
        by (destruct (frame_candidate_skip _ _ Ecand); lia).
      rewrite consume_cache_rx in H by exact Hcount.
      apply IH in H. cbn [rx_cache set_rx_cache] in H.
      destruct res as [[r pl]|].
      * destruct H as (n & fs & E). rewrite skipn_skipn in E. eauto.
      * destruct H as (n & E). rewrite skipn_skipn in E.
        exists (n + Z.to_nat count)%nat. rewrite E. reflexivity.
    + injection H as Hres Hc; subst res c'. exists O. destruct c; reflexivity.
    + injection H as Hres Hc; subst res c'. exists O, fs. exact Ecand.
Qed.

Lemma try_extract_inv (c : bootloader_context_t) :
  match bootloader_try_extract_frame cfg c with
  | (None, c') => exists n, c' = set_rx_cache (skipn n (rx_cache c)) c
  | (Some (r, pl), _) =>
      exists n fs, frame_candidate cfg (skipn n (rx_cache c)) = Accept r pl fs
  end.
Proof.
  unfold bootloader_try_extract_frame.
  pose proof (extract_loop_total cfg c) as Hsome.
  destruct (extract_loop cfg (length (rx_cache c)) c) as [[res c']|] eqn:E;
    [|contradiction Hsome; reflexivity].
  apply extract_loop_inv in E. destruct res as [[r pl]|]; exact E.
Qed.

Lemma sum16_le (l : list byte) :
  255 * len l < 2 ^ 16 -> 0 <= sum16 l <= 255 * len l.
Proof.
  unfold sum16.
  assert (H : forall l acc,
             0 <= acc -> acc + 255 * len l < 2 ^ 16 ->
             0 <= fold_left (fun a b => u16 (a + b2z b)) l acc <= acc + 255 * len l).
  { intros l'. induction l' as [|b l' IH]; intros acc Ha Hb.
    - cbn [fold_left]. rewrite len_nil in *. lia.
    - cbn [fold_left]. rewrite len_cons in *.
      pose proof (b2z_range b). pose proof (len_nonneg l').
      assert (E : u16 (acc + b2z b) = acc + b2z b)
        by (unfold u16; apply Z.mod_small; lia).
      rewrite E. specialize (IH (acc + b2z b) ltac:(lia) ltac:(lia)). lia. }
  intros Hl. specialize (H l 0 ltac:(lia) ltac:(lia)). lia.
Qed.

Lemma len_bytes_from_length (cache : list byte) :
  len (bytes_from_length cache) <= 2 + declared_len cache.
Proof.
  unfold bytes_from_length. rewrite len_firstn.
  pose proof (declared_len_range cache). lia.
Qed.

(** No suffix of a finish frame is accepted as a data frame. *)
Lemma finish_frame_not_data (v0 v1 v2 v3 d0 d1 d2 d3 : byte) (n : nat) (r pl fs : Z) :
  frame_candidate cfg
    (skipn n [x55; xaa; v0; v1; v2; v3; d0; d1; d2; d3; xff; xfd; x55; x55])
  <> Accept r pl fs.
Proof.
  intros H. apply frame_candidate_accept_inv in H as (Hh & Hfull & Hcrc & Htail).
  set (F := [x55; xaa; v0; v1; v2; v3; d0; d1; d2; d3; xff; xfd; x55; x55]) in *.
  pose proof (declared_len_range (skipn n F)) as Hr.
  pose proof (len_bytes_from_length (skipn n F)) as Hlb.
  pose proof (len_nonneg (bytes_from_length (skipn n F))) as Hlb0.
  assert (Hsum : declared_len (skipn n F) <= 3 ->
                 sum16 (bytes_from_length (skipn n F)) <= 255 * 5).
  { intros Hd.
    assert (Hb : 255 * len (bytes_from_length (skipn n F)) < 2 ^ 16) by lia.
    pose proof (sum16_le _ Hb). lia. }
  unfold tail_ok in Htail. unfold crc_field in Hcrc. cbv zeta in Htail, Hcrc.
  set (dl := declared_len (skipn n F)) in *.
  destruct n as [|[|[|[|n]]]]; cbn [skipn F] in *.
  - change (len F) with 14 in Hfull.
    assert (C : dl = 0 \/ dl = 1 \/ dl = 2 \/ dl = 3) by lia.
    destruct C as [C|[C|[C|C]]]; rewrite C in Htail, Hcrc;
      try (apply andb_prop in Htail as [T1 T2];
           first [ (vm_compute in T1; discriminate)
                 | (vm_compute in T2; discriminate) ]).
    change (u16 _) with 65533 in Hcrc. lia.
  - unfold header_ok in Hh. vm_compute in Hh. discriminate.
  - change (len _) with 12 in Hfull.
    assert (C : dl = 0 \/ dl = 1) by lia.
    destruct C as [C|C]; rewrite C in Htail, Hcrc;
      try (vm_compute in Htail; discriminate).
    change (u16 _) with 65533 in Hcrc. lia.
  - change (len _) with 11 in Hfull.
    assert (C : dl = 0) by lia. rewrite C in Htail, Hcrc.
    change (u16 _) with 65533 in Hcrc. lia.
  - assert (Hl : len (skipn n [v2; v3; d0; d1; d2; d3; xff; xfd; x55; x55]) <= 10).
    { rewrite len_skipn. change (len _) with 10. lia. }
    lia.
Qed.

End FinishOutsideWait.

Lemma stm32_run_loop_none (cfg : boot_config) (fuel : nat)
      (c c' : bootloader_context_t) (w : world) :
  bootloader_try_extract_frame cfg c = (None, c') ->
  Stm32.run_loop cfg fuel c w = Some (Returns tt c' w).
Proof. intros H. destruct fuel; cbn [Stm32.run_loop]; rewrite H; reflexivity. Qed.

(** C4 (as amended).  A well-formed finish frame arriving in an empty cache
    while the state machine is Idle or Receiving is not looked at as a finish
    frame: [easy_bootloader_run] passes the bytes to the data frame scan
    only, which never accepts them.  The run returns with no port event, and
    the context is the one before the poll except for the receive cache,
    which holds the frame or a suffix of it: cursor, carry, state and
    [download_active] are untouched, so the session is not abandoned.
    [bootloader_handle_finish_frame] called in such a state would return
    BOOT_PORT_ERROR with no effect, but the run never calls it there. *)
Theorem finish_frame_outside_wait_finish
        (cfg : boot_config) (version date : Z)
        (c : bootloader_context_t) (w : world) :
  14 <= BOOT_PACKET_MAX_SIZE cfg < 2 ^ 32 ->
  initialized c = true ->
  state c <> BOOT_STATE_WAIT_FINISH ->
  rx_cache c = [] -> uart_rx w = [] ->
  let frame := encode_finish_frame version date in
  (exists n w',
     Stm32.easy_bootloader_run cfg c (uart_arrive frame w)
     = Returns tt (set_rx_cache (skipn n frame) c) w'
     /\ trace w' = trace w)
  /\ Stm32.bootloader_handle_finish_frame cfg version date c w
     = Returns BOOT_PORT_ERROR c w.
Proof.
  intros Hmax Hinit Hstate Hc Hrx frame. split.
  - unfold Stm32.easy_bootloader_run. rewrite Hinit. cbn [negb].
    destruct (@poll_appends cfg frame c w ltac:(lia) Hrx ltac:(discriminate))
      as (w1 & -> & Hrx1 & Ht1).
    { unfold rx_cache_len. rewrite Hc, len_nil. change (len frame) with 14. lia. }
    rewrite Hc. cbn [app].
    assert (Hscan : exists n,
               bootloader_try_extract_frame cfg (set_rx_cache frame c)
               = (None, set_rx_cache (skipn n frame) c)).
    { pose proof (try_extract_inv cfg (set_rx_cache frame c)) as Hinv.
      destruct (bootloader_try_extract_frame cfg (set_rx_cache frame c))
        as [[[r pl]|] c1].
      - destruct Hinv as (n & fs & Ha). cbn [rx_cache set_rx_cache] in Ha.
        exfalso. exact (finish_frame_not_data _ _ _ _ _ _ _ _ _ _ Ha).
      - destruct Hinv as (n & ->). exists n. reflexivity. }
    destruct Hscan as (n & Hscan).
    exists n, w1. split; [|exact Ht1].
    cbn [state set_rx_cache].
    destruct (state c); try (contradiction Hstate; reflexivity);
      rewrite (@stm32_run_loop_none cfg _ _ _ _ Hscan); reflexivity.
  - unfold Stm32.bootloader_handle_finish_frame, bind, get, ret.
    destruct (state c); try reflexivity. contradiction Hstate; reflexivity.
Qed.

(** C4 in the middle of a transfer on the CH32V307 layout: after the first
    frame of the two-frame scenario the engine is Receiving with the cursor
    at 0x6004; the finish frame for version 1, date 2025-12-15 arrives. *)
Lemma finish_frame_outside_wait_finish_witness :
  let cfg := ch32v307_config in
  let s0 := Stm32.easy_bootloader_init cfg (power_on_context cfg) blank_world in
  let s1 := Stm32.easy_bootloader_run cfg (ctx_of s0)
              (uart_arrive frame_5_AA (world_of s0)) in
  let c := ctx_of s1 in
  let w := world_of s1 in
  let o := Stm32.easy_bootloader_run cfg c
             (uart_arrive (encode_finish_frame 1 0x20251215) w) in
  14 <= BOOT_PACKET_MAX_SIZE cfg < 2 ^ 32 /\ initialized c = true
  /\ state c <> BOOT_STATE_WAIT_FINISH /\ rx_cache c = [] /\ uart_rx w = []
  /\ value_of o = Some tt /\ trace (world_of o) = trace w
  /\ state (ctx_of o) = BOOT_STATE_RECEIVING
  /\ current_addr (ctx_of o) = 0x6004.
Proof.
  intros cfg s0 s1 c w o.
  assert (H1 : 14 <= BOOT_PACKET_MAX_SIZE cfg < 2 ^ 32) by (cbn; lia).
  assert (H2 : initialized c = true) by (vm_compute; reflexivity).
  assert (H3 : state c <> BOOT_STATE_WAIT_FINISH) by (vm_compute; discriminate).
  assert (H4 : rx_cache c = []) by (vm_compute; reflexivity).
  assert (H5 : uart_rx w = []) by (vm_compute; reflexivity).
  repeat (split; [assumption|]).
  destruct (@finish_frame_outside_wait_finish cfg 1 0x20251215 c w
              H1 H2 H3 H4 H5) as ((n & w' & E & Ht) & _).
  unfold o. rewrite E. cbn [value_of world_of ctx_of state current_addr
                                set_rx_cache].
  split; [reflexivity|]. split; [exact Ht|].
  split; vm_compute; reflexivity.
Defined.

(** C4 as stated fails: in the middle of a transfer (Receiving, cursor at
    0x6004, one byte in the carry) a well-formed finish frame leaves the
    session as it was and stays in the cache; the context is not the
    reinitialised one.  The same frame arriving in Idle stays in the cache
    too. *)
Lemma finish_frame_does_not_reinitialize :
  let cfg := ch32v307_config in
  let finish := encode_finish_frame 1 0x20251215 in
  let s0 := Stm32.easy_bootloader_init cfg (power_on_context cfg) blank_world in
  let s1 := Stm32.easy_bootloader_run cfg (ctx_of s0)
              (uart_arrive frame_5_AA (world_of s0)) in
  let o := Stm32.easy_bootloader_run cfg (ctx_of s1)
             (uart_arrive finish (world_of s1)) in
  let i := Stm32.easy_bootloader_run cfg (ctx_of s0)
             (uart_arrive finish (world_of s0)) in
  (state (ctx_of s1) = BOOT_STATE_RECEIVING
   /\ state (ctx_of o) = BOOT_STATE_RECEIVING
   /\ current_addr (ctx_of o) = 0x6004
   /\ stream_cache (ctx_of o) = [xaa]
   /\ download_active (ctx_of o) = true
   /\ rx_cache (ctx_of o) = finish
   /\ trace (world_of o) = trace (world_of s1)
   /\ ctx_of o <> ctx_of (Stm32.bootloader_reset_context cfg (ctx_of s1)
                            (world_of s1)))
  /\
  (state (ctx_of s0) = BOOT_STATE_IDLE
   /\ rx_cache (ctx_of i) = finish
   /\ trace (world_of i) = []
   /\ ctx_of i <> ctx_of (Stm32.bootloader_reset_context cfg (ctx_of s0)
                            (world_of s0))).
Proof.
  intros cfg finish s0 s1 o i.
  split; repeat split; try (vm_compute; reflexivity).
  - intros E. apply (f_equal state) in E. vm_compute in E. discriminate.
  - intros E. apply (f_equal rx_cache) in E. vm_compute in E. discriminate.
Qed.

(** * Further properties of the code *)

(** ** Application side: decimal replies *)

(** Value of a string of digits written least significant first, as the
    digit loop of [app_uint_to_str] fills [temp]. *)
Lemma decimal_value_app (s : list byte) (b : byte) :
  decimal_value (s ++ [b]) = decimal_value s * 10 + (b2z b - 0x30).
Proof. unfold decimal_value. rewrite fold_left_app. reflexivity. Qed.

Lemma decimal_value_rev_cons (b : byte) (l : list byte) :
  decimal_value (rev (b :: l)) = decimal_value (rev l) * 10 + (b2z b - 0x30).
Proof. cbn [rev]. apply decimal_value_app. Qed.

Lemma decimal_value_rev_app (l1 l2 : list byte) :
  decimal_value (rev (l1 ++ l2))
  = decimal_value (rev l2) * 10 ^ len l1 + decimal_value (rev l1).
Proof.
  induction l1 as [|b l1 IH].
  - cbn [app rev]. rewrite len_nil. change (decimal_value []) with 0. lia.
  - cbn [app]. rewrite !decimal_value_rev_cons, IH, len_cons.
    pose proof (len_nonneg l1).
    replace (1 + len l1) with (Z.succ (len l1)) by lia.
    rewrite Z.pow_succ_r by lia. lia.
Qed.

Lemma decimal_value_zeros (n : nat) : decimal_value (rev (repeat x30 n)) = 0.
Proof.
  induction n as [|n IH]; [reflexivity|].
  cbn [repeat]. rewrite decimal_value_rev_cons, IH. reflexivity.
Qed.

Lemma digit_byte (d : Z) :
  0 <= d < 10 -> b2z (z2b (0x30 + d)) = 0x30 + d.
Proof. intros H. rewrite b2z_z2b. apply Z.mod_small. lia. Qed.

(** The digit loop: with enough fuel it appends the digits of [value], least
    significant first; there are at most [k] of them when [value < 10^k]. *)
Lemma uint_digits_loop_spec (fuel : nat) :
  forall (value : Z) (temp : list byte),
    0 <= value < 2 ^ Z.of_nat fuel ->
    exists ds,
      App.uint_digits_loop fuel value temp = temp ++ ds
      /\ decimal_value (rev ds) = value
      /\ Forall is_digit ds
      /\ (0 < value -> ds <> [])
      /\ (forall k : nat, value < 10 ^ Z.of_nat k -> (length ds <= k)%nat).
Proof.
  induction fuel as [|fuel IH]; intros value temp Hv.
  - exists []. cbn [App.uint_digits_loop]. rewrite app_nil_r.
    change (2 ^ Z.of_nat 0) with 1 in Hv. assert (value = 0) as -> by lia.
    split; [reflexivity|]. split; [reflexivity|]. split; [constructor|].
    split; [lia|]. intros k _. cbn. lia.
  - cbn [App.uint_digits_loop].
    destruct (Z.ltb_spec 0 value) as [Hpos|Hz].
    + pose proof (Z.mod_pos_bound value 10 ltac:(lia)) as Hm.
      pose proof (Z.div_mod value 10 ltac:(lia)) as Hd.
      assert (Hq : 0 <= value / 10 < 2 ^ Z.of_nat fuel).
      { split; [apply Z.div_pos; lia|].
        apply Z.div_lt_upper_bound; [lia|].
        rewrite Nat2Z.inj_succ, Z.pow_succ_r in Hv by lia.
        pose proof (Z.pow_pos_nonneg 2 (Z.of_nat fuel) ltac:(lia) ltac:(lia)). lia. }
      destruct (IH (value / 10) (temp ++ [z2b (0x30 + value mod 10)]) Hq)
        as (ds & E & Hval & Hdig & _ & Hlen).
      exists (z2b (0x30 + value mod 10) :: ds).
      rewrite E, <- app_assoc. split; [reflexivity|]. split; [|split; [|split]].
      * rewrite decimal_value_rev_cons, Hval, digit_byte by lia. lia.
      * constructor; [|exact Hdig]. unfold is_digit. rewrite digit_byte by lia. lia.
      * intros _. discriminate.
      * intros k Hk. destruct k as [|k]; [cbn in Hk; lia|].
        cbn [length]. apply le_n_S. apply Hlen.
        apply Z.div_lt_upper_bound; [lia|].
        rewrite Nat2Z.inj_succ, Z.pow_succ_r in Hk by lia. lia.
    + exists []. rewrite app_nil_r. assert (value = 0) as -> by lia.
      split; [reflexivity|]. split; [reflexivity|]. split; [constructor|].
      split; [lia|]. intros k _. cbn. lia.
Qed.

Lemma temp_digits (value : Z) :
  0 <= value ->
  let temp := if value =? 0 then [x30]
              else App.uint_digits_loop (S (Z.to_nat (Z.log2 value))) value [] in
  decimal_value (rev temp) = value
  /\ Forall is_digit temp
  /\ 1 <= len temp
  /\ (forall k : nat, (1 <= k)%nat -> value < 10 ^ Z.of_nat k -> len temp <= Z.of_nat k).
Proof.
  intros Hv temp. subst temp.
  destruct (Z.eqb_spec value 0) as [->|Nz].
  - cbv iota. split; [reflexivity|]. split; [|split].
    + repeat constructor; unfold is_digit; cbn; lia.
    + cbn; lia.
    + intros k Hk _. change (len [x30]) with 1. lia.
  - assert (Hf : 0 <= value < 2 ^ Z.of_nat (S (Z.to_nat (Z.log2 value)))).
    { split; [lia|].
      rewrite Nat2Z.inj_succ, Z2Nat.id by apply Z.log2_nonneg.
      apply Z.log2_spec. lia. }
    destruct (uint_digits_loop_spec _ [] Hf) as (ds & E & Hval & Hdig & Hne & Hlen).
    rewrite E. cbn [app]. split; [exact Hval|]. split; [exact Hdig|]. split.
    + destruct ds as [|d ds]; [contradiction Hne; [lia | reflexivity]|].
      rewrite len_cons. pose proof (len_nonneg ds). lia.
    + intros k _ Hk. specialize (Hlen k Hk). unfold len. lia.
Qed.

Lemma Forall_rev_digit (l : list byte) : Forall is_digit l -> Forall is_digit (rev l).
Proof.
  intros H. apply Forall_forall. intros b Hb. apply in_rev in Hb.
  rewrite Forall_forall in H. exact (H b Hb).
Qed.

Lemma len_rev (l : list byte) : len (rev l) = len l.
Proof. unfold len. rewrite length_rev. reflexivity. Qed.

(** What [app_uint_to_str] leaves in [buf], for a value of [k] digits at
    most. *)
Lemma app_uint_to_str_spec (value width : Z) (k : nat) :
  0 <= value -> (1 <= k)%nat -> value < 10 ^ Z.of_nat k ->
  let s := App.app_uint_to_str value width in
  decimal_value s = value
  /\ Forall is_digit s
  /\ Z.max 1 width <= len s <= Z.max width (Z.of_nat k).
Proof.
  intros Hv Hk Hlt s. subst s. unfold App.app_uint_to_str.
  destruct (temp_digits Hv) as (Hval & Hdig & Hlen1 & Hlenk).
  set (temp := if value =? 0 then [x30]
               else App.uint_digits_loop (S (Z.to_nat (Z.log2 value))) value []) in *.
  specialize (Hlenk k Hk Hlt).
  split; [|split].
  - rewrite decimal_value_rev_app, decimal_value_zeros, Hval. lia.
  - apply Forall_rev_digit, Forall_app. split; [exact Hdig|].
    apply Forall_forall. intros b Hb. apply repeat_spec in Hb. subst b.
    unfold is_digit. cbn. lia.
  - rewrite len_rev, len_app, len_repeat. lia.
Qed.

(** ** 32-bit big-endian fields *)

Lemma decode32 (b0 b1 b2 b3 : byte) :
  Z.lor (Z.lor (Z.lor (Z.shiftl (b2z b0) 24) (Z.shiftl (b2z b1) 16))
               (Z.shiftl (b2z b2) 8)) (b2z b3)
  = b2z b0 * 16777216 + b2z b1 * 65536 + b2z b2 * 256 + b2z b3.
Proof.
  pose proof (b2z_range b0). pose proof (b2z_range b1).
  pose proof (b2z_range b2). pose proof (b2z_range b3).
  replace (Z.shiftl (b2z b0) 24) with (Z.shiftl (Z.shiftl (b2z b0) 16) 8)
    by (rewrite Z.shiftl_shiftl by lia; reflexivity).
  replace (Z.shiftl (b2z b1) 16) with (Z.shiftl (Z.shiftl (b2z b1) 8) 8)
    by (rewrite Z.shiftl_shiftl by lia; reflexivity).
  rewrite <- !Z.shiftl_lor.
  replace (Z.shiftl (b2z b0) 16) with (Z.shiftl (Z.shiftl (b2z b0) 8) 8)
    by (rewrite Z.shiftl_shiftl by lia; reflexivity).
  rewrite <- Z.shiftl_lor, decode16.
  rewrite (@lor_shiftl_add _ (b2z b2) 8) by lia.
  rewrite lor_shiftl_add by lia. change (2 ^ 8) with 256. lia.
Qed.

Lemma be32_fields (x : Z) :
  0 <= x < 2 ^ 32 ->
  b2z (z2b (Z.shiftr x 24)) * 16777216 + b2z (z2b (Z.shiftr x 16)) * 65536
  + b2z (z2b (Z.shiftr x 8)) * 256 + b2z (z2b x) = x.
Proof.
  intros Hx. rewrite !b2z_z2b, !Z.shiftr_div_pow2 by lia.
  change (2 ^ 8) with 256. change (2 ^ 16) with 65536.
  change (2 ^ 24) with 16777216.
  pose proof (Z.div_mod x 256 ltac:(lia)) as H1.
  pose proof (Z.mod_pos_bound x 256 ltac:(lia)) as H2.
  pose proof (Z.div_mod (x / 256) 256 ltac:(lia)) as H3.
  pose proof (Z.mod_pos_bound (x / 256) 256 ltac:(lia)) as H4.
  pose proof (Z.div_mod (x / 256 / 256) 256 ltac:(lia)) as H5.
  pose proof (Z.mod_pos_bound (x / 256 / 256) 256 ltac:(lia)) as H6.
  assert (E16 : x / 65536 = x / 256 / 256)
    by (rewrite Z.div_div by lia; reflexivity).
  assert (E24 : x / 16777216 = x / 256 / 256 / 256)
    by (rewrite !Z.div_div by lia; reflexivity).
  rewrite E16, E24.
  rewrite (Z.mod_small (x / 256 / 256 / 256)); [lia|].
  split; [repeat apply Z.div_pos; lia|].
  repeat (apply Z.div_lt_upper_bound; [lia|]). lia.
Qed.

(** The four bytes of a big-endian field read back as the field. *)
Lemma decode_be32 (x : Z) :
  0 <= x < 2 ^ 32 ->
  Z.lor (Z.lor (Z.lor (Z.shiftl (b2z (z2b (Z.shiftr x 24))) 24)
                      (Z.shiftl (b2z (z2b (Z.shiftr x 16))) 16))
               (Z.shiftl (b2z (z2b (Z.shiftr x 8))) 8))
        (b2z (z2b x)) = x.
Proof. intros Hx. rewrite decode32. apply be32_fields. exact Hx. Qed.

Lemma b2z_inj (a b : byte) : b2z a = b2z b -> a = b.
Proof. intros H. rewrite <- (z2b_b2z a), <- (z2b_b2z b), H. reflexivity. Qed.

Lemma b2z_eqb (a b : byte) : (b2z a =? b2z b) = true <-> a = b.
Proof.
  rewrite Z.eqb_eq. split; [apply b2z_inj | intros ->; reflexivity].
Qed.

Lemma b2z_neqb (a b : byte) : a <> b -> (b2z a =? b2z b) = false.
Proof.
  intros N. apply Z.eqb_neq. intros E. apply N, b2z_inj, E.
Qed.

(** ** Application side: the command scan *)

Section AppScan.

Import App.

Lemma app_consume_cache_rx (count : Z) (c : bootloader_app_context_t) :
  0 <= count ->
  App.app_consume_cache count c
  = App.app_set_rx_cache (skipn (Z.to_nat count) (rx_cache c)) c.
Proof.
  intros H. unfold App.app_consume_cache, App.app_rx_cache_len, len.
  destruct (Z.geb_spec count (Z.of_nat (length (rx_cache c)))); [|reflexivity].
  rewrite skipn_all2 by lia. reflexivity.
Qed.

Lemma app_candidate_skip (cache : list byte) (count : Z) :
  App.app_candidate cache = App.AppSkip count -> count = 1 \/ count = 2.
Proof.
  unfold App.app_candidate.
  repeat match goal with
         | |- context [if ?b then _ else _] => destruct b
         end; intros H; inversion H; auto.
Qed.

Lemma app_candidate_command (cache : list byte) (cmd : App.bl_app_cmd_t) (count : Z) :
  App.app_candidate cache = App.AppCommand cmd count ->
  (count = 6 \/ count = 14) /\ cmd <> App.BL_APP_CMD_NONE.
Proof.
  unfold App.app_candidate.
  repeat match goal with
         | |- context [if ?b then _ else _] => destruct b
         end; intros H; inversion H; split; auto; discriminate.
Qed.

(** Fuel: any amount at least the cache length gives the same result, and
    that result is not "out of fuel". *)
Lemma app_check_loop_enough (n : nat) :
  forall (c : bootloader_app_context_t) (f : nat),
    (length (rx_cache c) <= n)%nat -> (n <= f)%nat ->
    App.app_check_loop f c = App.app_check_loop n c
    /\ App.app_check_loop n c <> None.
Proof.
  induction n as [|n IH]; intros c f Hlen Hf.
  - assert (E : (App.app_rx_cache_len c <? App.CMD_QUERY_VERSION_LEN) = true).
    { apply Z.ltb_lt. unfold App.app_rx_cache_len, len, App.CMD_QUERY_VERSION_LEN. lia. }
    destruct f; cbn [App.app_check_loop]; rewrite E; split; congruence.
  - destruct f as [|f]; [lia|]. cbn [App.app_check_loop].
    destruct (Z.ltb_spec (App.app_rx_cache_len c) App.CMD_QUERY_VERSION_LEN) as [L|G];
      [split; congruence|].
    destruct (App.app_candidate (rx_cache c)) as [count|cmd count] eqn:Ecand;
      [|split; congruence].
    destruct (app_candidate_skip _ Ecand) as [-> | ->];
      (apply IH; [|lia]);
      rewrite app_consume_cache_rx by lia; cbn [rx_cache App.app_set_rx_cache];
      rewrite length_skipn;
      unfold App.app_rx_cache_len, len, App.CMD_QUERY_VERSION_LEN in G; lia.
Qed.

Lemma app_check_loop_total (c : bootloader_app_context_t) :
  App.app_check_loop (length (rx_cache c)) c <> None.
Proof.
  apply (@app_check_loop_enough (length (rx_cache c)) c _ (le_n _) (le_n _)).
Qed.

(** [app_check_dataframe], one turn of its loop at a time. *)
Lemma app_check_short (c : bootloader_app_context_t) :
  App.app_rx_cache_len c < 6 ->
  App.app_check_dataframe c = (App.BL_APP_CMD_NONE, c).
Proof.
  intros H. unfold App.app_check_dataframe.
  assert (E : (App.app_rx_cache_len c <? App.CMD_QUERY_VERSION_LEN) = true)
    by (apply Z.ltb_lt; exact H).
  destruct (length (rx_cache c)); cbn [App.app_check_loop]; rewrite E; reflexivity.
Qed.

Lemma app_check_turn (c : bootloader_app_context_t) :
  6 <= App.app_rx_cache_len c ->
  App.app_check_dataframe c
  = match App.app_candidate (rx_cache c) with
    | App.AppSkip count =>
        App.app_check_dataframe (App.app_consume_cache count c)
    | App.AppCommand cmd count => (cmd, App.app_consume_cache count c)
    end.
Proof.
  intros H. unfold App.app_check_dataframe at 1.
  assert (E : (App.app_rx_cache_len c <? App.CMD_QUERY_VERSION_LEN) = false)
    by (apply Z.ltb_ge; exact H).
  destruct (length (rx_cache c)) as [|n] eqn:En.
  { unfold App.app_rx_cache_len, len in H. lia. }
  cbn [App.app_check_loop]. rewrite E.
  destruct (App.app_candidate (rx_cache c)) as [count|cmd count] eqn:Ecand;
    [|reflexivity].
  unfold App.app_check_dataframe.
  assert (Hn : (length (rx_cache (App.app_consume_cache count c)) <= n)%nat).
  { destruct (app_candidate_skip _ Ecand) as [-> | ->];
      rewrite app_consume_cache_rx by lia; cbn [rx_cache App.app_set_rx_cache];
      rewrite length_skipn; lia. }
  destruct (@app_check_loop_enough
              (length (rx_cache (App.app_consume_cache count c)))
              (App.app_consume_cache count c) n (le_n _) Hn)
    as (E2 & _).
  rewrite E2.
  pose proof (app_check_loop_total (App.app_consume_cache count c)) as Hsome.
  destruct (App.app_check_loop
              (length (rx_cache (App.app_consume_cache count c)))
              (App.app_consume_cache count c));
    [reflexivity | contradiction Hsome; reflexivity].
Qed.

Lemma app_set_rx_cache_twice (l1 l2 : list byte) (c : bootloader_app_context_t) :
  App.app_set_rx_cache l1 (App.app_set_rx_cache l2 c) = App.app_set_rx_cache l1 c.
Proof. reflexivity. Qed.

Lemma app_set_rx_cache_same (c : bootloader_app_context_t) :
  App.app_set_rx_cache (rx_cache c) c = c.
Proof. destruct c; reflexivity. Qed.

(** The scan with the cache written out. *)
Lemma app_scan_short (cache : list byte) (c : bootloader_app_context_t) :
  len cache < 6 ->
  App.app_check_dataframe (App.app_set_rx_cache cache c)
  = (App.BL_APP_CMD_NONE, App.app_set_rx_cache cache c).
Proof. intros H. apply app_check_short. exact H. Qed.

Lemma app_scan_turn (cache : list byte) (c : bootloader_app_context_t) :
  6 <= len cache ->
  App.app_check_dataframe (App.app_set_rx_cache cache c)
  = match App.app_candidate cache with
    | App.AppSkip count =>
        App.app_check_dataframe
          (App.app_set_rx_cache (skipn (Z.to_nat count) cache) c)
    | App.AppCommand cmd count =>
        (cmd, App.app_set_rx_cache (skipn (Z.to_nat count) cache) c)
    end.
Proof.
  intros H. rewrite app_check_turn by exact H.
  cbn [rx_cache App.app_set_rx_cache].
  destruct (App.app_candidate cache) as [count|cmd count] eqn:E.
  - rewrite app_consume_cache_rx
      by (destruct (app_candidate_skip _ E); lia).
    reflexivity.
  - rewrite app_consume_cache_rx
      by (destruct (app_candidate_command _ E) as [[-> | ->] _]; lia).
    reflexivity.
Qed.

(** A byte that is not 0x55 at the head of the cache is dropped. *)
Lemma app_candidate_noise (b : byte) (rest : list byte) :
  b <> x55 -> App.app_candidate (b :: rest) = App.AppSkip 1.
Proof.
  intros N. unfold App.app_candidate. literal_bytes.
  change 85 with (b2z x55). rewrite (b2z_neqb N). reflexivity.
Qed.

Lemma app_scan_noise (b : byte) (rest : list byte) (c : bootloader_app_context_t) :
  b <> x55 -> 5 <= len rest ->
  App.app_check_dataframe (App.app_set_rx_cache (b :: rest) c)
  = App.app_check_dataframe (App.app_set_rx_cache rest c).
Proof.
  intros N H. rewrite app_scan_turn by (rewrite len_cons; lia).
  rewrite (app_candidate_noise rest N). reflexivity.
Qed.

Lemma app_scan_junk (junk : list byte) :
  forall (rest : list byte) (c : bootloader_app_context_t),
    Forall (fun b => b <> x55) junk -> 5 <= len rest ->
    App.app_check_dataframe (App.app_set_rx_cache (junk ++ rest) c)
    = App.app_check_dataframe (App.app_set_rx_cache rest c).
Proof.
  induction junk as [|b junk IH]; intros rest c Hj Hr; [reflexivity|].
  inversion Hj as [|b' junk' Hb Hj']; subst.
  cbn [app]. rewrite app_scan_noise.
  - apply IH; assumption.
  - exact Hb.
  - rewrite len_app. pose proof (len_nonneg junk). lia.
Qed.

(** The three commands at the head of the cache. *)
Lemma app_candidate_query_version (rest : list byte) :
  App.app_candidate (cmd_query_version ++ rest)
  = App.AppCommand App.BL_APP_CMD_QUERY_VERSION 6.
Proof.
  unfold App.app_candidate, cmd_query_version. literal_bytes.
  change (b2z x55) with 85. change (b2z xaa) with 170.
  change (b2z xff) with 255. change (b2z xdd) with 221. cbn [Z.eqb Pos.eqb negb orb andb].
  rewrite !len_cons. pose proof (len_nonneg rest).
  unfold App.CMD_QUERY_VERSION_LEN.
  destruct (Z.geb_spec (1 + (1 + (1 + (1 + (1 + (1 + len rest)))))) 6); [reflexivity | lia].
Qed.

Lemma app_candidate_query_date (rest : list byte) :
  App.app_candidate (cmd_query_date ++ rest)
  = App.AppCommand App.BL_APP_CMD_QUERY_DATE 6.
Proof.
  unfold App.app_candidate, cmd_query_date. literal_bytes.
  change (b2z x55) with 85. change (b2z xaa) with 170.
  change (b2z xff) with 255. change (b2z xcc) with 204. cbn [Z.eqb Pos.eqb negb orb andb].
  rewrite !len_cons. pose proof (len_nonneg rest).
  unfold App.CMD_QUERY_VERSION_LEN, App.CMD_QUERY_DATE_LEN.
  destruct (Z.geb_spec (1 + (1 + (1 + (1 + (1 + (1 + len rest)))))) 6);
    [reflexivity | lia].
Qed.

(** A header followed by four bytes that are neither FF DD 55 55 nor
    FF CC 55 55: the two query tests fail. *)
Lemma query_tests_fail (v0 v1 v2 v3 : byte) (sel : Z) :
  (v2 <> x55 \/ v3 <> x55 \/ v0 <> xff \/ (b2z v1 <> sel)) ->
  (b2z v0 =? 255) && (b2z v1 =? sel) && (b2z v2 =? 85) && (b2z v3 =? 85) = false.
Proof.
  intros H. apply not_true_is_false. intros T.
  apply andb_prop in T as [T T3]. apply andb_prop in T as [T T2].
  apply andb_prop in T as [T0 T1].
  change 255 with (b2z xff) in T0. change 85 with (b2z x55) in T2, T3.
  apply b2z_eqb in T0, T2, T3. apply Z.eqb_eq in T1.
  destruct H as [H|[H|[H|H]]]; contradiction.
Qed.

Lemma app_candidate_start_flash (v0 v1 v2 v3 d0 d1 d2 d3 : byte) (rest : list byte) :
  [v0; v1; v2; v3] <> [xff; xdd; x55; x55] ->
  [v0; v1; v2; v3] <> [xff; xcc; x55; x55] ->
  App.app_candidate
    (x55 :: xaa :: v0 :: v1 :: v2 :: v3 :: d0 :: d1 :: d2 :: d3
         :: xff :: xee :: x55 :: x55 :: rest)
  = App.AppCommand
      (App.BL_APP_CMD_START_FLASH
         (b2z v0 * 16777216 + b2z v1 * 65536 + b2z v2 * 256 + b2z v3)
         (b2z d0 * 16777216 + b2z d1 * 65536 + b2z d2 * 256 + b2z d3)) 14.
Proof.
  intros Nv Nd. unfold App.app_candidate. literal_bytes.
  rewrite !decode32.
  change (b2z x55 =? 85) with true. change (b2z xaa =? 170) with true.
  change (b2z xff =? 255) with true. change (b2z xee =? 238) with true.
  cbn [negb orb andb].
  assert (Hq : forall sel s, sel = b2z s -> [v0; v1; v2; v3] <> [xff; s; x55; x55] ->
             (b2z v0 =? 255) && (b2z v1 =? sel) && (b2z v2 =? 85) && (b2z v3 =? 85)
             = false).
  { intros sel s -> N. apply query_tests_fail.
    destruct (Byte.byte_eq_dec v2 x55) as [->|]; [|auto].
    destruct (Byte.byte_eq_dec v3 x55) as [->|]; [|auto].
    destruct (Byte.byte_eq_dec v0 xff) as [->|]; [|auto].
    right. right. right. intros E. apply b2z_inj in E. subst v1.
    apply N. reflexivity. }
  rewrite (Hq 221 xdd eq_refl Nv), (Hq 204 xcc eq_refl Nd).
  rewrite !andb_false_r. cbv iota.
  rewrite !len_cons. pose proof (len_nonneg rest).
  unfold App.CMD_START_FLASH_LEN.
  match goal with
  | |- context [?a >=? 14] => destruct (Z.geb_spec a 14); [reflexivity | lia]
  end.
Qed.

(** What a scan can return: only the cache changes, to a suffix of itself,
    and a scan that finds no command leaves fewer than six bytes. *)
Lemma app_check_loop_inv (fuel : nat) :
  forall (c c' : bootloader_app_context_t) (cmd : App.bl_app_cmd_t),
    App.app_check_loop fuel c = Some (cmd, c') ->
    (exists n, c' = App.app_set_rx_cache (skipn n (rx_cache c)) c)
    /\ (cmd = App.BL_APP_CMD_NONE -> len (rx_cache c') < 6).
Proof.
  induction fuel as [|fuel IH]; intros c c' cmd H; cbn [App.app_check_loop] in H.
  - destruct (Z.ltb_spec (App.app_rx_cache_len c) App.CMD_QUERY_VERSION_LEN);
      [|discriminate].
    injection H as Hcmd Hc; subst cmd c'. split.
    + exists O. symmetry. apply app_set_rx_cache_same.
    + intros _. assumption.
  - destruct (Z.ltb_spec (App.app_rx_cache_len c) App.CMD_QUERY_VERSION_LEN).
    { injection H as Hcmd Hc; subst cmd c'. split.
      - exists O. symmetry. apply app_set_rx_cache_same.
      - intros _. assumption. }
    destruct (App.app_candidate (rx_cache c)) as [count|cmd0 count] eqn:Ecand.
    + assert (Hcount : 0 <= count)
        by (destruct (app_candidate_skip _ Ecand); lia).
      rewrite app_consume_cache_rx in H by exact Hcount.
      apply IH in H. cbn [rx_cache App.app_set_rx_cache] in H.
      destruct H as ((n & E) & Hnone). split; [|exact Hnone].
      rewrite skipn_skipn in E.
      exists (n + Z.to_nat count)%nat. rewrite E. reflexivity.
    + injection H as Hcmd Hc; subst cmd c'.
      destruct (app_candidate_command _ Ecand) as (Hcount & Hne).
      rewrite app_consume_cache_rx by (destruct Hcount; lia).
      split; [eauto | intros E; contradiction].
Qed.

Lemma app_check_inv (c : bootloader_app_context_t) :
  (exists n, snd (App.app_check_dataframe c)
             = App.app_set_rx_cache (skipn n (rx_cache c)) c)
  /\ (fst (App.app_check_dataframe c) = App.BL_APP_CMD_NONE ->
      len (rx_cache (snd (App.app_check_dataframe c))) < 6).
Proof.
  unfold App.app_check_dataframe.
  pose proof (app_check_loop_total c) as Hsome.
  destruct (App.app_check_loop (length (rx_cache c)) c) as [[cmd c']|] eqn:E;
    [|contradiction Hsome; reflexivity].
  apply app_check_loop_inv in E. exact E.
Qed.

(** One poll with [chunk] waiting: the whole chunk moves into the cache when
    it fits. *)
Lemma app_poll_appends (chunk : list byte)
      (c : bootloader_app_context_t) (w : world) :
  uart_rx w = [] -> chunk <> [] ->
  len (rx_cache c) + len chunk <= App.APP_RX_CACHE_SIZE ->
  exists w',
    App.app_poll_uart c (uart_arrive chunk w)
    = Returns tt (App.app_set_rx_cache (rx_cache c ++ chunk) c) w'
    /\ uart_rx w' = [] /\ trace w' = trace w /\ oracle w' = oracle w
    /\ flash w' = flash w.
Proof.
  intros Hrx Hne Hfit.
  pose proof (len_nonneg chunk) as Hn.
  pose proof (len_nonneg (rx_cache c)) as Hc.
  assert (Hpos : 0 < len chunk).
  { destruct chunk; [contradiction Hne; reflexivity|].
    rewrite len_cons. pose proof (len_nonneg chunk). lia. }
  unfold App.app_poll_uart, bind, get, port, modify, ret, App.app_rx_cache_len.
  change App.APP_RX_CACHE_SIZE with 28 in *.
  rewrite u32_small by lia.
  destruct (Z.eqb_spec (28 - len (rx_cache c)) 0); [lia|].
  unfold App.boot_port_app_uart_read, boot_port_uart_read, uart_arrive.
  cbn [uart_rx flash oracle trace].
  rewrite Hrx. cbn [app].
  rewrite firstn_all2, skipn_all2 by (unfold len in *; lia).
  destruct (Z.ltb_spec 0 (len chunk)); [|lia].
  eexists. split; [reflexivity|]. repeat split; reflexivity.
Qed.

End AppScan.

(** X1.  [app_uint_to_str] on a 32-bit value writes decimal digits only, the
    digits read back as the value, and there are at least [max 1 width] and
    at most [max width 10] of them; with the terminator this fits the
    12-character [temp] and [num_str] buffers for every width up to 11. *)
Theorem app_uint_to_str_round_trip (value width : Z) :
  0 <= value < 2 ^ 32 ->
  let s := App.app_uint_to_str value width in
  decimal_value s = value
  /\ Forall is_digit s
  /\ Z.max 1 width <= len s <= Z.max width 10.
Proof.
  intros Hv. apply (@app_uint_to_str_spec value width 10%nat); lia.
Qed.

Lemma app_uint_to_str_round_trip_witness :
  0 <= 4294967295 < 2 ^ 32
  /\ App.app_uint_to_str 4294967295 1
     = [x34; x32; x39; x34; x39; x36; x37; x32; x39; x35]
  /\ decimal_value (App.app_uint_to_str 4294967295 1) = 4294967295
  /\ len (App.app_uint_to_str 7 4) <= 10.
Proof.
  assert (H : 0 <= 4294967295 < 2 ^ 32) by lia.
  split; [exact H|]. split; [vm_compute; reflexivity|].
  split; [apply (app_uint_to_str_round_trip 1 H)|].
  apply (@app_uint_to_str_round_trip 7 4); lia.
Defined.

Section AppReplies.

Import App.
Variable cfg : boot_config_app.

Lemma app_poll_whole (chunk : list byte)
      (c : bootloader_app_context_t) (w : world) :
  uart_rx w = [] -> chunk <> [] ->
  len (rx_cache c) + len chunk <= App.APP_RX_CACHE_SIZE ->
  App.app_poll_uart c (uart_arrive chunk w)
  = Returns tt (App.app_set_rx_cache (rx_cache c ++ chunk) c) w.
Proof.
  intros Hrx Hne Hfit.
  destruct (@app_poll_appends chunk c w Hrx Hne Hfit) as (w' & E & Hrx' & Ht & Ho & Hf).
  rewrite E. f_equal.
  destruct w as [f o u t], w' as [f' o' u' t']. cbn in *. congruence.
Qed.

(** A run with one whole command waiting on the serial line, the cache
    being empty. *)
Lemma app_run_command (cmd_bytes : list byte) (cmd : App.bl_app_cmd_t)
      (c : bootloader_app_context_t) (w : world) :
  initialized c = true -> rx_cache c = [] -> uart_rx w = [] ->
  cmd_bytes <> [] -> len cmd_bytes <= 28 ->
  App.app_check_dataframe (App.app_set_rx_cache cmd_bytes c)
  = (cmd, App.app_set_rx_cache [] c) ->
  App.easy_bootloader_app_run cfg c (uart_arrive cmd_bytes w)
  = match cmd with
    | App.BL_APP_CMD_QUERY_VERSION => App.app_handle_query_version c w
    | App.BL_APP_CMD_QUERY_DATE => App.app_handle_query_date c w
    | App.BL_APP_CMD_START_FLASH new_version new_date =>
        app_handle_start_flash cfg new_version new_date c w
    | App.BL_APP_CMD_NONE => Returns tt c w
    end.
Proof.
  intros Hinit Hc Hrx Hne Hfit Hscan.
  unfold App.easy_bootloader_app_run. rewrite Hinit. cbn [negb].
  unfold bind at 1.
  rewrite app_poll_whole
    by (try assumption; rewrite Hc, len_nil; change App.APP_RX_CACHE_SIZE with 28; lia).
  rewrite Hc. cbn [app]. unfold bind at 1. rewrite Hscan.
  assert (Ec : App.app_set_rx_cache [] c = c)
    by (rewrite <- Hc; apply app_set_rx_cache_same).
  rewrite Ec. destruct cmd; reflexivity.
Qed.

End AppReplies.

(** X2.  A version query (55 AA FF DD 55 55) arriving at an idle, initialised
    application is answered within the same run by one serial write,
    "version:" followed by decimal digits and CR LF; the digits read back as
    the cached [app_version] and there are at most ten of them, so the reply
    and its terminator fit the 32-byte buffer.  The context is unchanged and
    the cache is empty again. *)
Theorem app_query_version_reply
        (cfg : App.boot_config_app) (c : App.bootloader_app_context_t) (w : world) :
  App.initialized c = true -> App.rx_cache c = [] -> uart_rx w = [] ->
  0 <= App.app_version c < 2 ^ 32 ->
  exists digits,
    App.easy_bootloader_app_run cfg c (uart_arrive cmd_query_version w)
    = Returns tt c
        (emit (EvUartWrite (App.str_version ++ digits ++ App.str_crlf)) w)
    /\ decimal_value digits = App.app_version c
    /\ Forall is_digit digits
    /\ 1 <= len digits <= 10.
Proof.
  intros Hinit Hc Hrx Hv.
  exists (App.app_uint_to_str (App.app_version c) 1).
  rewrite (@app_run_command cfg cmd_query_version App.BL_APP_CMD_QUERY_VERSION
             c w Hinit Hc Hrx ltac:(discriminate) ltac:(vm_compute; discriminate)).
  - split; [reflexivity|].
    destruct (@app_uint_to_str_spec (App.app_version c) 1 10%nat) as (H1 & H2 & H3);
      try lia.
    split; [exact H1|]. split; [exact H2|]. lia.
  - rewrite <- (app_nil_r cmd_query_version).
    rewrite app_scan_turn
      by (rewrite app_nil_r; vm_compute; discriminate).
    rewrite app_candidate_query_version. reflexivity.
Qed.

Lemma app_query_version_reply_witness :
  let c := {| App.rx_cache := []; App.boot_flag := 2; App.app_version := 123;
              App.update_date := 0x20251215; App.initialized := true |} in
  App.initialized c = true /\ App.rx_cache c = [] /\ uart_rx blank_world = []
  /\ 0 <= App.app_version c < 2 ^ 32
  /\ exists digits,
       trace (world_of (App.easy_bootloader_app_run App.ch32v307_config_app c
                          (uart_arrive cmd_query_version blank_world)))
       = [EvUartWrite (App.str_version ++ digits ++ App.str_crlf)]
       /\ decimal_value digits = 123.
Proof.
  intros c.
  assert (H1 : App.initialized c = true) by reflexivity.
  assert (H2 : App.rx_cache c = []) by reflexivity.
  assert (H3 : uart_rx blank_world = []) by reflexivity.
  assert (H4 : 0 <= App.app_version c < 2 ^ 32) by (cbn; lia).
  repeat (split; [assumption|]).
  destruct (@app_query_version_reply App.ch32v307_config_app c blank_world
              H1 H2 H3 H4) as (digits & E & Hd & _).
  exists digits. rewrite E. split; [reflexivity | exact Hd].
Defined.

(** X3.  A date query (55 AA FF CC 55 55) is answered by one serial write
    "Y-M-D" CR LF whose three fields are decimal digits: Y reads back as
    [update_date >> 16] (4 or 5 digits), M as [(update_date >> 8) & 0xFF] and
    D as [update_date & 0xFF] (2 or 3 digits each), so the three fields put
    together again give [update_date], and the reply with its terminator is
    at most 16 bytes.  The fields are the binary bit fields printed in
    decimal. *)
Theorem app_query_date_reply
        (cfg : App.boot_config_app) (c : App.bootloader_app_context_t) (w : world) :
  App.initialized c = true -> App.rx_cache c = [] -> uart_rx w = [] ->
  0 <= App.update_date c < 2 ^ 32 ->
  exists y m d,
    App.easy_bootloader_app_run cfg c (uart_arrive cmd_query_date w)
    = Returns tt c
        (emit (EvUartWrite (y ++ App.str_dash ++ m ++ App.str_dash ++ d
                              ++ App.str_crlf)) w)
    /\ Forall is_digit (y ++ m ++ d)
    /\ decimal_value y * 65536 + decimal_value m * 256 + decimal_value d
       = App.update_date c
    /\ decimal_value m < 256 /\ decimal_value d < 256
    /\ 4 <= len y <= 5 /\ 2 <= len m <= 3 /\ 2 <= len d <= 3.
Proof.
  intros Hinit Hc Hrx Hv.
  set (date := App.update_date c) in *.
  exists (App.app_uint_to_str (Z.land (Z.shiftr date 16) 0xFFFF) 4),
         (App.app_uint_to_str (Z.land (Z.shiftr date 8) 0xFF) 2),
         (App.app_uint_to_str (Z.land date 0xFF) 2).
  rewrite (@app_run_command cfg cmd_query_date App.BL_APP_CMD_QUERY_DATE
             c w Hinit Hc Hrx ltac:(discriminate) ltac:(vm_compute; discriminate)).
  - split; [reflexivity|].
    change 0xFFFF with (Z.ones 16). change 0xFF with (Z.ones 8).
    rewrite !Z.land_ones, !Z.shiftr_div_pow2 by lia.
    change (2 ^ 16) with 65536. change (2 ^ 8) with 256.
    pose proof (Z.div_mod date 256 ltac:(lia)) as D1.
    pose proof (Z.mod_pos_bound date 256 ltac:(lia)) as M1.
    pose proof (Z.div_mod (date / 256) 256 ltac:(lia)) as D2.
    pose proof (Z.mod_pos_bound (date / 256) 256 ltac:(lia)) as M2.
    assert (E16 : date / 65536 = date / 256 / 256)
      by (rewrite Z.div_div by lia; reflexivity).
    assert (Hy : 0 <= date / 65536 < 65536).
    { split; [apply Z.div_pos; lia | apply Z.div_lt_upper_bound; lia]. }
    rewrite (Z.mod_small (date / 65536)) by lia.
    destruct (@app_uint_to_str_spec (date / 65536) 4 5%nat) as (Y1 & Y2 & Y3);
      try lia.
    destruct (@app_uint_to_str_spec ((date / 256) mod 256) 2 3%nat)
      as (Mo1 & Mo2 & Mo3); try lia.
    destruct (@app_uint_to_str_spec (date mod 256) 2 3%nat) as (Da1 & Da2 & Da3);
      try lia.
    rewrite Y1, Mo1, Da1.
    split; [repeat (apply Forall_app; split); assumption|].
    split; [lia|]. repeat split; lia.
  - rewrite <- (app_nil_r cmd_query_date).
    rewrite app_scan_turn
      by (rewrite app_nil_r; vm_compute; discriminate).
    rewrite app_candidate_query_date. reflexivity.
Qed.

Lemma app_query_date_reply_witness :
  let c := {| App.rx_cache := []; App.boot_flag := 2; App.app_version := 123;
              App.update_date := 0x20251215; App.initialized := true |} in
  App.initialized c = true /\ App.rx_cache c = [] /\ uart_rx blank_world = []
  /\ 0 <= App.update_date c < 2 ^ 32
  /\ (exists y m d,
        decimal_value y * 65536 + decimal_value m * 256 + decimal_value d
        = 0x20251215 /\ 4 <= len y <= 5)
  /\ trace (world_of (App.easy_bootloader_app_run App.ch32v307_config_app c
                        (uart_arrive cmd_query_date blank_world)))
     = [EvUartWrite [x38; x32; x32; x39; x2d; x31; x38; x2d; x32; x31; x0d; x0a]].
Proof.
  intros c.
  assert (H1 : App.initialized c = true) by reflexivity.
  assert (H2 : App.rx_cache c = []) by reflexivity.
  assert (H3 : uart_rx blank_world = []) by reflexivity.
  assert (H4 : 0 <= App.update_date c < 2 ^ 32) by (cbn; lia).
  repeat (split; [assumption|]).
  split; [|vm_compute; reflexivity].
  destruct (@app_query_date_reply App.ch32v307_config_app c blank_world
              H1 H2 H3 H4) as (y & m & d & _ & _ & E & _ & _ & Hy & _).
  exists y, m, d. split; [exact E | exact Hy].
Defined.

(** X4.  Command recognition after line noise: with any bytes other than
    0x55 before it and any bytes after it in the cache, each of the three
    commands is reported by [app_check_dataframe], the noise and the command
    leave the cache and what follows stays.  The start-flash command gives
    back the version and date it was encoded with, provided its version
    field is not one of the two query codes. *)
Theorem app_commands_recognised
        (junk rest : list byte) (version date : Z)
        (c : App.bootloader_app_context_t) :
  Forall (fun b => b <> x55) junk ->
  0 <= version < 2 ^ 32 -> 0 <= date < 2 ^ 32 ->
  version <> 0xFFDD5555 -> version <> 0xFFCC5555 ->
  App.app_check_dataframe
    (App.app_set_rx_cache (junk ++ cmd_query_version ++ rest) c)
  = (App.BL_APP_CMD_QUERY_VERSION, App.app_set_rx_cache rest c)
  /\
  App.app_check_dataframe
    (App.app_set_rx_cache (junk ++ cmd_query_date ++ rest) c)
  = (App.BL_APP_CMD_QUERY_DATE, App.app_set_rx_cache rest c)
  /\
  App.app_check_dataframe
    (App.app_set_rx_cache (junk ++ encode_start_flash version date ++ rest) c)
  = (App.BL_APP_CMD_START_FLASH version date, App.app_set_rx_cache rest c).
Proof.
  intros Hj Hv Hd Nv Nd. pose proof (len_nonneg rest) as Hr.
  split; [|split].
  - rewrite (@app_scan_junk junk _ c Hj)
      by (rewrite len_app; change (len cmd_query_version) with 6; lia).
    rewrite app_scan_turn
      by (rewrite len_app; change (len cmd_query_version) with 6; lia).
    rewrite app_candidate_query_version. reflexivity.
  - rewrite (@app_scan_junk junk _ c Hj)
      by (rewrite len_app; change (len cmd_query_date) with 6; lia).
    rewrite app_scan_turn
      by (rewrite len_app; change (len cmd_query_date) with 6; lia).
    rewrite app_candidate_query_date. reflexivity.
  - assert (Hl : len (encode_start_flash version date ++ rest) = 14 + len rest).
    { rewrite len_app. reflexivity. }
    rewrite (@app_scan_junk junk _ c Hj) by lia.
    rewrite app_scan_turn by lia.
    unfold encode_start_flash, be32. cbn [app].
    rewrite app_candidate_start_flash.
    + rewrite (be32_fields Hv), (be32_fields Hd). reflexivity.
    + intros E. apply Nv. rewrite <- (be32_fields Hv).
      injection E as -> -> -> ->. reflexivity.
    + intros E. apply Nd. rewrite <- (be32_fields Hv).
      injection E as -> -> -> ->. reflexivity.
Qed.

Lemma app_commands_recognised_witness :
  let c := {| App.rx_cache := []; App.boot_flag := 2; App.app_version := 5;
              App.update_date := 0x20250101; App.initialized := true |} in
  let junk := [x00; xaa; x0d] in
  Forall (fun b => b <> x55) junk
  /\ App.app_check_dataframe
       (App.app_set_rx_cache (junk ++ encode_start_flash 6 0x20251215 ++ [x01]) c)
     = (App.BL_APP_CMD_START_FLASH 6 0x20251215, App.app_set_rx_cache [x01] c).
Proof.
  intros c junk.
  assert (Hj : Forall (fun b => b <> x55) junk)
    by (repeat constructor; discriminate).
  split; [exact Hj|].
  apply (@app_commands_recognised junk [x01] 6 0x20251215 c Hj); lia.
Defined.

(** X5.  The commands are tested in a fixed order on the bytes after the
    header, so a start-flash command whose version field is FF DD 55 55 is
    answered as a version query (FF CC 55 55: as a date query): the scan
    consumes its first six bytes only and the date and trailer stay in the
    cache. *)
Theorem start_flash_taken_for_query
        (date : Z) (rest : list byte) (c : App.bootloader_app_context_t) :
  App.app_check_dataframe
    (App.app_set_rx_cache (encode_start_flash 0xFFDD5555 date ++ rest) c)
  = (App.BL_APP_CMD_QUERY_VERSION,
     App.app_set_rx_cache (be32 date ++ [xff; xee; x55; x55] ++ rest) c)
  /\
  App.app_check_dataframe
    (App.app_set_rx_cache (encode_start_flash 0xFFCC5555 date ++ rest) c)
  = (App.BL_APP_CMD_QUERY_DATE,
     App.app_set_rx_cache (be32 date ++ [xff; xee; x55; x55] ++ rest) c).
Proof.
  pose proof (len_nonneg rest) as Hr.
  assert (Hl : forall v, len (encode_start_flash v date ++ rest) = 14 + len rest).
  { intros v. rewrite len_app. reflexivity. }
  split.
  - rewrite app_scan_turn by (rewrite Hl; lia).
    change (encode_start_flash 0xFFDD5555 date ++ rest)
      with (cmd_query_version ++ (be32 date ++ [xff; xee; x55; x55] ++ rest)).
    rewrite app_candidate_query_version. reflexivity.
  - rewrite app_scan_turn by (rewrite Hl; lia).
    change (encode_start_flash 0xFFCC5555 date ++ rest)
      with (cmd_query_date ++ (be32 date ++ [xff; xee; x55; x55] ++ rest)).
    rewrite app_candidate_query_date. reflexivity.
Qed.

(** X6.  Whatever is in the cache, [app_check_dataframe] changes nothing but
    the cache, which becomes a suffix of itself, and when it reports no
    command fewer than six bytes are left: a command of which six bytes or
    more have arrived is never left waiting for its remaining bytes. *)
Theorem app_scan_leaves_less_than_six (c : App.bootloader_app_context_t) :
  (exists n, snd (App.app_check_dataframe c)
             = App.app_set_rx_cache (skipn n (App.rx_cache c)) c)
  /\ (fst (App.app_check_dataframe c) = App.BL_APP_CMD_NONE ->
      len (App.rx_cache (snd (App.app_check_dataframe c))) < 6).
Proof. apply app_check_inv. Qed.

Section AppFragments.

Import App.
Variable cfg : boot_config_app.

(** A run with [chunk] arriving on top of what the cache holds. *)
Lemma app_run_chunk (chunk : list byte)
      (c : bootloader_app_context_t) (w : world) :
  initialized c = true -> uart_rx w = [] -> chunk <> [] ->
  len (rx_cache c) + len chunk <= 28 ->
  App.easy_bootloader_app_run cfg c (uart_arrive chunk w)
  = let (cmd, c1) :=
      App.app_check_dataframe (App.app_set_rx_cache (rx_cache c ++ chunk) c) in
    match cmd with
    | App.BL_APP_CMD_QUERY_VERSION => App.app_handle_query_version c1 w
    | App.BL_APP_CMD_QUERY_DATE => App.app_handle_query_date c1 w
    | App.BL_APP_CMD_START_FLASH new_version new_date =>
        app_handle_start_flash cfg new_version new_date c1 w
    | App.BL_APP_CMD_NONE => Returns tt c1 w
    end.
Proof.
  intros Hinit Hrx Hne Hfit.
  unfold App.easy_bootloader_app_run. rewrite Hinit. cbn [negb].
  unfold bind at 1.
  rewrite app_poll_whole by (try assumption; change App.APP_RX_CACHE_SIZE with 28; lia).
  unfold bind at 1.
  destruct (App.app_check_dataframe _) as [cmd c1]. destruct cmd; reflexivity.
Qed.

(** A header whose command is not complete yet: the two header bytes are
    dropped. *)
Lemma app_candidate_header_short (v0 v1 v2 v3 : byte) (tail : list byte) :
  v2 <> x55 -> len tail < 8 ->
  App.app_candidate (x55 :: xaa :: v0 :: v1 :: v2 :: v3 :: tail) = App.AppSkip 2.
Proof.
  intros N Hl. unfold App.app_candidate. literal_bytes.
  change (b2z x55 =? 85) with true. change (b2z xaa =? 170) with true.
  cbn [negb orb].
  rewrite !(@query_tests_fail v0 v1 v2 v3) by (left; exact N).
  rewrite !andb_false_r. cbv iota.
  rewrite !len_cons. pose proof (len_nonneg tail).
  unfold App.CMD_START_FLASH_LEN.
  match goal with
  | |- context [?a >=? 14] => destruct (Z.geb_spec a 14); [lia | reflexivity]
  end.
Qed.

End AppFragments.

Ltac split_nat n k :=
  lazymatch n with
  | O => idtac
  | S ?n' => destruct k as [|k]; [ | split_nat n' k ]
  end.

(** X7.  Chunking matters on the application side.  A start-flash command
    (version and date bytes other than 0x55) reaches an idle application in
    two pieces, the first [k] bytes in one run and the rest in the next.
    The first run does nothing visible.  When the first piece has at most
    five bytes the second run handles the command exactly as if it had
    arrived whole; when it has six bytes or more the first run already
    dropped the header, the second run finds no command, sends nothing
    and writes nothing, and only the last five bytes of the command are
    left in the cache: the command is lost. *)
Theorem start_flash_split_across_polls
        (cfg : App.boot_config_app) (v0 v1 v2 v3 d0 d1 d2 d3 : byte) (k : nat)
        (c : App.bootloader_app_context_t) (w : world) :
  let frame := [x55; xaa; v0; v1; v2; v3; d0; d1; d2; d3; xff; xee; x55; x55] in
  let version := b2z v0 * 16777216 + b2z v1 * 65536 + b2z v2 * 256 + b2z v3 in
  let date := b2z d0 * 16777216 + b2z d1 * 65536 + b2z d2 * 256 + b2z d3 in
  Forall (fun b => b <> x55) [v0; v1; v2; v3; d0; d1; d2; d3] ->
  App.initialized c = true -> App.rx_cache c = [] -> uart_rx w = [] ->
  (1 <= k <= 13)%nat ->
  let r1 := App.easy_bootloader_app_run cfg c (uart_arrive (firstn k frame) w) in
  let r2 := App.easy_bootloader_app_run cfg (ctx_of r1)
              (uart_arrive (skipn k frame) (world_of r1)) in
  value_of r1 = Some tt /\ world_of r1 = w
  /\ ((k <= 5)%nat -> r2 = App.app_handle_start_flash cfg version date c w)
  /\ ((6 <= k)%nat ->
      r2 = Returns tt (App.app_set_rx_cache [d3; xff; xee; x55; x55] c) w).
Proof.
  intros frame version date Hb Hinit Hc Hrx Hk r1 r2.
  apply Forall_cons_iff in Hb as [Hv0 Hb]. apply Forall_cons_iff in Hb as [Hv1 Hb].
  apply Forall_cons_iff in Hb as [Hv2 Hb]. apply Forall_cons_iff in Hb as [Hv3 Hb].
  apply Forall_cons_iff in Hb as [Hd0 Hb]. apply Forall_cons_iff in Hb as [Hd1 Hb].
  apply Forall_cons_iff in Hb as [Hd2 Hb]. apply Forall_cons_iff in Hb as [Hd3 _].
  assert (Ec : forall l, App.rx_cache (App.app_set_rx_cache l c) = l) by reflexivity.
  assert (Ei : forall l, App.initialized (App.app_set_rx_cache l c) = true)
    by (intros; exact Hinit).
  assert (Hxff : xff <> x55) by discriminate.
  assert (Hxee : xee <> x55) by discriminate.
  assert (Hxaa : xaa <> x55) by discriminate.
  assert (Nq : forall s, [v0; v1; v2; v3] <> [xff; s; x55; x55])
    by (intros s E; injection E as _ _ E _; contradiction).
  subst r2 r1 frame.
  split_nat 14%nat k; try lia;
    cbn [firstn skipn];
    rewrite (@app_run_chunk cfg _ c w)
      by (first [ exact Hinit | exact Hrx | discriminate
                | rewrite Hc; vm_compute; discriminate ]);
    rewrite Hc; cbn [app];
    repeat first
      [ rewrite app_scan_short by (vm_compute; reflexivity)
      | rewrite app_scan_noise by (first [assumption | vm_compute; discriminate])
      | rewrite app_scan_turn by (vm_compute; discriminate);
        rewrite app_candidate_header_short by (first [assumption | vm_compute; reflexivity]);
        change (Z.to_nat 2) with 2%nat; cbn [skipn] ];
    cbn [value_of world_of ctx_of];
    (split; [reflexivity|]); (split; [reflexivity|]);
    (split; [intros Hle; try lia | intros Hge; try lia]);
    rewrite (@app_run_chunk cfg _ _ w)
      by (first [ exact (Ei _) | exact Hrx | discriminate
                | rewrite Ec; vm_compute; discriminate ]);
    rewrite Ec; cbn [app]; rewrite app_set_rx_cache_twice;
    repeat first
      [ rewrite app_scan_short by (vm_compute; reflexivity)
      | rewrite app_scan_noise by (first [assumption | vm_compute; discriminate]) ];
    try reflexivity;
    rewrite app_scan_turn by (vm_compute; discriminate);
    rewrite (@app_candidate_start_flash v0 v1 v2 v3 d0 d1 d2 d3 [] (Nq xdd) (Nq xcc));
    change (Z.to_nat 14) with 14%nat; cbn [skipn];
    rewrite <- Hc at 1; rewrite app_set_rx_cache_same; reflexivity.
Qed.

Lemma start_flash_split_across_polls_witness :
  let c := {| App.rx_cache := []; App.boot_flag := 2; App.app_version := 5;
              App.update_date := 0x20250101; App.initialized := true |} in
  let frame := encode_start_flash 6 0x20251215 in
  let r1 := App.easy_bootloader_app_run App.ch32v307_config_app c
              (uart_arrive (firstn 6 frame) blank_world) in
  let r2 := App.easy_bootloader_app_run App.ch32v307_config_app (ctx_of r1)
              (uart_arrive (skipn 6 frame) (world_of r1)) in
  Forall (fun b => b <> x55) [x00; x00; x00; x06; x20; x25; x12; x15]
  /\ App.initialized c = true /\ App.rx_cache c = [] /\ uart_rx blank_world = []
  /\ (1 <= 6 <= 13)%nat
  /\ r2 = Returns tt (App.app_set_rx_cache [x15; xff; xee; x55; x55] c) blank_world.
Proof.
  intros c frame r1 r2.
  assert (H0 : Forall (fun b => b <> x55) [x00; x00; x00; x06; x20; x25; x12; x15])
    by (repeat constructor; discriminate).
  assert (H1 : App.initialized c = true) by reflexivity.
  assert (H2 : App.rx_cache c = []) by reflexivity.
  assert (H3 : uart_rx blank_world = []) by reflexivity.
  assert (H4 : (1 <= 6 <= 13)%nat) by lia.
  repeat (split; [assumption|]).
  apply (@start_flash_split_across_polls App.ch32v307_config_app
           x00 x00 x00 x06 x20 x25 x12 x15 6 c blank_world H0 H1 H2 H3 H4).
  lia.
Defined.

Section AppBounds.

Import App.
Variable cfg : boot_config_app.

Lemma app_poll_bounded (c : bootloader_app_context_t) (w : world) :
  len (rx_cache c) <= 28 ->
  exists received w',
    App.app_poll_uart c w
    = Returns tt (App.app_set_rx_cache (rx_cache c ++ received) c) w'
    /\ len (rx_cache c ++ received) <= 28
    /\ trace w' = trace w.
Proof.
  intros Hb. pose proof (len_nonneg (rx_cache c)) as Hn.
  unfold App.app_poll_uart, bind, get, port, modify, ret, App.app_rx_cache_len.
  change App.APP_RX_CACHE_SIZE with 28.
  rewrite u32_small by lia.
  destruct (Z.eqb_spec (28 - len (rx_cache c)) 0) as [E|N].
  - exists [], w. rewrite app_nil_r, app_set_rx_cache_same. auto.
  - unfold App.boot_port_app_uart_read, boot_port_uart_read.
    set (received := firstn (Z.to_nat (28 - len (rx_cache c))) (uart_rx w)).
    assert (Hr : len received <= 28 - len (rx_cache c)).
    { unfold received. rewrite len_firstn. lia. }
    destruct (Z.ltb_spec 0 (len received)) as [Lt|Ge].
    + exists received. eexists. split; [reflexivity|].
      split; [rewrite len_app; lia | reflexivity].
    + exists []. eexists. rewrite app_nil_r, app_set_rx_cache_same.
      split; [reflexivity|]. split; [assumption | reflexivity].
Qed.

Lemma app_start_flash_ctx (v d : Z) (c : bootloader_app_context_t) (w : world) :
  ctx_of (app_handle_start_flash cfg v d c w) = c.
Proof.
  unfold app_handle_start_flash, bind, get, ret, port_, boot_port_system_reset.
  destruct (v =? app_version c); [reflexivity|].
  destruct (app_write_flag_region_returns cfg BOOT_FLAG_BOOTLOADER v d c
              (boot_port_app_uart_write g_boot_ack w)) as (s & w1 & E & _).
  rewrite E. destruct (app_status_ok s); reflexivity.
Qed.

End AppBounds.

(** X8.  The receive cache of the application never outgrows its 28-byte
    buffer: whatever is waiting on the serial line and whatever the flash
    does, a run started with at most 28 bytes cached ends with at most 28
    bytes cached, and it changes no other field of the context. *)
Theorem app_rx_cache_bounded
        (cfg : App.boot_config_app) (c : App.bootloader_app_context_t) (w : world) :
  len (App.rx_cache c) <= App.APP_RX_CACHE_SIZE ->
  exists cache,
    ctx_of (App.easy_bootloader_app_run cfg c w) = App.app_set_rx_cache cache c
    /\ len cache <= App.APP_RX_CACHE_SIZE.
Proof.
  change App.APP_RX_CACHE_SIZE with 28. intros Hb.
  unfold App.easy_bootloader_app_run.
  destruct (App.initialized c).
  2:{ exists (App.rx_cache c). cbn [negb ctx_of].
      rewrite app_set_rx_cache_same. auto. }
  cbn [negb]. unfold bind at 1.
  destruct (@app_poll_bounded c w Hb) as (received & w1 & -> & Hb1 & _).
  unfold bind at 1.
  pose proof (app_check_inv (App.app_set_rx_cache (App.rx_cache c ++ received) c))
    as ((n & En) & _).
  destruct (App.app_check_dataframe _) as [cmd c1]. cbn [snd] in En.
  cbn [App.rx_cache App.app_set_rx_cache] in En.
  exists (skipn n (App.rx_cache c ++ received)).
  split.
  - destruct cmd; cbn [ctx_of]; unfold ret;
      try (unfold App.app_handle_query_version, App.app_handle_query_date,
             App.app_send_string, bind, get, port_; cbn [ctx_of]);
      rewrite ?app_start_flash_ctx; exact En.
  - rewrite len_skipn. pose proof (len_nonneg (App.rx_cache c ++ received)). lia.
Qed.

Lemma app_rx_cache_bounded_witness :
  let c := {| App.rx_cache := [x01; x02; x03]; App.boot_flag := 2;
              App.app_version := 5; App.update_date := 0x20250101;
              App.initialized := true |} in
  let w := {| flash := fun _ => xff; oracle := [];
              uart_rx := repeat xaa 40; trace := [] |} in
  len (App.rx_cache c) <= App.APP_RX_CACHE_SIZE
  /\ exists cache,
       ctx_of (App.easy_bootloader_app_run App.ch32v307_config_app c w)
       = App.app_set_rx_cache cache c
       /\ len cache <= App.APP_RX_CACHE_SIZE.
Proof.
  intros c w.
  assert (H : len (App.rx_cache c) <= App.APP_RX_CACHE_SIZE)
    by (vm_compute; discriminate).
  split; [exact H|].
  exact (@app_rx_cache_bounded App.ch32v307_config_app c w H).
Defined.

(** ** The finish frame in WAIT_FINISH *)

Lemma finish_candidate_skip (cache : list byte) (count : Z) :
  Stm32.finish_candidate cache = SkipBytes count -> count = 1 \/ count = 2.
Proof.
  unfold Stm32.finish_candidate.
  repeat match goal with
         | |- context [if ?b then _ else _] => destruct b
         end; intros H; inversion H; auto.
Qed.

Lemma finish_candidate_shape (cache : list byte) :
  match Stm32.finish_candidate cache with
  | SkipBytes count => count = 1 \/ count = 2
  | Incomplete => False
  | Accept _ _ frame_len => frame_len = 14
  end.
Proof.
  unfold Stm32.finish_candidate.
  repeat match goal with
         | |- context [if ?b then _ else _] => destruct b
         end; auto.
Qed.

Lemma finish_loop_enough (n : nat) :
  forall (c : bootloader_context_t) (f : nat),
    (length (rx_cache c) <= n)%nat -> (n <= f)%nat ->
    Stm32.finish_loop f c = Stm32.finish_loop n c
    /\ Stm32.finish_loop n c <> None.
Proof.
  induction n as [|n IH]; intros c f Hlen Hf.
  - assert (E : (rx_cache_len c <? Stm32.BOOT_FINISH_FRAME_LEN) = true).
    { apply Z.ltb_lt. unfold rx_cache_len, len, Stm32.BOOT_FINISH_FRAME_LEN. lia. }
    destruct f; cbn [Stm32.finish_loop]; rewrite E; split; congruence.
  - destruct f as [|f]; [lia|]. cbn [Stm32.finish_loop].
    destruct (Z.ltb_spec (rx_cache_len c) Stm32.BOOT_FINISH_FRAME_LEN) as [L|G];
      [split; congruence|].
    destruct (Stm32.finish_candidate (rx_cache c)) as [count| |v d fl] eqn:Ecand;
      try (split; congruence).
    destruct (finish_candidate_skip _ Ecand) as [-> | ->];
      (apply IH; [|lia]);
      rewrite consume_cache_rx by lia; cbn [rx_cache set_rx_cache];
      rewrite length_skipn;
      unfold rx_cache_len, len, Stm32.BOOT_FINISH_FRAME_LEN in G; lia.
Qed.

Lemma finish_loop_total (c : bootloader_context_t) :
  Stm32.finish_loop (length (rx_cache c)) c <> None.
Proof. apply (@finish_loop_enough (length (rx_cache c)) c _ (le_n _) (le_n _)). Qed.

Lemma finish_scan_short (cache : list byte) (c : bootloader_context_t) :
  len cache < 14 ->
  Stm32.bootloader_try_extract_finish_frame (set_rx_cache cache c)
  = (None, set_rx_cache cache c).
Proof.
  intros H. unfold Stm32.bootloader_try_extract_finish_frame.
  assert (E : (rx_cache_len (set_rx_cache cache c) <? Stm32.BOOT_FINISH_FRAME_LEN)
              = true) by (apply Z.ltb_lt; exact H).
  destruct (length (rx_cache (set_rx_cache cache c)));
    cbn [Stm32.finish_loop]; rewrite E; reflexivity.
Qed.

(** [bootloader_try_extract_finish_frame], one turn of its loop at a time. *)
Lemma finish_scan_turn (cache : list byte) (c : bootloader_context_t) :
  14 <= len cache ->
  Stm32.bootloader_try_extract_finish_frame (set_rx_cache cache c)
  = match Stm32.finish_candidate cache with
    | SkipBytes count =>
        Stm32.bootloader_try_extract_finish_frame
          (set_rx_cache (skipn (Z.to_nat count) cache) c)
    | Incomplete => (None, set_rx_cache cache c)
    | Accept version date frame_len =>
        (Some (version, date),
         set_rx_cache (skipn (Z.to_nat frame_len) cache) c)
    end.
Proof.
  intros H. unfold Stm32.bootloader_try_extract_finish_frame at 1.
  set (c0 := set_rx_cache cache c).
  assert (E : (rx_cache_len c0 <? Stm32.BOOT_FINISH_FRAME_LEN) = false)
    by (apply Z.ltb_ge; exact H).
  destruct (length (rx_cache c0)) as [|n] eqn:En.
  { unfold c0, len in *. cbn [rx_cache set_rx_cache] in En. lia. }
  cbn [Stm32.finish_loop]. rewrite E.
  change (rx_cache c0) with cache in *.
  pose proof (finish_candidate_shape cache) as Hshape.
  destruct (Stm32.finish_candidate cache) as [count| |v d fl] eqn:Ecand.
  - rewrite consume_cache_rx by (destruct Hshape; lia).
    change (rx_cache c0) with cache. unfold c0.
    change (set_rx_cache (skipn (Z.to_nat count) cache) (set_rx_cache cache c))
      with (set_rx_cache (skipn (Z.to_nat count) cache) c).
    set (c1 := set_rx_cache (skipn (Z.to_nat count) cache) c).
    unfold Stm32.bootloader_try_extract_finish_frame.
    assert (Hn : (length (rx_cache c1) <= n)%nat).
    { unfold c1. cbn [rx_cache set_rx_cache]. rewrite length_skipn.
      destruct Hshape as [-> | ->]; lia. }
    destruct (@finish_loop_enough (length (rx_cache c1)) c1 n (le_n _) Hn)
      as (E2 & _).
    rewrite E2.
    pose proof (finish_loop_total c1) as Hsome.
    destruct (Stm32.finish_loop (length (rx_cache c1)) c1);
      [reflexivity | contradiction Hsome; reflexivity].
  - contradiction.
  - subst fl. rewrite consume_cache_rx by (unfold Stm32.BOOT_FINISH_FRAME_LEN; lia).
    reflexivity.
Qed.

Lemma finish_candidate_noise (b : byte) (rest : list byte) :
  b <> x55 -> Stm32.finish_candidate (b :: rest) = SkipBytes 1.
Proof.
  intros N. unfold Stm32.finish_candidate. literal_bytes.
  change 85 with (b2z x55). rewrite (b2z_neqb N). reflexivity.
Qed.

Lemma finish_scan_junk (junk : list byte) :
  forall (rest : list byte) (c : bootloader_context_t),
    Forall (fun b => b <> x55) junk -> 13 <= len rest ->
    Stm32.bootloader_try_extract_finish_frame (set_rx_cache (junk ++ rest) c)
    = Stm32.bootloader_try_extract_finish_frame (set_rx_cache rest c).
Proof.
  induction junk as [|b junk IH]; intros rest c Hj Hr; [reflexivity|].
  apply Forall_cons_iff in Hj as [Hb Hj].
  cbn [app]. rewrite finish_scan_turn
    by (rewrite len_cons, len_app; pose proof (len_nonneg junk); lia).
  rewrite (finish_candidate_noise _ Hb). change (Z.to_nat 1) with 1%nat.
  cbn [skipn]. apply IH; assumption.
Qed.

Lemma finish_candidate_frame (v0 v1 v2 v3 d0 d1 d2 d3 : byte) (rest : list byte) :
  Stm32.finish_candidate
    (x55 :: xaa :: v0 :: v1 :: v2 :: v3 :: d0 :: d1 :: d2 :: d3
         :: xff :: xfd :: x55 :: x55 :: rest)
  = Accept (b2z v0 * 16777216 + b2z v1 * 65536 + b2z v2 * 256 + b2z v3)
           (b2z d0 * 16777216 + b2z d1 * 65536 + b2z d2 * 256 + b2z d3) 14.
Proof.
  unfold Stm32.finish_candidate. literal_bytes. rewrite !decode32. reflexivity.
Qed.

(** The finish frame round trip through the codec, after line noise. *)
Lemma finish_scan_frame (junk rest : list byte) (version date : Z)
      (c : bootloader_context_t) :
  Forall (fun b => b <> x55) junk ->
  0 <= version < 2 ^ 32 -> 0 <= date < 2 ^ 32 ->
  Stm32.bootloader_try_extract_finish_frame
    (set_rx_cache (junk ++ encode_finish_frame version date ++ rest) c)
  = (Some (version, date), set_rx_cache rest c).
Proof.
  intros Hj Hv Hd. pose proof (len_nonneg rest) as Hr.
  assert (Hl : len (encode_finish_frame version date ++ rest) = 14 + len rest).
  { rewrite len_app. reflexivity. }
  rewrite (@finish_scan_junk junk _ c Hj) by lia.
  rewrite finish_scan_turn by lia.
  unfold encode_finish_frame, be32. cbn [app].
  rewrite finish_candidate_frame, (be32_fields Hv), (be32_fields Hd).
  reflexivity.
Qed.

(** ** The flag region update on any flash *)

Section FlagRegionAny.

Variable cfg : boot_config.
Hypothesis region_aligned : BOOT_FLAG_REGION_ADDR cfg mod 4 = 0.

(** One word write at an aligned address: the word is programmed or the
    hardware refuses it. *)
Lemma word_write_any (addr x : Z) (w : world) :
  addr mod 4 = 0 ->
  exists s w1,
    boot_port_flash_write (u32 addr) (le32 x) w = (s, w1)
    /\ ((s = BOOT_PORT_OK
         /\ trace w1 = trace w ++ [EvProgramWord (u32 addr) (le32 x)])
        \/ (s = BOOT_PORT_ERROR
            /\ trace w1 = trace w ++ [EvProgramFailed (u32 addr)])).
Proof.
  intros Ha. unfold boot_port_flash_write.
  rewrite u32_mod4, Ha. change (len (le32 x) mod 4 =? 0) with true.
  cbn [Z.eqb negb orb]. unfold le32. cbn [program_words].
  pose proof (draw_shape w) as (Ht & _).
  destruct (draw w) as [ok w1]. cbn [snd] in Ht.
  destruct ok; do 2 eexists; (split; [reflexivity|]);
    [left | right]; cbn [emit trace]; rewrite Ht; auto.
Qed.

(** [bootloader_write_flag_region] on any flash: it returns, leaves the
    context alone, and the events are the complete update when it returns
    OK, and otherwise the update cut at the first operation that failed. *)
Lemma write_flag_region_any (flag version date : Z)
      (c : bootloader_context_t) (w : world) :
  exists s w1 evs,
    bootloader_write_flag_region cfg flag version date c w = Returns s c w1
    /\ trace w1 = trace w ++ evs
    /\ ((s = BOOT_PORT_OK /\ evs = flag_region_events cfg flag version date)
        \/ (s = BOOT_PORT_ERROR /\
            (evs = [EvEraseFailed (BOOT_FLAG_REGION_ADDR cfg)
                                  (BOOT_FLAG_REGION_SIZE cfg)]
             \/ evs = firstn 1 (flag_region_events cfg flag version date)
                      ++ [EvProgramFailed (BOOT_FLAG_ADDR cfg)]
             \/ evs = firstn 2 (flag_region_events cfg flag version date)
                      ++ [EvProgramFailed (BOOT_VERSION_ADDR cfg)]
             \/ evs = firstn 3 (flag_region_events cfg flag version date)
                      ++ [EvProgramFailed (BOOT_DATE_ADDR cfg)]))).
Proof.
  destruct (flag_addrs_aligned cfg region_aligned) as (Hf & Hv & Hd).
  unfold bootloader_write_flag_region, bind, port, ret, flag_region_events,
    BOOT_FLAG_ADDR, BOOT_VERSION_ADDR, BOOT_DATE_ADDR.
  unfold boot_port_flash_erase.
  pose proof (draw_shape w) as (Ht0 & _).
  destruct (draw w) as [ok w0]. cbn [snd] in Ht0.
  destruct ok; cbn [status_ok negb].
  2:{ do 3 eexists. split; [reflexivity|]. cbn [emit trace]. rewrite Ht0.
      split; [reflexivity|]. right. split; [reflexivity|]. left. reflexivity. }
  destruct (@word_write_any _ flag (emit (EvErase (BOOT_FLAG_REGION_ADDR cfg)
                                            (BOOT_FLAG_REGION_SIZE cfg)) w0) Hf)
    as (s1 & w1 & -> & [[-> Ht1] | [-> Ht1]]); cbn [status_ok negb].
  2:{ do 3 eexists. split; [reflexivity|]. rewrite Ht1. cbn [emit trace].
      rewrite Ht0, <- app_assoc. split; [reflexivity|].
      right. split; [reflexivity|]. right. left. reflexivity. }
  destruct (@word_write_any _ version w1 Hv)
    as (s2 & w2 & -> & [[-> Ht2] | [-> Ht2]]); cbn [status_ok negb].
  2:{ do 3 eexists. split; [reflexivity|]. rewrite Ht2, Ht1. cbn [emit trace].
      rewrite Ht0, <- !app_assoc. split; [reflexivity|].
      right. split; [reflexivity|]. right. right. left. reflexivity. }
  destruct (@word_write_any _ date w2 Hd)
    as (s3 & w3 & -> & [[-> Ht3] | [-> Ht3]]);
    do 3 eexists; (split; [reflexivity|]); rewrite Ht3, Ht2, Ht1;
    cbn [emit trace]; rewrite Ht0, <- !app_assoc; (split; [reflexivity|]).
  - left. split; reflexivity.
  - right. split; [reflexivity|]. right. right. right. reflexivity.
Qed.

End FlagRegionAny.

Section FinishRun.

Variable cfg : boot_config.

(** One poll with [chunk] waiting and room for it: the chunk moves into the
    cache and the environment is as before the bytes arrived. *)
Lemma poll_whole (chunk : list byte) (c : bootloader_context_t) (w : world) :
  BOOT_PACKET_MAX_SIZE cfg < 2 ^ 32 ->
  uart_rx w = [] -> chunk <> [] ->
  rx_cache_len c + len chunk <= BOOT_PACKET_MAX_SIZE cfg ->
  bootloader_poll_uart cfg c (uart_arrive chunk w)
  = Returns tt (set_rx_cache (rx_cache c ++ chunk) c) w.
Proof.
  intros Hmax Hrx Hne Hfit.
  pose proof (len_nonneg chunk) as Hn.
  pose proof (len_nonneg (rx_cache c)) as Hc. fold (rx_cache_len c) in Hc.
  assert (Hpos : 0 < len chunk).
  { destruct chunk; [contradiction Hne; reflexivity|].
    rewrite len_cons. pose proof (len_nonneg chunk). lia. }
  unfold bootloader_poll_uart, bind, get, port, modify, ret.
  rewrite u32_small by lia.
  destruct (Z.eqb_spec (BOOT_PACKET_MAX_SIZE cfg - rx_cache_len c) 0); [lia|].
  unfold boot_port_uart_read, uart_arrive. cbn [uart_rx flash oracle trace].
  rewrite Hrx. cbn [app].
  rewrite firstn_all2, skipn_all2 by (unfold len in *; lia).
  destruct (Z.ltb_spec 0 (len chunk)); [|lia].
  destruct w as [f o u t]. cbn in Hrx. subst u. reflexivity.
Qed.

(** A run in WAIT_FINISH: only the finish frame scan looks at the cache. *)
Lemma stm32_run_wait_finish (chunk : list byte)
      (c : bootloader_context_t) (w : world) :
  BOOT_PACKET_MAX_SIZE cfg < 2 ^ 32 ->
  initialized c = true -> state c = BOOT_STATE_WAIT_FINISH ->
  uart_rx w = [] -> chunk <> [] ->
  rx_cache_len c + len chunk <= BOOT_PACKET_MAX_SIZE cfg ->
  Stm32.easy_bootloader_run cfg c (uart_arrive chunk w)
  = match Stm32.bootloader_try_extract_finish_frame
            (set_rx_cache (rx_cache c ++ chunk) c) with
    | (Some (version, date), c2) =>
        (status <- Stm32.bootloader_handle_finish_frame cfg version date ;;
         if negb (status_ok status) then Stm32.bootloader_reset_context cfg
         else ret tt) c2 w
    | (None, c2) => Returns tt c2 w
    end.
Proof.
  intros Hmax Hinit Hst Hrx Hne Hfit.
  unfold Stm32.easy_bootloader_run. rewrite Hinit. cbn [negb].
  rewrite poll_whole by assumption.
  cbn [state set_rx_cache]. rewrite Hst. reflexivity.
Qed.

End FinishRun.

(** The finish frame in WAIT_FINISH on a healthy flash. *)
Lemma stm32_run_finish_healthy
        (cfg : boot_config) (junk : list byte) (version date : Z)
        (c : bootloader_context_t) (w : world) :
  BOOT_PACKET_MAX_SIZE cfg < 2 ^ 32 ->
  len junk + 14 <= BOOT_PACKET_MAX_SIZE cfg ->
  BOOT_FLAG_REGION_ADDR cfg mod 4 = 0 ->
  Forall (fun b => b <> x55) junk ->
  0 <= version < 2 ^ 32 -> 0 <= date < 2 ^ 32 ->
  initialized c = true -> state c = BOOT_STATE_WAIT_FINISH ->
  rx_cache c = [] -> uart_rx w = [] -> all_ok w ->
  exists w',
    Stm32.easy_bootloader_run cfg c
      (uart_arrive (junk ++ encode_finish_frame version date) w)
    = Leaves c w'
    /\ trace w' = trace w ++ flag_region_events cfg BOOT_FLAG_APP version date
                  ++ [EvUartWrite g_boot_ack; EvReset].
Proof.
  intros Hmax Hfit Hal Hj Hv Hd Hinit Hst Hc Hrx Hok.
  rewrite stm32_run_wait_finish; try assumption.
  2:{ destruct junk; discriminate. }
  2:{ unfold rx_cache_len. rewrite Hc, len_nil, len_app.
      change (len (encode_finish_frame version date)) with 14. lia. }
  rewrite Hc. cbn [app].
  rewrite <- (app_nil_r (encode_finish_frame version date)).
  rewrite (@finish_scan_frame junk [] version date c Hj Hv Hd).
  assert (Ec : set_rx_cache [] c = c) by (rewrite <- Hc; destruct c; reflexivity).
  rewrite Ec.
  unfold bind at 1. unfold Stm32.bootloader_handle_finish_frame, bind at 1, get.
  rewrite Hst. unfold bind at 1.
  destruct (@bootloader_write_flag_region_all_ok cfg Hal BOOT_FLAG_APP version date
              c w Hok) as (w1 & -> & Hok1 & Ht1 & _).
  cbn [status_ok negb]. unfold bind, port_, boot_port_system_reset, boot_port_uart_write.
  eexists. split; [reflexivity|].
  cbn [emit trace]. rewrite Ht1, <- !app_assoc. reflexivity.
Qed.

(** X9.  The finish frame completes the update.  In WAIT_FINISH, with a
    healthy flash, a finish frame for [version] and [date] (possibly after
    line noise other than 0x55) makes [easy_bootloader_run] erase the flag
    region, program flag = BOOT_FLAG_APP, the version and the date of the
    frame, send the Ack and reset: these six events, in this order, are all
    the flash operations, transmissions on the protocol UART and resets of
    the run (the [BOOT_LOG] lines written between them are not embedded,
    so nothing is said about the log), and the run does not return. *)
Theorem finish_frame_completes_update
        (cfg : boot_config) (junk : list byte) (version date : Z)
        (c : bootloader_context_t) (w : world) :
  BOOT_PACKET_MAX_SIZE cfg < 2 ^ 32 ->
  len junk + 14 <= BOOT_PACKET_MAX_SIZE cfg ->
  BOOT_FLAG_REGION_ADDR cfg mod 4 = 0 ->
  Forall (fun b => b <> x55) junk ->
  0 <= version < 2 ^ 32 -> 0 <= date < 2 ^ 32 ->
  initialized c = true -> state c = BOOT_STATE_WAIT_FINISH ->
  rx_cache c = [] -> uart_rx w = [] -> all_ok w ->
  exists w',
    Stm32.easy_bootloader_run cfg c
      (uart_arrive (junk ++ encode_finish_frame version date) w)
    = Leaves c w'
    /\ trace w' = trace w ++ flag_region_events cfg BOOT_FLAG_APP version date
                  ++ [EvUartWrite g_boot_ack; EvReset].
Proof. apply stm32_run_finish_healthy. Qed.

Lemma finish_frame_completes_update_witness :
  let cfg := stm32f407_config in
  let c := waiting_context cfg 0x08010008 in
  BOOT_PACKET_MAX_SIZE cfg < 2 ^ 32
  /\ len [x00; xaa] + 14 <= BOOT_PACKET_MAX_SIZE cfg
  /\ BOOT_FLAG_REGION_ADDR cfg mod 4 = 0
  /\ Forall (fun b => b <> x55) [x00; xaa]
  /\ initialized c = true /\ state c = BOOT_STATE_WAIT_FINISH
  /\ rx_cache c = [] /\ uart_rx blank_world = [] /\ all_ok blank_world
  /\ exists w',
       Stm32.easy_bootloader_run cfg c
         (uart_arrive ([x00; xaa] ++ encode_finish_frame 7 0x20251215) blank_world)
       = Leaves c w'
       /\ trace w' = [ EvErase 0x080E0000 0x20000;
                       EvProgramWord 0x080E0000 [x02; x00; x00; x00];
                       EvProgramWord 0x080E0004 [x07; x00; x00; x00];
                       EvProgramWord 0x080E0008 [x15; x12; x25; x20];
                       EvUartWrite g_boot_ack; EvReset ].
Proof.
  intros cfg c.
  assert (H1 : BOOT_PACKET_MAX_SIZE cfg < 2 ^ 32) by (cbn; lia).
  assert (H2 : len [x00; xaa] + 14 <= BOOT_PACKET_MAX_SIZE cfg)
    by (vm_compute; discriminate).
  assert (H3 : BOOT_FLAG_REGION_ADDR cfg mod 4 = 0) by reflexivity.
  assert (H4 : Forall (fun b => b <> x55) [x00; xaa])
    by (repeat constructor; discriminate).
  assert (H5 : initialized c = true) by reflexivity.
  assert (H6 : state c = BOOT_STATE_WAIT_FINISH) by reflexivity.
  assert (H7 : rx_cache c = []) by reflexivity.
  assert (H8 : uart_rx blank_world = []) by reflexivity.
  assert (H9 : all_ok blank_world) by reflexivity.
  repeat (split; [assumption|]).
  destruct (@finish_frame_completes_update cfg [x00; xaa] 7 0x20251215 c blank_world
              H1 H2 H3 H4 ltac:(lia) ltac:(lia) H5 H6 H7 H8 H9) as (w' & E & Ht).
  exists w'. split; [exact E|]. rewrite Ht. reflexivity.
Defined.

(** X10.  The finish frame on any flash.  Whatever the hardware answers,
    the run either completes the update (all four flash operations
    succeeded; Ack and reset follow, and the run does not return) or
    returns with the context reinitialised - Idle, cursor at the region
    start, carry and cache empty, [initialized] kept - after an update cut
    at the first failing operation; in that case nothing was sent and no
    reset was requested. *)
Theorem finish_frame_on_any_flash
        (cfg : boot_config) (version date : Z)
        (c : bootloader_context_t) (w : world) :
  14 <= BOOT_PACKET_MAX_SIZE cfg < 2 ^ 32 ->
  BOOT_FLAG_REGION_ADDR cfg mod 4 = 0 ->
  0 <= version < 2 ^ 32 -> 0 <= date < 2 ^ 32 ->
  initialized c = true -> state c = BOOT_STATE_WAIT_FINISH ->
  rx_cache c = [] -> uart_rx w = [] ->
  let o := Stm32.easy_bootloader_run cfg c
             (uart_arrive (encode_finish_frame version date) w) in
  (value_of o = None /\ ctx_of o = c
   /\ trace (world_of o)
      = trace w ++ flag_region_events cfg BOOT_FLAG_APP version date
        ++ [EvUartWrite g_boot_ack; EvReset])
  \/
  (value_of o = Some tt
   /\ ctx_of o = ctx_of (Stm32.bootloader_reset_context cfg c w)
   /\ state (ctx_of o) = BOOT_STATE_IDLE
   /\ initialized (ctx_of o) = true
   /\ exists evs, trace (world_of o) = trace w ++ evs
                  /\ Forall flash_event evs
                  /\ programmed evs
                     = firstn (length (programmed evs))
                         [ (BOOT_FLAG_ADDR cfg, le32 BOOT_FLAG_APP);
                           (BOOT_VERSION_ADDR cfg, le32 version);
                           (BOOT_DATE_ADDR cfg, le32 date) ]
                  /\ (length (programmed evs) < 3)%nat).
Proof.
  intros Hmax Hal Hv Hd Hinit Hst Hc Hrx o.
  assert (Eo : o = (status <- Stm32.bootloader_handle_finish_frame cfg version date ;;
                    if negb (status_ok status)
                    then Stm32.bootloader_reset_context cfg
                    else ret tt) c w).
  { subst o. rewrite stm32_run_wait_finish; try assumption; try lia.
    2:{ discriminate. }
    2:{ unfold rx_cache_len. rewrite Hc, len_nil.
        change (len (encode_finish_frame version date)) with 14. lia. }
    rewrite Hc. cbn [app].
    rewrite <- (app_nil_r (encode_finish_frame version date)).
    pose proof (@finish_scan_frame [] [] version date c (Forall_nil _) Hv Hd) as Es.
    cbn [app] in Es. rewrite Es.
    assert (Ec : set_rx_cache [] c = c) by (rewrite <- Hc; destruct c; reflexivity).
    rewrite Ec. reflexivity. }
  clearbody o. subst o.
  unfold Stm32.bootloader_handle_finish_frame, bind, get. rewrite Hst.
  destruct (@write_flag_region_any cfg Hal BOOT_FLAG_APP version date c w)
    as (s & w1 & evs & -> & Ht & [[-> ->] | [-> Hcut]]).
  - left. cbn [status_ok negb].
    unfold port_, boot_port_system_reset, boot_port_uart_write.
    cbn [value_of ctx_of world_of emit trace].
    rewrite Ht, <- !app_assoc. auto.
  - right. cbn [status_ok negb]. unfold ret.
    unfold Stm32.bootloader_reset_context, modify.
    cbn [value_of ctx_of world_of state initialized].
    split; [reflexivity|]. split; [reflexivity|]. split; [reflexivity|].
    split; [exact Hinit|].
    exists evs. split; [exact Ht|]. unfold flag_region_events in Hcut.
    destruct Hcut as [-> | [-> | [-> | ->]]]; cbn;
      (split; [repeat constructor|]); split; try reflexivity; lia.
Qed.

Lemma finish_frame_on_any_flash_witness :
  let cfg := stm32f407_config in
  let c := waiting_context cfg 0x08010008 in
  let w := {| flash := fun _ => xff; oracle := [true; true; false];
              uart_rx := []; trace := [] |} in
  let o := Stm32.easy_bootloader_run cfg c
             (uart_arrive (encode_finish_frame 7 0x20251215) w) in
  14 <= BOOT_PACKET_MAX_SIZE cfg < 2 ^ 32
  /\ BOOT_FLAG_REGION_ADDR cfg mod 4 = 0
  /\ initialized c = true /\ state c = BOOT_STATE_WAIT_FINISH
  /\ rx_cache c = [] /\ uart_rx w = []
  /\ ((value_of o = None /\ ctx_of o = c
       /\ trace (world_of o)
          = trace w ++ flag_region_events cfg BOOT_FLAG_APP 7 0x20251215
            ++ [EvUartWrite g_boot_ack; EvReset])
      \/ (value_of o = Some tt /\ state (ctx_of o) = BOOT_STATE_IDLE))
  /\ trace (world_of o)
     = [ EvErase 0x080E0000 0x20000;
         EvProgramWord 0x080E0000 [x02; x00; x00; x00];
         EvProgramFailed 0x080E0004 ].
Proof.
  intros cfg c w o.
  assert (H1 : 14 <= BOOT_PACKET_MAX_SIZE cfg < 2 ^ 32) by (cbn; lia).
  assert (H3 : BOOT_FLAG_REGION_ADDR cfg mod 4 = 0) by reflexivity.
  assert (H5 : initialized c = true) by reflexivity.
  assert (H6 : state c = BOOT_STATE_WAIT_FINISH) by reflexivity.
  assert (H7 : rx_cache c = []) by reflexivity.
  assert (H8 : uart_rx w = []) by reflexivity.
  repeat (split; [assumption|]).
  split; [|vm_compute; reflexivity].
  destruct (@finish_frame_on_any_flash cfg 7 0x20251215 c w
              H1 H3 ltac:(lia) ltac:(lia) H5 H6 H7 H8) as [H | (Hv & _ & Hs & _)].
  - left. exact H.
  - right. split; [exact Hv | exact Hs].
Defined.

(** ** The data frame codec: what an accepted frame is *)

Lemma be16_decode (hi lo : byte) :
  be16 (b2z hi * 256 + b2z lo) = [hi; lo].
Proof.
  pose proof (b2z_range hi). pose proof (b2z_range lo).
  unfold be16. rewrite Z.shiftr_div_pow2 by lia. change (2 ^ 8) with 256.
  replace ((b2z hi * 256 + b2z lo) / 256) with (b2z hi)
    by (apply Z.div_unique with (r := b2z lo); lia).
  f_equal; [apply z2b_b2z|]. f_equal.
  apply b2z_inj. rewrite b2z_z2b.
  rewrite Z.add_comm, Z.mod_add by lia. apply Z.mod_small. lia.
Qed.

Lemma be24_decode (b2 b3 b4 : byte) :
  be24 (b2z b2 * 65536 + b2z b3 * 256 + b2z b4) = [b2; b3; b4].
Proof.
  pose proof (b2z_range b2). pose proof (b2z_range b3). pose proof (b2z_range b4).
  unfold be24. rewrite !Z.shiftr_div_pow2 by lia.
  change (2 ^ 8) with 256. change (2 ^ 16) with 65536.
  replace ((b2z b2 * 65536 + b2z b3 * 256 + b2z b4) / 65536) with (b2z b2)
    by (apply Z.div_unique with (r := b2z b3 * 256 + b2z b4); lia).
  replace ((b2z b2 * 65536 + b2z b3 * 256 + b2z b4) / 256)
    with (b2z b2 * 256 + b2z b3)
    by (apply Z.div_unique with (r := b2z b4); lia).
  f_equal; [apply z2b_b2z|]. f_equal; [|f_equal]; apply b2z_inj; rewrite b2z_z2b.
  - replace (b2z b2 * 256 + b2z b3) with (b2z b3 + b2z b2 * 256) by lia.
    rewrite Z.mod_add by lia. apply Z.mod_small. lia.
  - replace (b2z b2 * 65536 + b2z b3 * 256 + b2z b4)
      with (b2z b4 + (b2z b2 * 256 + b2z b3) * 256) by lia.
    rewrite Z.mod_add by lia. apply Z.mod_small. lia.
Qed.

Lemma u16_small (x : Z) : 0 <= x < 2 ^ 16 -> u16 x = x.
Proof. intros. unfold u16. apply Z.mod_small; assumption. Qed.

Section CodecSound.

Variable cfg : boot_config.

(** Everything [frame_candidate] has checked when it accepts. *)
Lemma frame_candidate_accept_full (cache : list byte) (r pl fs : Z) :
  frame_candidate cfg cache = Accept r pl fs ->
  r = remaining_field cache /\ pl = declared_len cache /\ fs = 11 + pl
  /\ pl <= BOOT_PAYLOAD_MAX_SIZE cfg
  /\ header_ok cache = true
  /\ 11 + pl <= len cache
  /\ crc_field cache = sum16 (bytes_from_length cache)
  /\ tail_ok cache = true.
Proof.
  intros H.
  destruct (frame_candidate_accept_inv cfg cache H) as (Hh & Hfull & Hcrc & Htail).
  destruct (Z.le_gt_cases (declared_len cache) (BOOT_PAYLOAD_MAX_SIZE cfg))
    as [Hmax|Hbig];
    [|rewrite (@frame_candidate_oversize cfg cache Hh ltac:(lia)) in H;
      discriminate].
  rewrite (@frame_candidate_complete cfg cache Hh Hmax Hfull) in H.
  rewrite Hcrc, Z.eqb_refl, Htail in H. cbn [andb] in H.
  injection H as <- <- <-. auto 10.
Qed.

(** An accepted candidate, byte for byte: it starts with the encoding of the
    frame that is reported. *)
Lemma accepted_candidate_bytes (cache : list byte) (r pl fs : Z) :
  frame_candidate cfg cache = Accept r pl fs ->
  let payload := firstn (Z.to_nat pl) (skipn 7 cache) in
  cache = encode_data_frame r payload ++ skipn (Z.to_nat (11 + pl)) cache
  /\ len payload = pl /\ 0 <= r < 2 ^ 24 /\ 0 <= pl < 2 ^ 16.
Proof.
  intros H payload.
  destruct (@frame_candidate_accept_full cache r pl fs H)
    as (Er & Epl & Efs & Hmax & Hh & Hfull & Hcrc & Htail).
  pose proof (declared_len_range cache) as Hdl. rewrite <- Epl in Hdl.
  assert (Hlp : len payload = pl).
  { unfold payload. rewrite len_firstn, len_skipn.
    change (Z.of_nat 7) with 7. lia. }
  destruct cache as [|b0 [|b1 [|b2 [|b3 [|b4 [|b5 [|b6 body]]]]]]];
    try (rewrite ?len_cons, ?len_nil in Hfull; lia).
  assert (Hbody : 4 + pl <= len body).
  { rewrite !len_cons in Hfull. lia. }
  (* the fixed fields *)
  unfold header_ok in Hh. apply andb_prop in Hh as [H0 H1].
  revert H0 H1. literal_bytes. intros H0 H1.
  change 85 with (b2z x55) in H0. change 170 with (b2z xaa) in H1.
  apply b2z_eqb in H0, H1. subst b0 b1.
  assert (Er' : r = b2z b2 * 65536 + b2z b3 * 256 + b2z b4).
  { rewrite Er. unfold remaining_field. literal_bytes. apply decode24. }
  assert (Epl' : pl = b2z b5 * 256 + b2z b6).
  { rewrite Epl. unfold declared_len. literal_bytes. rewrite decode16.
    apply u16_small. pose proof (b2z_range b5). pose proof (b2z_range b6). lia. }
  (* the body: payload, checksum, tail, rest *)
  change (skipn 7 (x55 :: xaa :: b2 :: b3 :: b4 :: b5 :: b6 :: body)) with body
    in payload.
  assert (Ebody : body = payload ++ skipn (Z.to_nat pl) body)
    by (symmetry; apply firstn_skipn).
  remember (skipn (Z.to_nat pl) body) as after eqn:Eafter.
  assert (Hafter : 4 <= len after).
  { rewrite Eafter, len_skipn. lia. }
  destruct after as [|c0 [|c1 [|t0 [|t1 rest]]]];
    try (rewrite ?len_cons, ?len_nil in Hafter; lia).
  assert (Hat : forall k, 0 <= k ->
            byte_at (x55 :: xaa :: b2 :: b3 :: b4 :: b5 :: b6 :: body) (7 + pl + k)
            = byte_at (c0 :: c1 :: t0 :: t1 :: rest) k).
  { intros k Hk.
    change (x55 :: xaa :: b2 :: b3 :: b4 :: b5 :: b6 :: body)
      with ([x55; xaa; b2; b3; b4; b5; b6] ++ body).
    replace (7 + pl + k) with (len [x55; xaa; b2; b3; b4; b5; b6] + (pl + k))
      by (change (len [x55; xaa; b2; b3; b4; b5; b6]) with 7; lia).
    rewrite byte_at_app_r by lia.
    rewrite Ebody. rewrite <- Hlp. apply byte_at_app_r. exact Hk. }
  (* tail *)
  unfold tail_ok in Htail. cbv zeta in Htail. rewrite <- Epl in Htail.
  apply andb_prop in Htail as [T0 T1].
  replace (9 + pl) with (7 + pl + 2) in T0 by lia.
  replace (9 + pl + 1) with (7 + pl + 3) in T1 by lia.
  rewrite Hat in T0, T1 by lia. revert T0 T1. literal_bytes. intros T0 T1.
  change 85 with (b2z x55) in T0, T1. apply b2z_eqb in T0, T1. subst t0 t1.
  (* checksum *)
  unfold crc_field in Hcrc. cbv zeta in Hcrc. rewrite <- Epl in Hcrc.
  replace (7 + pl) with (7 + pl + 0) in Hcrc at 1 by lia.
  rewrite !Hat in Hcrc by lia. revert Hcrc. literal_bytes. intros Hcrc.
  rewrite decode16 in Hcrc.
  rewrite u16_small in Hcrc
    by (pose proof (b2z_range c0); pose proof (b2z_range c1); lia).
  assert (Ebl : bytes_from_length (x55 :: xaa :: b2 :: b3 :: b4 :: b5 :: b6 :: body)
                = be16 pl ++ payload).
  { unfold bytes_from_length. rewrite <- Epl.
    change (skipn 5 (x55 :: xaa :: b2 :: b3 :: b4 :: b5 :: b6 :: body))
      with (b5 :: b6 :: body).
    replace (Z.to_nat (2 + pl)) with (S (S (Z.to_nat pl))) by lia.
    cbn [firstn]. rewrite Epl' at 2. rewrite be16_decode. reflexivity. }
  rewrite Ebl in Hcrc.
  split; [|split; [exact Hlp | split; [|exact Hdl]]].
  - unfold encode_data_frame, data_frame_with, codec_checksum.
    rewrite Hlp, <- Hcrc, be16_decode.
    rewrite Er', be24_decode. rewrite Epl' at 1. rewrite be16_decode.
    cbn [app]. do 7 f_equal.
    replace (Z.to_nat (11 + pl)) with (7 + Z.to_nat (4 + pl))%nat by lia.
    change (skipn (7 + Z.to_nat (4 + pl))
              (x55 :: xaa :: b2 :: b3 :: b4 :: b5 :: b6 :: body))
      with (skipn (Z.to_nat (4 + pl)) body).
    rewrite Ebody at 1. rewrite <- app_assoc. f_equal.
    replace (Z.to_nat (4 + pl)) with (4 + Z.to_nat pl)%nat by lia.
    rewrite <- skipn_skipn, <- Eafter. reflexivity.
  - rewrite Er'. pose proof (b2z_range b2). pose proof (b2z_range b3).
    pose proof (b2z_range b4). lia.
Qed.

(** What a scan returns, in full: without a frame only the cache has changed,
    to a suffix of itself; with a frame, that frame was accepted at some
    offset, its payload was copied to the front of [payload_buf] and the
    cache continues after it. *)
Lemma extract_loop_full (fuel : nat) :
  forall (c c' : bootloader_context_t) (res : option (Z * Z)),
    BOOT_PAYLOAD_MAX_SIZE cfg + 11 < 2 ^ 16 ->
    extract_loop cfg fuel c = Some (res, c') ->
    exists n,
      let cand := skipn n (rx_cache c) in
      match res with
      | None => c' = set_rx_cache cand c
      | Some (r, pl) =>
          frame_candidate cfg cand = Accept r pl (11 + pl)
          /\ c' = set_rx_cache (skipn (Z.to_nat (11 + pl)) cand)
                    (set_payload_buf
                       (firstn (Z.to_nat pl) (skipn 7 cand)
                        ++ skipn (Z.to_nat pl) (payload_buf c)) c)
      end.
Proof.
  induction fuel as [|fuel IH]; intros c c' res Hmax H; cbn [extract_loop] in H.
  - destruct (rx_cache_len c <? BOOT_FRAME_FIXED_SIZE); [|discriminate].
    injection H as Hres Hc; subst res c'. exists O. destruct c; reflexivity.
  - destruct (rx_cache_len c <? BOOT_FRAME_FIXED_SIZE).
    { injection H as Hres Hc; subst res c'. exists O. destruct c; reflexivity. }
    destruct (frame_candidate cfg (rx_cache c)) as [count| |r pl fs] eqn:Ecand.
    + assert (Hcount : 0 <= count)
        by (destruct (frame_candidate_skip _ _ Ecand); lia).
      rewrite consume_cache_rx in H by exact Hcount.
      apply IH in H; [|exact Hmax]. cbn [rx_cache payload_buf set_rx_cache] in H.
      destruct H as (n & H). exists (n + Z.to_nat count)%nat.
      rewrite skipn_skipn in H. cbv zeta in *.
      destruct res as [[r pl]|]; exact H.
    + injection H as Hres Hc; subst res c'. exists O. destruct c; reflexivity.
    + injection H as Hres Hc; subst res c'. exists O. cbn [skipn]. cbv zeta.
      destruct (@frame_candidate_accept_full (rx_cache c) r pl fs Ecand)
        as (_ & Epl & Efs & Hpl & _ & Hfull & _).
      pose proof (declared_len_range (rx_cache c)) as Hdl. rewrite <- Epl in Hdl.
      subst fs. split; [exact Ecand|].
      rewrite u16_small by lia.
      destruct (Z.ltb_spec 0 pl) as [Lt|Ge].
      * rewrite consume_cache_rx by lia. reflexivity.
      * assert (pl = 0) as -> by lia. rewrite consume_cache_rx by lia.
        cbn [Z.to_nat firstn skipn app rx_cache].
        destruct c; reflexivity.
Qed.

End CodecSound.

(** X11.  The frame codec accepts nothing but encoded frames.  Whenever
    [bootloader_try_extract_frame] reports a frame (remaining, payload_len),
    the cache held at some offset the complete encoding of a frame with that
    remaining count and a payload of that length, checksum included; the
    payload is what now stands at the front of [payload_buf], whose size is
    unchanged; the cache continues right after the frame; and nothing else
    in the context has changed.  The length is within BOOT_PAYLOAD_MAX_SIZE. *)
Theorem codec_accepts_only_encoded_frames
        (cfg : boot_config) (c c' : bootloader_context_t) (r pl : Z) :
  11 <= BOOT_PACKET_MAX_SIZE cfg < 2 ^ 16 ->
  len (payload_buf c) = BOOT_PAYLOAD_MAX_SIZE cfg ->
  bootloader_try_extract_frame cfg c = (Some (r, pl), c') ->
  exists junk payload rest,
    rx_cache c = junk ++ encode_data_frame r payload ++ rest
    /\ len payload = pl /\ 0 <= pl <= BOOT_PAYLOAD_MAX_SIZE cfg
    /\ 0 <= r < 2 ^ 24
    /\ firstn (Z.to_nat pl) (payload_buf c') = payload
    /\ len (payload_buf c') = len (payload_buf c)
    /\ c' = set_rx_cache rest (set_payload_buf (payload_buf c') c).
Proof.
  intros Hmax Hbuf H.
  pose proof (@payload_max_value cfg Hmax) as Epm.
  unfold bootloader_try_extract_frame in H.
  pose proof (extract_loop_total cfg c) as Hsome.
  destruct (extract_loop cfg (length (rx_cache c)) c) as [[res c1]|] eqn:E;
    [|contradiction Hsome; reflexivity].
  injection H as -> ->.
  apply extract_loop_full in E; [|lia].
  destruct E as (n & Hacc & Ec'). cbv zeta in *.
  set (cand := skipn n (rx_cache c)) in *.
  destruct (@accepted_candidate_bytes cfg cand r pl (11 + pl) Hacc) as (Ecand & Hlp & Hr & Hpl).
  destruct (@frame_candidate_accept_full cfg cand r pl (11 + pl) Hacc) as (_ & _ & _ & Hple & _).
  set (payload := firstn (Z.to_nat pl) (skipn 7 cand)) in *.
  exists (firstn n (rx_cache c)), payload, (skipn (Z.to_nat (11 + pl)) cand).
  assert (Hpb : payload_buf c' = payload ++ skipn (Z.to_nat pl) (payload_buf c)).
  { rewrite Ec'. reflexivity. }
  split; [|split; [exact Hlp | split; [lia | split; [exact Hr|]]]].
  - rewrite <- Ecand. unfold cand. symmetry. apply firstn_skipn.
  - split; [|split].
    + rewrite Hpb. replace (Z.to_nat pl) with (length payload)
        by (unfold len in Hlp; lia).
      rewrite firstn_app, firstn_all, Nat.sub_diag. cbn [firstn]. apply app_nil_r.
    + rewrite Hpb, len_app, len_skipn, Hlp. lia.
    + rewrite Hpb, Ec'. reflexivity.
Qed.

Lemma codec_accepts_only_encoded_frames_witness :
  let cfg := ch32v307_config in
  let c := set_rx_cache ([x00; x55] ++ frame_0_BB ++ [x01])
             (power_on_context cfg) in
  11 <= BOOT_PACKET_MAX_SIZE cfg < 2 ^ 16
  /\ len (payload_buf c) = BOOT_PAYLOAD_MAX_SIZE cfg
  /\ exists c',
       bootloader_try_extract_frame cfg c = (Some (0, 3), c')
       /\ exists junk payload rest,
            rx_cache c = junk ++ encode_data_frame 0 payload ++ rest
            /\ len payload = 3
            /\ firstn (Z.to_nat 3) (payload_buf c') = payload.
Proof.
  intros cfg c.
  assert (H1 : 11 <= BOOT_PACKET_MAX_SIZE cfg < 2 ^ 16) by (cbn; lia).
  assert (H2 : len (payload_buf c) = BOOT_PAYLOAD_MAX_SIZE cfg)
    by (vm_compute; reflexivity).
  split; [exact H1|]. split; [exact H2|].
  destruct (bootloader_try_extract_frame cfg c) as [res c'] eqn:E.
  assert (Eres : res = Some (0, 3)).
  { replace res with (fst (bootloader_try_extract_frame cfg c)) by (rewrite E; reflexivity).
    vm_compute. reflexivity. }
  subst res. exists c'. split; [reflexivity|].
  destruct (@codec_accepts_only_encoded_frames cfg c c' 0 3 H1 H2 E)
    as (junk & payload & rest & Hc & Hl & _ & _ & Hp & _).
  exists junk, payload, rest. auto.
Defined.

(** ** The stream writer on any flash: where it writes *)

Lemma in_span_weaken (lo hi lo' hi' : Z) (e : event) :
  lo' <= lo -> hi <= hi' -> in_span lo hi e -> in_span lo' hi' e.
Proof. intros Hl Hh. destruct e; cbn; intros H; try exact H; lia. Qed.

Lemma Forall_in_span_weaken (lo hi lo' hi' : Z) (evs : list event) :
  lo' <= lo -> hi <= hi' ->
  Forall (in_span lo hi) evs -> Forall (in_span lo' hi') evs.
Proof.
  intros Hl Hh H. eapply Forall_impl; [|exact H].
  intros e. apply in_span_weaken; assumption.
Qed.

Lemma aligned_next (a : Z) : a mod 4 = 0 -> (a + 4) mod 4 = 0.
Proof.
  intros H. replace (a + 4) with (a + 1 * 4) by lia.
  rewrite Z.mod_add by lia. exact H.
Qed.

Lemma aligned_plus (a k : Z) : a mod 4 = 0 -> (a + 4 * k) mod 4 = 0.
Proof.
  intros H. rewrite (Z.mul_comm 4), Z.mod_add by lia. exact H.
Qed.

(** Two word boundaries: the lower one is a whole word below. *)
Lemma aligned_gap (a b : Z) : a mod 4 = 0 -> b mod 4 = 0 -> a < b -> a + 4 <= b.
Proof.
  intros Ha Hb Hlt.
  pose proof (Z.div_mod a 4 ltac:(lia)). pose proof (Z.div_mod b 4 ltac:(lia)). lia.
Qed.

(** The programming loop stays inside the bytes it was given. *)
Lemma program_words_span (data : list byte) :
  forall addr w,
    addr mod 4 = 0 -> 0 <= addr -> addr + len data < 2 ^ 32 ->
    exists s w1 evs,
      program_words addr data w = (s, w1)
      /\ trace w1 = trace w ++ evs
      /\ Forall (in_span addr (addr + len data)) evs
      /\ (s = BOOT_PORT_OK \/ s = BOOT_PORT_ERROR).
Proof.
  remember (length data) as n eqn:Hn.
  assert (Hle : (length data <= n)%nat) by lia. clear Hn.
  revert data Hle. induction n as [|n IH]; intros data Hle addr w Ha H0 Hb;
    (destruct data as [|b0 [|b1 [|b2 [|b3 rest]]]];
     try (exists BOOT_PORT_OK, w, []; cbn [program_words]; rewrite app_nil_r;
          repeat split; auto; fail)).
  { cbn in Hle. lia. }
  cbn [program_words].
  pose proof (draw_shape w) as (Ht & _). destruct (draw w) as [ok w1]. cbn in Ht.
  rewrite !len_cons in *. pose proof (len_nonneg rest) as Hr.
  destruct ok.
  - rewrite u32_small by lia.
    destruct (IH rest ltac:(cbn in Hle; lia) (addr + 4)
                 (emit (EvProgramWord addr [b0; b1; b2; b3]) w1)
                 (@aligned_next addr Ha) ltac:(lia) ltac:(lia))
      as (s & w2 & evs & E & Ht2 & Hsp & Hs).
    exists s, w2, (EvProgramWord addr [b0; b1; b2; b3] :: evs).
    split; [exact E|]. split; [|split; [|exact Hs]].
    + rewrite Ht2. cbn [emit trace]. rewrite Ht, <- app_assoc. reflexivity.
    + constructor.
      * cbn [in_span]. split; [lia|]. split; [lia|]. split; [exact Ha | reflexivity].
      * eapply Forall_in_span_weaken; [| |exact Hsp]; lia.
  - exists BOOT_PORT_ERROR. eexists. exists [EvProgramFailed addr].
    split; [reflexivity|]. cbn [emit trace]. rewrite Ht.
    split; [reflexivity|]. split; [|auto].
    constructor; [|constructor]. cbn [in_span].
    split; [lia|]. split; [lia | exact Ha].
Qed.

Lemma flash_write_span (addr : Z) (data : list byte) (w : world) :
  addr mod 4 = 0 -> len data mod 4 = 0 -> 0 <= addr -> addr + len data < 2 ^ 32 ->
  exists s w1 evs,
    boot_port_flash_write addr data w = (s, w1)
    /\ trace w1 = trace w ++ evs
    /\ Forall (in_span addr (addr + len data)) evs
    /\ (s = BOOT_PORT_OK \/ s = BOOT_PORT_ERROR).
Proof.
  intros Ha Hl H0 Hb. unfold boot_port_flash_write. rewrite Ha, Hl. cbn.
  apply program_words_span; assumption.
Qed.

Lemma writer_frame_refl (c : bootloader_context_t) : writer_frame c c.
Proof. unfold writer_frame. destruct c; reflexivity. Qed.

Lemma writer_frame_trans (c1 c2 c3 : bootloader_context_t) :
  writer_frame c1 c2 -> writer_frame c2 c3 -> writer_frame c1 c3.
Proof.
  unfold writer_frame. destruct c1, c2, c3. cbn. intros H12 H23.
  injection H12 as -> -> -> -> -> -> -> ->.
  injection H23 as -> -> -> -> -> -> -> ->. reflexivity.
Qed.

Lemma writer_frame_set (c : bootloader_context_t) (a : Z) (l : list byte) :
  writer_frame c (set_stream_cache l (set_current_addr a c)).
Proof. reflexivity. Qed.

Lemma writer_frame_set_cache (c : bootloader_context_t) (l : list byte) :
  writer_frame c (set_stream_cache l c).
Proof. unfold writer_frame. destruct c; reflexivity. Qed.

Lemma writer_frame_set_addr (c : bootloader_context_t) (a : Z) :
  writer_frame c (set_current_addr a c).
Proof. unfold writer_frame. destruct c; reflexivity. Qed.

Section WriterSpan.

Variables lo hi : Z.
Hypothesis lo_nonneg : 0 <= lo.
Hypothesis hi_32 : hi < 2 ^ 32.

(** [bootloader_stream_flush] on any flash. *)
Lemma stream_flush_span (c : bootloader_context_t) (w : world) :
  stream_cache_len c <= 4 -> current_addr c mod 4 = 0 ->
  lo <= current_addr c <= hi ->
  (0 < stream_cache_len c -> current_addr c + 4 <= hi) ->
  exists s c' w' evs,
    bootloader_stream_flush c w = Returns s c' w'
    /\ trace w' = trace w ++ evs
    /\ Forall (in_span lo hi) evs
    /\ writer_frame c c'
    /\ current_addr c' mod 4 = 0 /\ lo <= current_addr c' <= hi
    /\ (s = BOOT_PORT_OK -> stream_cache c' = [])
    /\ (s <> BOOT_PORT_OK -> c' = c).
Proof.
  intros Hc Ha Hr Hroom. unfold stream_cache_len in *.
  pose proof (len_nonneg (stream_cache c)) as Hn.
  unfold bootloader_stream_flush, bind, get, port, modify, ret.
  fold (stream_cache_len c). unfold stream_cache_len.
  destruct (Z.eqb_spec (len (stream_cache c)) 0) as [Ez|Nz].
  - exists BOOT_PORT_OK, c, w, []. rewrite app_nil_r.
    split; [reflexivity|]. split; [reflexivity|]. split; [constructor|].
    split; [apply writer_frame_refl|]. split; [exact Ha|]. split; [exact Hr|].
    split; [|intros N; contradiction N; reflexivity].
    intros _. apply length_zero_iff_nil. unfold len in *. lia.
  - set (padded := firstn 4 (stream_cache c
                             ++ repeat xff (Z.to_nat (4 - len (stream_cache c))))).
    assert (Hlp : len padded = 4).
    { unfold padded. rewrite len_firstn, len_app, len_repeat. lia. }
    destruct (@flash_write_span (current_addr c) padded w Ha
                ltac:(rewrite Hlp; reflexivity) ltac:(lia) ltac:(lia))
      as (s & w1 & evs & -> & Ht & Hsp & Hs).
    rewrite Hlp in Hsp.
    assert (Hsp' : Forall (in_span lo hi) evs)
      by (eapply Forall_in_span_weaken; [| |exact Hsp]; lia).
    destruct Hs as [-> | ->]; cbn [status_ok].
    + do 4 eexists. split; [reflexivity|].
      cbn [current_addr stream_cache set_stream_cache set_current_addr].
      rewrite u32_small by lia.
      split; [exact Ht|]. split; [exact Hsp'|].
      split; [apply writer_frame_set|]. split; [apply aligned_next, Ha|].
      split; [lia|]. split; [reflexivity | intros N; contradiction N; reflexivity].
    + do 4 eexists. split; [reflexivity|].
      split; [exact Ht|]. split; [exact Hsp'|].
      split; [apply writer_frame_refl|]. split; [exact Ha|]. split; [exact Hr|].
      split; [intros; discriminate | reflexivity].
Qed.

(** [bootloader_stream_write] on any flash, when the cursor has room for
    the carry and the data rounded up to whole words. *)
Lemma stream_write_span (data : list byte) (c : bootloader_context_t) (w : world) :
  stream_cache_len c <= 4 -> current_addr c mod 4 = 0 ->
  lo <= current_addr c ->
  current_addr c + 4 * ceil4 (stream_cache_len c + len data) <= hi ->
  exists s c' w' evs,
    bootloader_stream_write data c w = Returns s c' w'
    /\ trace w' = trace w ++ evs
    /\ Forall (in_span lo hi) evs
    /\ writer_frame c c'
    /\ current_addr c' mod 4 = 0 /\ lo <= current_addr c' <= hi
    /\ stream_cache_len c' <= 4
    /\ (0 < stream_cache_len c' -> current_addr c' + 4 <= hi)
    /\ (s = BOOT_PORT_OK -> stream_cache_len c <= 3 -> stream_cache_len c' <= 3).
Proof.
  intros Hc Ha Hlo Hroom. unfold stream_cache_len in *.
  pose proof (len_nonneg (stream_cache c)) as Hnc.
  pose proof (len_nonneg data) as Hnd.
  pose proof (@ceil4_bounds (len (stream_cache c) + len data) ltac:(lia)) as Hceil.
  assert (Hgap : forall a k, a mod 4 = 0 -> 0 < k ->
                 a + k <= current_addr c + 4 * ceil4 (len (stream_cache c) + len data) ->
                 a + 4 <= hi).
  { intros a k Haa Hk Hak.
    apply Z.le_trans
      with (current_addr c + 4 * ceil4 (len (stream_cache c) + len data));
      [|exact Hroom].
    apply aligned_gap; [exact Haa | apply aligned_plus; exact Ha | lia]. }
  unfold bootloader_stream_write.
  destruct (Z.eqb_spec (len data) 0) as [Ez|Nz].
  { exists BOOT_PORT_OK, c, w, []. rewrite app_nil_r.
    split; [reflexivity|]. split; [reflexivity|]. split; [constructor|].
    split; [apply writer_frame_refl|]. split; [exact Ha|]. split; [lia|].
    split; [exact Hc|]. split; [|auto].
    intros Hpos. apply (Hgap (current_addr c) (len (stream_cache c)));
      first [exact Ha | lia]. }
  unfold bind at 1. unfold stream_write_carry, bind, get.
  fold (stream_cache_len c). unfold stream_cache_len.
  (* second block, from a context [c1] with an empty carry or nothing left *)
  assert (Hsecond : forall rest c1 w1 evs1,
            trace w1 = trace w ++ evs1 -> Forall (in_span lo hi) evs1 ->
            writer_frame c c1 -> current_addr c1 mod 4 = 0 ->
            lo <= current_addr c1 ->
            current_addr c1 + len (stream_cache c1) + len rest
            <= current_addr c + 4 * ceil4 (len (stream_cache c) + len data) ->
            (stream_cache c1 = [] \/ (rest = [] /\ len (stream_cache c1) <= 3)) ->
            exists s c' w' evs,
              stream_write_aligned rest c1 w1 = Returns s c' w'
              /\ trace w' = trace w ++ evs
              /\ Forall (in_span lo hi) evs
              /\ writer_frame c c'
              /\ current_addr c' mod 4 = 0 /\ lo <= current_addr c' <= hi
              /\ len (stream_cache c') <= 4
              /\ (0 < len (stream_cache c') -> current_addr c' + 4 <= hi)
              /\ (s = BOOT_PORT_OK -> len (stream_cache c) <= 3 ->
                  len (stream_cache c') <= 3)).
  { intros rest c1 w1 evs1 Ht1 Hsp1 Hf1 Ha1 Hlo1 Hsum Hcar.
    pose proof (len_nonneg rest) as Hnr.
    pose proof (len_nonneg (stream_cache c1)) as Hnc1.
    destruct (div4_facts Hnr) as (Hk & Hrm & Hm).
    unfold stream_write_aligned. rewrite land_mask by lia.
    set (aligned := 4 * (len rest / 4)) in *.
    destruct (firstn_skipn_len rest Hk) as (Hfl & Hsl).
    unfold bind, get, port, modify, ret.
    destruct (Z.ltb_spec 0 aligned) as [Lt|Ge].
    - assert (Ec1 : stream_cache c1 = [])
        by (destruct Hcar as [E|[E _]]; [exact E | subst rest; cbn in Lt; lia]).
      rewrite Ec1, len_nil in Hsum.
      destruct (@flash_write_span (current_addr c1)
                  (firstn (Z.to_nat aligned) rest) w1 Ha1
                  ltac:(rewrite Hfl; unfold aligned; rewrite Z.mul_comm;
                        apply Z.mod_mul; lia) ltac:(lia) ltac:(rewrite Hfl; lia))
        as (s & w2 & evs & -> & Ht2 & Hsp2 & Hs).
      rewrite Hfl in Hsp2.
      assert (Hsp : Forall (in_span lo hi) (evs1 ++ evs)).
      { apply Forall_app. split; [exact Hsp1|].
        eapply Forall_in_span_weaken; [| |exact Hsp2]; lia. }
      assert (Ht : trace w2 = trace w ++ evs1 ++ evs)
        by (rewrite Ht2, Ht1, app_assoc; reflexivity).
      destruct Hs as [-> | ->]; cbn [status_ok negb].
      + rewrite Hsl, u32_small by lia.
        destruct (Z.ltb_spec 0 (len rest - aligned)) as [Lr|Gr];
          do 4 eexists; (split; [reflexivity|]);
          cbn [current_addr stream_cache set_stream_cache set_current_addr];
          (split; [exact Ht|]); (split; [exact Hsp|]).
        * split; [eapply writer_frame_trans; [exact Hf1|];
                  apply writer_frame_set|].
          split; [apply aligned_plus, Ha1|]. split; [lia|].
          rewrite Hsl. split; [lia|]. split; [|lia].
          intros _. apply (Hgap (current_addr c1 + aligned) (len rest - aligned));
            [apply aligned_plus, Ha1 | lia | lia].
        * split; [eapply writer_frame_trans; [exact Hf1|];
                  apply writer_frame_set_addr|].
          split; [apply aligned_plus, Ha1|]. split; [lia|].
          rewrite Ec1, len_nil. split; [lia|]. split; lia.
      + do 4 eexists. split; [reflexivity|].
        split; [exact Ht|]. split; [exact Hsp|]. split; [exact Hf1|].
        split; [exact Ha1|]. split; [lia|]. rewrite Ec1, len_nil.
        split; [lia|]. split; [lia | intros; discriminate].
    - cbn [status_ok negb].
      assert (Ez : aligned = 0) by lia.
      destruct (Z.ltb_spec 0 (len rest)) as [Lr|Gr];
        do 4 eexists; (split; [reflexivity|]);
        cbn [current_addr stream_cache set_stream_cache];
        (split; [exact Ht1|]); (split; [exact Hsp1|]).
      + assert (Ec1 : stream_cache c1 = [])
          by (destruct Hcar as [E|[E _]]; [exact E | subst rest; cbn in Lr; lia]).
        rewrite Ec1, len_nil in Hsum.
        split; [eapply writer_frame_trans; [exact Hf1|];
                apply writer_frame_set_cache|].
        split; [exact Ha1|]. split; [lia|]. split; [lia|]. split; [|lia].
        intros _. apply (Hgap (current_addr c1) (len rest)); [exact Ha1 | lia | lia].
      + split; [exact Hf1|]. split; [exact Ha1|]. split; [lia|].
        assert (Hc1 : len (stream_cache c1) <= 3)
          by (destruct Hcar as [E|[_ E]]; [rewrite E; cbn; lia | exact E]).
        split; [lia|]. split; [|lia].
        intros Hpos. apply (Hgap (current_addr c1) (len (stream_cache c1)));
          [exact Ha1 | lia | lia]. }
  destruct (Z.ltb_spec 0 (len (stream_cache c))) as [Lt|Ge].
  - (* a carry is pending *)
    rewrite top_up_spec by lia.
    set (n := Z.to_nat (Z.min (4 - len (stream_cache c)) (len data))).
    set (cache := stream_cache c ++ firstn n data).
    assert (Hlc : len cache = Z.min 4 (len (stream_cache c) + len data)).
    { unfold cache, n. rewrite len_app, len_firstn. lia. }
    assert (Hlr : len (skipn n data)
                  = len (stream_cache c) + len data - len cache).
    { rewrite len_skipn. unfold n. lia. }
    unfold modify, port, ret.
    destruct (Z.eqb_spec (len cache) 4) as [E4|N4].
    + cbn [current_addr set_stream_cache].
      assert (Hroom4 : current_addr c + 4 <= hi)
        by (apply (Hgap (current_addr c) 4); [exact Ha | lia | lia]).
      destruct (@flash_write_span (current_addr c) cache w Ha
                  ltac:(rewrite E4; reflexivity) ltac:(lia) ltac:(lia))
        as (s & w1 & evs1 & -> & Ht1 & Hsp1 & Hs).
      rewrite E4 in Hsp1.
      assert (Hsp1' : Forall (in_span lo hi) evs1)
        by (eapply Forall_in_span_weaken; [| |exact Hsp1]; lia).
      destruct Hs as [-> | ->]; cbn [status_ok negb].
      * cbn [current_addr stream_cache set_stream_cache set_current_addr].
        rewrite u32_small by lia.
        apply (Hsecond (skipn n data) _ w1 evs1 Ht1 Hsp1').
        -- unfold writer_frame. destruct c; reflexivity.
        -- apply aligned_next, Ha.
        -- cbn [current_addr set_stream_cache set_current_addr]. lia.
        -- cbn [current_addr stream_cache set_stream_cache set_current_addr].
           rewrite len_nil. lia.
        -- left. reflexivity.
      * unfold ret.
        do 4 eexists. split; [reflexivity|].
        cbn [current_addr stream_cache set_stream_cache].
        split; [exact Ht1|]. split; [exact Hsp1'|].
        split; [apply writer_frame_set_cache|]. split; [exact Ha|].
        split; [lia|]. split; [lia|]. split; [lia | intros; discriminate].
    + cbn [status_ok negb].
      assert (Erest : skipn n data = []).
      { apply length_zero_iff_nil. unfold len in *. lia. }
      rewrite Erest.
      apply (Hsecond [] (set_stream_cache cache c) w []).
      * rewrite app_nil_r. reflexivity.
      * constructor.
      * apply writer_frame_set_cache.
      * exact Ha.
      * exact Hlo.
      * cbn [current_addr stream_cache set_stream_cache]. rewrite len_nil. lia.
      * right. split; [reflexivity|].
        cbn [stream_cache set_stream_cache]. lia.
  - (* no carry *)
    unfold ret. cbn [status_ok negb].
    assert (Ec : stream_cache c = [])
      by (apply length_zero_iff_nil; unfold len in *; lia).
    apply (Hsecond data c w []).
    + rewrite app_nil_r. reflexivity.
    + constructor.
    + apply writer_frame_refl.
    + exact Ha.
    + exact Hlo.
    + lia.
    + left. exact Ec.
Qed.

End WriterSpan.

(** ** The STM32F4 engine on any flash: one data frame *)

Lemma writer_frame_fields (c c' : bootloader_context_t) :
  writer_frame c c' ->
  rx_cache c' = rx_cache c /\ payload_buf c' = payload_buf c
  /\ boot_flag c' = boot_flag c /\ app_version c' = app_version c
  /\ update_date c' = update_date c /\ state c' = state c
  /\ download_active c' = download_active c /\ initialized c' = initialized c.
Proof. unfold writer_frame. intros ->. cbn. auto 10. Qed.

Section EnginePayload.

Variable cfg : boot_config.
Hypothesis layout : layout_ok cfg.

Lemma layout_payload_max :
  BOOT_PAYLOAD_MAX_SIZE cfg = BOOT_PACKET_MAX_SIZE cfg - 11.
Proof.
  destruct layout as (_ & _ & _ & _ & Hp & _). exact (@payload_max_value cfg Hp).
Qed.

(** The range check of [bootloader_handle_payload] when nothing wraps
    around: does the frame, rounded up to whole words, end past the
    application region? *)
Lemma flash_range_overflow_spec (c : bootloader_context_t) (pl : Z) :
  0 <= pl <= BOOT_PAYLOAD_MAX_SIZE cfg -> stream_cache_len c <= 4 ->
  BOOT_APP_START_ADDR cfg <= current_addr c <= app_region_end cfg ->
  flash_range_overflow cfg c pl
  = (current_addr c + 4 * ceil4 (stream_cache_len c + pl) >? app_region_end cfg).
Proof.
  intros Hpl Hc Hcur. pose proof layout_payload_max as Epm.
  destruct layout as (H0 & _ & Hm & Hend & Hp & _).
  unfold app_region_end in *. unfold stream_cache_len in *.
  pose proof (len_nonneg (stream_cache c)) as Hn.
  pose proof (@ceil4_bounds (len (stream_cache c) + pl) ltac:(lia)) as Hceil.
  change (2 ^ 17) with 131072 in Hend. change (2 ^ 16) with 65536 in Hp.
  unfold flash_range_overflow, stream_cache_len.
  rewrite (@u32_small (len (stream_cache c) + pl)) by lia.
  rewrite (@u32_small (len (stream_cache c) + pl + 3)) by lia.
  rewrite land_mask by lia. fold (ceil4 (len (stream_cache c) + pl)).
  rewrite !u32_small by lia. reflexivity.
Qed.

(** [bootloader_prepare_download] on any flash. *)
Lemma prepare_download_any (c : bootloader_context_t) (w : world) :
  exists s c1 w1 erase,
    bootloader_prepare_download cfg c w = Returns s c1 w1
    /\ trace w1 = trace w ++ erase
    /\ ((download_active c = true /\ s = BOOT_PORT_OK /\ c1 = c /\ erase = [])
        \/ (download_active c = false /\ s = BOOT_PORT_OK
            /\ c1 = set_download_active true
                      (set_stream_cache []
                         (set_current_addr (BOOT_APP_START_ADDR cfg) c))
            /\ erase = [EvErase (BOOT_APP_START_ADDR cfg) (BOOT_APP_MAX_SIZE cfg)])
        \/ (download_active c = false /\ s = BOOT_PORT_ERROR /\ c1 = c
            /\ erase = [EvEraseFailed (BOOT_APP_START_ADDR cfg)
                                      (BOOT_APP_MAX_SIZE cfg)])).
Proof.
  unfold bootloader_prepare_download, bind, get, port, modify, ret.
  destruct (download_active c) eqn:Ed.
  - exists BOOT_PORT_OK, c, w, []. rewrite app_nil_r. auto 10.
  - unfold boot_port_flash_erase.
    pose proof (draw_shape w) as (Ht & _). destruct (draw w) as [ok w0].
    cbn [snd] in Ht.
    destruct ok; cbn [status_ok negb]; do 4 eexists;
      (split; [reflexivity|]); cbn [emit trace]; rewrite Ht;
      (split; [reflexivity|]); auto 10.
Qed.

(** [bootloader_handle_payload] of the STM32F4 engine on any flash. *)
Lemma stm32_handle_payload_shape (r pl : Z) (c : bootloader_context_t) (w : world) :
  0 <= pl <= BOOT_PAYLOAD_MAX_SIZE cfg ->
  len (payload_buf c) = BOOT_PAYLOAD_MAX_SIZE cfg ->
  stream_cache_len c <= 3 ->
  BOOT_APP_START_ADDR cfg <= current_addr c <= app_region_end cfg ->
  current_addr c mod 4 = 0 ->
  exists s c' w' erase words,
    Stm32.bootloader_handle_payload cfg r pl c w = Returns s c' w'
    /\ trace w' = trace w ++ erase ++ words
                  ++ (if status_ok s then [EvUartWrite g_boot_ack] else [])
    /\ (download_active c = true -> erase = [])
    /\ (download_active c = false ->
        erase = [EvErase (BOOT_APP_START_ADDR cfg) (BOOT_APP_MAX_SIZE cfg)]
        \/ (erase = [EvEraseFailed (BOOT_APP_START_ADDR cfg) (BOOT_APP_MAX_SIZE cfg)]
            /\ words = [] /\ s = BOOT_PORT_ERROR /\ c' = c))
    /\ Forall (in_span (BOOT_APP_START_ADDR cfg) (app_region_end cfg)) words
    /\ rx_cache c' = rx_cache c /\ payload_buf c' = payload_buf c
    /\ initialized c' = initialized c
    /\ BOOT_APP_START_ADDR cfg <= current_addr c' <= app_region_end cfg
    /\ current_addr c' mod 4 = 0
    /\ stream_cache_len c' <= 4
    /\ (s = BOOT_PORT_OK ->
        stream_cache_len c' <= 3
        /\ state c' = (if r =? 0 then BOOT_STATE_WAIT_FINISH
                       else BOOT_STATE_RECEIVING)
        /\ download_active c' = negb (r =? 0)).
Proof.
  intros Hpl Hbuf Hcar Hcur Hal.
  pose proof layout as (H0 & Hsal & Hm & Hend & Hp & _).
  assert (Hlo : 0 <= BOOT_APP_START_ADDR cfg) by exact H0.
  assert (Hhi : app_region_end cfg < 2 ^ 32)
    by (unfold app_region_end; change (2 ^ 17) with 131072 in Hend; lia).
  unfold Stm32.bootloader_handle_payload. unfold bind at 1.
  destruct (prepare_download_any c w) as (s0 & c1 & w1 & erase & -> & Ht1 & Hcase).
  (* the context after a successful prepare *)
  assert (Hgo : forall c1 : bootloader_context_t,
            len (payload_buf c1) = BOOT_PAYLOAD_MAX_SIZE cfg ->
            stream_cache_len c1 <= 3 ->
            BOOT_APP_START_ADDR cfg <= current_addr c1 <= app_region_end cfg ->
            current_addr c1 mod 4 = 0 ->
            download_active c1 = true ->
            exists s c' w' words,
              (modify (set_state BOOT_STATE_RECEIVING) ;;;
               c <- get ;;
               if flash_range_overflow cfg c pl then ret BOOT_PORT_ERROR
               else
                 status <- bootloader_stream_write
                             (firstn (Z.to_nat pl) (payload_buf c)) ;;
                 if negb (status_ok status) then ret status
                 else
                   status <- (if r =? 0 then
                                status <- bootloader_stream_flush ;;
                                (if status_ok status then
                                   modify (fun c => set_state BOOT_STATE_WAIT_FINISH
                                                      (set_download_active false c))
                                 else ret tt) ;;;
                                ret status
                              else ret status) ;;
                   (if status_ok status then port_ (boot_port_uart_write g_boot_ack)
                    else ret tt) ;;;
                   ret status) c1 w1 = Returns s c' w'
              /\ trace w' = trace w1 ++ words
                            ++ (if status_ok s then [EvUartWrite g_boot_ack] else [])
              /\ Forall (in_span (BOOT_APP_START_ADDR cfg) (app_region_end cfg)) words
              /\ rx_cache c' = rx_cache c1 /\ payload_buf c' = payload_buf c1
              /\ initialized c' = initialized c1
              /\ BOOT_APP_START_ADDR cfg <= current_addr c' <= app_region_end cfg
              /\ current_addr c' mod 4 = 0
              /\ stream_cache_len c' <= 4
              /\ (s = BOOT_PORT_OK ->
                  stream_cache_len c' <= 3
                  /\ state c' = (if r =? 0 then BOOT_STATE_WAIT_FINISH
                                 else BOOT_STATE_RECEIVING)
                  /\ download_active c' = negb (r =? 0))).
  { clear c Hbuf Hcar Hcur Hal Hcase c1 Ht1.
    intros c1 Hbuf Hcar Hcur Hal Hda.
    unfold bind at 1. unfold modify at 1. unfold bind at 1. unfold get at 1.
    set (c2 := set_state BOOT_STATE_RECEIVING c1).
    assert (Hf2 : rx_cache c2 = rx_cache c1 /\ payload_buf c2 = payload_buf c1
                  /\ initialized c2 = initialized c1
                  /\ current_addr c2 = current_addr c1
                  /\ stream_cache c2 = stream_cache c1
                  /\ state c2 = BOOT_STATE_RECEIVING
                  /\ download_active c2 = true)
      by (unfold c2; cbn; auto 10).
    destruct Hf2 as (Erx & Epb & Ein & Ecu & Esc & Est & Eda).
    rewrite (@flash_range_overflow_spec c2 pl Hpl)
      by (unfold stream_cache_len; rewrite ?Esc, ?Ecu;
          unfold stream_cache_len in Hcar; lia).
    unfold stream_cache_len. rewrite Esc, Ecu, Epb.
    destruct (Z.gtb_spec (current_addr c1 + 4 * ceil4 (len (stream_cache c1) + pl))
                         (app_region_end cfg)) as [Hover|Hfit].
    { exists BOOT_PORT_ERROR, c2, w1, []. unfold ret. cbn [status_ok app].
      rewrite app_nil_r.
      split; [reflexivity|]. split; [reflexivity|]. split; [constructor|].
      rewrite Erx, Epb, Ein, Ecu. unfold stream_cache_len. rewrite Esc.
      unfold stream_cache_len in Hcar.
      repeat match goal with
             | |- _ /\ _ => split; [first [reflexivity | assumption | lia]|]
             end.
      intros; discriminate. }
    assert (Hld : len (firstn (Z.to_nat pl) (payload_buf c1)) = pl)
      by (rewrite len_firstn; lia).
    destruct (@stream_write_span (BOOT_APP_START_ADDR cfg) (app_region_end cfg)
                Hlo Hhi (firstn (Z.to_nat pl) (payload_buf c1)) c2 w1)
      as (s & c3 & w3 & evs & E & Ht3 & Hsp3 & Hf3 & Hal3 & Hcur3 & Hc3 & Hroom3 & Hok3).
    { unfold stream_cache_len. rewrite Esc. unfold stream_cache_len in Hcar. lia. }
    { rewrite Ecu. exact Hal. }
    { rewrite Ecu. lia. }
    { unfold stream_cache_len. rewrite Esc, Ecu, Hld. lia. }
    destruct (writer_frame_fields Hf3)
      as (Erx3 & Epb3 & _ & _ & _ & Est3 & Eda3 & Ein3).
    unfold bind at 1. rewrite E.
    assert (Hfail : forall s : boot_port_status_t, s <> BOOT_PORT_OK ->
              exists s' c' w' words,
                Returns s c3 w3 = Returns s' c' w'
                /\ trace w' = trace w1 ++ words
                              ++ (if status_ok s' then [EvUartWrite g_boot_ack] else [])
                /\ Forall (in_span (BOOT_APP_START_ADDR cfg) (app_region_end cfg)) words
                /\ rx_cache c' = rx_cache c1 /\ payload_buf c' = payload_buf c1
                /\ initialized c' = initialized c1
                /\ BOOT_APP_START_ADDR cfg <= current_addr c' <= app_region_end cfg
                /\ current_addr c' mod 4 = 0
                /\ len (stream_cache c') <= 4
                /\ (s' = BOOT_PORT_OK ->
                    len (stream_cache c') <= 3
                    /\ state c' = (if r =? 0 then BOOT_STATE_WAIT_FINISH
                                   else BOOT_STATE_RECEIVING)
                    /\ download_active c' = negb (r =? 0))).
    { intros s' Hs'. exists s', c3, w3, evs. split; [reflexivity|].
      assert (Eok : status_ok s' = false)
        by (destruct s'; [contradiction Hs'|..]; reflexivity).
      rewrite Eok, app_nil_r. split; [exact Ht3|]. split; [exact Hsp3|].
      rewrite Erx3, Epb3, Ein3, Erx, Epb, Ein.
      unfold stream_cache_len in Hc3.
      repeat match goal with
             | |- _ /\ _ => split; [first [reflexivity | assumption | lia]|]
             end.
      intros; contradiction. }
    destruct s; cbn [status_ok negb]; unfold ret at 1;
      [|apply Hfail; discriminate|apply Hfail; discriminate].
    assert (Hc3' : stream_cache_len c3 <= 3).
    { apply Hok3; [reflexivity|]. unfold stream_cache_len. rewrite Esc.
      exact Hcar. }
    destruct (Z.eqb_spec r 0) as [Er|Nr].
    - (* last frame: flush *)
      destruct (@stream_flush_span (BOOT_APP_START_ADDR cfg) (app_region_end cfg)
                  Hlo Hhi c3 w3 ltac:(lia) Hal3 Hcur3 Hroom3)
        as (s4 & c4 & w4 & evs4 & E4 & Ht4 & Hsp4 & Hf4 & Hal4 & Hcur4 & Hemp4 & Hsame4).
      destruct (writer_frame_fields Hf4)
        as (Erx4 & Epb4 & _ & _ & _ & Est4 & Eda4 & Ein4).
      unfold bind at 1. unfold bind at 1. unfold bind at 1. rewrite E4.
      assert (Hsp : Forall (in_span (BOOT_APP_START_ADDR cfg) (app_region_end cfg))
                      (evs ++ evs4))
        by (apply Forall_app; split; assumption).
      assert (Ht : trace w4 = trace w1 ++ evs ++ evs4)
        by (rewrite Ht4, Ht3, app_assoc; reflexivity).
      destruct s4; cbn [status_ok negb]; unfold modify, ret, bind, port_,
        boot_port_uart_write; cbn [status_ok].
      + do 3 eexists. exists (evs ++ evs4). split; [reflexivity|].
        cbn [emit trace rx_cache payload_buf initialized current_addr
             stream_cache state download_active set_state set_download_active].
        unfold stream_cache_len.
        cbn [stream_cache set_state set_download_active].
        rewrite Ht, <- !app_assoc. split; [reflexivity|]. split; [exact Hsp|].
        rewrite Erx4, Epb4, Ein4, Erx3, Epb3, Ein3, Erx, Epb, Ein.
        rewrite (Hemp4 eq_refl). rewrite len_nil.
        repeat match goal with
             | |- _ /\ _ => split; [first [reflexivity | assumption | lia]|]
             end.
        intros _. split; [lia|]. split; reflexivity.
      + exists BOOT_PORT_ERROR, c4, w4, (evs ++ evs4). split; [reflexivity|].
        rewrite app_nil_r. split; [exact Ht|]. split; [exact Hsp|].
        rewrite Erx4, Epb4, Ein4, Erx3, Epb3, Ein3, Erx, Epb, Ein.
        rewrite (Hsame4 ltac:(discriminate)).
        repeat match goal with
             | |- _ /\ _ => split; [first [reflexivity | assumption | lia]|]
             end.
        intros; discriminate.
      + exists BOOT_PORT_TIMEOUT, c4, w4, (evs ++ evs4). split; [reflexivity|].
        rewrite app_nil_r. split; [exact Ht|]. split; [exact Hsp|].
        rewrite Erx4, Epb4, Ein4, Erx3, Epb3, Ein3, Erx, Epb, Ein.
        rewrite (Hsame4 ltac:(discriminate)).
        repeat match goal with
             | |- _ /\ _ => split; [first [reflexivity | assumption | lia]|]
             end.
        intros; discriminate.
    - unfold bind, ret, port_, boot_port_uart_write. cbn [status_ok].
      exists BOOT_PORT_OK, c3, (emit (EvUartWrite g_boot_ack) w3), evs.
      split; [reflexivity|]. cbn [emit trace status_ok].
      rewrite Ht3, <- app_assoc. split; [reflexivity|]. split; [exact Hsp3|].
      rewrite Erx3, Epb3, Ein3, Erx, Epb, Ein.
      repeat match goal with
             | |- _ /\ _ => split; [first [reflexivity | assumption | lia]|]
             end.
      intros _. split; [exact Hc3'|]. rewrite Est3, Eda3, Est, Eda.
      split; reflexivity. }
  destruct Hcase as [(Eda & -> & -> & ->) | [(Eda & -> & -> & ->) | (Eda & -> & -> & ->)]];
    cbn [status_ok negb].
  - rewrite app_nil_r in Ht1.
    destruct (Hgo c Hbuf Hcar Hcur Hal Eda)
      as (s & c' & w' & words & E & Ht & Hrest).
    exists s, c', w', [], words. split; [exact E|].
    cbn [app]. rewrite Ht, Ht1. split; [reflexivity|].
    split; [reflexivity|]. split; [rewrite Eda; discriminate|]. exact Hrest.
  - set (c1 := set_download_active true
                 (set_stream_cache []
                    (set_current_addr (BOOT_APP_START_ADDR cfg) c))).
    destruct (Hgo c1) as (s & c' & w' & words & E & Ht & Hsp & Hrx & Hpb & Hin & Hrest).
    { exact Hbuf. }
    { unfold stream_cache_len. cbn. lia. }
    { cbn. unfold app_region_end. lia. }
    { exact Hsal. }
    { reflexivity. }
    exists s, c', w', [EvErase (BOOT_APP_START_ADDR cfg) (BOOT_APP_MAX_SIZE cfg)], words.
    split; [exact E|]. rewrite Ht, Ht1, <- !app_assoc. split; [reflexivity|].
    split; [rewrite Eda; discriminate|]. split; [intros _; left; reflexivity|].
    split; [exact Hsp|]. split; [exact Hrx|]. split; [exact Hpb|].
    split; [exact Hin|]. exact Hrest.
  - exists BOOT_PORT_ERROR, c, w1,
      [EvEraseFailed (BOOT_APP_START_ADDR cfg) (BOOT_APP_MAX_SIZE cfg)], [].
    unfold ret. split; [reflexivity|]. cbn [status_ok app].
    split; [exact Ht1|]. split; [rewrite Eda; discriminate|].
    split; [intros _; right; auto|]. split; [constructor|].
    unfold stream_cache_len in *.
    repeat match goal with
             | |- _ /\ _ => split; [first [reflexivity | assumption | lia]|]
             end.
    intros; discriminate.
Qed.

End EnginePayload.

(** ** The STM32F4 engine on any flash: one run *)

Lemma in_span_engine_event (cfg : boot_config) (e : event) :
  in_span (BOOT_APP_START_ADDR cfg) (app_region_end cfg) e -> engine_event cfg e.
Proof. destruct e; cbn; intros H; try contradiction; left; lia. Qed.

Lemma set_rx_cache_same (c : bootloader_context_t) : set_rx_cache (rx_cache c) c = c.
Proof. destruct c; reflexivity. Qed.

Lemma finish_loop_ctx (fuel : nat) :
  forall (c c' : bootloader_context_t) (res : option (Z * Z)),
    Stm32.finish_loop fuel c = Some (res, c') ->
    exists n, c' = set_rx_cache (skipn n (rx_cache c)) c.
Proof.
  induction fuel as [|fuel IH]; intros c c' res H; cbn [Stm32.finish_loop] in H.
  - destruct (rx_cache_len c <? Stm32.BOOT_FINISH_FRAME_LEN); [|discriminate].
    injection H as _ <-. exists O. symmetry. apply set_rx_cache_same.
  - destruct (rx_cache_len c <? Stm32.BOOT_FINISH_FRAME_LEN).
    { injection H as _ <-. exists O. symmetry. apply set_rx_cache_same. }
    pose proof (finish_candidate_shape (rx_cache c)) as Hshape.
    destruct (Stm32.finish_candidate (rx_cache c)) as [count| |v d fl].
    + rewrite consume_cache_rx in H by (destruct Hshape; lia).
      apply IH in H. cbn [rx_cache set_rx_cache] in H.
      destruct H as (n & ->). rewrite skipn_skipn.
      exists (n + Z.to_nat count)%nat. reflexivity.
    + contradiction.
    + injection H as _ <-. rewrite consume_cache_rx by lia.
      eexists. reflexivity.
Qed.

Section EngineRun.

Variable cfg : boot_config.
Hypothesis layout : layout_ok cfg.

Lemma engine_inv_skipn (n : nat) (c : bootloader_context_t) :
  engine_inv cfg c -> engine_inv cfg (set_rx_cache (skipn n (rx_cache c)) c).
Proof.
  intros (Hrx & Hrest). split; [|exact Hrest].
  unfold rx_cache_len in *. cbn [rx_cache set_rx_cache].
  rewrite len_skipn. pose proof (len_nonneg (rx_cache c)). lia.
Qed.

Lemma engine_inv_reset (c : bootloader_context_t) (w : world) :
  engine_inv cfg (ctx_of (Stm32.bootloader_reset_context cfg c w)).
Proof.
  pose proof (layout_payload_max layout) as Epm.
  destruct layout as (H0 & Hal & Hm & _ & Hp & _).
  unfold Stm32.bootloader_reset_context, modify, engine_inv, rx_cache_len,
    stream_cache_len, app_region_end.
  cbn [ctx_of rx_cache payload_buf stream_cache current_addr].
  rewrite len_repeat, len_nil. repeat split; lia.
Qed.

(** [bootloader_poll_uart] for any cache within its array and any receive
    buffer. *)
Lemma poll_uart_any (c : bootloader_context_t) (w : world) :
  rx_cache_len c <= BOOT_PACKET_MAX_SIZE cfg ->
  exists received w1,
    bootloader_poll_uart cfg c w
    = Returns tt (set_rx_cache (rx_cache c ++ received) c) w1
    /\ trace w1 = trace w
    /\ rx_cache_len c + len received <= BOOT_PACKET_MAX_SIZE cfg.
Proof.
  intros Hrx. destruct layout as (_ & _ & _ & _ & Hp & _).
  pose proof (len_nonneg (rx_cache c)) as Hn. fold (rx_cache_len c) in Hn.
  unfold bootloader_poll_uart, bind, get, port, modify, ret.
  rewrite u32_small by lia.
  assert (Esame : set_rx_cache (rx_cache c ++ []) c = c)
    by (rewrite app_nil_r; apply set_rx_cache_same).
  destruct (Z.eqb_spec (BOOT_PACKET_MAX_SIZE cfg - rx_cache_len c) 0) as [E|N].
  - exists [], w. rewrite Esame, len_nil. repeat split; lia.
  - unfold boot_port_uart_read.
    set (received := firstn (Z.to_nat (BOOT_PACKET_MAX_SIZE cfg - rx_cache_len c))
                            (uart_rx w)).
    assert (Hlr : len received <= BOOT_PACKET_MAX_SIZE cfg - rx_cache_len c)
      by (unfold received; rewrite len_firstn; lia).
    destruct (Z.ltb_spec 0 (len received)) as [Lt|Ge].
    + exists received. eexists. split; [reflexivity|]. cbn [trace].
      split; [reflexivity | lia].
    + exists []. eexists. rewrite Esame. split; [reflexivity|]. cbn [trace].
      rewrite len_nil. split; [reflexivity | lia].
Qed.

(** What [bootloader_try_extract_frame] does to a context: the cache
    shrinks, by a whole frame if one is returned, the payload buffer keeps
    its length, and nothing else changes. *)
Lemma try_extract_ctx (c c' : bootloader_context_t) (res : option (Z * Z)) :
  len (payload_buf c) = BOOT_PAYLOAD_MAX_SIZE cfg ->
  bootloader_try_extract_frame cfg c = (res, c') ->
  rx_cache_len c' <= rx_cache_len c
  /\ len (payload_buf c') = BOOT_PAYLOAD_MAX_SIZE cfg
  /\ stream_cache c' = stream_cache c /\ current_addr c' = current_addr c
  /\ download_active c' = download_active c /\ initialized c' = initialized c
  /\ match res with
     | Some (r, pl) =>
         0 <= pl <= BOOT_PAYLOAD_MAX_SIZE cfg
         /\ rx_cache_len c' + 11 <= rx_cache_len c
     | None => True
     end.
Proof.
  intros Hbuf H. pose proof (layout_payload_max layout) as Epm.
  destruct layout as (_ & _ & _ & _ & Hp & _).
  unfold bootloader_try_extract_frame in H.
  pose proof (extract_loop_total cfg c) as Hsome.
  destruct (extract_loop cfg (length (rx_cache c)) c) as [[res1 c1]|] eqn:E;
    [|contradiction Hsome; reflexivity].
  injection H as -> ->.
  destruct (@extract_loop_full cfg _ c c' res ltac:(lia) E) as (n & Hn).
  cbv zeta in Hn. unfold rx_cache_len.
  pose proof (len_nonneg (rx_cache c)) as Hc.
  destruct res as [[r pl]|].
  - destruct Hn as (Hcand & ->).
    destruct (@frame_candidate_accept_full cfg _ r pl _ Hcand)
      as (_ & _ & _ & Hmax & _ & Hfull & _).
    destruct (@accepted_candidate_bytes cfg _ r pl _ Hcand) as (_ & Hlp & _ & Hpl).
    cbn [rx_cache payload_buf stream_cache current_addr download_active
         initialized set_rx_cache set_payload_buf].
    rewrite len_app, Hlp, !len_skipn in *. rewrite Hbuf.
    repeat split; try reflexivity; try lia.
  - subst c'. cbn [rx_cache payload_buf stream_cache current_addr
                   download_active initialized set_rx_cache].
    rewrite len_skipn. repeat split; try reflexivity; try lia.
Qed.

Lemma safe_outcome_after (w w1 : world) (evs1 : list event)
      (o : outcome bootloader_context_t unit) :
  trace w1 = trace w ++ evs1 -> Forall (engine_event cfg) evs1 ->
  safe_outcome cfg w1 o -> safe_outcome cfg w o.
Proof.
  intros Ht1 Hev1 (evs & Ht & Hev & Hinv). exists (evs1 ++ evs).
  rewrite Ht, Ht1, app_assoc. split; [reflexivity|].
  split; [apply Forall_app; split; assumption | exact Hinv].
Qed.

Lemma frame_events_allowed (s : boot_port_status_t) (erase words : list event)
      (active : bool) :
  (active = true -> erase = []) ->
  (active = false ->
   erase = [EvErase (BOOT_APP_START_ADDR cfg) (BOOT_APP_MAX_SIZE cfg)]
   \/ (erase = [EvEraseFailed (BOOT_APP_START_ADDR cfg) (BOOT_APP_MAX_SIZE cfg)]
       /\ words = [] /\ s = BOOT_PORT_ERROR)) ->
  Forall (in_span (BOOT_APP_START_ADDR cfg) (app_region_end cfg)) words ->
  Forall (engine_event cfg)
    (erase ++ words ++ (if status_ok s then [EvUartWrite g_boot_ack] else [])).
Proof.
  intros Hact Hin Hw. apply Forall_app. split.
  - destruct active.
    + rewrite Hact by reflexivity. constructor.
    + destruct (Hin eq_refl) as [-> | (-> & _)];
        (constructor; [left; auto | constructor]).
  - apply Forall_app. split.
    + eapply Forall_impl; [|exact Hw]. apply in_span_engine_event.
    + destruct (status_ok s); repeat constructor.
Qed.

(** The frame loop of the run, with fuel for every byte of the cache. *)
Lemma stm32_run_loop_safe (fuel : nat) :
  forall (c : bootloader_context_t) (w : world),
    engine_inv cfg c -> (length (rx_cache c) <= fuel)%nat ->
    exists o, Stm32.run_loop cfg fuel c w = Some o /\ safe_outcome cfg w o.
Proof.
  induction fuel as [|fuel IH]; intros c w Hinv Hfuel;
    pose proof Hinv as (Hrx & Hbuf & Hcar & Hcur & Hal);
    (destruct (bootloader_try_extract_frame cfg c) as [res c1] eqn:E;
     pose proof (try_extract_ctx c Hbuf E)
       as (Hrx1 & Hbuf1 & Esc & Ecu & Eda & Ein & Hres);
     assert (Hinv1 : engine_inv cfg c1)
       by (unfold engine_inv, stream_cache_len; rewrite Esc, Ecu;
           repeat split; try assumption; lia)).
  - cbn [Stm32.run_loop]. rewrite E. destruct res as [[r pl]|].
    + destruct Hres as (_ & Hlen). pose proof (len_nonneg (rx_cache c1)).
      unfold rx_cache_len, len in *. lia.
    + eexists. split; [reflexivity|]. exists []. rewrite app_nil_r.
      split; [reflexivity|]. split; [constructor | exact Hinv1].
  - cbn [Stm32.run_loop]. rewrite E. destruct res as [[r pl]|].
    + destruct Hres as (Hpl & Hlen).
      destruct Hinv1 as (Hrx1' & _ & Hcar1 & Hcur1 & Hal1).
      destruct (@stm32_handle_payload_shape cfg layout r pl c1 w
                  Hpl Hbuf1 Hcar1 Hcur1 Hal1)
        as (s & c2 & w2 & erase & words & -> & Ht & Hact & Hin & Hw
            & Erx2 & Epb2 & Ein2 & Hcur2 & Hal2 & Hc2 & Hok).
      assert (Hev : Forall (engine_event cfg)
                      (erase ++ words
                       ++ (if status_ok s then [EvUartWrite g_boot_ack] else []))).
      { apply (@frame_events_allowed s erase words (download_active c1));
          [exact Hact| |exact Hw].
        intros Hf. destruct (Hin Hf) as [H | (H1 & H2 & H3 & _)]; auto. }
      destruct (status_ok s) eqn:Es; cbn [negb].
      * assert (Eok : s = BOOT_PORT_OK) by (destruct s; [reflexivity|discriminate..]).
        destruct (Hok Eok) as (Hc2' & _).
        assert (Hinv2 : engine_inv cfg c2).
        { unfold engine_inv, rx_cache_len. rewrite Erx2, Epb2.
          unfold rx_cache_len in Hrx1'.
          repeat split; try assumption; try lia. }
        destruct (IH c2 w2 Hinv2) as (o & Eo & Hsafe).
        { rewrite Erx2. unfold rx_cache_len, len in *. lia. }
        exists o. split; [exact Eo|].
        eapply safe_outcome_after; [exact Ht | exact Hev | exact Hsafe].
      * eexists. split; [reflexivity|].
        eapply safe_outcome_after; [exact Ht | exact Hev |].
        exists []. rewrite app_nil_r. split; [reflexivity|].
        split; [constructor | apply engine_inv_reset].
    + eexists. split; [reflexivity|]. exists []. rewrite app_nil_r.
      split; [reflexivity|]. split; [constructor | exact Hinv1].
Qed.

Lemma flag_events_allowed (flag version date : Z) (evs : list event) :
  evs = flag_region_events cfg flag version date
  \/ evs = [EvEraseFailed (BOOT_FLAG_REGION_ADDR cfg) (BOOT_FLAG_REGION_SIZE cfg)]
  \/ evs = firstn 1 (flag_region_events cfg flag version date)
           ++ [EvProgramFailed (BOOT_FLAG_ADDR cfg)]
  \/ evs = firstn 2 (flag_region_events cfg flag version date)
           ++ [EvProgramFailed (BOOT_VERSION_ADDR cfg)]
  \/ evs = firstn 3 (flag_region_events cfg flag version date)
           ++ [EvProgramFailed (BOOT_DATE_ADDR cfg)] ->
  Forall (engine_event cfg) evs.
Proof.
  unfold flag_region_events.
  intros [-> | [-> | [-> | [-> | ->]]]]; cbn [firstn app];
    repeat (constructor; [cbn [engine_event]; auto 6|]); constructor.
Qed.

(** One run of the STM32F4 engine. *)
Lemma stm32_run_safe (c : bootloader_context_t) (w : world) :
  engine_inv cfg c -> safe_outcome cfg w (Stm32.easy_bootloader_run cfg c w).
Proof.
  intros Hinv. pose proof Hinv as (Hrx & Hbuf & Hcar & Hcur & Hal).
  assert (Hnone : forall c w, engine_inv cfg c -> safe_outcome cfg w (Returns tt c w)).
  { intros c0 w0 H0. exists []. rewrite app_nil_r.
    split; [reflexivity|]. split; [constructor | exact H0]. }
  unfold Stm32.easy_bootloader_run.
  destruct (initialized c); cbn [negb]; [|apply Hnone; exact Hinv].
  destruct (poll_uart_any c w Hrx) as (received & w1 & -> & Ht1 & Hfit).
  set (c1 := set_rx_cache (rx_cache c ++ received) c).
  assert (Hinv1 : engine_inv cfg c1).
  { unfold engine_inv, rx_cache_len, stream_cache_len, c1 in *.
    cbn [rx_cache payload_buf stream_cache current_addr set_rx_cache].
    rewrite len_app.
    repeat split; try assumption; lia. }
  apply (@safe_outcome_after w w1 []);
    [rewrite app_nil_r; exact Ht1 | constructor |].
  assert (Hloop : safe_outcome cfg w1
                    match Stm32.run_loop cfg (length (rx_cache c1)) c1 w1 with
                    | Some o => o
                    | None => Returns tt c1 w1
                    end).
  { destruct (@stm32_run_loop_safe (length (rx_cache c1)) c1 w1 Hinv1 (le_n _))
      as (o & -> & Ho). exact Ho. }
  destruct (state c1) eqn:Est; try exact Hloop.
  unfold Stm32.bootloader_try_extract_finish_frame.
  pose proof (finish_loop_total c1) as Hsome.
  destruct (Stm32.finish_loop (length (rx_cache c1)) c1) as [[res c2]|] eqn:E;
    [|contradiction Hsome; reflexivity].
  destruct (finish_loop_ctx _ _ E) as (n & Ec2).
  assert (Hinv2 : engine_inv cfg c2) by (rewrite Ec2; apply engine_inv_skipn, Hinv1).
  destruct res as [[version date]|]; [|apply Hnone; exact Hinv2].
  unfold Stm32.bootloader_handle_finish_frame, bind, get.
  assert (Hfail : safe_outcome cfg w1
                    (Stm32.bootloader_reset_context cfg c2 w1)).
  { exists []. rewrite app_nil_r. split; [reflexivity|].
    split; [constructor | apply engine_inv_reset]. }
  destruct (state c2); try exact Hfail.
  destruct layout as (_ & _ & _ & _ & _ & Hfl).
  destruct (@write_flag_region_any cfg Hfl BOOT_FLAG_APP version date c2 w1)
    as (s & w2 & evs & -> & Ht2 & Hcase).
  assert (Hev : Forall (engine_event cfg) evs).
  { apply (@flag_events_allowed BOOT_FLAG_APP version date).
    destruct Hcase as [(_ & H) | (_ & H)]; [left; exact H | right; exact H]. }
  destruct Hcase as [(-> & _) | (-> & _)]; cbn [status_ok negb].
  - unfold port_, boot_port_system_reset, boot_port_uart_write.
    exists (evs ++ [EvUartWrite g_boot_ack; EvReset]).
    cbn [world_of ctx_of emit trace]. rewrite Ht2, <- !app_assoc.
    split; [reflexivity|]. split; [|exact Hinv2].
    apply Forall_app. split; [exact Hev|]. repeat constructor.
  - eapply safe_outcome_after; [exact Ht2 | exact Hev |].
    exists []. rewrite app_nil_r. split; [reflexivity|].
    split; [constructor | apply engine_inv_reset].
Qed.

End EngineRun.

Lemma layout_ok_stm32f407 : layout_ok stm32f407_config.
Proof. unfold layout_ok. cbn. repeat split; lia. Qed.

Lemma engine_inv_waiting (cfg : boot_config) (cursor : Z) :
  layout_ok cfg ->
  BOOT_APP_START_ADDR cfg <= cursor <= app_region_end cfg -> cursor mod 4 = 0 ->
  engine_inv cfg (waiting_context cfg cursor).
Proof.
  intros Hl Hc Ha. pose proof (layout_payload_max Hl) as Epm.
  destruct Hl as (_ & _ & _ & _ & Hp & _).
  unfold engine_inv, waiting_context, rx_cache_len, stream_cache_len.
  cbn [rx_cache payload_buf stream_cache current_addr].
  rewrite len_repeat, len_nil. repeat split; try lia.
Qed.

(** X12.  One data frame in the STM32F4 engine, whatever the flash answers.
    [bootloader_handle_payload] returns; its port calls are, in this order,
    the erase of the application region (only when no download is active;
    if it fails nothing else happens), word programming at aligned
    addresses inside the application region, and the Ack, which is sent
    exactly when the status is OK.  On OK the carry is not full, and the
    state is WAIT_FINISH with the download closed after the last frame
    ([remaining = 0]) and RECEIVING with the download open otherwise. *)
Theorem stm32_data_frame_effects
        (cfg : boot_config) (remaining payload_len : Z)
        (c : bootloader_context_t) (w : world) :
  layout_ok cfg -> engine_inv cfg c ->
  0 <= payload_len <= BOOT_PAYLOAD_MAX_SIZE cfg ->
  exists s c' w' erase words,
    Stm32.bootloader_handle_payload cfg remaining payload_len c w = Returns s c' w'
    /\ trace w' = trace w ++ erase ++ words
                  ++ (if status_ok s then [EvUartWrite g_boot_ack] else [])
    /\ (download_active c = true -> erase = [])
    /\ (download_active c = false ->
        erase = [EvErase (BOOT_APP_START_ADDR cfg) (BOOT_APP_MAX_SIZE cfg)]
        \/ (erase = [EvEraseFailed (BOOT_APP_START_ADDR cfg) (BOOT_APP_MAX_SIZE cfg)]
            /\ words = [] /\ s = BOOT_PORT_ERROR /\ c' = c))
    /\ Forall (in_span (BOOT_APP_START_ADDR cfg) (app_region_end cfg)) words
    /\ (s = BOOT_PORT_OK ->
        stream_cache_len c' <= 3
        /\ state c' = (if remaining =? 0 then BOOT_STATE_WAIT_FINISH
                       else BOOT_STATE_RECEIVING)
        /\ download_active c' = negb (remaining =? 0)).
Proof.
  intros Hl (Hrx & Hbuf & Hcar & Hcur & Hal) Hpl.
  destruct (@stm32_handle_payload_shape cfg Hl remaining payload_len c w
              Hpl Hbuf Hcar Hcur Hal)
    as (s & c' & w' & erase & words & E & Ht & Hact & Hin & Hw & _ & _ & _ & _ & _ & _ & Hok).
  exists s, c', w', erase, words. auto 10.
Qed.

Lemma stm32_data_frame_effects_witness :
  let cfg := stm32f407_config in
  let c := waiting_context cfg 0x08010008 in
  let w := {| flash := fun _ => xff; oracle := [true; false];
              uart_rx := []; trace := [] |} in
  layout_ok cfg /\ engine_inv cfg c /\ 0 <= 8 <= BOOT_PAYLOAD_MAX_SIZE cfg
  /\ exists s c' w' erase words,
       Stm32.bootloader_handle_payload cfg 100 8 c w = Returns s c' w'
       /\ trace w' = trace w ++ erase ++ words
                     ++ (if status_ok s then [EvUartWrite g_boot_ack] else [])
       /\ Forall (in_span (BOOT_APP_START_ADDR cfg) (app_region_end cfg)) words.
Proof.
  intros cfg c w.
  assert (H1 : layout_ok cfg) by exact layout_ok_stm32f407.
  assert (H2 : engine_inv cfg c)
    by (apply engine_inv_waiting; [exact H1 | cbn; lia | reflexivity]).
  assert (H3 : 0 <= 8 <= BOOT_PAYLOAD_MAX_SIZE cfg) by (cbn; lia).
  split; [exact H1|]. split; [exact H2|]. split; [exact H3|].
  destruct (@stm32_data_frame_effects cfg 100 8 c w H1 H2 H3)
    as (s & c' & w' & erase & words & E & Ht & _ & _ & Hw & _).
  exists s, c', w', erase, words. auto.
Defined.

(** X13.  A data frame that would end past the application region.  With a
    download active, when the carry and the payload rounded up to whole words
    do not fit between the cursor and the end of the region,
    [bootloader_handle_payload] returns an error before any flash operation
    and any transmission on the protocol UART: nothing is erased or
    programmed and no Ack is sent; only the state becomes RECEIVING.  (The
    source logs "flash range overflow" on this path; [BOOT_LOG] is not
    embedded.) *)
Theorem stm32_frame_past_region_refused
        (cfg : boot_config) (remaining payload_len : Z)
        (c : bootloader_context_t) (w : world) :
  layout_ok cfg -> engine_inv cfg c ->
  0 <= payload_len <= BOOT_PAYLOAD_MAX_SIZE cfg ->
  download_active c = true ->
  app_region_end cfg < current_addr c + 4 * ceil4 (stream_cache_len c + payload_len) ->
  Stm32.bootloader_handle_payload cfg remaining payload_len c w
  = Returns BOOT_PORT_ERROR (set_state BOOT_STATE_RECEIVING c) w.
Proof.
  intros Hl (Hrx & Hbuf & Hcar & Hcur & Hal) Hpl Hda Hover.
  unfold Stm32.bootloader_handle_payload, bootloader_prepare_download.
  unfold bind, get, modify, ret. rewrite Hda. cbn [status_ok negb].
  rewrite (@flash_range_overflow_spec cfg Hl (set_state BOOT_STATE_RECEIVING c)
             payload_len Hpl)
    by (unfold stream_cache_len in *; cbn [stream_cache current_addr set_state]; lia).
  unfold stream_cache_len. cbn [stream_cache current_addr set_state].
  unfold stream_cache_len in Hover.
  destruct (Z.gtb_spec (current_addr c + 4 * ceil4 (len (stream_cache c) + payload_len))
                       (app_region_end cfg)); [reflexivity | lia].
Qed.

Lemma stm32_frame_past_region_refused_witness :
  let cfg := stm32f407_config in
  let c := set_download_active true (waiting_context cfg 0x080DFFFC) in
  layout_ok cfg /\ engine_inv cfg c /\ download_active c = true
  /\ app_region_end cfg < current_addr c + 4 * ceil4 (stream_cache_len c + 8)
  /\ Stm32.bootloader_handle_payload cfg 0 8 c blank_world
     = Returns BOOT_PORT_ERROR (set_state BOOT_STATE_RECEIVING c) blank_world.
Proof.
  intros cfg c.
  assert (H1 : layout_ok cfg) by exact layout_ok_stm32f407.
  assert (H2 : engine_inv cfg c).
  { pose proof (@engine_inv_waiting cfg 0x080DFFFC H1 ltac:(cbn; lia) eq_refl) as H.
    exact H. }
  assert (H3 : 0 <= 8 <= BOOT_PAYLOAD_MAX_SIZE cfg) by (cbn; lia).
  assert (H4 : download_active c = true) by reflexivity.
  assert (H5 : app_region_end cfg
               < current_addr c + 4 * ceil4 (stream_cache_len c + 8))
    by (vm_compute; reflexivity).
  split; [exact H1|]. split; [exact H2|]. split; [exact H4|]. split; [exact H5|].
  exact (@stm32_frame_past_region_refused cfg 0 8 c blank_world H1 H2 H3 H4 H5).
Defined.

(** X14.  The invariant of the STM32F4 engine.  If, before a call of
    [easy_bootloader_run], the receive cache and the payload buffer are
    within their arrays, the carry holds at most 3 bytes and the cursor is a
    word boundary inside the application region, the same holds after the
    call, for every content of the receive buffer and every behaviour of the
    flash - also when the call ends in a reset. *)
Theorem stm32_run_keeps_engine_invariant
        (cfg : boot_config) (c : bootloader_context_t) (w : world) :
  layout_ok cfg -> engine_inv cfg c ->
  engine_inv cfg (ctx_of (Stm32.easy_bootloader_run cfg c w)).
Proof.
  intros Hl Hinv. destruct (@stm32_run_safe cfg Hl c w Hinv) as (evs & _ & _ & H).
  exact H.
Qed.

Lemma stm32_run_keeps_engine_invariant_witness :
  let cfg := stm32f407_config in
  let c := waiting_context cfg 0x08010008 in
  let w := {| flash := fun _ => xff; oracle := [true; true; false];
              uart_rx := encode_finish_frame 7 0x20251215; trace := [] |} in
  layout_ok cfg /\ engine_inv cfg c
  /\ engine_inv cfg (ctx_of (Stm32.easy_bootloader_run cfg c w)).
Proof.
  intros cfg c w.
  assert (H1 : layout_ok cfg) by exact layout_ok_stm32f407.
  assert (H2 : engine_inv cfg c)
    by (apply engine_inv_waiting; [exact H1 | cbn; lia | reflexivity]).
  split; [exact H1|]. split; [exact H2|].
  exact (@stm32_run_keeps_engine_invariant cfg c w H1 H2).
Defined.

Lemma stm32_session_safe (cfg : boot_config) (chunks : list (list byte)) :
  layout_ok cfg ->
  forall (c : bootloader_context_t) (w : world),
    engine_inv cfg c -> safe_outcome cfg w (stm32_session cfg chunks c w).
Proof.
  intros Hl. induction chunks as [|chunk rest IH]; intros c w Hinv.
  - exists []. rewrite app_nil_r. split; [reflexivity|].
    split; [constructor | exact Hinv].
  - cbn [stm32_session].
    destruct (@stm32_run_safe cfg Hl c (uart_arrive chunk w) Hinv)
      as (evs & Ht & Hev & Hi).
    cbn [uart_arrive trace] in Ht.
    destruct (Stm32.easy_bootloader_run cfg c (uart_arrive chunk w))
      as [[] c1 w1 | c1 w1]; cbn [world_of ctx_of] in Ht, Hi.
    + eapply safe_outcome_after; [exact Ht | exact Hev | apply IH; exact Hi].
    + exists evs. auto.
Qed.

(** X15.  What the STM32F4 engine can do to the hardware.  Over any number
    of calls of [easy_bootloader_run], whatever arrives on the serial line
    between them and whatever the flash answers, every flash operation is
    an erase of the whole application region or of the whole flag region, or
    the programming of a word inside the application region or of one of the
    three flag words; every transmission through [boot_port_uart_write] is
    the Ack frame; and the only other event is the system reset.  In
    particular no flash write is refused for a misaligned address or length
    and the engine never jumps to the application.  The [BOOT_LOG] lines
    are not embedded: the statement is about the flash, the protocol UART,
    the jump and the reset, not about the log. *)
Theorem stm32_engine_touches_only_its_regions
        (cfg : boot_config) (chunks : list (list byte))
        (c : bootloader_context_t) (w : world) :
  layout_ok cfg -> engine_inv cfg c ->
  exists evs,
    trace (world_of (stm32_session cfg chunks c w)) = trace w ++ evs
    /\ Forall (engine_event cfg) evs.
Proof.
  intros Hl Hinv.
  destruct (@stm32_session_safe cfg chunks Hl c w Hinv) as (evs & Ht & Hev & _).
  exists evs. auto.
Qed.

Lemma stm32_engine_touches_only_its_regions_witness :
  let cfg := stm32f407_config in
  let c := set_state BOOT_STATE_IDLE (waiting_context cfg 0x08010000) in
  let chunks := [ [x00; x55]; encode_data_frame 0 [xaa; xbb; xcc; xdd; xee];
                  encode_finish_frame 7 0x20251215 ] in
  layout_ok cfg /\ engine_inv cfg c
  /\ exists evs,
       trace (world_of (stm32_session cfg chunks c blank_world))
       = trace blank_world ++ evs
       /\ Forall (engine_event cfg) evs.
Proof.
  intros cfg c chunks.
  assert (H1 : layout_ok cfg) by exact layout_ok_stm32f407.
  assert (H2 : engine_inv cfg c).
  { pose proof (@engine_inv_waiting cfg 0x08010000 H1 ltac:(cbn; lia) eq_refl) as H.
    exact H. }
  split; [exact H1|]. split; [exact H2|].
  exact (@stm32_engine_touches_only_its_regions cfg chunks c blank_world H1 H2).
Defined.

(** ** A download on a healthy flash *)

(** *** The flash side of the engine never touches the receive buffer *)

Lemma keeps_rx_ret (A : Type) (a : A) : keeps_rx (ret a).
Proof. intros c w. reflexivity. Qed.

Lemma keeps_rx_get : keeps_rx (@get bootloader_context_t).
Proof. intros c w. reflexivity. Qed.

Lemma keeps_rx_modify (f : bootloader_context_t -> bootloader_context_t) :
  keeps_rx (modify f).
Proof. intros c w. reflexivity. Qed.

Lemma keeps_rx_bind (A B : Type) (m : BM A) (k : A -> BM B) :
  keeps_rx m -> (forall a, keeps_rx (k a)) -> keeps_rx (bind m k).
Proof.
  intros Hm Hk c w. unfold bind. specialize (Hm c w).
  destruct (m c w) as [a c1 w1|c1 w1]; cbn [world_of] in *.
  - rewrite (Hk a c1 w1). exact Hm.
  - exact Hm.
Qed.

Lemma keeps_rx_port (A : Type) (f : world -> A * world) :
  (forall w, uart_rx (snd (f w)) = uart_rx w) ->
  keeps_rx (port (ctx_t := bootloader_context_t) f).
Proof.
  intros Hf c w. unfold port. specialize (Hf w).
  destruct (f w) as [a w1]. exact Hf.
Qed.

Lemma keeps_rx_uart_write (data : list byte) :
  keeps_rx (port_ (ctx_t := bootloader_context_t) (boot_port_uart_write data)).
Proof. intros c w. reflexivity. Qed.

Lemma erase_rx (addr size : Z) (w : world) :
  uart_rx (snd (boot_port_flash_erase addr size w)) = uart_rx w.
Proof.
  unfold boot_port_flash_erase. pose proof (draw_shape w) as (_ & Hu & _).
  destruct (draw w) as [ok w1]. destruct ok; exact Hu.
Qed.

Lemma program_words_rx (data : list byte) :
  forall addr w, uart_rx (snd (program_words addr data w)) = uart_rx w.
Proof.
  remember (length data) as n eqn:Hn.
  assert (Hle : (length data <= n)%nat) by lia. clear Hn.
  revert data Hle. induction n as [|n IH]; intros data Hle addr w;
    (destruct data as [|b0 [|b1 [|b2 [|b3 rest]]]]; try reflexivity).
  { cbn in Hle. lia. }
  cbn [program_words]. pose proof (draw_shape w) as (_ & Hu & _).
  destruct (draw w) as [ok w1]. cbn [snd] in Hu. destruct ok; [|exact Hu].
  rewrite IH by (cbn in Hle; lia). exact Hu.
Qed.

Lemma flash_write_rx (addr : Z) (data : list byte) (w : world) :
  uart_rx (snd (boot_port_flash_write addr data w)) = uart_rx w.
Proof.
  unfold boot_port_flash_write.
  destruct (negb (addr mod 4 =? 0) || negb (len data mod 4 =? 0));
    [reflexivity | apply program_words_rx].
Qed.

Ltac keeps_rx_step :=
  first [ apply keeps_rx_ret | apply keeps_rx_get | apply keeps_rx_modify
        | apply keeps_rx_uart_write
        | apply keeps_rx_port; intros ?; first [apply erase_rx | apply flash_write_rx]
        | apply keeps_rx_bind; [|intros ?]
        | match goal with
          | |- keeps_rx (if ?b then _ else _) => destruct b
          | |- keeps_rx (let (_, _) := ?x in _) => destruct x
          end ].

Lemma stream_write_rx (data : list byte) : keeps_rx (bootloader_stream_write data).
Proof.
  unfold bootloader_stream_write, stream_write_carry, stream_write_aligned.
  repeat keeps_rx_step.
Qed.

Lemma stream_flush_rx : keeps_rx bootloader_stream_flush.
Proof. unfold bootloader_stream_flush. repeat keeps_rx_step. Qed.

Lemma prepare_download_rx (cfg : boot_config) :
  keeps_rx (bootloader_prepare_download cfg).
Proof. unfold bootloader_prepare_download. repeat keeps_rx_step. Qed.

Lemma stm32_handle_payload_rx (cfg : boot_config) (r pl : Z) :
  keeps_rx (Stm32.bootloader_handle_payload cfg r pl).
Proof.
  unfold Stm32.bootloader_handle_payload.
  repeat first [ apply prepare_download_rx | apply stream_write_rx
               | apply stream_flush_rx | keeps_rx_step ].
Qed.

(** *** Words of a stream cut at a word boundary *)

Lemma pad_ff_congr (l1 l2 : list byte) :
  len l1 mod 4 = len l2 mod 4 -> pad_ff l1 = pad_ff l2.
Proof. unfold pad_ff. intros ->. reflexivity. Qed.

Lemma len_pad_ff (l : list byte) : len (l ++ pad_ff l) = 4 * ceil4 (len l).
Proof.
  unfold pad_ff. rewrite len_app, len_repeat.
  pose proof (len_nonneg l) as Hn.
  pose proof (Z.mod_pos_bound (4 - len l mod 4) 4 ltac:(lia)).
  rewrite Z2Nat.id by lia. apply ceil4_pad. exact Hn.
Qed.

(** The words of [total ++ rest] are the whole words of [total], then the
    words of what [total] leaves over followed by [rest]. *)
Lemma word_events_split (a : Z) (total rest : list byte) :
  let k := 4 * (len total / 4) in
  word_events a (total ++ rest)
  = word_events a total
    ++ word_events (a + k) (skipn (Z.to_nat k) total ++ rest).
Proof.
  intros k. pose proof (len_nonneg total) as Hn.
  destruct (div4_facts Hn) as (Hk & _ & _). fold k in Hk.
  destruct (firstn_skipn_len total Hk) as (Hf & _).
  assert (Eww : whole_words (firstn (Z.to_nat k) total)).
  { apply whole_words_len. rewrite Hf. unfold k.
    rewrite Z.mul_comm. apply Z.mod_mul. lia. }
  rewrite <- (firstn_skipn (Z.to_nat k) total) at 1.
  rewrite <- app_assoc, (word_events_app Eww), Hf.
  f_equal. unfold k. apply word_events_whole_prefix.
Qed.

Lemma len_leftover (total : list byte) :
  let k := 4 * (len total / 4) in
  len (skipn (Z.to_nat k) total) = len total mod 4.
Proof.
  intros k. pose proof (len_nonneg total) as Hn.
  destruct (div4_facts Hn) as (Hk & Hm & _). fold k in Hk, Hm.
  destruct (firstn_skipn_len total Hk) as (_ & Hs). lia.
Qed.

Lemma pad_ff_leftover (total rest : list byte) :
  let k := 4 * (len total / 4) in
  pad_ff (skipn (Z.to_nat k) total ++ rest) = pad_ff (total ++ rest).
Proof.
  intros k. apply pad_ff_congr. rewrite !len_app.
  pose proof (len_leftover total) as E. cbv zeta in E. fold k in E. rewrite E.
  rewrite Zplus_mod_idemp_l. reflexivity.
Qed.

(** *** One data frame *)

Section HealthyFrame.

Variable cfg : boot_config.
Hypothesis layout : layout_ok cfg.

(** [bootloader_handle_payload] while a download is active. *)
Lemma stm32_handle_payload_active (r : Z) (p : list byte)
      (c : bootloader_context_t) (w : world) :
  all_ok w -> download_active c = true ->
  firstn (Z.to_nat (len p)) (payload_buf c) = p ->
  len p <= BOOT_PAYLOAD_MAX_SIZE cfg ->
  stream_cache_len c <= 3 ->
  BOOT_APP_START_ADDR cfg <= current_addr c -> current_addr c mod 4 = 0 ->
  current_addr c + 4 * ceil4 (stream_cache_len c + len p) <= app_region_end cfg ->
  let total := stream_cache c ++ p in
  let tail := if r =? 0 then pad_ff total else [] in
  exists c' w',
    Stm32.bootloader_handle_payload cfg r (len p) c w = Returns BOOT_PORT_OK c' w'
    /\ all_ok w'
    /\ trace w' = trace w ++ word_events (current_addr c) (total ++ tail)
                  ++ [EvUartWrite g_boot_ack]
    /\ rx_cache c' = rx_cache c /\ payload_buf c' = payload_buf c
    /\ initialized c' = initialized c
    /\ state c' = (if r =? 0 then BOOT_STATE_WAIT_FINISH else BOOT_STATE_RECEIVING)
    /\ download_active c' = negb (r =? 0)
    /\ current_addr c' = current_addr c + 4 * (len (total ++ tail) / 4)
    /\ stream_cache c' = skipn (Z.to_nat (4 * (len (total ++ tail) / 4))) (total ++ tail).
Proof.
  intros Hok Hda Hp Hpl Hcar Hlo Hal Hfit total tail.
  pose proof layout as (H0 & _ & Hm & Hend & Hpm & _).
  assert (Hhi : app_region_end cfg < 2 ^ 32)
    by (unfold app_region_end; change (2 ^ 17) with 131072 in Hend; lia).
  assert (Hhi4 : app_region_end cfg + 4 < 2 ^ 32)
    by (unfold app_region_end; change (2 ^ 17) with 131072 in Hend; lia).
  pose proof (len_nonneg p) as Hnp.
  pose proof (len_nonneg (stream_cache c)) as Hnc.
  unfold stream_cache_len in *.
  pose proof (@ceil4_bounds (len (stream_cache c) + len p) ltac:(lia)) as Hceil.
  assert (Ep : bootloader_prepare_download cfg c w = Returns BOOT_PORT_OK c w)
    by (unfold bootloader_prepare_download, bind, get, ret; rewrite Hda; reflexivity).
  unfold Stm32.bootloader_handle_payload. unfold bind at 1. rewrite Ep.
  cbn [status_ok negb].
  unfold bind at 1. unfold modify at 1. unfold bind at 1. unfold get at 1.
  set (c2 := set_state BOOT_STATE_RECEIVING c).
  assert (Hf2 : rx_cache c2 = rx_cache c /\ payload_buf c2 = payload_buf c
                /\ initialized c2 = initialized c
                /\ current_addr c2 = current_addr c
                /\ stream_cache c2 = stream_cache c
                /\ state c2 = BOOT_STATE_RECEIVING
                /\ download_active c2 = true)
    by (unfold c2; cbn; auto 10).
  destruct Hf2 as (Erx & Epb & Ein & Ecu & Esc & Est & Eda). clearbody c2.
  rewrite (@flash_range_overflow_spec cfg layout c2 (len p))
    by (unfold stream_cache_len, app_region_end in *; rewrite ?Esc, ?Ecu; lia).
  unfold stream_cache_len. rewrite Esc, Ecu, Epb, Hp.
  destruct (Z.gtb_spec (current_addr c + 4 * ceil4 (len (stream_cache c) + len p))
                       (app_region_end cfg)) as [Hover|_]; [lia|].
  (* the write *)
  destruct (@stream_write_all_ok p c2 w Hok) as (c3 & w3 & E3 & Hok3 & Hcur3 & Hcar3 & Ht3);
    try (unfold stream_cache_len; rewrite ?Esc, ?Ecu; first [assumption | lia]).
  cbv zeta in Hcur3, Hcar3, Ht3. rewrite Ecu in Hcur3, Ht3.
  rewrite ?Esc in Hcur3. rewrite ?Esc in Hcar3. rewrite ?Esc in Ht3.
  fold total in Hcur3, Hcar3, Ht3.
  destruct (@stream_write_span (BOOT_APP_START_ADDR cfg) (app_region_end cfg)
              H0 Hhi p c2 w)
    as (s & c3' & w3' & evs & E3' & _ & _ & Hf3 & _);
    try (unfold stream_cache_len; rewrite ?Esc, ?Ecu; first [assumption | lia]).
  rewrite E3 in E3'. injection E3' as <- <- <-.
  destruct (writer_frame_fields Hf3) as (Erx3 & Epb3 & _ & _ & _ & Est3 & Eda3 & Ein3).
  unfold bind at 1. rewrite E3. cbn [status_ok negb].
  pose proof (len_nonneg total) as Hnt.
  destruct (div4_facts Hnt) as (Hk & Hkm & Hmod).
  pose proof (len_leftover total) as Hleft. cbv zeta in Hleft.
  assert (Elt : len total = len (stream_cache c) + len p) by apply len_app.
  subst tail. destruct (Z.eqb_spec r 0) as [Er|Nr].
  - (* last frame: flush *)
    assert (Hc3 : stream_cache_len c3 <= 3)
      by (unfold stream_cache_len; rewrite Hcar3, Hleft; lia).
    assert (Hal3 : current_addr c3 mod 4 = 0)
      by (rewrite Hcur3; apply aligned_plus, Hal).
    assert (H03 : 0 <= current_addr c3) by (rewrite Hcur3; lia).
    destruct (@stream_flush_all_ok c3 w3 Hok3 Hc3 Hal3 H03)
      as (c4 & w4 & E4 & Hok4 & Hcur4 & Hcar4 & Ht4).
    { intros _. rewrite Hcur3. lia. }
    cbv zeta in Hcur4, Ht4.
    assert (Epad : repeat xff (Z.to_nat ((4 - stream_cache_len c3 mod 4) mod 4))
                   = pad_ff total).
    { unfold stream_cache_len. rewrite Hcar3.
      pose proof (pad_ff_leftover total []) as E. cbv zeta in E.
      rewrite !app_nil_r in E. exact E. }
    rewrite Epad, Hcar3, Hcur3 in Hcur4, Ht4.
    destruct (@stream_flush_span (BOOT_APP_START_ADDR cfg) (app_region_end cfg)
                H0 Hhi c3 w3 ltac:(unfold stream_cache_len in *; lia) Hal3)
      as (s4 & c4' & w4' & evs4 & E4' & _ & _ & Hf4 & _).
    { rewrite Hcur3. lia. }
    { intros Hpos. rewrite Hcur3. unfold stream_cache_len in Hpos.
      rewrite Hcar3, Hleft in Hpos. lia. }
    rewrite E4 in E4'. injection E4' as <- <- <-.
    destruct (writer_frame_fields Hf4) as (Erx4 & Epb4 & _ & _ & _ & Est4 & Eda4 & Ein4).
    unfold bind at 1. unfold bind at 1. unfold bind at 1. rewrite E4.
    cbn [status_ok]. unfold modify, ret, bind, port_, boot_port_uart_write.
    cbn [status_ok]. do 2 eexists. split; [reflexivity|].
    cbn [emit trace rx_cache payload_buf initialized current_addr
         stream_cache state download_active set_state set_download_active].
    pose proof (len_pad_ff total) as Hlp.
    assert (Ediv : 4 * (len (total ++ pad_ff total) / 4) = len (total ++ pad_ff total)).
    { rewrite Hlp.
      replace (4 * ceil4 (len total) / 4) with (ceil4 (len total)); [reflexivity|].
      rewrite Z.mul_comm, Z.div_mul by lia. reflexivity. }
    rewrite Ediv.
    split; [apply all_ok_emit; exact Hok4|].
    split.
    { rewrite Ht4, Ht3, <- !app_assoc. f_equal.
      rewrite (@word_events_split (current_addr c) total (pad_ff total)),
        <- app_assoc. reflexivity. }
    rewrite Erx4, Epb4, Ein4, Erx3, Epb3, Ein3, Erx, Epb, Ein.
    repeat match goal with |- _ /\ _ => split; [reflexivity|] end.
    split.
    { rewrite Hcur4, (len_app total), len_app, len_skipn.
      pose proof (len_nonneg (pad_ff total)). lia. }
    rewrite Hcar4, skipn_all2; [reflexivity|]. unfold len. lia.
  - unfold bind, ret, port_, boot_port_uart_write. cbn [status_ok].
    do 2 eexists. split; [reflexivity|]. cbn [emit trace].
    rewrite app_nil_r.
    split; [apply all_ok_emit; exact Hok3|].
    split; [rewrite Ht3, <- app_assoc; reflexivity|].
    rewrite Erx3, Epb3, Ein3, Est3, Eda3, Erx, Epb, Ein, Est, Eda.
    repeat match goal with |- _ /\ _ => split; [reflexivity|] end.
    split; [exact Hcur3 | exact Hcar3].
Qed.

Lemma prepared_facts (c : bootloader_context_t) :
  download_active (prepared cfg c) = true
  /\ rx_cache (prepared cfg c) = rx_cache c
  /\ payload_buf (prepared cfg c) = payload_buf c
  /\ initialized (prepared cfg c) = initialized c
  /\ state (prepared cfg c) = state c.
Proof.
  unfold prepared. destruct (download_active c) eqn:E; cbn; auto.
Qed.

(** [bootloader_handle_payload] on a healthy flash. *)
Lemma stm32_handle_payload_healthy (r : Z) (p : list byte)
      (c : bootloader_context_t) (w : world) :
  all_ok w ->
  firstn (Z.to_nat (len p)) (payload_buf c) = p ->
  len p <= BOOT_PAYLOAD_MAX_SIZE cfg ->
  let c0 := prepared cfg c in
  stream_cache_len c0 <= 3 ->
  BOOT_APP_START_ADDR cfg <= current_addr c0 -> current_addr c0 mod 4 = 0 ->
  current_addr c0 + 4 * ceil4 (stream_cache_len c0 + len p) <= app_region_end cfg ->
  let total := stream_cache c0 ++ p in
  let tail := if r =? 0 then pad_ff total else [] in
  exists c' w',
    Stm32.bootloader_handle_payload cfg r (len p) c w = Returns BOOT_PORT_OK c' w'
    /\ all_ok w'
    /\ trace w' = trace w ++ erase_part cfg c
                  ++ word_events (current_addr c0) (total ++ tail)
                  ++ [EvUartWrite g_boot_ack]
    /\ rx_cache c' = rx_cache c /\ payload_buf c' = payload_buf c
    /\ initialized c' = initialized c
    /\ state c' = (if r =? 0 then BOOT_STATE_WAIT_FINISH else BOOT_STATE_RECEIVING)
    /\ download_active c' = negb (r =? 0)
    /\ current_addr c' = current_addr c0 + 4 * (len (total ++ tail) / 4)
    /\ stream_cache c' = skipn (Z.to_nat (4 * (len (total ++ tail) / 4))) (total ++ tail).
Proof.
  intros Hok Hp Hpl c0 Hcar Hlo Hal Hfit total tail.
  destruct (prepared_facts c) as (Eda0 & Erx0 & Epb0 & Ein0 & _). fold c0 in Eda0, Erx0, Epb0, Ein0.
  assert (Hstep : exists w1,
            Stm32.bootloader_handle_payload cfg r (len p) c w
            = Stm32.bootloader_handle_payload cfg r (len p) c0 w1
            /\ all_ok w1 /\ trace w1 = trace w ++ erase_part cfg c).
  { unfold c0, prepared, erase_part. destruct (download_active c) eqn:Eda.
    - exists w. rewrite app_nil_r. auto.
    - destruct (@erase_all_ok (BOOT_APP_START_ADDR cfg) (BOOT_APP_MAX_SIZE cfg) w Hok)
        as (w1 & Ee & Hok1 & Ht1 & _).
      exists w1. split; [|split; assumption].
      unfold Stm32.bootloader_handle_payload, bootloader_prepare_download.
      unfold bind, get, port, modify, ret. rewrite Eda, Ee.
      cbn [status_ok negb download_active set_download_active]. reflexivity. }
  destruct Hstep as (w1 & -> & Hok1 & Ht1).
  destruct (@stm32_handle_payload_active r p c0 w1 Hok1 Eda0
              ltac:(rewrite Epb0; exact Hp) Hpl Hcar Hlo Hal Hfit)
    as (c' & w' & E & Hok' & Ht & Hrx & Hpb & Hin & Hrest).
  exists c', w'. split; [exact E|]. split; [exact Hok'|].
  split; [rewrite Ht, Ht1, <- app_assoc; reflexivity|].
  rewrite Hrx, Hpb, Hin, Erx0, Epb0, Ein0.
  repeat match goal with |- _ /\ _ => split; [reflexivity|] end.
  exact Hrest.
Qed.

End HealthyFrame.

(** *** One run per data frame *)

Lemma acks_app (t1 t2 : list event) : acks (t1 ++ t2) = (acks t1 + acks t2)%nat.
Proof.
  induction t1 as [|e t1 IH]; [reflexivity|].
  destruct e; cbn [app acks]; try exact IH.
  destruct (list_eq_dec byte_eq_dec data g_boot_ack); rewrite IH; reflexivity.
Qed.

Lemma acks_word_events (l : list byte) : forall a, acks (word_events a l) = O.
Proof.
  remember (length l) as n eqn:Hn.
  assert (Hle : (length l <= n)%nat) by lia. clear Hn.
  revert l Hle. induction n as [|n IH]; intros l Hle a;
    (destruct l as [|b0 [|b1 [|b2 [|b3 rest]]]]; try reflexivity).
  { cbn in Hle. lia. }
  cbn [word_events acks]. apply IH. cbn in Hle. lia.
Qed.

Lemma word_events_word_or_ack (l : list byte) :
  forall a, Forall word_or_ack (word_events a l).
Proof.
  remember (length l) as n eqn:Hn.
  assert (Hle : (length l <= n)%nat) by lia. clear Hn.
  revert l Hle. induction n as [|n IH]; intros l Hle a;
    (destruct l as [|b0 [|b1 [|b2 [|b3 rest]]]]; try (constructor; fail)).
  { cbn in Hle. lia. }
  cbn [word_events]. constructor; [exact I|]. apply IH. cbn in Hle. lia.
Qed.

Lemma stm32_session_app (cfg : boot_config) (l1 l2 : list (list byte)) :
  forall (c : bootloader_context_t) (w : world),
    stm32_session cfg (l1 ++ l2) c w
    = match stm32_session cfg l1 c w with
      | Returns _ c1 w1 => stm32_session cfg l2 c1 w1
      | Leaves c1 w1 => Leaves c1 w1
      end.
Proof.
  induction l1 as [|chunk l1 IH]; intros c w; [reflexivity|].
  cbn [app stm32_session].
  destruct (Stm32.easy_bootloader_run cfg c (uart_arrive chunk w)) as [[] c1 w1|c1 w1];
    [apply IH | reflexivity].
Qed.

Section HealthyDownload.

Variable cfg : boot_config.
Hypothesis layout : layout_ok cfg.

Lemma prepared_writer (c c1 : bootloader_context_t) :
  download_active c1 = download_active c ->
  current_addr c1 = current_addr c -> stream_cache c1 = stream_cache c ->
  current_addr (prepared cfg c1) = current_addr (prepared cfg c)
  /\ stream_cache (prepared cfg c1) = stream_cache (prepared cfg c)
  /\ erase_part cfg c1 = erase_part cfg c.
Proof.
  unfold prepared, erase_part. intros -> Ha Hs.
  destruct (download_active c); cbn; auto.
Qed.

(** A run that receives exactly one data frame, on a healthy flash. *)
Lemma stm32_run_data_frame (r : Z) (p : list byte)
      (c : bootloader_context_t) (w : world) :
  all_ok w -> uart_rx w = [] ->
  initialized c = true -> state c <> BOOT_STATE_WAIT_FINISH -> rx_cache c = [] ->
  len (payload_buf c) = BOOT_PAYLOAD_MAX_SIZE cfg ->
  0 <= r < 2 ^ 24 -> len p <= BOOT_PAYLOAD_MAX_SIZE cfg ->
  let c0 := prepared cfg c in
  stream_cache_len c0 <= 3 ->
  BOOT_APP_START_ADDR cfg <= current_addr c0 -> current_addr c0 mod 4 = 0 ->
  current_addr c0 + 4 * ceil4 (stream_cache_len c0 + len p) <= app_region_end cfg ->
  let total := stream_cache c0 ++ p in
  let tail := if r =? 0 then pad_ff total else [] in
  exists c' w',
    Stm32.easy_bootloader_run cfg c (uart_arrive (encode_data_frame r p) w)
    = Returns tt c' w'
    /\ all_ok w' /\ uart_rx w' = []
    /\ trace w' = trace w ++ erase_part cfg c
                  ++ word_events (current_addr c0) (total ++ tail)
                  ++ [EvUartWrite g_boot_ack]
    /\ rx_cache c' = []
    /\ len (payload_buf c') = BOOT_PAYLOAD_MAX_SIZE cfg
    /\ initialized c' = true
    /\ state c' = (if r =? 0 then BOOT_STATE_WAIT_FINISH else BOOT_STATE_RECEIVING)
    /\ download_active c' = negb (r =? 0)
    /\ current_addr c' = current_addr c0 + 4 * (len (total ++ tail) / 4)
    /\ stream_cache c' = skipn (Z.to_nat (4 * (len (total ++ tail) / 4))) (total ++ tail).
Proof.
  intros Hok Hrx Hinit Hst Hc Hbuf Hr Hpl c0 Hcar Hlo Hal Hfit total tail.
  pose proof (layout_payload_max layout) as Epm.
  pose proof layout as (_ & _ & _ & _ & Hpm & _).
  pose proof (len_nonneg p) as Hnp.
  pose proof (len_data_frame r p (codec_checksum p)) as Hlen.
  fold (encode_data_frame r p) in Hlen.
  unfold Stm32.easy_bootloader_run. rewrite Hinit. cbn [negb].
  rewrite (@poll_whole cfg (encode_data_frame r p) c w ltac:(lia) Hrx).
  2:{ intros E. rewrite E, len_nil in Hlen. lia. }
  2:{ unfold rx_cache_len. rewrite Hc, len_nil, Hlen. lia. }
  rewrite Hc. cbn [app state set_rx_cache].
  set (c1 := set_rx_cache (encode_data_frame r p) c).
  assert (Hf1 : rx_cache c1 = encode_data_frame r p
                /\ payload_buf c1 = payload_buf c
                /\ download_active c1 = download_active c
                /\ current_addr c1 = current_addr c
                /\ stream_cache c1 = stream_cache c
                /\ initialized c1 = initialized c)
    by (unfold c1; cbn; auto 10).
  destruct Hf1 as (Erx1 & Epb1 & Eda1 & Ecu1 & Esc1 & Ein1). clearbody c1.
  assert (Hloop : exists c' w',
            match Stm32.run_loop cfg (length (rx_cache c1)) c1 w with
            | Some o => o
            | None => Returns tt c1 w
            end = Returns tt c' w'
            /\ all_ok w' /\ uart_rx w' = []
            /\ trace w' = trace w ++ erase_part cfg c
                          ++ word_events (current_addr c0) (total ++ tail)
                          ++ [EvUartWrite g_boot_ack]
            /\ rx_cache c' = []
            /\ len (payload_buf c') = BOOT_PAYLOAD_MAX_SIZE cfg
            /\ initialized c' = true
            /\ state c' = (if r =? 0 then BOOT_STATE_WAIT_FINISH
                           else BOOT_STATE_RECEIVING)
            /\ download_active c' = negb (r =? 0)
            /\ current_addr c' = current_addr c0 + 4 * (len (total ++ tail) / 4)
            /\ stream_cache c'
               = skipn (Z.to_nat (4 * (len (total ++ tail) / 4))) (total ++ tail)).
  { destruct (@try_extract_whole cfg Hpm r p Hr Hpl c1 Erx1) as (c2 & E2 & Hrx2 & Hp2).
    destruct (@try_extract_ctx cfg layout c1 c2 _ ltac:(rewrite Epb1; exact Hbuf) E2)
      as (_ & Hbuf2 & Esc2 & Ecu2 & Eda2 & Ein2 & _).
    destruct (@prepared_writer c c2) as (Ecur & Ecar & Eer);
      [congruence | congruence | congruence |].
    fold c0 in Ecur, Ecar.
    destruct (@stm32_handle_payload_healthy cfg layout r p c2 w Hok Hp2 Hpl)
      as (c3 & w3 & E3 & Hok3 & Ht3 & Hrx3 & Hpb3 & Hin3 & Hst3 & Hda3 & Hcur3 & Hcar3);
      try (unfold stream_cache_len in *; rewrite ?Ecur, ?Ecar; assumption).
    rewrite Ecur, Ecar, Eer in *. fold total in Ht3, Hcur3, Hcar3.
    fold tail in Ht3, Hcur3, Hcar3.
    assert (Hrx3' : uart_rx w3 = []).
    { pose proof (@stm32_handle_payload_rx cfg r (len p) c2 w) as H.
      rewrite E3 in H. cbn [world_of] in H. congruence. }
    assert (Hshort : bootloader_try_extract_frame cfg c3 = (None, c3)).
    { apply try_extract_short. unfold rx_cache_len. rewrite Hrx3, Hrx2. cbn. lia. }
    destruct (length (rx_cache c1)) as [|n] eqn:El.
    { unfold len in Hlen. rewrite <- Erx1, El in Hlen. lia. }
    cbn [Stm32.run_loop]. rewrite E2, E3. cbn [status_ok negb].
    assert (Eloop : Stm32.run_loop cfg n c3 w3 = Some (Returns tt c3 w3))
      by (destruct n; cbn [Stm32.run_loop]; rewrite Hshort; reflexivity).
    rewrite Eloop. exists c3, w3. split; [reflexivity|].
    split; [exact Hok3|]. split; [exact Hrx3'|]. split; [exact Ht3|].
    split; [congruence|]. split; [congruence|]. split; [congruence|].
    auto. }
  destruct (state c); try exact Hloop. contradiction Hst. reflexivity.
Qed.

(** *** A whole download *)

(** The data frames of a download, one per run: [frames] with a non-zero
    remaining field, then the last one. *)
Lemma stm32_session_frames (frames : list (Z * list byte)) :
  forall (last : list byte) (c : bootloader_context_t) (w : world),
    all_ok w -> uart_rx w = [] ->
    initialized c = true -> state c <> BOOT_STATE_WAIT_FINISH -> rx_cache c = [] ->
    len (payload_buf c) = BOOT_PAYLOAD_MAX_SIZE cfg ->
    Forall (fun f => 0 < fst f < 2 ^ 24
                     /\ len (snd f) <= BOOT_PAYLOAD_MAX_SIZE cfg) frames ->
    len last <= BOOT_PAYLOAD_MAX_SIZE cfg ->
    let c0 := prepared cfg c in
    stream_cache_len c0 <= 3 ->
    BOOT_APP_START_ADDR cfg <= current_addr c0 -> current_addr c0 mod 4 = 0 ->
    let pending := stream_cache c0 ++ concat (map snd frames) ++ last in
    current_addr c0 + 4 * ceil4 (len pending) <= app_region_end cfg ->
    exists c' w' body,
      stm32_session cfg
        (map (fun f => encode_data_frame (fst f) (snd f)) frames
         ++ [encode_data_frame 0 last]) c w
      = Returns tt c' w'
      /\ all_ok w' /\ uart_rx w' = []
      /\ trace w' = trace w ++ erase_part cfg c ++ body
      /\ programmed body
         = programmed (word_events (current_addr c0) (pending ++ pad_ff pending))
      /\ acks body = S (length frames)
      /\ Forall word_or_ack body
      /\ rx_cache c' = [] /\ initialized c' = true
      /\ state c' = BOOT_STATE_WAIT_FINISH.
Proof.
  induction frames as [|[r p] frames IH];
    intros last c w Hok Hrx Hinit Hst Hc Hbuf Hfr Hlast c0 Hcar Hlo Hal pending Hfit.
  - cbn [map concat app] in *. subst pending. cbn [app] in *.
    destruct (@stm32_run_data_frame 0 last c w Hok Hrx Hinit Hst Hc Hbuf
                ltac:(lia) Hlast Hcar Hlo Hal)
      as (c' & w' & E & Hok' & Hrx' & Ht & Hc' & _ & Hin' & Hst' & _).
    { unfold stream_cache_len. fold c0. rewrite <- len_app. exact Hfit. }
    fold c0 in Ht. cbn [Z.eqb] in Ht, Hst'.
    cbn [stm32_session]. rewrite E.
    exists c', w', (word_events (current_addr c0)
                      ((stream_cache c0 ++ last) ++ pad_ff (stream_cache c0 ++ last))
                    ++ [EvUartWrite g_boot_ack]).
    split; [reflexivity|]. split; [exact Hok'|]. split; [exact Hrx'|].
    split; [exact Ht|].
    split; [rewrite programmed_app; cbn [programmed]; apply app_nil_r|].
    split.
    { rewrite acks_app, acks_word_events. cbn [acks].
      destruct (list_eq_dec byte_eq_dec g_boot_ack g_boot_ack) as [_|N];
        [reflexivity | contradiction N; reflexivity]. }
    split.
    { apply Forall_app. split; [apply word_events_word_or_ack|].
      constructor; [reflexivity | constructor]. }
    auto.
  - cbn [map concat app fst snd] in *.
    apply Forall_cons_iff in Hfr as ((Hr & Hp) & Hfr). cbn [fst snd] in Hr, Hp.
    set (total := stream_cache c0 ++ p).
    set (later := concat (map snd frames) ++ last).
    assert (Epend : pending = total ++ later).
    { unfold pending, total, later. rewrite <- !app_assoc. reflexivity. }
    pose proof (len_nonneg total) as Hnt. pose proof (len_nonneg later) as Hnl.
    pose proof (len_nonneg p) as Hnp.
    pose proof (len_nonneg (stream_cache c0)) as Hnc.
    assert (Elt : len total = len (stream_cache c0) + len p) by apply len_app.
    assert (Elp : len pending = len total + len later)
      by (rewrite Epend; apply len_app).
    destruct (div4_facts Hnt) as (Hk & Hkm & Hmod).
    pose proof (len_leftover total) as Hleft. cbv zeta in Hleft.
    set (k := 4 * (len total / 4)) in *.
    pose proof (@ceil4_bounds (len total) Hnt) as Hc1.
    assert (Eceil : 4 * ceil4 (len pending) = k + 4 * ceil4 (len pending - k)).
    { unfold ceil4, k.
      replace (len pending + 3) with (len pending - 4 * (len total / 4) + 3
                                      + (len total / 4) * 4) by lia.
      rewrite Z.div_add by lia. lia. }
    assert (Hmono : 4 * ceil4 (len total) <= 4 * ceil4 (len pending)).
    { unfold ceil4. pose proof (Z.div_le_mono (len total + 3) (len pending + 3) 4
                                  ltac:(lia) ltac:(lia)). lia. }
    destruct (@stm32_run_data_frame r p c w Hok Hrx Hinit Hst Hc Hbuf
                ltac:(lia) Hp Hcar Hlo Hal)
      as (c1 & w1 & E1 & Hok1 & Hrx1 & Ht1 & Hc1' & Hbuf1 & Hin1 & Hst1 & Hda1
          & Hcur1 & Hcar1).
    { unfold stream_cache_len. fold c0. rewrite <- Elt. lia. }
    fold c0 in Ht1, Hcur1, Hcar1. fold total in Ht1, Hcur1, Hcar1.
    assert (Er : (r =? 0) = false) by (apply Z.eqb_neq; lia).
    rewrite Er in *. rewrite app_nil_r in *. fold k in Hcur1, Hcar1.
    cbn [negb] in Hda1.
    assert (Eprep : prepared cfg c1 = c1) by (unfold prepared; rewrite Hda1; reflexivity).
    assert (Eer1 : erase_part cfg c1 = [])
      by (unfold erase_part; rewrite Hda1; reflexivity).
    destruct (IH last c1 w1 Hok1 Hrx1 Hin1 ltac:(rewrite Hst1; discriminate)
                Hc1' Hbuf1 Hfr Hlast)
      as (c' & w' & body & E & Hok' & Hrx' & Ht & Hprog & Hacks & Hbody & Hrest);
      rewrite ?Eprep.
    { unfold stream_cache_len. rewrite Hcar1, Hleft. lia. }
    { rewrite Hcur1. lia. }
    { rewrite Hcur1. apply aligned_plus, Hal. }
    { rewrite Hcur1, Hcar1. fold later. rewrite len_app, Hleft.
      replace (len total mod 4 + len later) with (len pending - k) by lia. lia. }
    rewrite Eprep, Eer1, Hcur1, Hcar1 in *. fold later in Hprog. cbn [app] in Ht.
    cbn [stm32_session]. rewrite E1.
    exists c', w', (word_events (current_addr c0) total
                    ++ [EvUartWrite g_boot_ack] ++ body).
    split; [exact E|]. split; [exact Hok'|]. split; [exact Hrx'|].
    split; [rewrite Ht, Ht1, <- !app_assoc; reflexivity|].
    split.
    { rewrite !programmed_app, Hprog. cbn [programmed app].
      rewrite <- programmed_app. f_equal.
      rewrite Epend, <- (app_assoc total later (pad_ff (total ++ later))).
      rewrite (@word_events_split (current_addr c0) total
                 (later ++ pad_ff (total ++ later))).
      fold k. pose proof (pad_ff_leftover total later) as Epad. cbv zeta in Epad.
      fold k in Epad. rewrite Epad, <- app_assoc. reflexivity. }
    split.
    { rewrite !acks_app, acks_word_events, Hacks. cbn [acks length].
      destruct (list_eq_dec byte_eq_dec g_boot_ack g_boot_ack) as [_|N];
        [reflexivity | contradiction N; reflexivity]. }
    split; [|exact Hrest].
    apply Forall_app. split; [apply word_events_word_or_ack|].
    constructor; [reflexivity | exact Hbody].
Qed.

End HealthyDownload.

(** X16.  A whole download through the STM32F4 engine, on a healthy flash.
    The image arrives as data frames, one per call of [easy_bootloader_run]:
    any number of frames with a non-zero remaining field, a last frame with
    remaining = 0, then the finish frame.  Starting with no download active
    and an empty cache, the engine erases the application region once,
    programs the image from the start of the region, cut into words in
    arrival order and filled up to a whole word with 0xFF, acknowledges every
    data frame, and on the finish frame erases the flag region, programs flag
    = BOOT_FLAG_APP with the version and date of the finish frame, sends the
    last Ack and resets; nothing else happens on the ports. *)
Theorem stm32_download_end_to_end
        (cfg : boot_config) (frames : list (Z * list byte)) (last : list byte)
        (version date : Z) (c : bootloader_context_t) (w : world) :
  layout_ok cfg -> 14 <= BOOT_PACKET_MAX_SIZE cfg ->
  all_ok w -> uart_rx w = [] ->
  initialized c = true -> state c <> BOOT_STATE_WAIT_FINISH ->
  download_active c = false -> rx_cache c = [] ->
  len (payload_buf c) = BOOT_PAYLOAD_MAX_SIZE cfg ->
  Forall (fun f => 0 < fst f < 2 ^ 24
                   /\ len (snd f) <= BOOT_PAYLOAD_MAX_SIZE cfg) frames ->
  len last <= BOOT_PAYLOAD_MAX_SIZE cfg ->
  let image := concat (map snd frames) ++ last in
  4 * ceil4 (len image) <= BOOT_APP_MAX_SIZE cfg ->
  0 <= version < 2 ^ 32 -> 0 <= date < 2 ^ 32 ->
  let o := stm32_session cfg
             (map (fun f => encode_data_frame (fst f) (snd f)) frames
              ++ [encode_data_frame 0 last; encode_finish_frame version date])
             c w in
  exists body,
    value_of o = None
    /\ trace (world_of o)
       = trace w
         ++ [EvErase (BOOT_APP_START_ADDR cfg) (BOOT_APP_MAX_SIZE cfg)]
         ++ body
         ++ flag_region_events cfg BOOT_FLAG_APP version date
         ++ [EvUartWrite g_boot_ack; EvReset]
    /\ programmed body
       = programmed (word_events (BOOT_APP_START_ADDR cfg) (image ++ pad_ff image))
    /\ acks body = S (length frames)
    /\ Forall word_or_ack body.
Proof.
  intros Hl H14 Hok Hrx Hinit Hst Hda Hc Hbuf Hfr Hlast image Hfit Hv Hd o.
  pose proof Hl as (H0 & Hal & Hm & Hend & Hpm & Hfl).
  assert (Ecur : current_addr (prepared cfg c) = BOOT_APP_START_ADDR cfg)
    by (unfold prepared; rewrite Hda; reflexivity).
  assert (Ecar : stream_cache (prepared cfg c) = [])
    by (unfold prepared; rewrite Hda; reflexivity).
  assert (Eer : erase_part cfg c
                = [EvErase (BOOT_APP_START_ADDR cfg) (BOOT_APP_MAX_SIZE cfg)])
    by (unfold erase_part; rewrite Hda; reflexivity).
  destruct (@stm32_session_frames cfg Hl frames last c w Hok Hrx Hinit Hst Hc Hbuf
              Hfr Hlast)
    as (c1 & w1 & body & E & Hok1 & Hrx1 & Ht1 & Hprog & Hacks & Hbody
        & Hc1 & Hin1 & Hst1);
    rewrite ?Ecur, ?Ecar; unfold stream_cache_len; rewrite ?Ecar, ?len_nil;
    cbn [app]; try first [assumption | lia].
  { fold image. unfold app_region_end. lia. }
  rewrite Ecur, Ecar, Eer in *. cbn [app] in Hprog. fold image in Hprog.
  destruct (@stm32_run_finish_healthy cfg [] version date c1 w1
              ltac:(lia) ltac:(cbn; lia) Hfl (Forall_nil _) Hv Hd Hin1 Hst1 Hc1 Hrx1 Hok1)
    as (w2 & E2 & Ht2).
  cbn [app] in E2.
  assert (Eo : o = Leaves c1 w2).
  { subst o.
    change [encode_data_frame 0 last; encode_finish_frame version date]
      with ([encode_data_frame 0 last] ++ [encode_finish_frame version date]).
    rewrite app_assoc, stm32_session_app, E. cbn [stm32_session].
    rewrite E2. reflexivity. }
  rewrite Eo. cbn [value_of world_of]. exists body.
  split; [reflexivity|].
  split; [rewrite Ht2, Ht1, <- !app_assoc; reflexivity|].
  auto.
Qed.

Lemma stm32_download_end_to_end_witness :
  let cfg := stm32f407_config in
  let c := set_state BOOT_STATE_IDLE (waiting_context cfg 0x08010000) in
  let frames := [(3, [xaa; xaa; xaa; xaa; xaa])] in
  let last := [xbb; xbb; xbb] in
  let o := stm32_session cfg
             (map (fun f => encode_data_frame (fst f) (snd f)) frames
              ++ [encode_data_frame 0 last; encode_finish_frame 7 0x20251215])
             c blank_world in
  layout_ok cfg /\ all_ok blank_world
  /\ initialized c = true /\ state c <> BOOT_STATE_WAIT_FINISH
  /\ download_active c = false /\ rx_cache c = []
  /\ len (payload_buf c) = BOOT_PAYLOAD_MAX_SIZE cfg
  /\ Forall (fun f => 0 < fst f < 2 ^ 24
                      /\ len (snd f) <= BOOT_PAYLOAD_MAX_SIZE cfg) frames
  /\ (exists body,
        value_of o = None
        /\ trace (world_of o)
           = trace blank_world
             ++ [EvErase (BOOT_APP_START_ADDR cfg) (BOOT_APP_MAX_SIZE cfg)]
             ++ body
             ++ flag_region_events cfg BOOT_FLAG_APP 7 0x20251215
             ++ [EvUartWrite g_boot_ack; EvReset]
        /\ acks body = 2%nat)
  /\ programmed (trace (world_of o))
     = [ (0x08010000, [xaa; xaa; xaa; xaa]); (0x08010004, [xaa; xbb; xbb; xbb]);
         (0x080E0000, [x02; x00; x00; x00]); (0x080E0004, [x07; x00; x00; x00]);
         (0x080E0008, [x15; x12; x25; x20]) ].
Proof.
  intros cfg c frames last o.
  assert (H1 : layout_ok cfg) by exact layout_ok_stm32f407.
  assert (H2 : 14 <= BOOT_PACKET_MAX_SIZE cfg) by (cbn; lia).
  assert (H3 : all_ok blank_world) by reflexivity.
  assert (H4 : uart_rx blank_world = []) by reflexivity.
  assert (H5 : initialized c = true) by reflexivity.
  assert (H6 : state c <> BOOT_STATE_WAIT_FINISH) by discriminate.
  assert (H7 : download_active c = false) by reflexivity.
  assert (H8 : rx_cache c = []) by reflexivity.
  assert (H9 : len (payload_buf c) = BOOT_PAYLOAD_MAX_SIZE cfg)
    by (vm_compute; reflexivity).
  assert (H10 : Forall (fun f => 0 < fst f < 2 ^ 24
                                 /\ len (snd f) <= BOOT_PAYLOAD_MAX_SIZE cfg) frames)
    by (repeat constructor; cbn; lia).
  assert (H11 : len last <= BOOT_PAYLOAD_MAX_SIZE cfg) by (vm_compute; discriminate).
  assert (H12 : 4 * ceil4 (len (concat (map snd frames) ++ last))
                <= BOOT_APP_MAX_SIZE cfg) by (vm_compute; discriminate).
  split; [exact H1|]. split; [exact H3|]. split; [exact H5|]. split; [exact H6|].
  split; [exact H7|]. split; [exact H8|]. split; [exact H9|]. split; [exact H10|].
  split; [|vm_compute; reflexivity].
  destruct (@stm32_download_end_to_end cfg frames last 7 0x20251215 c blank_world
              H1 H2 H3 H4 H5 H6 H7 H8 H9 H10 H11 H12 ltac:(lia) ltac:(lia))
    as (body & Hv & Ht & _ & Ha & _).
  exists body. auto.
Defined.

(** ** The STM32F407 port: which sectors an erase touches *)

Module Stm32f407PortProofs.
Import Stm32f407Port.

Lemma skipn_nth (A : Type) (d : A) (l : list A) :
  forall k, (k < length l)%nat -> skipn k l = nth k l d :: skipn (S k) l.
Proof.
  induction l as [|x l IH]; intros k Hk; [cbn in Hk; lia|].
  destruct k as [|k]; [reflexivity|]. cbn [skipn nth]. apply IH. cbn in Hk. lia.
Qed.

(** The erase loop on a healthy flash: [n] sectors from index [i] on. *)
Lemma erase_sectors_all_ok (n : nat) :
  forall (i : Z) (w : world),
    all_ok w -> 0 <= i -> (Z.to_nat i + n <= length flash_sectors)%nat ->
    exists w',
      erase_sectors i n w = (BOOT_PORT_OK, w')
      /\ all_ok w'
      /\ trace w' = trace w
                    ++ map sector_erase (firstn n (skipn (Z.to_nat i) flash_sectors)).
Proof.
  induction n as [|n IH]; intros i w Hok Hi Hn.
  - exists w. cbn [erase_sectors firstn map]. rewrite app_nil_r. auto.
  - cbn [erase_sectors].
    destruct (draw_all_ok Hok) as (w1 & -> & Hok1 & Ht1 & _).
    destruct (IH (i + 1) (emit (EvErase (start_addr (sector_at i)) (size (sector_at i))) w1))
      as (w' & E & Hok' & Ht'); [apply all_ok_emit; exact Hok1 | lia | lia |].
    exists w'. split; [exact E|]. split; [exact Hok'|].
    rewrite Ht'. cbn [emit trace]. rewrite Ht1, <- app_assoc.
    rewrite (@skipn_nth _ {| start_addr := 0; size := 0; sector_id := 0 |}
               flash_sectors (Z.to_nat i)) by lia.
    replace (Z.to_nat (i + 1)) with (S (Z.to_nat i)) by lia.
    reflexivity.
Qed.

Ltac settle_cmp :=
  repeat match goal with
         | |- context [?a >=? ?b] => rewrite (Z.geb_leb a b)
         | |- context [?a <? ?b] =>
             first [ rewrite (proj2 (Z.ltb_lt a b)) by lia
                   | rewrite (proj2 (Z.ltb_ge a b)) by lia ]
         | |- context [?a <=? ?b] =>
             first [ rewrite (proj2 (Z.leb_le a b)) by lia
                   | rewrite (proj2 (Z.leb_gt a b)) by lia ]
         end.

(** The sector boundaries cut the address space into 14 intervals. *)
Lemma sector_intervals (addr : Z) :
  addr < 0x08000000
  \/ 0x08000000 <= addr < 0x08004000 \/ 0x08004000 <= addr < 0x08008000
  \/ 0x08008000 <= addr < 0x0800C000 \/ 0x0800C000 <= addr < 0x08010000
  \/ 0x08010000 <= addr < 0x08020000 \/ 0x08020000 <= addr < 0x08040000
  \/ 0x08040000 <= addr < 0x08060000 \/ 0x08060000 <= addr < 0x08080000
  \/ 0x08080000 <= addr < 0x080A0000 \/ 0x080A0000 <= addr < 0x080C0000
  \/ 0x080C0000 <= addr < 0x080E0000 \/ 0x080E0000 <= addr < 0x08100000
  \/ 0x08100000 <= addr.
Proof.
  repeat match goal with
         | |- addr < ?b \/ _ =>
             destruct (Z.lt_ge_cases addr b); [left; assumption | right]
         | |- _ <= addr < ?b \/ _ =>
             destruct (Z.lt_ge_cases addr b); [left; split; assumption | right]
         end.
  assumption.
Qed.

(** [get_sector_index] on the whole address space. *)
Lemma get_sector_index_cases (addr : Z) :
  (get_sector_index addr = -1 /\ (addr < 0x08000000 \/ 0x08100000 <= addr))
  \/ (0 <= get_sector_index addr < 12
      /\ start_addr (sector_at (get_sector_index addr)) <= addr
         < start_addr (sector_at (get_sector_index addr))
           + size (sector_at (get_sector_index addr))).
Proof.
  remember (get_sector_index addr) as i eqn:Hi. revert Hi.
  unfold get_sector_index, flash_sectors.
  cbn [sector_scan start_addr size].
  repeat match goal with
         | |- context [u32 ?x] =>
             let v := eval vm_compute in (u32 x) in change (u32 x) with v
         end.
  pose proof (sector_intervals addr) as H.
  repeat (destruct H as [H|H]);
    settle_cmp; cbv beta iota delta [andb]; intros ->;
    first [ left; split; [reflexivity | lia]
          | right;
            repeat match goal with
                   | |- context [sector_at ?i] =>
                       let v := eval vm_compute in (sector_at i) in
                       change (sector_at i) with v
                   end;
            cbn [start_addr size]; lia ].
Qed.

Ltac split_index i n :=
  lazymatch n with
  | 12 => exfalso; lia
  | _ =>
      let L := fresh in
      destruct (Z.le_gt_cases i n) as [L|L];
      [ let E := fresh in assert (E : i = n) by lia; clear L; subst i
      | let n' := eval vm_compute in (n + 1) in split_index i n' ]
  end.

(** An index into the table, one value at a time. *)
Ltac sector_cases i := split_index i 0.

Ltac sector_values :=
  repeat match goal with
         | H : context [sector_at ?i] |- _ =>
             let v := eval vm_compute in (sector_at i) in
             change (sector_at i) with v in H
         | |- context [sector_at ?i] =>
             let v := eval vm_compute in (sector_at i) in
             change (sector_at i) with v
         end;
  cbn [start_addr size] in *.

(** The sectors are in address order: a sector ends above [addr] exactly
    when it is not below the sector of [addr]. *)
Lemma sector_end_above (addr i k : Z) :
  0 <= i < 12 -> 0 <= k < 12 ->
  start_addr (sector_at i) <= addr < start_addr (sector_at i) + size (sector_at i) ->
  (addr <? start_addr (sector_at k) + size (sector_at k)) = (i <=? k).
Proof.
  intros Hi Hk Ha. sector_cases i; sector_cases k; sector_values;
    (transitivity true; [apply Z.ltb_lt; lia | reflexivity])
    || (transitivity false; [apply Z.ltb_ge; lia | reflexivity]).
Qed.

(** And it starts at or below [last] exactly when it is not above the
    sector of [last]. *)
Lemma sector_start_below (last j k : Z) :
  0 <= j < 12 -> 0 <= k < 12 ->
  start_addr (sector_at j) <= last < start_addr (sector_at j) + size (sector_at j) ->
  (start_addr (sector_at k) <? last + 1) = (k <=? j).
Proof.
  intros Hj Hk Hl. sector_cases j; sector_cases k; sector_values;
    (transitivity true; [apply Z.ltb_lt; lia | reflexivity])
    || (transitivity false; [apply Z.ltb_ge; lia | reflexivity]).
Qed.

Lemma flash_sectors_indexed :
  flash_sectors = map sector_at [0; 1; 2; 3; 4; 5; 6; 7; 8; 9; 10; 11].
Proof. reflexivity. Qed.

(** The sectors sharing a byte with a range are those from the sector of
    its first byte to the sector of its last byte. *)
Lemma overlapping_sectors (addr sz i j : Z) :
  0 < sz -> 0 <= i < 12 -> 0 <= j < 12 ->
  start_addr (sector_at i) <= addr < start_addr (sector_at i) + size (sector_at i) ->
  start_addr (sector_at j) <= addr + sz - 1
    < start_addr (sector_at j) + size (sector_at j) ->
  i <= j
  /\ filter (sector_overlaps addr sz) flash_sectors
     = firstn (Z.to_nat (j - i + 1)) (skipn (Z.to_nat i) flash_sectors).
Proof.
  intros Hsz Hi Hj Ha Hl.
  assert (Hij : i <= j).
  { pose proof (@sector_end_above addr i j Hi Hj Ha) as E.
    apply Z.leb_le. rewrite <- E. apply Z.ltb_lt. lia. }
  split; [exact Hij|].
  assert (Hov : forall k, 0 <= k < 12 ->
                sector_overlaps addr sz (sector_at k) = (k <=? j) && (i <=? k)).
  { intros k Hk. unfold sector_overlaps.
    rewrite (@sector_end_above addr i k Hi Hk Ha).
    replace (addr + sz) with (addr + sz - 1 + 1) by lia.
    rewrite (@sector_start_below (addr + sz - 1) j k Hj Hk Hl). reflexivity. }
  transitivity (filter (fun s => (sector_id s <=? j) && (i <=? sector_id s))
                       flash_sectors).
  - apply filter_ext_in. intros s Hs.
    rewrite flash_sectors_indexed in Hs. apply in_map_iff in Hs.
    destruct Hs as (k & <- & Hk).
    assert (Hk12 : 0 <= k < 12) by (cbn [In] in Hk; lia).
    rewrite (Hov k Hk12). clear Hov Ha Hl Hk.
    sector_cases k; reflexivity.
  - clear Hov Ha Hl.
    sector_cases i; sector_cases j; first [reflexivity | exfalso; lia].
Qed.
End Stm32f407PortProofs.

Import Stm32f407PortProofs.

(** X17.  [get_sector_index] of the STM32F407 port.  For an address inside
    the flash, 0x08000000 to 0x080FFFFF, it returns the index of the table
    entry whose range holds the address, and that entry carries the sector
    number equal to its index; for every other address it returns -1. *)
Theorem stm32f407_sector_index (addr : Z) :
  let i := Stm32f407Port.get_sector_index addr in
  let s := Stm32f407Port.sector_at i in
  (0x08000000 <= addr < 0x08100000
   /\ 0 <= i < Stm32f407Port.FLASH_SECTOR_COUNT
   /\ Stm32f407Port.start_addr s <= addr
      < Stm32f407Port.start_addr s + Stm32f407Port.size s
   /\ Stm32f407Port.sector_id s = i)
  \/ ((addr < 0x08000000 \/ 0x08100000 <= addr) /\ i = -1).
Proof.
  intros i s. subst s i.
  destruct (get_sector_index_cases addr) as [[E Hout]|[Hi Ha]].
  - right. auto.
  - left. change Stm32f407Port.FLASH_SECTOR_COUNT with 12.
    set (i := Stm32f407Port.get_sector_index addr) in *. clearbody i.
    assert (Hid : Stm32f407Port.sector_id (Stm32f407Port.sector_at i) = i)
      by (clear Ha; sector_cases i; reflexivity).
    assert (Hin : 0x08000000 <= addr < 0x08100000)
      by (clear Hid; sector_cases i; sector_values; lia).
    auto.
Qed.

(** X18.  What the STM32F407 port erases.  For a non-empty range inside the
    flash and a healthy flash, [boot_port_flash_erase] returns OK after
    erasing, in address order, exactly the sectors that share at least one
    byte with the range: nothing the request touches is left out, and no
    other sector is erased. *)
Theorem stm32f407_erase_overlapping_sectors (addr sz : Z) (w : world) :
  all_ok w -> 0 < sz -> 0x08000000 <= addr -> addr + sz <= 0x08100000 ->
  exists w',
    Stm32f407Port.boot_port_flash_erase addr sz w = (BOOT_PORT_OK, w')
    /\ trace w'
       = trace w
         ++ map sector_erase
              (filter (sector_overlaps addr sz) Stm32f407Port.flash_sectors).
Proof.
  intros Hok Hsz Hlo Hhi. unfold Stm32f407Port.boot_port_flash_erase.
  rewrite (@u32_small (addr + sz)) by lia.
  rewrite (@u32_small (addr + sz - 1)) by lia.
  destruct (get_sector_index_cases addr) as [[_ Hout]|[Hi Ha]]; [lia|].
  destruct (get_sector_index_cases (addr + sz - 1)) as [[_ Hout]|[Hj Hl]]; [lia|].
  set (i := Stm32f407Port.get_sector_index addr) in *.
  set (j := Stm32f407Port.get_sector_index (addr + sz - 1)) in *.
  clearbody i j.
  destruct (@overlapping_sectors addr sz i j Hsz Hi Hj Ha Hl) as (Hij & ->).
  destruct (Z.ltb_spec i 0); [lia|]. destruct (Z.ltb_spec j 0); [lia|].
  cbn [orb].
  destruct (@erase_sectors_all_ok (Z.to_nat (j - i + 1)) i w Hok ltac:(lia))
    as (w' & E & _ & Ht).
  { change (length Stm32f407Port.flash_sectors) with 12%nat. lia. }
  exists w'. split; [exact E | exact Ht].
Qed.

Lemma stm32f407_erase_overlapping_sectors_witness :
  all_ok blank_world
  /\ exists w',
       Stm32f407Port.boot_port_flash_erase 0x08010000 0x000D0000 blank_world
       = (BOOT_PORT_OK, w')
       /\ trace w'
          = [ EvErase 0x08010000 0x10000; EvErase 0x08020000 0x20000;
              EvErase 0x08040000 0x20000; EvErase 0x08060000 0x20000;
              EvErase 0x08080000 0x20000; EvErase 0x080A0000 0x20000;
              EvErase 0x080C0000 0x20000 ].
Proof.
  assert (H1 : all_ok blank_world) by reflexivity.
  split; [exact H1|].
  destruct (@stm32f407_erase_overlapping_sectors 0x08010000 0x000D0000 blank_world
              H1 ltac:(lia) ltac:(lia) ltac:(lia)) as (w' & E & Ht).
  exists w'. split; [exact E|]. rewrite Ht. reflexivity.
Defined.

(** X19.  A range that leaves the flash.  When the first byte or the last
    byte of a non-empty range lies outside 0x08000000 to 0x080FFFFF,
    [boot_port_flash_erase] of the STM32F407 port returns an error before
    any sector is erased. *)
Theorem stm32f407_erase_outside_flash_refused (addr sz : Z) (w : world) :
  0 <= addr -> 0 < sz -> addr + sz < 2 ^ 32 ->
  addr < 0x08000000 \/ 0x08100000 < addr + sz ->
  Stm32f407Port.boot_port_flash_erase addr sz w = (BOOT_PORT_ERROR, w).
Proof.
  intros H0 Hsz Hw Hout. unfold Stm32f407Port.boot_port_flash_erase.
  rewrite (@u32_small (addr + sz)) by lia.
  rewrite (@u32_small (addr + sz - 1)) by lia.
  destruct (get_sector_index_cases addr) as [[-> _]|[Hi Ha]]; [reflexivity|].
  destruct (get_sector_index_cases (addr + sz - 1)) as [[-> _]|[Hj Hl]];
    [rewrite orb_true_r; reflexivity|].
  exfalso.
  set (i := Stm32f407Port.get_sector_index addr) in *.
  set (j := Stm32f407Port.get_sector_index (addr + sz - 1)) in *.
  clearbody i j.
  assert (0x08000000 <= addr) by (clear Hl; sector_cases i; sector_values; lia).
  assert (addr + sz - 1 < 0x08100000)
    by (clear Ha; sector_cases j; sector_values; lia).
  lia.
Qed.

Lemma stm32f407_erase_outside_flash_refused_witness :
  Stm32f407Port.boot_port_flash_erase 0x080E0000 0x00040000 blank_world
  = (BOOT_PORT_ERROR, blank_world).
Proof.
  apply stm32f407_erase_outside_flash_refused; [lia | lia | lia | right; lia].
Defined.

(** X20.  The empty range.  With [size = 0] the last byte the STM32F407
    port looks up is the one before [addr]: at an address inside the flash
    that is the start of a sector nothing is erased, at any other address
    inside the flash the sector holding [addr] is erased, and at the first
    address of the flash the call fails; the first two return OK on a healthy
    flash. *)
Theorem stm32f407_erase_empty_range (addr : Z) (w : world) :
  all_ok w -> 0x08000000 <= addr < 0x08100000 ->
  let s := Stm32f407Port.sector_at (Stm32f407Port.get_sector_index addr) in
  if addr =? 0x08000000
  then Stm32f407Port.boot_port_flash_erase addr 0 w = (BOOT_PORT_ERROR, w)
  else exists w',
         Stm32f407Port.boot_port_flash_erase addr 0 w = (BOOT_PORT_OK, w')
         /\ trace w'
            = trace w ++ (if addr =? Stm32f407Port.start_addr s then []
                          else [sector_erase s]).
Proof.
  intros Hok Hin s. subst s.
  destruct (Z.eqb_spec addr 0x08000000) as [->|Hne]; [reflexivity|].
  unfold Stm32f407Port.boot_port_flash_erase.
  rewrite Z.add_0_r, (@u32_small addr) by lia.
  rewrite (@u32_small (addr - 1)) by lia.
  destruct (get_sector_index_cases addr) as [[_ Hout]|[Hi Ha]]; [lia|].
  destruct (get_sector_index_cases (addr - 1)) as [[_ Hout]|[Hj Hl]]; [lia|].
  set (i := Stm32f407Port.get_sector_index addr) in *.
  set (j := Stm32f407Port.get_sector_index (addr - 1)) in *.
  clearbody i j.
  destruct (Z.ltb_spec i 0); [lia|]. destruct (Z.ltb_spec j 0); [lia|].
  cbn [orb].
  assert (Hj' : (addr = Stm32f407Port.start_addr (Stm32f407Port.sector_at i)
                 /\ j = i - 1)
                \/ (addr <> Stm32f407Port.start_addr (Stm32f407Port.sector_at i)
                    /\ j = i)).
  { destruct (Z.eq_dec addr (Stm32f407Port.start_addr (Stm32f407Port.sector_at i)))
      as [E|N]; [left | right]; (split; [assumption|]);
      sector_cases i; sector_cases j; sector_values; lia. }
  destruct Hj' as [(E & ->) | (N & ->)].
  - replace (i - 1 - i + 1) with 0 by lia. cbn [Z.to_nat Stm32f407Port.erase_sectors].
    exists w. rewrite <- E, Z.eqb_refl, app_nil_r. auto.
  - replace (i - i + 1) with 1 by lia.
    destruct (@erase_sectors_all_ok 1 i w Hok ltac:(lia)) as (w' & Ee & _ & Ht).
    { change (length Stm32f407Port.flash_sectors) with 12%nat. lia. }
    exists w'. split; [exact Ee|]. rewrite Ht.
    destruct (Z.eqb_spec addr (Stm32f407Port.start_addr (Stm32f407Port.sector_at i)));
      [contradiction|].
    f_equal. clear Ha Hl N n. sector_cases i; reflexivity.
Qed.

Lemma stm32f407_erase_empty_range_witness :
  all_ok blank_world
  /\ exists w',
       Stm32f407Port.boot_port_flash_erase 0x08010004 0 blank_world
       = (BOOT_PORT_OK, w')
       /\ trace w' = [EvErase 0x08010000 0x10000].
Proof.
  assert (H1 : all_ok blank_world) by reflexivity.
  split; [exact H1|].
  pose proof (@stm32f407_erase_empty_range 0x08010004 blank_world H1 ltac:(lia)) as H.
  cbv zeta in H.
  change (0x08010004 =? 0x08000000) with false in H. cbv iota in H.
  destruct H as (w' & E & Ht).
  exists w'. split; [exact E|]. rewrite Ht. reflexivity.
Defined.

(** ** The CH32V307 port: the erase tiles the requested range *)

Lemma tiles_app (evs1 evs2 : list event) (c : Z) :
  forall a b, tiles a evs1 b -> tiles b evs2 c -> tiles a (evs1 ++ evs2) c.
Proof.
  induction evs1 as [|e evs1 IH]; intros a b H1 H2.
  - cbn [tiles] in H1. subst b. exact H2.
  - destruct e; cbn [tiles app] in *; try contradiction.
    destruct H1 as (Ha & Hn & Hrest). split; [exact Ha|]. split; [exact Hn|].
    exact (IH _ _ Hrest H2).
Qed.

Lemma land_block (a : Z) :
  0 <= a -> Z.land a (Ch32v307Port.block_size - 1) = a mod 32768.
Proof.
  intros Ha. change (Ch32v307Port.block_size - 1) with (Z.ones 15).
  rewrite Z.land_ones by lia. reflexivity.
Qed.

(** Two page boundaries: the lower one is a whole page below. *)
Lemma page_gap (a b : Z) : a mod 256 = 0 -> b mod 256 = 0 -> a < b -> a + 256 <= b.
Proof.
  intros Ha Hb Hlt.
  pose proof (Z.div_mod a 256 ltac:(lia)). pose proof (Z.div_mod b 256 ltac:(lia)).
  lia.
Qed.


Section Ch32Erase.

Variable e : Z.
Hypothesis e_32 : e < 2 ^ 32.
Hypothesis e_page : e mod 256 = 0.

Lemma erase_pages_to_block_spec (fuel : nat) :
  forall (a : Z) (w : world),
    0 <= a <= e -> a mod 256 = 0 -> (e - a) / 256 <= Z.of_nat fuel ->
    exists a' w' evs,
      Ch32v307Port.erase_pages_to_block fuel a e w = Some (a', w')
      /\ trace w' = trace w ++ evs /\ tiles a evs a'
      /\ a <= a' <= e /\ a' mod 256 = 0
      /\ (a' = e \/ a' mod 32768 = 0).
Proof.
  induction fuel as [|fuel IH]; intros a w Ha Hp Hf;
    cbn [Ch32v307Port.erase_pages_to_block];
    rewrite land_block by lia;
    (destruct (Z.ltb_spec a e) as [Lt|Ge];
     [destruct (Z.eqb_spec (a mod 32768) 0) as [Eb|Nb]|]; cbn [andb negb];
     try (exists a, w, []; rewrite app_nil_r;
          repeat split; try reflexivity; try lia; fail)).
  - exfalso. pose proof (@page_gap a e Hp e_page Lt).
    assert (1 <= (e - a) / 256) by (apply Z.div_le_lower_bound; lia). lia.
  - pose proof (@page_gap a e Hp e_page Lt).
    unfold Ch32v307Port.page_size. rewrite u32_small by lia.
    destruct (IH (a + 256) (emit (EvErase a 256) w)) as (a' & w' & evs & E & Ht & Htl & Hr & Hp' & Hb);
      [lia | | |].
    { rewrite <- Zplus_mod_idemp_l, Hp. reflexivity. }
    { replace (e - (a + 256)) with (e - a + (-1) * 256) by lia.
      rewrite Z.div_add by lia. lia. }
    exists a', w', (EvErase a 256 :: evs). split; [exact E|].
    split; [rewrite Ht; cbn [emit trace]; rewrite <- app_assoc; reflexivity|].
    split; [cbn [tiles]; auto|]. split; [lia|]. auto.
Qed.

Lemma erase_blocks_spec (fuel : nat) :
  forall (a : Z) (w : world),
    0 <= a <= e -> a mod 256 = 0 -> (a = e \/ a mod 32768 = 0) ->
    (e - a) / 256 <= Z.of_nat fuel ->
    exists a' w' evs,
      Ch32v307Port.erase_blocks fuel a e w = Some (a', w')
      /\ trace w' = trace w ++ evs /\ tiles a evs a'
      /\ a <= a' <= e /\ a' mod 256 = 0.
Proof.
  induction fuel as [|fuel IH]; intros a w Ha Hp Hb Hf;
    cbn [Ch32v307Port.erase_blocks];
    rewrite (@u32_small (e - a)) by lia;
    unfold Ch32v307Port.block_size; change (32 * 1024) with 32768;
    (destruct (Z.geb_spec (e - a) 32768) as [Ge|Lt];
     [|exists a, w, []; rewrite app_nil_r;
       repeat split; try reflexivity; lia]).
  - exfalso. assert (1 <= (e - a) / 256) by (apply Z.div_le_lower_bound; lia). lia.
  - assert (Hal : a mod 32768 = 0) by (destruct Hb; [lia | assumption]).
    rewrite u32_small by lia.
    destruct (IH (a + 32768) (emit (EvErase a 32768) w))
      as (a' & w' & evs & E & Ht & Htl & Hr & Hp');
      [lia | | | |].
    { replace (a + 32768) with (a + 128 * 256) by lia.
      rewrite Z.mod_add by lia. exact Hp. }
    { right. replace (a + 32768) with (a + 1 * 32768) by lia.
      rewrite Z.mod_add by lia. exact Hal. }
    { replace (e - (a + 32768)) with (e - a + (-128) * 256) by lia.
      rewrite Z.div_add by lia. lia. }
    exists a', w', (EvErase a 32768 :: evs). split; [exact E|].
    split; [rewrite Ht; cbn [emit trace]; rewrite <- app_assoc; reflexivity|].
    split; [cbn [tiles]; auto|]. split; [lia | exact Hp'].
Qed.

Lemma erase_pages_to_end_spec (fuel : nat) :
  forall (a : Z) (w : world),
    0 <= a <= e -> a mod 256 = 0 -> (e - a) / 256 <= Z.of_nat fuel ->
    exists a' w' evs,
      Ch32v307Port.erase_pages_to_end fuel a e w = Some (a', w')
      /\ trace w' = trace w ++ evs /\ tiles a evs e.
Proof.
  induction fuel as [|fuel IH]; intros a w Ha Hp Hf;
    cbn [Ch32v307Port.erase_pages_to_end];
    (destruct (Z.ltb_spec a e) as [Lt|Ge];
     [|exists a, w, []; rewrite app_nil_r;
       repeat split; try reflexivity; cbn [tiles]; lia]).
  - exfalso. pose proof (@page_gap a e Hp e_page Lt).
    assert (1 <= (e - a) / 256) by (apply Z.div_le_lower_bound; lia). lia.
  - pose proof (@page_gap a e Hp e_page Lt).
    unfold Ch32v307Port.page_size. rewrite u32_small by lia.
    destruct (IH (a + 256) (emit (EvErase a 256) w)) as (a' & w' & evs & E & Ht & Htl);
      [lia | | |].
    { rewrite <- Zplus_mod_idemp_l, Hp. reflexivity. }
    { replace (e - (a + 256)) with (e - a + (-1) * 256) by lia.
      rewrite Z.div_add by lia. lia. }
    exists a', w', (EvErase a 256 :: evs). split; [exact E|].
    split; [rewrite Ht; cbn [emit trace]; rewrite <- app_assoc; reflexivity|].
    cbn [tiles]. auto.
Qed.

End Ch32Erase.

(** X21.  What the CH32V307 port erases.  For a page-aligned address and
    size (and a page-aligned [FLASH_BASE], without wrap-around),
    [boot_port_flash_erase] returns OK, and its erase calls tile the physical
    range of the request exactly: pages up to the first 32 KB boundary, whole
    32 KB blocks at 32 KB boundaries, then pages up to the end - no byte of
    the range is left out and nothing outside it is erased. *)
Theorem ch32v307_erase_tiles_range (FLASH_BASE addr size : Z) (w : world) :
  0 <= FLASH_BASE -> FLASH_BASE mod 256 = 0 ->
  0 <= addr -> addr mod 256 = 0 -> 0 <= size -> size mod 256 = 0 ->
  FLASH_BASE + addr + size < 2 ^ 32 ->
  exists w' evs,
    Ch32v307Port.boot_port_flash_erase FLASH_BASE addr size w
    = Some (BOOT_PORT_OK, w')
    /\ trace w' = trace w ++ evs
    /\ tiles (FLASH_BASE + addr) evs (FLASH_BASE + addr + size).
Proof.
  intros Hb Hbp Ha Hap Hs Hsp Hw.
  unfold Ch32v307Port.boot_port_flash_erase, Ch32v307Port.FLASH_HW_ADDR,
    Ch32v307Port.BOOT_BOOTLOADER_START_ADDR.
  rewrite Hap, Hsp. cbn [Z.eqb negb orb]. rewrite Z.sub_0_r.
  rewrite (@u32_small addr) by lia. rewrite (@u32_small (addr + FLASH_BASE)) by lia.
  rewrite (@u32_small (addr + FLASH_BASE + size)) by lia.
  set (a := addr + FLASH_BASE). set (e := a + size).
  assert (Hap' : a mod 256 = 0).
  { unfold a. rewrite Z.add_mod, Hap, Hbp by lia. reflexivity. }
  assert (Hep : e mod 256 = 0).
  { unfold e. rewrite Z.add_mod, Hap', Hsp by lia. reflexivity. }
  assert (He : e < 2 ^ 32) by (unfold e, a; lia).
  assert (Hf : (e - a) / 256 <= Z.of_nat (Z.to_nat (size / 256))).
  { replace (e - a) with size by (unfold e; lia).
    rewrite Z2Nat.id by (apply Z.div_pos; lia). lia. }
  destruct (@erase_pages_to_block_spec e He Hep _ a w ltac:(unfold e; lia) Hap' Hf)
    as (a1 & w1 & evs1 & -> & Ht1 & Htl1 & Hr1 & Hp1 & Hb1).
  assert (Hf1 : (e - a1) / 256 <= Z.of_nat (Z.to_nat (size / 256))).
  { etransitivity; [|exact Hf]. apply Z.div_le_mono; lia. }
  destruct (@erase_blocks_spec e He _ a1 w1 ltac:(lia) Hp1 Hb1 Hf1)
    as (a2 & w2 & evs2 & -> & Ht2 & Htl2 & Hr2 & Hp2).
  assert (Hf2 : (e - a2) / 256 <= Z.of_nat (Z.to_nat (size / 256))).
  { etransitivity; [|exact Hf]. apply Z.div_le_mono; lia. }
  destruct (@erase_pages_to_end_spec e He Hep _ a2 w2 ltac:(lia) Hp2 Hf2)
    as (a3 & w3 & evs3 & -> & Ht3 & Htl3).
  exists w3, (evs1 ++ evs2 ++ evs3). split; [reflexivity|].
  split; [rewrite Ht3, Ht2, Ht1, <- !app_assoc; reflexivity|].
  replace (FLASH_BASE + addr) with a by (unfold a; lia).
  replace (a + size) with e by reflexivity.
  eapply tiles_app; [exact Htl1|]. eapply tiles_app; [exact Htl2 | exact Htl3].
Qed.

Lemma ch32v307_erase_tiles_range_witness :
  exists w' evs,
    Ch32v307Port.boot_port_flash_erase 0x08000000 0x7F00 0x8400 blank_world
    = Some (BOOT_PORT_OK, w')
    /\ trace w' = trace blank_world ++ evs
    /\ tiles (0x08000000 + 0x7F00) evs (0x08000000 + 0x7F00 + 0x8400).
Proof.
  apply ch32v307_erase_tiles_range; first [reflexivity | lia].
Defined.

(** ** A download through the portable core, on a healthy flash *)

Section CoreFrame.

Variable cfg : boot_config.
Hypothesis layout : layout_ok cfg.

(** [bootloader_handle_payload] of the core while a download is active: a
    frame with more to come is written and acknowledged; the last frame is
    written and flushed, the flag region is rewritten with the version and
    date held in the context, and the Ack and the reset follow. *)
Lemma core_handle_payload_active (r : Z) (p : list byte)
      (c : bootloader_context_t) (w : world) :
  all_ok w -> download_active c = true ->
  firstn (Z.to_nat (len p)) (payload_buf c) = p ->
  len p <= BOOT_PAYLOAD_MAX_SIZE cfg ->
  stream_cache_len c <= 3 ->
  BOOT_APP_START_ADDR cfg <= current_addr c -> current_addr c mod 4 = 0 ->
  current_addr c + 4 * ceil4 (stream_cache_len c + len p) <= app_region_end cfg ->
  let total := stream_cache c ++ p in
  if r =? 0 then
    exists c' w',
      Core.bootloader_handle_payload cfg r (len p) c w = Leaves c' w'
      /\ trace w' = trace w ++ word_events (current_addr c) (total ++ pad_ff total)
                    ++ flag_region_events cfg BOOT_FLAG_APP
                         (app_version c) (update_date c)
                    ++ [EvUartWrite g_boot_ack; EvReset]
  else
    exists c' w',
      Core.bootloader_handle_payload cfg r (len p) c w = Returns BOOT_PORT_OK c' w'
      /\ all_ok w'
      /\ trace w' = trace w ++ word_events (current_addr c) total
                    ++ [EvUartWrite g_boot_ack]
      /\ writer_frame c c'
      /\ current_addr c' = current_addr c + 4 * (len total / 4)
      /\ stream_cache c' = skipn (Z.to_nat (4 * (len total / 4))) total.
Proof.
  intros Hok Hda Hp Hpl Hcar Hlo Hal Hfit total.
  pose proof layout as (H0 & _ & Hm & Hend & Hpm & Hfl).
  assert (Hhi : app_region_end cfg < 2 ^ 32)
    by (unfold app_region_end; change (2 ^ 17) with 131072 in Hend; lia).
  assert (Hhi4 : app_region_end cfg + 4 < 2 ^ 32)
    by (unfold app_region_end; change (2 ^ 17) with 131072 in Hend; lia).
  pose proof (len_nonneg p) as Hnp.
  pose proof (len_nonneg (stream_cache c)) as Hnc.
  unfold stream_cache_len in *.
  pose proof (@ceil4_bounds (len (stream_cache c) + len p) ltac:(lia)) as Hceil.
  destruct (@stream_write_all_ok p c w Hok) as (c3 & w3 & E3 & Hok3 & Hcur3 & Hcar3 & Ht3);
    try (unfold stream_cache_len; first [assumption | lia]).
  cbv zeta in Hcur3, Hcar3, Ht3. fold total in Hcur3, Hcar3, Ht3.
  destruct (@stream_write_span (BOOT_APP_START_ADDR cfg) (app_region_end cfg)
              H0 Hhi p c w)
    as (s & c3' & w3' & evs & E3' & _ & _ & Hf3 & _);
    try (unfold stream_cache_len; first [assumption | lia]).
  rewrite E3 in E3'. injection E3' as <- <- <-.
  destruct (writer_frame_fields Hf3) as (_ & _ & _ & Eav3 & Eud3 & _).
  (* up to the write *)
  assert (Ehp : Core.bootloader_handle_payload cfg r (len p) c w
                = (if r =? 0 then
                     status <- bootloader_stream_flush ;;
                     if status_ok status then
                       modify (set_download_active false) ;;;
                       c <- get ;;
                       status <- bootloader_write_flag_region cfg BOOT_FLAG_APP
                                   (app_version c) (update_date c) ;;
                       if status_ok status then
                         port_ (boot_port_uart_write g_boot_ack) ;;;
                         boot_port_system_reset
                       else ret status
                     else ret status
                   else
                     port_ (boot_port_uart_write g_boot_ack) ;;;
                     ret BOOT_PORT_OK) c3 w3).
  { assert (Ep : bootloader_prepare_download cfg c w = Returns BOOT_PORT_OK c w)
      by (unfold bootloader_prepare_download, bind, get, ret; rewrite Hda; reflexivity).
    unfold Core.bootloader_handle_payload. unfold bind at 1. rewrite Ep.
    cbn [status_ok negb]. unfold bind at 1. unfold get at 1.
    rewrite (@flash_range_overflow_spec cfg layout c (len p))
      by (unfold stream_cache_len, app_region_end in *; lia).
    unfold stream_cache_len. rewrite Hp.
    destruct (Z.gtb_spec (current_addr c + 4 * ceil4 (len (stream_cache c) + len p))
                         (app_region_end cfg)) as [Hover|_]; [lia|].
    unfold bind at 1. rewrite E3. cbn [status_ok negb]. reflexivity. }
  rewrite Ehp. clear Ehp.
  pose proof (len_nonneg total) as Hnt.
  destruct (div4_facts Hnt) as (Hk & Hkm & Hmod).
  pose proof (len_leftover total) as Hleft. cbv zeta in Hleft.
  assert (Elt : len total = len (stream_cache c) + len p) by apply len_app.
  destruct (Z.eqb_spec r 0) as [Er|Nr].
  - assert (Hc3 : stream_cache_len c3 <= 3)
      by (unfold stream_cache_len; rewrite Hcar3, Hleft; lia).
    assert (Hal3 : current_addr c3 mod 4 = 0)
      by (rewrite Hcur3; apply aligned_plus, Hal).
    assert (H03 : 0 <= current_addr c3) by (rewrite Hcur3; lia).
    destruct (@stream_flush_all_ok c3 w3 Hok3 Hc3 Hal3 H03)
      as (c4 & w4 & E4 & Hok4 & Hcur4 & Hcar4 & Ht4).
    { intros _. rewrite Hcur3. lia. }
    cbv zeta in Hcur4, Ht4.
    assert (Epad : repeat xff (Z.to_nat ((4 - stream_cache_len c3 mod 4) mod 4))
                   = pad_ff total).
    { unfold stream_cache_len. rewrite Hcar3.
      pose proof (pad_ff_leftover total []) as E. cbv zeta in E.
      rewrite !app_nil_r in E. exact E. }
    rewrite Epad, Hcar3, Hcur3 in Hcur4, Ht4.
    destruct (@stream_flush_span (BOOT_APP_START_ADDR cfg) (app_region_end cfg)
                H0 Hhi c3 w3 ltac:(unfold stream_cache_len in *; lia) Hal3)
      as (s4 & c4' & w4' & evs4 & E4' & _ & _ & Hf4 & _).
    { rewrite Hcur3. lia. }
    { intros Hpos. rewrite Hcur3. unfold stream_cache_len in Hpos.
      rewrite Hcar3, Hleft in Hpos. lia. }
    rewrite E4 in E4'. injection E4' as <- <- <-.
    destruct (writer_frame_fields Hf4) as (_ & _ & _ & Eav4 & Eud4 & _).
    unfold bind at 1. rewrite E4. cbn [status_ok].
    unfold bind at 1. unfold modify at 1. unfold bind at 1. unfold get at 1.
    cbn [app_version update_date set_download_active].
    destruct (@bootloader_write_flag_region_all_ok cfg Hfl BOOT_FLAG_APP
                (app_version c4) (update_date c4) (set_download_active false c4) w4 Hok4)
      as (w5 & E5 & _ & Ht5 & _).
    unfold bind at 1. rewrite E5. cbn [status_ok].
    unfold bind, port_, boot_port_system_reset, boot_port_uart_write.
    do 2 eexists. split; [reflexivity|].
    cbn [emit trace]. rewrite Ht5, Ht4, Ht3, Eav4, Eud4, Eav3, Eud3, <- !app_assoc.
    f_equal.
    rewrite (@word_events_split (current_addr c) total (pad_ff total)),
      <- app_assoc. reflexivity.
  - unfold bind, ret, port_, boot_port_uart_write.
    do 2 eexists. split; [reflexivity|]. cbn [emit trace].
    split; [apply all_ok_emit; exact Hok3|].
    split; [rewrite Ht3, <- app_assoc; reflexivity|].
    split; [exact Hf3|]. split; [exact Hcur3 | exact Hcar3].
Qed.

(** The same from any context: the erase comes first when no download is
    active. *)
Lemma core_handle_payload_healthy (r : Z) (p : list byte)
      (c : bootloader_context_t) (w : world) :
  all_ok w ->
  firstn (Z.to_nat (len p)) (payload_buf c) = p ->
  len p <= BOOT_PAYLOAD_MAX_SIZE cfg ->
  let c0 := prepared cfg c in
  stream_cache_len c0 <= 3 ->
  BOOT_APP_START_ADDR cfg <= current_addr c0 -> current_addr c0 mod 4 = 0 ->
  current_addr c0 + 4 * ceil4 (stream_cache_len c0 + len p) <= app_region_end cfg ->
  let total := stream_cache c0 ++ p in
  if r =? 0 then
    exists c' w',
      Core.bootloader_handle_payload cfg r (len p) c w = Leaves c' w'
      /\ trace w' = trace w ++ erase_part cfg c
                    ++ word_events (current_addr c0) (total ++ pad_ff total)
                    ++ flag_region_events cfg BOOT_FLAG_APP
                         (app_version c) (update_date c)
                    ++ [EvUartWrite g_boot_ack; EvReset]
  else
    exists c' w',
      Core.bootloader_handle_payload cfg r (len p) c w = Returns BOOT_PORT_OK c' w'
      /\ all_ok w'
      /\ trace w' = trace w ++ erase_part cfg c
                    ++ word_events (current_addr c0) total
                    ++ [EvUartWrite g_boot_ack]
      /\ writer_frame c0 c'
      /\ current_addr c' = current_addr c0 + 4 * (len total / 4)
      /\ stream_cache c' = skipn (Z.to_nat (4 * (len total / 4))) total.
Proof.
  intros Hok Hp Hpl c0 Hcar Hlo Hal Hfit total.
  destruct (prepared_facts cfg c) as (Eda0 & _ & Epb0 & _). fold c0 in Eda0, Epb0.
  assert (Efl : app_version c0 = app_version c /\ update_date c0 = update_date c)
    by (unfold c0, prepared; destruct (download_active c); cbn; auto).
  destruct Efl as (Eav & Eud).
  assert (Hstep : exists w1,
            Core.bootloader_handle_payload cfg r (len p) c w
            = Core.bootloader_handle_payload cfg r (len p) c0 w1
            /\ all_ok w1 /\ trace w1 = trace w ++ erase_part cfg c).
  { unfold c0, prepared, erase_part. destruct (download_active c) eqn:Eda.
    - exists w. rewrite app_nil_r. auto.
    - destruct (@erase_all_ok (BOOT_APP_START_ADDR cfg) (BOOT_APP_MAX_SIZE cfg) w Hok)
        as (w1 & Ee & Hok1 & Ht1 & _).
      exists w1. split; [|split; assumption].
      unfold Core.bootloader_handle_payload, bootloader_prepare_download.
      unfold bind, get, port, modify, ret. rewrite Eda, Ee.
      cbn [status_ok negb download_active set_download_active]. reflexivity. }
  destruct Hstep as (w1 & -> & Hok1 & Ht1).
  pose proof (@core_handle_payload_active r p c0 w1 Hok1 Eda0
                ltac:(rewrite Epb0; exact Hp) Hpl Hcar Hlo Hal Hfit) as H.
  cbv zeta in H. fold total in H.
  destruct (r =? 0).
  - destruct H as (c' & w' & E & Ht). exists c', w'. split; [exact E|].
    rewrite Ht, Ht1, Eav, Eud, <- !app_assoc. reflexivity.
  - destruct H as (c' & w' & E & Hok' & Ht & Hrest). exists c', w'.
    split; [exact E|]. split; [exact Hok'|].
    split; [rewrite Ht, Ht1, <- !app_assoc; reflexivity | exact Hrest].
Qed.

End CoreFrame.

Lemma keeps_rx_reset (A : Type) :
  keeps_rx (boot_port_system_reset (ctx_t := bootloader_context_t) (A := A)).
Proof. intros c w. reflexivity. Qed.

Lemma write_flag_region_rx (cfg : boot_config) (flag version date : Z) :
  keeps_rx (bootloader_write_flag_region cfg flag version date).
Proof. unfold bootloader_write_flag_region. repeat keeps_rx_step. Qed.

Lemma core_handle_payload_rx (cfg : boot_config) (r pl : Z) :
  keeps_rx (Core.bootloader_handle_payload cfg r pl).
Proof.
  unfold Core.bootloader_handle_payload.
  repeat first [ apply prepare_download_rx | apply stream_write_rx
               | apply stream_flush_rx | apply write_flag_region_rx
               | apply keeps_rx_reset | keeps_rx_step ].
Qed.

Section CoreDownload.

Variable cfg : boot_config.
Hypothesis layout : layout_ok cfg.

(** [bootloader_try_extract_frame] leaves the flag words of the context
    alone. *)
Lemma try_extract_keeps_flags (c c' : bootloader_context_t) (res : option (Z * Z)) :
  bootloader_try_extract_frame cfg c = (res, c') ->
  app_version c' = app_version c /\ update_date c' = update_date c.
Proof.
  intros H. pose proof (layout_payload_max layout) as Epm.
  destruct layout as (_ & _ & _ & _ & Hp & _).
  unfold bootloader_try_extract_frame in H.
  pose proof (extract_loop_total cfg c) as Hsome.
  destruct (extract_loop cfg (length (rx_cache c)) c) as [[res1 c1]|] eqn:E;
    [|contradiction Hsome; reflexivity].
  injection H as -> ->.
  destruct (@extract_loop_full cfg _ c c' res ltac:(lia) E) as (n & Hn).
  cbv zeta in Hn. destruct res as [[r pl]|].
  - destruct Hn as (_ & ->). split; reflexivity.
  - subst c'. split; reflexivity.
Qed.

(** A run of the core that receives exactly one data frame. *)
Lemma core_run_data_frame (r : Z) (p : list byte)
      (c : bootloader_context_t) (w : world) :
  all_ok w -> uart_rx w = [] ->
  initialized c = true -> rx_cache c = [] ->
  len (payload_buf c) = BOOT_PAYLOAD_MAX_SIZE cfg ->
  0 <= r < 2 ^ 24 -> len p <= BOOT_PAYLOAD_MAX_SIZE cfg ->
  let c0 := prepared cfg c in
  stream_cache_len c0 <= 3 ->
  BOOT_APP_START_ADDR cfg <= current_addr c0 -> current_addr c0 mod 4 = 0 ->
  current_addr c0 + 4 * ceil4 (stream_cache_len c0 + len p) <= app_region_end cfg ->
  let total := stream_cache c0 ++ p in
  if r =? 0 then
    exists c' w',
      Core.easy_bootloader_run cfg c (uart_arrive (encode_data_frame r p) w)
      = Leaves c' w'
      /\ trace w' = trace w ++ erase_part cfg c
                    ++ word_events (current_addr c0) (total ++ pad_ff total)
                    ++ flag_region_events cfg BOOT_FLAG_APP
                         (app_version c) (update_date c)
                    ++ [EvUartWrite g_boot_ack; EvReset]
  else
    exists c' w',
      Core.easy_bootloader_run cfg c (uart_arrive (encode_data_frame r p) w)
      = Returns tt c' w'
      /\ all_ok w' /\ uart_rx w' = []
      /\ trace w' = trace w ++ erase_part cfg c
                    ++ word_events (current_addr c0) total
                    ++ [EvUartWrite g_boot_ack]
      /\ rx_cache c' = []
      /\ len (payload_buf c') = BOOT_PAYLOAD_MAX_SIZE cfg
      /\ initialized c' = true /\ download_active c' = true
      /\ app_version c' = app_version c /\ update_date c' = update_date c
      /\ current_addr c' = current_addr c0 + 4 * (len total / 4)
      /\ stream_cache c' = skipn (Z.to_nat (4 * (len total / 4))) total.
Proof.
  intros Hok Hrx Hinit Hc Hbuf Hr Hpl c0 Hcar Hlo Hal Hfit total.
  pose proof (layout_payload_max layout) as Epm.
  pose proof layout as (_ & _ & _ & _ & Hpm & _).
  pose proof (len_nonneg p) as Hnp.
  pose proof (len_data_frame r p (codec_checksum p)) as Hlen.
  fold (encode_data_frame r p) in Hlen.
  set (c1 := set_rx_cache (encode_data_frame r p) c).
  assert (Erun : Core.easy_bootloader_run cfg c (uart_arrive (encode_data_frame r p) w)
                 = match Core.run_loop cfg (length (rx_cache c1)) c1 w with
                   | Some o => o
                   | None => Returns tt c1 w
                   end).
  { unfold Core.easy_bootloader_run. rewrite Hinit. cbn [negb].
    rewrite (@poll_whole cfg (encode_data_frame r p) c w ltac:(lia) Hrx).
    2:{ intros E. rewrite E, len_nil in Hlen. lia. }
    2:{ unfold rx_cache_len. rewrite Hc, len_nil, Hlen. lia. }
    rewrite Hc. reflexivity. }
  rewrite Erun. clear Erun.
  assert (Hf1 : rx_cache c1 = encode_data_frame r p
                /\ payload_buf c1 = payload_buf c
                /\ download_active c1 = download_active c
                /\ current_addr c1 = current_addr c
                /\ stream_cache c1 = stream_cache c
                /\ initialized c1 = initialized c
                /\ app_version c1 = app_version c
                /\ update_date c1 = update_date c)
    by (unfold c1; cbn; auto 10).
  destruct Hf1 as (Erx1 & Epb1 & Eda1 & Ecu1 & Esc1 & Ein1 & Eav1 & Eud1).
  clearbody c1.
  destruct (@try_extract_whole cfg Hpm r p Hr Hpl c1 Erx1) as (c2 & E2 & Hrx2 & Hp2).
  destruct (@try_extract_ctx cfg layout c1 c2 _ ltac:(rewrite Epb1; exact Hbuf) E2)
    as (_ & Hbuf2 & Esc2 & Ecu2 & Eda2 & Ein2 & _).
  destruct (try_extract_keeps_flags _ E2) as (Eav2 & Eud2).
  destruct (@prepared_writer cfg c c2) as (Ecur & Ecar & Eer);
    [congruence | congruence | congruence |].
  fold c0 in Ecur, Ecar.
  destruct (prepared_facts cfg c2) as (Eda0 & Erx0 & Epb0 & Ein0 & _).
  pose proof (@core_handle_payload_healthy cfg layout r p c2 w Hok Hp2 Hpl) as H.
  cbv zeta in H. rewrite Ecur, Ecar, Eer, Eav2, Eud2, Eav1, Eud1 in H.
  fold total in H.
  specialize (H ltac:(unfold stream_cache_len in *; rewrite Ecar; exact Hcar)
                Hlo Hal
                ltac:(unfold stream_cache_len in *; rewrite Ecar; exact Hfit)).
  destruct (length (rx_cache c1)) as [|n] eqn:El.
  { exfalso. unfold len in Hlen. rewrite <- Erx1, El in Hlen. lia. }
  cbn [Core.run_loop]. rewrite E2.
  destruct (r =? 0).
  - destruct H as (c' & w' & E & Ht). rewrite E. exists c', w'. auto.
  - destruct H as (c3 & w3 & E3 & Hok3 & Ht3 & Hf3 & Hcur3 & Hcar3).
    rewrite E3. cbn [status_ok negb].
    destruct (writer_frame_fields Hf3)
      as (Erx3 & Epb3 & _ & Eav3 & Eud3 & _ & Eda3 & Ein3).
    assert (Hrx3' : uart_rx w3 = []).
    { pose proof (@core_handle_payload_rx cfg r (len p) c2 w) as Hk.
      rewrite E3 in Hk. cbn [world_of] in Hk. congruence. }
    assert (Hshort : bootloader_try_extract_frame cfg c3 = (None, c3)).
    { apply try_extract_short. unfold rx_cache_len.
      rewrite Erx3, Erx0, Hrx2. cbn. lia. }
    assert (Eloop : Core.run_loop cfg n c3 w3 = Some (Returns tt c3 w3))
      by (destruct n; cbn [Core.run_loop]; rewrite Hshort; reflexivity).
    rewrite Eloop. exists c3, w3. split; [reflexivity|].
    split; [exact Hok3|]. split; [exact Hrx3'|]. split; [exact Ht3|].
    assert (Efl0 : app_version (prepared cfg c2) = app_version c2
                   /\ update_date (prepared cfg c2) = update_date c2)
      by (unfold prepared; destruct (download_active c2); cbn; auto).
    destruct Efl0 as (Eav0 & Eud0).
    split; [congruence|]. split; [congruence|]. split; [congruence|].
    split; [congruence|]. split; [congruence|]. split; [congruence|].
    auto.
Qed.

Lemma core_session_app (l1 l2 : list (list byte)) :
  forall (c : bootloader_context_t) (w : world),
    core_session cfg (l1 ++ l2) c w
    = match core_session cfg l1 c w with
      | Returns _ c1 w1 => core_session cfg l2 c1 w1
      | Leaves c1 w1 => Leaves c1 w1
      end.
Proof.
  induction l1 as [|chunk l1 IH]; intros c w; [reflexivity|].
  cbn [app core_session].
  destruct (Core.easy_bootloader_run cfg c (uart_arrive chunk w)) as [[] c1 w1|c1 w1];
    [apply IH | reflexivity].
Qed.

(** The data frames of a download through the core, one per run. *)
Lemma core_session_frames (frames : list (Z * list byte)) :
  forall (last : list byte) (c : bootloader_context_t) (w : world),
    all_ok w -> uart_rx w = [] ->
    initialized c = true -> rx_cache c = [] ->
    len (payload_buf c) = BOOT_PAYLOAD_MAX_SIZE cfg ->
    Forall (fun f => 0 < fst f < 2 ^ 24
                     /\ len (snd f) <= BOOT_PAYLOAD_MAX_SIZE cfg) frames ->
    len last <= BOOT_PAYLOAD_MAX_SIZE cfg ->
    let c0 := prepared cfg c in
    stream_cache_len c0 <= 3 ->
    BOOT_APP_START_ADDR cfg <= current_addr c0 -> current_addr c0 mod 4 = 0 ->
    let pending := stream_cache c0 ++ concat (map snd frames) ++ last in
    current_addr c0 + 4 * ceil4 (len pending) <= app_region_end cfg ->
    exists c' w' body,
      core_session cfg
        (map (fun f => encode_data_frame (fst f) (snd f)) frames
         ++ [encode_data_frame 0 last]) c w
      = Leaves c' w'
      /\ trace w' = trace w ++ erase_part cfg c ++ body
                    ++ flag_region_events cfg BOOT_FLAG_APP
                         (app_version c) (update_date c)
                    ++ [EvUartWrite g_boot_ack; EvReset]
      /\ programmed body
         = programmed (word_events (current_addr c0) (pending ++ pad_ff pending))
      /\ acks body = length frames
      /\ Forall word_or_ack body.
Proof.
  induction frames as [|[r p] frames IH];
    intros last c w Hok Hrx Hinit Hc Hbuf Hfr Hlast c0 Hcar Hlo Hal pending Hfit.
  - cbn [map concat app] in *. subst pending. cbn [app] in *.
    pose proof (@core_run_data_frame 0 last c w Hok Hrx Hinit Hc Hbuf
                  ltac:(lia) Hlast Hcar Hlo Hal) as H.
    cbv zeta in H. fold c0 in H. cbn [Z.eqb] in H.
    destruct H as (c' & w' & E & Ht).
    { unfold stream_cache_len. rewrite <- len_app. exact Hfit. }
    cbn [core_session]. rewrite E.
    exists c', w', (word_events (current_addr c0)
                      ((stream_cache c0 ++ last) ++ pad_ff (stream_cache c0 ++ last))).
    split; [reflexivity|].
    split; [rewrite Ht, <- !app_assoc; reflexivity|].
    split; [reflexivity|]. split; [apply acks_word_events|].
    apply word_events_word_or_ack.
  - cbn [map concat app fst snd] in *.
    apply Forall_cons_iff in Hfr as ((Hr & Hp) & Hfr). cbn [fst snd] in Hr, Hp.
    set (total := stream_cache c0 ++ p).
    set (later := concat (map snd frames) ++ last).
    assert (Epend : pending = total ++ later).
    { unfold pending, total, later. rewrite <- !app_assoc. reflexivity. }
    pose proof (len_nonneg total) as Hnt. pose proof (len_nonneg later) as Hnl.
    pose proof (len_nonneg p) as Hnp.
    pose proof (len_nonneg (stream_cache c0)) as Hnc.
    assert (Elt : len total = len (stream_cache c0) + len p) by apply len_app.
    assert (Elp : len pending = len total + len later)
      by (rewrite Epend; apply len_app).
    destruct (div4_facts Hnt) as (Hk & Hkm & Hmod).
    pose proof (len_leftover total) as Hleft. cbv zeta in Hleft.
    set (k := 4 * (len total / 4)) in *.
    pose proof (@ceil4_bounds (len total) Hnt) as Hc1.
    assert (Eceil : 4 * ceil4 (len pending) = k + 4 * ceil4 (len pending - k)).
    { unfold ceil4, k.
      replace (len pending + 3) with (len pending - 4 * (len total / 4) + 3
                                      + (len total / 4) * 4) by lia.
      rewrite Z.div_add by lia. lia. }
    assert (Hmono : 4 * ceil4 (len total) <= 4 * ceil4 (len pending)).
    { unfold ceil4. pose proof (Z.div_le_mono (len total + 3) (len pending + 3) 4
                                  ltac:(lia) ltac:(lia)). lia. }
    assert (Er : (r =? 0) = false) by (apply Z.eqb_neq; lia).
    pose proof (@core_run_data_frame r p c w Hok Hrx Hinit Hc Hbuf
                  ltac:(lia) Hp Hcar Hlo Hal) as H.
    cbv zeta in H. fold c0 in H. fold total in H. rewrite Er in H. fold k in H.
    destruct H as (c1 & w1 & E1 & Hok1 & Hrx1 & Ht1 & Hc1' & Hbuf1 & Hin1 & Hda1
                   & Eav1 & Eud1 & Hcur1 & Hcar1).
    { unfold stream_cache_len. rewrite <- Elt. lia. }
    assert (Eprep : prepared cfg c1 = c1) by (unfold prepared; rewrite Hda1; reflexivity).
    assert (Eer1 : erase_part cfg c1 = [])
      by (unfold erase_part; rewrite Hda1; reflexivity).
    destruct (IH last c1 w1 Hok1 Hrx1 Hin1 Hc1' Hbuf1 Hfr Hlast)
      as (c' & w' & body & E & Ht & Hprog & Hacks & Hbody);
      rewrite ?Eprep.
    { unfold stream_cache_len. rewrite Hcar1, Hleft. lia. }
    { rewrite Hcur1. lia. }
    { rewrite Hcur1. apply aligned_plus, Hal. }
    { rewrite Hcur1, Hcar1. fold later. rewrite len_app, Hleft.
      replace (len total mod 4 + len later) with (len pending - k) by lia. lia. }
    rewrite Eprep, Eer1, Hcur1, Hcar1, Eav1, Eud1 in *. fold later in Hprog.
    cbn [app] in Ht.
    cbn [core_session]. rewrite E1.
    exists c', w', (word_events (current_addr c0) total
                    ++ [EvUartWrite g_boot_ack] ++ body).
    split; [exact E|].
    split; [rewrite Ht, Ht1, <- !app_assoc; reflexivity|].
    split.
    { rewrite !programmed_app, Hprog. cbn [programmed app].
      rewrite <- programmed_app. f_equal.
      rewrite Epend, <- (app_assoc total later (pad_ff (total ++ later))).
      rewrite (@word_events_split (current_addr c0) total
                 (later ++ pad_ff (total ++ later))).
      fold k. pose proof (pad_ff_leftover total later) as Epad. cbv zeta in Epad.
      fold k in Epad. rewrite Epad, <- app_assoc. reflexivity. }
    split.
    { rewrite !acks_app, acks_word_events, Hacks. cbn [acks length].
      destruct (list_eq_dec byte_eq_dec g_boot_ack g_boot_ack) as [_|N];
        [reflexivity | contradiction N; reflexivity]. }
    apply Forall_app. split; [apply word_events_word_or_ack|].
    constructor; [reflexivity | exact Hbody].
Qed.

End CoreDownload.

(** X22.  A whole download through the portable core, on a healthy flash.
    Data frames with a non-zero remaining field, then a last data frame with
    remaining = 0, one frame per call of [easy_bootloader_run], starting with
    no download active and an empty cache.  The core erases the application
    region once, programs the image from the start of the region in arrival
    order, filled up to a whole word with 0xFF, and acknowledges every frame
    but the last; on the last frame it goes on to erase the flag region and
    to program flag = BOOT_FLAG_APP together with the version and the date
    the context already held (the words read at start-up: no frame of the
    core's protocol carries a new version), sends one Ack and resets. *)
Theorem core_download_end_to_end
        (cfg : boot_config) (frames : list (Z * list byte)) (last : list byte)
        (c : bootloader_context_t) (w : world) :
  layout_ok cfg ->
  all_ok w -> uart_rx w = [] ->
  initialized c = true -> download_active c = false -> rx_cache c = [] ->
  len (payload_buf c) = BOOT_PAYLOAD_MAX_SIZE cfg ->
  Forall (fun f => 0 < fst f < 2 ^ 24
                   /\ len (snd f) <= BOOT_PAYLOAD_MAX_SIZE cfg) frames ->
  len last <= BOOT_PAYLOAD_MAX_SIZE cfg ->
  let image := concat (map snd frames) ++ last in
  4 * ceil4 (len image) <= BOOT_APP_MAX_SIZE cfg ->
  let o := core_session cfg
             (map (fun f => encode_data_frame (fst f) (snd f)) frames
              ++ [encode_data_frame 0 last])
             c w in
  exists body,
    value_of o = None
    /\ trace (world_of o)
       = trace w
         ++ [EvErase (BOOT_APP_START_ADDR cfg) (BOOT_APP_MAX_SIZE cfg)]
         ++ body
         ++ flag_region_events cfg BOOT_FLAG_APP (app_version c) (update_date c)
         ++ [EvUartWrite g_boot_ack; EvReset]
    /\ programmed body
       = programmed (word_events (BOOT_APP_START_ADDR cfg) (image ++ pad_ff image))
    /\ acks body = length frames
    /\ Forall word_or_ack body.
Proof.
  intros Hl Hok Hrx Hinit Hda Hc Hbuf Hfr Hlast image Hfit o.
  pose proof Hl as (H0 & Hal & Hm & Hend & Hpm & Hfl).
  assert (Ecur : current_addr (prepared cfg c) = BOOT_APP_START_ADDR cfg)
    by (unfold prepared; rewrite Hda; reflexivity).
  assert (Ecar : stream_cache (prepared cfg c) = [])
    by (unfold prepared; rewrite Hda; reflexivity).
  assert (Eer : erase_part cfg c
                = [EvErase (BOOT_APP_START_ADDR cfg) (BOOT_APP_MAX_SIZE cfg)])
    by (unfold erase_part; rewrite Hda; reflexivity).
  destruct (@core_session_frames cfg Hl frames last c w Hok Hrx Hinit Hc Hbuf
              Hfr Hlast)
    as (c1 & w1 & body & E & Ht1 & Hprog & Hacks & Hbody);
    rewrite ?Ecur, ?Ecar; unfold stream_cache_len; rewrite ?Ecar, ?len_nil;
    cbn [app]; try first [assumption | lia].
  { fold image. unfold app_region_end. lia. }
  rewrite Ecur, Ecar, Eer in *. cbn [app] in Hprog. fold image in Hprog.
  subst o. rewrite E. cbn [value_of world_of]. exists body.
  split; [reflexivity|]. split; [rewrite Ht1; reflexivity|]. auto.
Qed.

Lemma core_download_end_to_end_witness :
  let cfg := ch32v307_config in
  let c := {| rx_cache := [];
              payload_buf := repeat x00 (Z.to_nat (BOOT_PAYLOAD_MAX_SIZE cfg));
              current_addr := BOOT_APP_START_ADDR cfg; stream_cache := [];
              boot_flag := 1; app_version := 5; update_date := 0x20250101;
              state := BOOT_STATE_IDLE; download_active := false;
              initialized := true |} in
  let frames := [(3, [xaa; xaa; xaa; xaa; xaa])] in
  let last := [xbb; xbb; xbb] in
  let o := core_session cfg
             (map (fun f => encode_data_frame (fst f) (snd f)) frames
              ++ [encode_data_frame 0 last]) c blank_world in
  layout_ok cfg /\ all_ok blank_world
  /\ initialized c = true /\ download_active c = false /\ rx_cache c = []
  /\ len (payload_buf c) = BOOT_PAYLOAD_MAX_SIZE cfg
  /\ (exists body,
        value_of o = None
        /\ trace (world_of o)
           = trace blank_world
             ++ [EvErase (BOOT_APP_START_ADDR cfg) (BOOT_APP_MAX_SIZE cfg)]
             ++ body
             ++ flag_region_events cfg BOOT_FLAG_APP (app_version c) (update_date c)
             ++ [EvUartWrite g_boot_ack; EvReset]
        /\ acks body = 1%nat)
  /\ programmed (trace (world_of o))
     = [ (0x6000, [xaa; xaa; xaa; xaa]); (0x6004, [xaa; xbb; xbb; xbb]);
         (0x3F800, [x02; x00; x00; x00]); (0x3F804, [x05; x00; x00; x00]);
         (0x3F808, [x01; x01; x25; x20]) ].
Proof.
  intros cfg c frames last o.
  assert (H1 : layout_ok cfg) by (unfold layout_ok; cbn; repeat split; lia).
  assert (H3 : all_ok blank_world) by reflexivity.
  assert (H4 : uart_rx blank_world = []) by reflexivity.
  assert (H5 : initialized c = true) by reflexivity.
  assert (H7 : download_active c = false) by reflexivity.
  assert (H8 : rx_cache c = []) by reflexivity.
  assert (H9 : len (payload_buf c) = BOOT_PAYLOAD_MAX_SIZE cfg)
    by (vm_compute; reflexivity).
  assert (H10 : Forall (fun f => 0 < fst f < 2 ^ 24
                                 /\ len (snd f) <= BOOT_PAYLOAD_MAX_SIZE cfg) frames)
    by (repeat constructor; cbn; lia).
  assert (H11 : len last <= BOOT_PAYLOAD_MAX_SIZE cfg) by (vm_compute; discriminate).
  assert (H12 : 4 * ceil4 (len (concat (map snd frames) ++ last))
                <= BOOT_APP_MAX_SIZE cfg) by (vm_compute; discriminate).
  split; [exact H1|]. split; [exact H3|]. split; [exact H5|].
  split; [exact H7|]. split; [exact H8|]. split; [exact H9|].
  split; [|vm_compute; reflexivity].
  destruct (@core_download_end_to_end cfg frames last c blank_world
              H1 H3 H4 H5 H7 H8 H9 H10 H11 H12)
    as (body & Hv & Ht & _ & Ha & _).
  exists body. auto.
Defined.

(** The erase loop on any flash: it erases sector after sector and stops at
    the first one the hardware refuses. *)
Lemma erase_sectors_any (n : nat) :
  forall (i : Z) (w : world),
    0 <= i -> (Z.to_nat i + n <= length Stm32f407Port.flash_sectors)%nat ->
    let l := firstn n (skipn (Z.to_nat i) Stm32f407Port.flash_sectors) in
    let r := Stm32f407Port.erase_sectors i n w in
    (fst r = BOOT_PORT_OK /\ trace (snd r) = trace w ++ map sector_erase l)
    \/ (fst r = BOOT_PORT_ERROR
        /\ exists done s rest,
             l = done ++ s :: rest
             /\ trace (snd r)
                = trace w ++ map sector_erase done
                  ++ [EvEraseFailed (Stm32f407Port.start_addr s)
                                    (Stm32f407Port.size s)]).
Proof.
  induction n as [|n IH]; intros i w Hi Hn; cbv zeta.
  - left. cbn [Stm32f407Port.erase_sectors firstn map fst snd].
    rewrite app_nil_r. auto.
  - cbn [Stm32f407Port.erase_sectors].
    rewrite (@skipn_nth _ {| Stm32f407Port.start_addr := 0;
                             Stm32f407Port.size := 0;
                             Stm32f407Port.sector_id := 0 |}
               Stm32f407Port.flash_sectors (Z.to_nat i)) by lia.
    fold (Stm32f407Port.sector_at i). cbn [firstn].
    pose proof (draw_trace w) as Ht. destruct (draw w) as [ok w1]. cbn [snd] in Ht.
    destruct ok.
    + specialize (IH (i + 1)
                     (emit (EvErase (Stm32f407Port.start_addr (Stm32f407Port.sector_at i))
                                    (Stm32f407Port.size (Stm32f407Port.sector_at i))) w1)
                     ltac:(lia) ltac:(lia)).
      cbv zeta in IH.
      replace (Z.to_nat (i + 1)) with (S (Z.to_nat i)) in IH by lia.
      cbn [emit trace] in IH. rewrite Ht in IH.
      destruct IH as [(E & Htr)|(E & done & s & rest & El & Htr)].
      * left. split; [exact E|]. rewrite Htr, <- app_assoc. reflexivity.
      * right. split; [exact E|].
        exists (Stm32f407Port.sector_at i :: done), s, rest.
        split; [rewrite El; reflexivity|]. rewrite Htr, <- app_assoc. reflexivity.
    + right. cbn [fst snd emit trace]. split; [reflexivity|].
      exists [], (Stm32f407Port.sector_at i),
        (firstn n (skipn (S (Z.to_nat i)) Stm32f407Port.flash_sectors)).
      split; [reflexivity|]. rewrite Ht. reflexivity.
Qed.

(** X23.  The STM32F407 port's erase on any flash.  For a non-empty range
    inside the flash, [boot_port_flash_erase] erases the sectors sharing a
    byte with the range in address order and stops at the first one the
    hardware refuses: it returns OK after erasing all of them, or an error
    after erasing an initial part of them and failing on the next; no other
    sector is touched in either case. *)
Theorem stm32f407_erase_stops_at_failure (addr sz : Z) (w : world) :
  0 < sz -> 0x08000000 <= addr -> addr + sz <= 0x08100000 ->
  let overl := filter (sector_overlaps addr sz) Stm32f407Port.flash_sectors in
  let r := Stm32f407Port.boot_port_flash_erase addr sz w in
  (fst r = BOOT_PORT_OK /\ trace (snd r) = trace w ++ map sector_erase overl)
  \/ (fst r = BOOT_PORT_ERROR
      /\ exists done s rest,
           overl = done ++ s :: rest
           /\ trace (snd r)
              = trace w ++ map sector_erase done
                ++ [EvEraseFailed (Stm32f407Port.start_addr s)
                                  (Stm32f407Port.size s)]).
Proof.
  intros Hsz Hlo Hhi overl r. subst overl r.
  unfold Stm32f407Port.boot_port_flash_erase.
  rewrite (@u32_small (addr + sz)) by lia.
  rewrite (@u32_small (addr + sz - 1)) by lia.
  destruct (get_sector_index_cases addr) as [[_ Hout]|[Hi Ha]]; [lia|].
  destruct (get_sector_index_cases (addr + sz - 1)) as [[_ Hout]|[Hj Hl]]; [lia|].
  set (i := Stm32f407Port.get_sector_index addr) in *.
  set (j := Stm32f407Port.get_sector_index (addr + sz - 1)) in *.
  clearbody i j.
  destruct (@overlapping_sectors addr sz i j Hsz Hi Hj Ha Hl) as (Hij & ->).
  destruct (Z.ltb_spec i 0); [lia|]. destruct (Z.ltb_spec j 0); [lia|].
  cbn [orb].
  apply erase_sectors_any; [lia|].
  change (length Stm32f407Port.flash_sectors) with 12%nat. lia.
Qed.

Lemma stm32f407_erase_stops_at_failure_witness :
  let w := {| flash := flash blank_world; oracle := [true; false];
              uart_rx := []; trace := [] |} in
  let r := Stm32f407Port.boot_port_flash_erase 0x08010000 0x000D0000 w in
  fst r = BOOT_PORT_ERROR
  /\ trace (snd r) = [EvErase 0x08010000 0x10000; EvEraseFailed 0x08020000 0x20000]
  /\ ((fst r = BOOT_PORT_OK
       /\ trace (snd r)
          = trace w ++ map sector_erase
                         (filter (sector_overlaps 0x08010000 0x000D0000)
                                 Stm32f407Port.flash_sectors))
      \/ (fst r = BOOT_PORT_ERROR
          /\ exists done s rest,
               filter (sector_overlaps 0x08010000 0x000D0000)
                      Stm32f407Port.flash_sectors = done ++ s :: rest
               /\ trace (snd r)
                  = trace w ++ map sector_erase done
                    ++ [EvEraseFailed (Stm32f407Port.start_addr s)
                                      (Stm32f407Port.size s)])).
Proof.
  intros w r. split; [reflexivity|]. split; [reflexivity|].
  apply (@stm32f407_erase_stops_at_failure 0x08010000 0x000D0000 w);
    [lia | lia | lia].
Defined.

Lemma page_erases_S (lo : Z) (n : nat) :
  page_erases lo (S n) = EvErase lo 256 :: page_erases (lo + 256) n.
Proof.
  unfold page_erases. cbn [seq map]. rewrite Z.mul_0_r, Z.add_0_r. f_equal.
  rewrite <- seq_shift, map_map. apply map_ext. intros k. f_equal. lia.
Qed.

(** The page loop of the CH32V307 application port on any flash. *)
Lemma erase_pages_spec (n : nat) :
  forall (fuel : nat) (a : Z) (w : world),
    0 <= a -> a + 256 * Z.of_nat n < 2 ^ 32 -> (n <= fuel)%nat ->
    exists st w',
      Ch32v307AppPort.erase_pages fuel a (a + 256 * Z.of_nat n) w = Some (st, w')
      /\ ((st = App.BOOT_PORT_APP_OK /\ trace w' = trace w ++ page_erases a n)
          \/ (st = App.BOOT_PORT_APP_ERROR
              /\ exists k, (k < n)%nat
                   /\ trace w' = trace w ++ page_erases a k
                                 ++ [EvEraseFailed (a + 256 * Z.of_nat k) 256])).
Proof.
  induction n as [|n IH]; intros fuel a w Ha Hhi Hf.
  - exists App.BOOT_PORT_APP_OK, w. split.
    + destruct fuel; cbn [Ch32v307AppPort.erase_pages];
        rewrite (proj2 (Z.ltb_ge a (a + 256 * Z.of_nat 0))) by lia; reflexivity.
    + left. split; [reflexivity|]. unfold page_erases. cbn. rewrite app_nil_r.
      reflexivity.
  - destruct fuel as [|fuel]; [lia|]. cbn [Ch32v307AppPort.erase_pages].
    rewrite (proj2 (Z.ltb_lt a (a + 256 * Z.of_nat (S n)))) by lia.
    pose proof (draw_trace w) as Ht. destruct (draw w) as [ok w1]. cbn [snd] in Ht.
    destruct ok.
    + rewrite (@u32_small (a + 256)) by lia.
      replace (a + 256 * Z.of_nat (S n)) with (a + 256 + 256 * Z.of_nat n) by lia.
      destruct (IH fuel (a + 256) (emit (EvErase a 256) w1)
                   ltac:(lia) ltac:(lia) ltac:(lia)) as (st & w' & E & H).
      exists st, w'. split; [exact E|]. cbn [emit trace] in H. rewrite Ht in H.
      destruct H as [(-> & Htr)|(-> & k & Hk & Htr)].
      * left. split; [reflexivity|].
        rewrite Htr, page_erases_S, <- app_assoc. reflexivity.
      * right. split; [reflexivity|]. exists (S k). split; [lia|].
        replace (a + 256 * Z.of_nat (S k)) with (a + 256 + 256 * Z.of_nat k) by lia.
        rewrite Htr, page_erases_S, <- !app_assoc. reflexivity.
    + exists App.BOOT_PORT_APP_ERROR, (emit (EvEraseFailed a 256) w1).
      split; [reflexivity|]. right. split; [reflexivity|].
      exists 0%nat. split; [lia|]. cbn [emit trace]. rewrite Ht.
      unfold page_erases. cbn [seq map app Z.of_nat].
      rewrite Z.mul_0_r, Z.add_0_r. reflexivity.
Qed.

Lemma byte_bits_high (b : byte) (n : Z) : 8 <= n -> Z.testbit (b2z b) n = false.
Proof.
  intros Hn. pose proof (b2z_range b) as Hb.
  rewrite <- (Z.mod_small (b2z b) (2 ^ 8)) by (change (2 ^ 8) with 256; lia).
  apply Z.mod_pow2_bits_high. lia.
Qed.

Ltac byte_bits :=
  repeat match goal with
         | |- context [Z.testbit (b2z ?b) ?i] =>
             first [ rewrite (@byte_bits_high b i) by lia
                   | rewrite (Z.testbit_neg_r (b2z b) i) by lia ]
         end.

(** The word the write loop builds from four bytes is stored as those four
    bytes. *)
Lemma le32_word_of (b0 b1 b2 b3 : byte) (rest : list byte) :
  le32 (Ch32v307AppPort.word_of (b0 :: b1 :: b2 :: b3 :: rest)) = [b0; b1; b2; b3].
Proof.
  unfold Ch32v307AppPort.word_of, byte_at. cbn [Z.to_nat Pos.to_nat Pos.iter_op
                                                 Init.Nat.add nth].
  change (nth (Z.to_nat 0) (b0 :: b1 :: b2 :: b3 :: rest) x00) with b0.
  change (nth (Z.to_nat 1) (b0 :: b1 :: b2 :: b3 :: rest) x00) with b1.
  change (nth (Z.to_nat 2) (b0 :: b1 :: b2 :: b3 :: rest) x00) with b2.
  change (nth (Z.to_nat 3) (b0 :: b1 :: b2 :: b3 :: rest) x00) with b3.
  set (W := Z.lor _ _).
  assert (H : forall sh b,
             (forall n, 0 <= n < 8 -> Z.testbit W (n + sh) = Z.testbit (b2z b) n) ->
             0 <= sh ->
             z2b (Z.land (Z.shiftr W sh) 255) = b).
  { intros sh b Hbits Hsh.
    transitivity (z2b (b2z b)); [f_equal | apply z2b_b2z].
    apply Z.bits_inj'. intros n Hn.
    rewrite Z.land_spec, Z.shiftr_spec by lia.
    change 255 with (Z.ones 8). rewrite Z.testbit_ones_nonneg by lia.
    destruct (Z.ltb_spec n 8) as [Hlt|Hge].
    - rewrite andb_true_r. apply Hbits. lia.
    - rewrite andb_false_r. symmetry. apply byte_bits_high. exact Hge. }
  unfold le32.
  rewrite <- (Z.shiftr_0_r W) at 1.
  rewrite (H 0 b0), (H 8 b1), (H 16 b2), (H 24 b3); try lia; try reflexivity;
    intros n Hn; unfold W;
      rewrite !Z.lor_spec, !Z.shiftl_spec by lia; byte_bits;
      rewrite ?orb_false_r, ?orb_false_l; f_equal; lia.
Qed.

(** The write loop of the CH32V307 application port is the word loop of the
    bootloader's port. *)
Lemma program_loop_words (fuel : nat) :
  forall (data : list byte) (a : Z) (w : world),
    len data mod 4 = 0 -> 0 <= a -> a + len data < 2 ^ 32 ->
    (length data <= 4 * fuel)%nat ->
    Ch32v307AppPort.program_loop fuel a (a + len data) data w
    = Some (let (s, w') := program_words a data w in (App.app_status s, w')).
Proof.
  induction fuel as [|fuel IH]; intros data a w Hm Ha Hhi Hf.
  - destruct data; [|cbn in Hf; lia]. cbn [Ch32v307AppPort.program_loop].
    rewrite (proj2 (Z.ltb_ge a (a + len []))) by (unfold len; cbn; lia).
    reflexivity.
  - destruct data as [|b0 [|b1 [|b2 [|b3 rest]]]];
      try (exfalso; unfold len in Hm; cbn in Hm; discriminate).
    + cbn [Ch32v307AppPort.program_loop].
      rewrite (proj2 (Z.ltb_ge a (a + len []))) by (unfold len; cbn; lia).
      reflexivity.
    + assert (El : len (b0 :: b1 :: b2 :: b3 :: rest) = 4 + len rest)
        by (unfold len; cbn [length]; lia).
      pose proof (len_nonneg rest) as Hn.
      cbn [Ch32v307AppPort.program_loop program_words].
      rewrite (proj2 (Z.ltb_lt a (a + len (b0 :: b1 :: b2 :: b3 :: rest)))) by lia.
      rewrite le32_word_of. cbn [skipn].
      destruct (draw w) as [ok w1]. destruct ok; [|reflexivity].
      rewrite (@u32_small (a + 4)) by lia.
      replace (a + len (b0 :: b1 :: b2 :: b3 :: rest)) with (a + 4 + len rest) by lia.
      apply IH; [|lia|lia|cbn [length] in Hf; lia].
      rewrite El in Hm. rewrite <- Hm.
      replace (4 + len rest) with (len rest + 1 * 4) by lia.
      rewrite Z.mod_add by lia. reflexivity.
Qed.

(** X24.  The erase of the CH32V307 application port.  For an address and a
    size that are multiples of 256, [boot_port_app_flash_erase] erases the
    size / 256 pages of the range one by one in address order, at the
    physical address (the address plus 0x08000000), and returns OK; when the
    hardware refuses a page it stops there and returns an error, the pages
    before it erased and none after it touched. *)
Theorem ch32v307_app_erase_page_by_page (addr size : Z) (w : world) :
  addr mod 256 = 0 -> size mod 256 = 0 ->
  0 <= addr -> 0 <= size -> addr + 0x08000000 + size < 2 ^ 32 ->
  let phys := addr + 0x08000000 in
  let pages := Z.to_nat (size / 256) in
  exists st w',
    Ch32v307AppPort.boot_port_app_flash_erase addr size w = Some (st, w')
    /\ ((st = App.BOOT_PORT_APP_OK
         /\ trace w' = trace w ++ page_erases phys pages)
        \/ (st = App.BOOT_PORT_APP_ERROR
            /\ exists k, (k < pages)%nat
                 /\ trace w' = trace w ++ page_erases phys k
                               ++ [EvEraseFailed (phys + 256 * Z.of_nat k) 256])).
Proof.
  intros Ha Hs H0 Hs0 Hhi phys pages.
  unfold Ch32v307AppPort.boot_port_app_flash_erase. rewrite Ha, Hs. cbn [Z.eqb negb orb].
  unfold Ch32v307AppPort.FLASH_PHYS_ADDR, Ch32v307AppPort.FLASH_BASE_ADDR.
  rewrite (@u32_small (addr + 0x08000000)) by lia.
  rewrite (@u32_small (addr + 0x08000000 + size)) by lia.
  fold phys. fold pages.
  assert (Esz : size = 256 * Z.of_nat pages).
  { unfold pages. rewrite Z2Nat.id by (apply Z.div_pos; lia).
    pose proof (Z.div_mod size 256 ltac:(lia)). lia. }
  clearbody pages. subst size.
  apply erase_pages_spec; [unfold phys; lia | unfold phys; lia | lia].
Qed.

Lemma ch32v307_app_erase_page_by_page_witness :
  let w := {| flash := flash blank_world; oracle := [true; true; false];
              uart_rx := []; trace := [] |} in
  exists st w',
    Ch32v307AppPort.boot_port_app_flash_erase 0x3F800 0x800 w = Some (st, w')
    /\ st = App.BOOT_PORT_APP_ERROR
    /\ trace w' = [EvErase 0x0803F800 256; EvErase 0x0803F900 256;
                   EvEraseFailed 0x0803FA00 256]
    /\ ((st = App.BOOT_PORT_APP_OK
         /\ trace w' = trace w ++ page_erases 0x0803F800 8)
        \/ (st = App.BOOT_PORT_APP_ERROR
            /\ exists k, (k < 8)%nat
                 /\ trace w' = trace w ++ page_erases 0x0803F800 k
                               ++ [EvEraseFailed (0x0803F800 + 256 * Z.of_nat k) 256])).
Proof.
  intros w.
  destruct (@ch32v307_app_erase_page_by_page 0x3F800 0x800 w
              ltac:(reflexivity) ltac:(reflexivity) ltac:(lia) ltac:(lia) ltac:(lia))
    as (st & w' & E & H).
  exists st, w'. split; [exact E|].
  assert (E' : Some (st, w')
               = Some (App.BOOT_PORT_APP_ERROR,
                       {| flash := flash blank_world; oracle := [];
                          uart_rx := [];
                          trace := [EvErase 0x0803F800 256; EvErase 0x0803F900 256;
                                    EvEraseFailed 0x0803FA00 256] |}))
    by (rewrite <- E; vm_compute; reflexivity).
  injection E' as -> ->.
  split; [reflexivity|]. split; [reflexivity|]. exact H.
Defined.

(** X25.  The write of the CH32V307 application port.  For an address and a
    length that are multiples of 4, [boot_port_app_flash_write] behaves as
    the word loop of the bootloader's port at the physical address (the
    address plus 0x08000000): the word it builds from four bytes is stored as
    those four bytes, so the flash receives the data byte for byte, word by
    word in address order, and the loop stops at the first word the hardware
    refuses.  On a healthy flash it returns OK after programming all of the
    data. *)
Theorem ch32v307_app_write_stores_data (addr : Z) (data : list byte) (w : world) :
  addr mod 4 = 0 -> len data mod 4 = 0 ->
  0 <= addr -> addr + 0x08000000 + len data < 2 ^ 32 ->
  let phys := addr + 0x08000000 in
  Ch32v307AppPort.boot_port_app_flash_write addr data w
  = Some (let (s, w') := program_words phys data w in (App.app_status s, w'))
  /\ (all_ok w ->
      exists w',
        Ch32v307AppPort.boot_port_app_flash_write addr data w
        = Some (App.BOOT_PORT_APP_OK, w')
        /\ trace w' = trace w ++ word_events phys data).
Proof.
  intros Ha Hl H0 Hhi phys.
  pose proof (len_nonneg data) as Hn.
  assert (E : Ch32v307AppPort.boot_port_app_flash_write addr data w
              = Some (let (s, w') := program_words phys data w in
                      (App.app_status s, w'))).
  { unfold Ch32v307AppPort.boot_port_app_flash_write. rewrite Ha, Hl.
    cbn [Z.eqb negb orb].
    unfold Ch32v307AppPort.FLASH_PHYS_ADDR, Ch32v307AppPort.FLASH_BASE_ADDR.
    rewrite (@u32_small (addr + 0x08000000)) by lia.
    rewrite (@u32_small (addr + 0x08000000 + len data)) by lia.
    fold phys. apply program_loop_words; [exact Hl | unfold phys; lia
                                          | unfold phys; lia |].
    pose proof (Z.div_mod (len data) 4 ltac:(lia)) as Hd. unfold len in *.
    rewrite Hl in Hd.
    assert (0 <= Z.of_nat (length data) / 4) by (apply Z.div_pos; lia). lia. }
  split; [exact E|]. intros Hok.
  destruct (@program_words_all_ok data (whole_words_len data Hl) phys w Hok
              ltac:(unfold phys; lia) ltac:(unfold phys; lia))
    as (w1 & E1 & _ & Ht & _).
  exists w1. rewrite E, E1. split; [reflexivity | exact Ht].
Qed.

Lemma ch32v307_app_write_stores_data_witness :
  let data := [x02; x00; x00; x00; x05; x00; x00; x00] in
  all_ok blank_world
  /\ exists w',
       Ch32v307AppPort.boot_port_app_flash_write 0x3F800 data blank_world
       = Some (App.BOOT_PORT_APP_OK, w')
       /\ trace w' = [EvProgramWord 0x0803F800 [x02; x00; x00; x00];
                      EvProgramWord 0x0803F804 [x05; x00; x00; x00]].
Proof.
  intros data.
  assert (H1 : all_ok blank_world) by reflexivity.
  split; [exact H1|].
  destruct (@ch32v307_app_write_stores_data 0x3F800 data blank_world
              ltac:(reflexivity) ltac:(reflexivity) ltac:(lia)
              ltac:(vm_compute; reflexivity)) as (_ & H).
  destruct (H H1) as (w' & E & Ht).
  exists w'. split; [exact E|]. rewrite Ht. reflexivity.
Defined.

(** ** The portable core on any input and any flash *)

Section CoreSafety.

Variable cfg : boot_config.
Hypothesis layout : layout_ok cfg.

Lemma core_safe_after (A : Type) (w w1 : world) (evs1 : list event)
      (o : outcome bootloader_context_t A) :
  trace w1 = trace w ++ evs1 -> Forall (engine_event cfg) evs1 ->
  core_safe_outcome cfg w1 o -> core_safe_outcome cfg w o.
Proof.
  intros Ht1 Hev1 (evs & Ht & Hev & Hinv). exists (evs1 ++ evs).
  rewrite Ht, Ht1, app_assoc. split; [reflexivity|].
  split; [apply Forall_app; split; assumption | exact Hinv].
Qed.

Lemma core_safe_returns (A : Type) (a : A) (c : bootloader_context_t) (w : world) :
  core_inv cfg c -> core_safe_outcome cfg w (Returns a c w).
Proof.
  intros H. exists []. rewrite app_nil_r. split; [reflexivity|].
  split; [constructor | exact H].
Qed.

Lemma span_events_allowed (evs : list event) :
  Forall (in_span (BOOT_APP_START_ADDR cfg) (app_region_end cfg)) evs ->
  Forall (engine_event cfg) evs.
Proof. intros H. eapply Forall_impl; [|exact H]. apply in_span_engine_event. Qed.

Lemma core_inv_writer (c c' : bootloader_context_t) :
  core_inv cfg c -> writer_frame c c' ->
  stream_cache_len c' <= 4 ->
  BOOT_APP_START_ADDR cfg <= current_addr c' <= app_region_end cfg ->
  current_addr c' mod 4 = 0 ->
  core_inv cfg c'.
Proof.
  intros (Hrx & Hbuf & _) Hf Hc Hcur Hal.
  destruct (writer_frame_fields Hf) as (Erx & Epb & _).
  unfold core_inv, rx_cache_len in *. rewrite Erx, Epb. auto.
Qed.

(** [bootloader_handle_payload] of the core, for any frame and any flash. *)
Lemma core_handle_payload_safe (r pl : Z) (c : bootloader_context_t) (w : world) :
  0 <= pl <= BOOT_PAYLOAD_MAX_SIZE cfg -> core_inv cfg c ->
  core_frame_outcome cfg w c (Core.bootloader_handle_payload cfg r pl c w).
Proof.
  intros Hpl Hinv. pose proof Hinv as (Hrx & Hbuf & Hcar & Hcur & Hal).
  pose proof layout as (H0 & Hsal & Hm & Hend & Hp & Hfl).
  assert (Hlo : 0 <= BOOT_APP_START_ADDR cfg) by exact H0.
  assert (Hhi : app_region_end cfg < 2 ^ 32)
    by (unfold app_region_end; change (2 ^ 17) with 131072 in Hend; lia).
  unfold Core.bootloader_handle_payload. unfold bind at 1.
  destruct (prepare_download_any cfg c w) as (s0 & c1 & w1 & erase & -> & Ht1 & Hcase).
  assert (Hgo : forall c1 : bootloader_context_t,
            core_inv cfg c1 ->
            core_frame_outcome cfg w1 c1
              ((c <- get ;;
               if flash_range_overflow cfg c pl then ret BOOT_PORT_ERROR
               else
                 status <- bootloader_stream_write
                             (firstn (Z.to_nat pl) (payload_buf c)) ;;
                 if negb (status_ok status) then ret status
                 else if r =? 0 then
                   status <- bootloader_stream_flush ;;
                   if status_ok status then
                     modify (set_download_active false) ;;;
                     c <- get ;;
                     status <- bootloader_write_flag_region cfg BOOT_FLAG_APP
                                 (app_version c) (update_date c) ;;
                     if status_ok status then
                       port_ (boot_port_uart_write g_boot_ack) ;;;
                       boot_port_system_reset
                     else ret status
                   else ret status
                 else
                   port_ (boot_port_uart_write g_boot_ack) ;;;
                   ret status) c1 w1)).
  { clear c Hinv Hrx Hbuf Hcar Hcur Hal Hcase c1 Ht1.
    intros c1 Hinv. pose proof Hinv as (Hrx & Hbuf & Hcar & Hcur & Hal).
    unfold bind at 1. unfold get at 1.
    rewrite (@flash_range_overflow_spec cfg layout c1 pl Hpl Hcar Hcur).
    destruct (Z.gtb_spec (current_addr c1 + 4 * ceil4 (stream_cache_len c1 + pl))
                         (app_region_end cfg)) as [Hover|Hfit].
    { unfold ret. split; [apply core_safe_returns, Hinv | reflexivity]. }
    assert (Hld : len (firstn (Z.to_nat pl) (payload_buf c1)) = pl)
      by (rewrite len_firstn; lia).
    destruct (@stream_write_span (BOOT_APP_START_ADDR cfg) (app_region_end cfg)
                Hlo Hhi (firstn (Z.to_nat pl) (payload_buf c1)) c1 w1
                Hcar Hal ltac:(lia) ltac:(rewrite Hld; exact Hfit))
      as (s & c3 & w3 & evs & E & Ht3 & Hsp3 & Hf3 & Hal3 & Hcur3 & Hc3 & Hroom3 & _).
    destruct (writer_frame_fields Hf3) as (Erx3 & _).
    pose proof (core_inv_writer Hinv Hf3 Hc3 Hcur3 Hal3) as Hinv3.
    pose proof (span_events_allowed Hsp3) as Hev3.
    unfold bind at 1. rewrite E.
    assert (Hret : forall s : boot_port_status_t,
              core_frame_outcome cfg w1 c1 (Returns s c3 w3)).
    { intros s'. split; [|exact Erx3].
      eapply core_safe_after; [exact Ht3 | exact Hev3 | apply core_safe_returns, Hinv3]. }
    destruct s; cbn [status_ok negb]; unfold ret at 1; try apply Hret.
    destruct (r =? 0).
    - destruct (@stream_flush_span (BOOT_APP_START_ADDR cfg) (app_region_end cfg)
                  Hlo Hhi c3 w3 Hc3 Hal3 Hcur3 Hroom3)
        as (s4 & c4 & w4 & evs4 & E4 & Ht4 & Hsp4 & Hf4 & Hal4 & Hcur4 & Hemp4 & Hsame4).
      destruct (writer_frame_fields Hf4) as (Erx4 & _).
      pose proof (span_events_allowed Hsp4) as Hev4.
      unfold bind at 1. rewrite E4.
      assert (Hret4 : s4 <> BOOT_PORT_OK -> forall s : boot_port_status_t,
                core_frame_outcome cfg w1 c1 (Returns s c4 w4)).
      { intros Hs' s'. rewrite (Hsame4 Hs') in *.
        split; [|exact Erx3].
        eapply core_safe_after; [exact Ht3 | exact Hev3 |].
        eapply core_safe_after; [exact Ht4 | exact Hev4 |].
        apply core_safe_returns, Hinv3. }
      destruct s4; cbn [status_ok];
        [|apply Hret4; discriminate|apply Hret4; discriminate].
      unfold bind at 1. unfold modify at 1. unfold bind at 1. unfold get at 1.
      set (c5 := set_download_active false c4).
      assert (Hinv5 : core_inv cfg c5).
      { unfold core_inv, rx_cache_len, stream_cache_len, c5.
        cbn [rx_cache payload_buf stream_cache current_addr set_download_active].
        rewrite (Hemp4 eq_refl), len_nil.
        destruct (core_inv_writer Hinv3 Hf4 ltac:(unfold stream_cache_len;
                    rewrite (Hemp4 eq_refl), len_nil; lia) Hcur4 Hal4)
          as (Hrx4 & Hbuf4 & _).
        unfold rx_cache_len in Hrx4. repeat split; try assumption; lia. }
      assert (Erx5 : rx_cache c5 = rx_cache c1)
        by (unfold c5; cbn [rx_cache set_download_active]; congruence).
      destruct (@write_flag_region_any cfg Hfl BOOT_FLAG_APP (app_version c5)
                  (update_date c5) c5 w4)
        as (s5 & w5 & evs5 & E5 & Ht5 & Hcase5).
      assert (Hev5 : Forall (engine_event cfg) evs5).
      { apply (@flag_events_allowed cfg BOOT_FLAG_APP (app_version c5) (update_date c5)).
        destruct Hcase5 as [(_ & H) | (_ & H)]; [left; exact H | right; exact H]. }
      unfold bind at 1. rewrite E5.
      assert (Hafter : forall A (o : outcome bootloader_context_t A),
                core_safe_outcome cfg w5 o -> core_safe_outcome cfg w1 o).
      { intros A o Ho.
        eapply core_safe_after; [exact Ht3 | exact Hev3 |].
        eapply core_safe_after; [exact Ht4 | exact Hev4 |].
        eapply core_safe_after; [exact Ht5 | exact Hev5 | exact Ho]. }
      destruct Hcase5 as [(-> & _) | (-> & _)]; cbn [status_ok].
      + unfold bind, port_, boot_port_system_reset, boot_port_uart_write.
        split; [|exact Erx5]. apply Hafter.
        exists [EvUartWrite g_boot_ack; EvReset].
        cbn [world_of ctx_of emit trace]. rewrite <- app_assoc.
        split; [reflexivity|]. split; [repeat constructor | exact Hinv5].
      + unfold ret. split; [|exact Erx5]. apply Hafter, core_safe_returns, Hinv5.
    - unfold bind, ret, port_, boot_port_uart_write.
      split; [|exact Erx3].
      eapply core_safe_after; [exact Ht3 | exact Hev3 |].
      exists [EvUartWrite g_boot_ack]. cbn [world_of ctx_of emit trace].
      split; [reflexivity|]. split; [repeat constructor | exact Hinv3]. }
  destruct Hcase as [(Eda & -> & -> & ->) | [(Eda & -> & -> & ->) | (Eda & -> & -> & ->)]];
    cbn [status_ok negb].
  - destruct (Hgo c Hinv) as (Hs & Hr).
    split; [|exact Hr].
    eapply core_safe_after; [exact Ht1 | constructor | exact Hs].
  - set (c1 := set_download_active true
                 (set_stream_cache []
                    (set_current_addr (BOOT_APP_START_ADDR cfg) c))).
    assert (Hinv1 : core_inv cfg c1).
    { unfold core_inv, rx_cache_len, stream_cache_len, app_region_end, c1 in *.
      cbn [rx_cache payload_buf stream_cache current_addr set_download_active
           set_stream_cache set_current_addr].
      rewrite len_nil. repeat split; try assumption; lia. }
    destruct (Hgo c1 Hinv1) as (Hs & Hr).
    split; [|exact Hr].
    eapply core_safe_after; [exact Ht1 | | exact Hs].
    repeat constructor.
  - unfold ret. split; [|reflexivity].
    eapply core_safe_after; [exact Ht1 | | apply core_safe_returns, Hinv].
    repeat constructor.
Qed.

(** The frame loop of the run, with fuel for every byte of the cache. *)
Lemma core_run_loop_safe (fuel : nat) :
  forall (c : bootloader_context_t) (w : world),
    core_inv cfg c -> (length (rx_cache c) <= fuel)%nat ->
    exists o, Core.run_loop cfg fuel c w = Some o /\ core_safe_outcome cfg w o.
Proof.
  induction fuel as [|fuel IH]; intros c w Hinv Hfuel;
    pose proof Hinv as (Hrx & Hbuf & Hcar & Hcur & Hal);
    (destruct (bootloader_try_extract_frame cfg c) as [res c1] eqn:E;
     pose proof (@try_extract_ctx cfg layout c c1 res Hbuf E)
       as (Hrx1 & Hbuf1 & Esc & Ecu & Eda & Ein & Hres);
     assert (Hinv1 : core_inv cfg c1)
       by (unfold core_inv, stream_cache_len; rewrite Esc, Ecu;
           repeat split; try assumption; lia)).
  - cbn [Core.run_loop]. rewrite E. destruct res as [[r pl]|].
    + destruct Hres as (_ & Hlen). pose proof (len_nonneg (rx_cache c1)).
      unfold rx_cache_len, len in *. lia.
    + eexists. split; [reflexivity|]. apply core_safe_returns, Hinv1.
  - cbn [Core.run_loop]. rewrite E. destruct res as [[r pl]|].
    + destruct Hres as (Hpl & Hlen).
      destruct (@core_handle_payload_safe r pl c1 w Hpl Hinv1) as (Hs & Hr).
      destruct (Core.bootloader_handle_payload cfg r pl c1 w) as [s c2 w2|c2 w2].
      * destruct Hs as (evs & Ht & Hev & Hinv2). cbn [world_of ctx_of] in *.
        destruct (status_ok s); cbn [negb].
        -- destruct (IH c2 w2 Hinv2) as (o & Eo & Hsafe).
           { rewrite Hr. unfold rx_cache_len, len in *. lia. }
           exists o. split; [exact Eo|].
           eapply core_safe_after; [exact Ht | exact Hev | exact Hsafe].
        -- eexists. split; [reflexivity|].
           eapply core_safe_after; [exact Ht | exact Hev |].
           apply core_safe_returns, Hinv2.
      * eexists. split; [reflexivity|].
        destruct Hs as (evs & Ht & Hev & Hinv2). exists evs. auto.
    + eexists. split; [reflexivity|]. apply core_safe_returns, Hinv1.
Qed.

(** One run of the core. *)
Lemma core_run_safe (c : bootloader_context_t) (w : world) :
  core_inv cfg c -> core_safe_outcome cfg w (Core.easy_bootloader_run cfg c w).
Proof.
  intros Hinv. pose proof Hinv as (Hrx & Hbuf & Hcar & Hcur & Hal).
  unfold Core.easy_bootloader_run.
  destruct (initialized c); cbn [negb]; [|apply core_safe_returns; exact Hinv].
  destruct (@poll_uart_any cfg layout c w Hrx) as (received & w1 & -> & Ht1 & Hfit).
  set (c1 := set_rx_cache (rx_cache c ++ received) c).
  assert (Hinv1 : core_inv cfg c1).
  { unfold core_inv, rx_cache_len, stream_cache_len, c1 in *.
    cbn [rx_cache payload_buf stream_cache current_addr set_rx_cache].
    rewrite len_app.
    repeat split; try assumption; lia. }
  apply (@core_safe_after _ w w1 []);
    [rewrite app_nil_r; exact Ht1 | constructor |].
  destruct (@core_run_loop_safe (length (rx_cache c1)) c1 w1 Hinv1 (le_n _))
    as (o & -> & Ho). exact Ho.
Qed.

Lemma core_session_safe (chunks : list (list byte)) :
  forall (c : bootloader_context_t) (w : world),
    core_inv cfg c -> core_safe_outcome cfg w (core_session cfg chunks c w).
Proof.
  induction chunks as [|chunk rest IH]; intros c w Hinv.
  - apply core_safe_returns, Hinv.
  - cbn [core_session].
    destruct (@core_run_safe c (uart_arrive chunk w) Hinv) as (evs & Ht & Hev & Hi).
    cbn [uart_arrive trace] in Ht.
    destruct (Core.easy_bootloader_run cfg c (uart_arrive chunk w))
      as [[] c1 w1 | c1 w1]; cbn [world_of ctx_of] in Ht, Hi.
    + eapply core_safe_after; [exact Ht | exact Hev | apply IH; exact Hi].
    + exists evs. auto.
Qed.

End CoreSafety.

(** X26.  What the portable core can do to the hardware, and what it keeps.
    Over any number of calls of [easy_bootloader_run], whatever arrives on
    the serial line between them and whatever the flash answers, every flash
    operation is an erase of the whole application region or of the whole
    flag region, or the programming of a word inside the application region
    or of one of the three flag words; every transmission through
    [boot_port_uart_write] is the Ack frame; and the only other event is the
    system reset: the core never jumps to the application while it runs.
    The [BOOT_LOG] lines are not embedded: the statement is about the flash,
    the protocol UART, the jump and the reset, not about the log.  The
    context stays within its arrays throughout: the receive cache within
    BOOT_PACKET_MAX_SIZE bytes, the payload buffer at its size, the carry
    within its 4 bytes, the cursor a word boundary inside the application
    region.  The core keeps its context after a flash error, so the carry
    can stay full (4 bytes) between runs. *)
Theorem core_engine_touches_only_its_regions
        (cfg : boot_config) (chunks : list (list byte))
        (c : bootloader_context_t) (w : world) :
  layout_ok cfg -> core_inv cfg c ->
  let o := core_session cfg chunks c w in
  (exists evs,
     trace (world_of o) = trace w ++ evs /\ Forall (engine_event cfg) evs)
  /\ core_inv cfg (ctx_of o).
Proof.
  intros Hl Hinv o.
  destruct (@core_session_safe cfg Hl chunks c w Hinv) as (evs & Ht & Hev & Hi).
  split; [exists evs; auto | exact Hi].
Qed.

Lemma core_engine_touches_only_its_regions_witness :
  let cfg := ch32v307_config in
  let c := {| rx_cache := [];
              payload_buf := repeat x00 (Z.to_nat (BOOT_PAYLOAD_MAX_SIZE cfg));
              current_addr := BOOT_APP_START_ADDR cfg; stream_cache := [];
              boot_flag := 1; app_version := 5; update_date := 0x20250101;
              state := BOOT_STATE_IDLE; download_active := false;
              initialized := true |} in
  let w := {| flash := fun _ => xff; oracle := [true; true; false];
              uart_rx := []; trace := [] |} in
  let chunks := [ [x00; x55];
                  encode_data_frame 9 [xaa; xbb; xcc; xdd; xee; x11; x22];
                  encode_data_frame 0 [x33] ] in
  let o := core_session cfg chunks c w in
  layout_ok cfg /\ core_inv cfg c
  /\ trace (world_of o)
     = [ EvErase 0x6000 0x39800; EvProgramWord 0x6000 [xaa; xbb; xcc; xdd];
         EvUartWrite g_boot_ack; EvProgramFailed 0x6004 ]
  /\ stream_cache (ctx_of o) = [xee; x11; x22; x33]
  /\ (exists evs,
        trace (world_of o) = trace w ++ evs /\ Forall (engine_event cfg) evs)
  /\ core_inv cfg (ctx_of o).
Proof.
  intros cfg c w chunks o.
  assert (H1 : layout_ok cfg) by (unfold layout_ok; cbn; repeat split; lia).
  assert (H2 : core_inv cfg c)
    by (repeat split; vm_compute; try reflexivity; discriminate).
  split; [exact H1|]. split; [exact H2|].
  split; [vm_compute; reflexivity|]. split; [vm_compute; reflexivity|].
  exact (@core_engine_touches_only_its_regions cfg chunks c w H1 H2).
Defined.
